(** * Helix virtual-memory emulator (coms3/franken.py): model and properties

    A shallow embedding of the tiered cache ([HelixCache]), the budgeted
    allocator ([HelixMemoryManager]), the file cache ([HelixFS]) and the
    handle translator ([HelixTranslator]) of [src/coms3/franken.py].

    Conventions of the embedding:
    - Python [int] is [Z]; [bytes]/[bytearray] is [list Byte.byte];
      [str] is [string].
    - [OrderedDict] is an association list in insertion order (oldest
      entry first); a plain [dict] is a [gmap].
    - A method that mutates [self] takes the object and returns the new
      object next to its result.
    - [time.time()] stamps ([last_access], [created_at]) are written by the
      source but never read by it; they are left out.
    - [pickle], [zlib], the truth value and [bytes()] conversion of foreign
      objects and the durable storage are the interface [PyRuntime]. *)

From Stdlib Require Import ZArith List Bool Ascii String Lia.
From Stdlib Require Import HexString DecimalString.
From stdpp Require Import base option list gmap strings sorting.

Local Open Scope Z_scope.

Abbreviation bytes := (list Byte.byte).

(** Python's [len]. *)
Definition len {A} (l : list A) : Z := Z.of_nat (length l).

(* ================================================================== *)
(** ** Python values that travel through the cache *)

(** The cache stores [Any].  [PyObj o] stands for any object that is neither
    [None] nor a [bytes] (a str, a dict, a lambda, ...), named by [o]. *)
Inductive pyval :=
| PyNone
| PyBytes (b : bytes)
| PyObj (o : nat).

Definition is_None (v : pyval) : bool :=
  match v with PyNone => true | _ => false end.

(** What the source takes from the Python runtime and from the operating
    system.  [None] results stand for a raised exception. *)
Class PyRuntime := {
  pickle_dumps : pyval -> option bytes;
  pickle_loads : bytes -> option pyval;
  zlib_compress : bytes -> bytes;
  zlib_decompress : bytes -> option bytes;
  (** [bool(o)] of a foreign object *)
  obj_truthy : nat -> bool;
  (** [bytes(o)] / [bytearray(o)] of a foreign object *)
  obj_bytes : nat -> option bytes;
  (** [o[:size]] of a foreign object *)
  obj_prefix : nat -> Z -> option pyval;
  (** the open/read of [path] fails although the file exists *)
  disk_read_fails : string -> bool;
  (** makedirs/open/write of [path] fails *)
  disk_write_fails : string -> bool
}.

(** Truth value of an [Optional[bytes]]. *)
Definition truthy_bytes (o : option bytes) : bool :=
  match o with
  | Some (_ :: _) => true
  | _ => false
  end.

(** Truth value of a stored value ([if existing], [if data]). *)
Definition truthy `{PyRuntime} (v : pyval) : bool :=
  match v with
  | PyNone => false
  | PyBytes b => truthy_bytes (Some b)
  | PyObj o => obj_truthy o
  end.

(** A [stats] dictionary: fixed string keys, integer counters. *)
Definition stat (k : string) (st : gmap string Z) : Z := default 0 (st !! k).

(** [st[k] += 1] *)
Definition bump (k : string) (st : gmap string Z) : gmap string Z :=
  <[k := stat k st + 1]> st.

Definition zero_stats (ks : list string) : gmap string Z :=
  list_to_map ((fun k => (k, 0)) <$> ks).

(* ================================================================== *)
(** ** PART 1: core types *)

Inductive MemoryTier := L1_HOT | L2_WARM | L3_COMPRESSED | L4_COLD | L5_DISK.

Module CacheBlock.

Record t := mk {
  key : string;
  data : pyval;
  tier : MemoryTier;
  size_bytes : Z;
  access_count : Z;
  compressed : bool;
  _compressed_data : option bytes
}.

(** [CacheBlock(key=..., data=..., tier=..., size_bytes=...)] *)
Definition new (k : string) (d : pyval) (ti : MemoryTier) (size : Z) : t :=
  mk k d ti size 0 false None.

Definition set_tier (ti : MemoryTier) (b : t) : t :=
  mk (key b) (data b) ti (size_bytes b) (access_count b) (compressed b)
     (_compressed_data b).

Definition access (b : t) : t :=
  mk (key b) (data b) (tier b) (size_bytes b) (access_count b + 1)
     (compressed b) (_compressed_data b).

(** Returns the bytes saved and the block after the call. *)
Definition compress `{PyRuntime} (b : t) : Z * t :=
  if negb (compressed b) && negb (is_None (data b)) then
    match pickle_dumps (data b) with
    | Some serialized =>
        let cd := zlib_compress serialized in
        let saved := size_bytes b - len cd in
        (Z.max 0 saved,
         mk (key b) (data b) (tier b) (size_bytes b) (access_count b)
            true (Some cd))
    | None => (0, b)
    end
  else (0, b).

Definition decompress `{PyRuntime} (b : t) : t :=
  if compressed b && truthy_bytes (_compressed_data b) then
    match _compressed_data b with
    | Some cd =>
        match zlib_decompress cd with
        | Some serialized =>
            match pickle_loads serialized with
            | Some d =>
                mk (key b) d (tier b) (size_bytes b) (access_count b)
                   false None
            | None => b
            end
        | None => b
        end
    | None => b
    end
  else b.

(** The summand of [_get_tier_size] for one block. *)
Definition effective_size (b : t) : Z :=
  if compressed b && truthy_bytes (_compressed_data b)
  then match _compressed_data b with Some cd => len cd | None => 0 end
  else size_bytes b.

End CacheBlock.

(* ================================================================== *)
(** ** [collections.OrderedDict] with string keys *)

Module OrderedDict.
Section ops.
Context {V : Type}.

Definition t := list (string * V).

Definition keys (d : list (string * V)) : list string := fst <$> d.

(** [k in d] *)
Definition contains (k : string) (d : list (string * V)) : bool :=
  existsb (fun kv => String.eqb (fst kv) k) d.

(** [d[k]] *)
Fixpoint get (k : string) (d : list (string * V)) : option V :=
  match d with
  | [] => None
  | (k', v) :: d' => if String.eqb k' k then Some v else get k d'
  end.

(** [d.pop(k, None)], [del d[k]] *)
Definition pop (k : string) (d : list (string * V)) : list (string * V) :=
  List.filter (fun kv => negb (String.eqb (fst kv) k)) d.

(** [d[k] = v]: a present key keeps its position, a new key goes last. *)
Fixpoint set (k : string) (v : V) (d : list (string * V))
  : list (string * V) :=
  match d with
  | [] => [(k, v)]
  | (k', v') :: d' =>
      if String.eqb k' k then (k, v) :: d' else (k', v') :: set k v d'
  end.

(** [d.move_to_end(k)] for a present key. *)
Definition move_to_end (k : string) (d : list (string * V))
  : list (string * V) :=
  match get k d with
  | Some v => pop k d ++ [(k, v)]
  | None => d
  end.

End ops.
End OrderedDict.

(* ================================================================== *)
(** ** PART 3: HelixCache *)

Module HelixCache.

Record t := mk {
  l1_max : Z;
  l2_max : Z;
  l3_max : Z;
  l1_cache : list (string * CacheBlock.t);
  l2_cache : list (string * CacheBlock.t);
  l3_cache : list (string * CacheBlock.t);
  stats : gmap string Z
}.

Definition stat_keys : list string :=
  ["l1_hits"; "l1_misses"; "l2_hits"; "l2_misses"; "l3_hits"; "l3_misses";
   "promotions"; "demotions"; "evictions"; "compressions"]%string.

(** A cache with the given capacities in bytes and nothing stored. *)
Definition empty (m1 m2 m3 : Z) : t :=
  mk m1 m2 m3 [] [] [] (zero_stats stat_keys).

(** [HelixCache(l1_mb, l2_mb, l3_mb)] *)
Definition init (l1_mb l2_mb l3_mb : Z) : t :=
  empty (l1_mb * 1024 * 1024) (l2_mb * 1024 * 1024) (l3_mb * 1024 * 1024).

Definition set_l1 (d : list (string * CacheBlock.t)) (c : t) : t :=
  mk (l1_max c) (l2_max c) (l3_max c) d (l2_cache c) (l3_cache c) (stats c).
Definition set_l2 (d : list (string * CacheBlock.t)) (c : t) : t :=
  mk (l1_max c) (l2_max c) (l3_max c) (l1_cache c) d (l3_cache c) (stats c).
Definition set_l3 (d : list (string * CacheBlock.t)) (c : t) : t :=
  mk (l1_max c) (l2_max c) (l3_max c) (l1_cache c) (l2_cache c) d (stats c).
Definition count (k : string) (c : t) : t :=
  mk (l1_max c) (l2_max c) (l3_max c) (l1_cache c) (l2_cache c) (l3_cache c)
     (bump k (stats c)).

Fixpoint _get_tier_size (tier_dict : list (string * CacheBlock.t)) : Z :=
  match tier_dict with
  | [] => 0
  | (_, block) :: rest =>
      CacheBlock.effective_size block + _get_tier_size rest
  end.

(** The [while] loops run on fuel; each round removes the first entry of
    the tier, so the number of entries is enough fuel
    (see [_make_room_l1_exit] and its siblings). *)
Fixpoint _make_room_l3_loop (fuel : nat) (needed : Z) (c : t) : t :=
  match fuel with
  | O => c
  | S fuel' =>
      match l3_cache c with
      | [] => c
      | (key, _) :: _ =>
          if _get_tier_size (l3_cache c) + needed >? l3_max c then
            let c := set_l3 (OrderedDict.pop key (l3_cache c)) c in
            let c := count "evictions" c in
            _make_room_l3_loop fuel' needed c
          else c
      end
  end.

Definition _make_room_l3 (needed : Z) (c : t) : t :=
  _make_room_l3_loop (length (l3_cache c)) needed c.

Definition _demote_to_l3 `{PyRuntime}
    (key : string) (block : CacheBlock.t) (c : t) : t :=
  let c := set_l2 (OrderedDict.pop key (l2_cache c)) c in
  let '(saved, block) := CacheBlock.compress block in
  let c := if saved >? 0 then count "compressions" c else c in
  let size :=
    match CacheBlock._compressed_data block with
    | Some (x :: cd) => len (x :: cd)
    | _ => CacheBlock.size_bytes block
    end in
  let c := _make_room_l3 size c in
  let block := CacheBlock.set_tier L3_COMPRESSED block in
  let c := set_l3 (OrderedDict.set key block (l3_cache c)) c in
  count "demotions" c.

Fixpoint _make_room_l2_loop `{PyRuntime}
    (fuel : nat) (needed : Z) (c : t) : t :=
  match fuel with
  | O => c
  | S fuel' =>
      match l2_cache c with
      | [] => c
      | (key, block) :: _ =>
          if _get_tier_size (l2_cache c) + needed >? l2_max c then
            _make_room_l2_loop fuel' needed (_demote_to_l3 key block c)
          else c
      end
  end.

Definition _make_room_l2 `{PyRuntime} (needed : Z) (c : t) : t :=
  _make_room_l2_loop (length (l2_cache c)) needed c.

Definition _demote_to_l2 `{PyRuntime}
    (key : string) (block : CacheBlock.t) (c : t) : t :=
  let c := set_l1 (OrderedDict.pop key (l1_cache c)) c in
  let c := _make_room_l2 (CacheBlock.size_bytes block) c in
  let block := CacheBlock.set_tier L2_WARM block in
  let c := set_l2 (OrderedDict.set key block (l2_cache c)) c in
  count "demotions" c.

Fixpoint _make_room_l1_loop `{PyRuntime}
    (fuel : nat) (needed : Z) (c : t) : t :=
  match fuel with
  | O => c
  | S fuel' =>
      match l1_cache c with
      | [] => c
      | (key, block) :: _ =>
          if _get_tier_size (l1_cache c) + needed >? l1_max c then
            _make_room_l1_loop fuel' needed (_demote_to_l2 key block c)
          else c
      end
  end.

Definition _make_room_l1 `{PyRuntime} (needed : Z) (c : t) : t :=
  _make_room_l1_loop (length (l1_cache c)) needed c.

Definition _promote_to_l1 `{PyRuntime}
    (key : string) (block : CacheBlock.t) (c : t) : t :=
  let c := set_l2 (OrderedDict.pop key (l2_cache c)) c in
  let c := _make_room_l1 (CacheBlock.size_bytes block) c in
  let block := CacheBlock.set_tier L1_HOT block in
  let c := set_l1 (OrderedDict.set key block (l1_cache c)) c in
  count "promotions" c.

Definition _promote_to_l2 `{PyRuntime}
    (key : string) (block : CacheBlock.t) (c : t) : t :=
  let c := set_l3 (OrderedDict.pop key (l3_cache c)) c in
  let c := _make_room_l2 (CacheBlock.size_bytes block) c in
  let block := CacheBlock.set_tier L2_WARM block in
  let c := set_l2 (OrderedDict.set key block (l2_cache c)) c in
  count "promotions" c.

(** [get] returns [PyNone] on a miss, as the source returns [None].
    [block.access()] and [block.decompress()] change the block that the
    dictionary holds: the model stores the changed block under its key before
    it goes on. *)
Definition get `{PyRuntime} (key : string) (c : t) : pyval * t :=
  match OrderedDict.get key (l1_cache c) with
  | Some block =>
      let c := count "l1_hits" c in
      let block := CacheBlock.access block in
      let c := set_l1 (OrderedDict.set key block (l1_cache c)) c in
      let c := set_l1 (OrderedDict.move_to_end key (l1_cache c)) c in
      (CacheBlock.data block, c)
  | None =>
      let c := count "l1_misses" c in
      match OrderedDict.get key (l2_cache c) with
      | Some block =>
          let c := count "l2_hits" c in
          let block := CacheBlock.access block in
          let c := set_l2 (OrderedDict.set key block (l2_cache c)) c in
          if CacheBlock.access_count block >? 3 then
            (CacheBlock.data block, _promote_to_l1 key block c)
          else
            (CacheBlock.data block,
             set_l2 (OrderedDict.move_to_end key (l2_cache c)) c)
      | None =>
          let c := count "l2_misses" c in
          match OrderedDict.get key (l3_cache c) with
          | Some block =>
              let c := count "l3_hits" c in
              let block := CacheBlock.access block in
              let block :=
                if CacheBlock.compressed block
                then CacheBlock.decompress block else block in
              let c := set_l3 (OrderedDict.set key block (l3_cache c)) c in
              if CacheBlock.access_count block >? 2 then
                (CacheBlock.data block, _promote_to_l2 key block c)
              else
                (CacheBlock.data block,
                 set_l3 (OrderedDict.move_to_end key (l3_cache c)) c)
          | None => (PyNone, count "l3_misses" c)
          end
      end
  end.

Definition put `{PyRuntime}
    (key : string) (data : pyval) (size : Z) (c : t) : t :=
  let c := set_l2 (OrderedDict.pop key (l2_cache c)) c in
  let c := set_l3 (OrderedDict.pop key (l3_cache c)) c in
  let block := CacheBlock.new key data L1_HOT size in
  let c := _make_room_l1 size c in
  set_l1 (OrderedDict.set key block (l1_cache c)) c.

(** [key] is held by some tier. *)
Definition resident (key : string) (c : t) : bool :=
  OrderedDict.contains key (l1_cache c)
  || OrderedDict.contains key (l2_cache c)
  || OrderedDict.contains key (l3_cache c).

End HelixCache.

(* ================================================================== *)
(** ** PART 4: HelixMemoryManager *)

Module HelixMemoryManager.

Record t := mk {
  cache : HelixCache.t;
  max_virtual : Z;
  allocations : gmap string Z;
  total_allocated : Z;
  stats : gmap string Z
}.

Definition stat_keys : list string :=
  ["total_allocations"; "total_deallocations"; "virtual_memory_used"]%string.

(** [HelixMemoryManager(cache, max_virtual_mb)] *)
Definition init (cache : HelixCache.t) (max_virtual_mb : Z) : t :=
  mk cache (max_virtual_mb * 1024 * 1024) ∅ 0 (zero_stats stat_keys).

Definition set_cache (c : HelixCache.t) (m : t) : t :=
  mk c (max_virtual m) (allocations m) (total_allocated m) (stats m).

(** [len(pickle.dumps(data))], or 1024 when pickling raises. *)
Definition computed_size `{PyRuntime} (data : pyval) : Z :=
  match pickle_dumps data with
  | Some serialized => len serialized
  | None => 1024
  end.

Definition malloc `{PyRuntime} (key : string) (data : pyval) (m : t)
  : bool * t :=
  let size := computed_size data in
  if total_allocated m + size >? max_virtual m then (false, m)
  else
    let c := HelixCache.put key data size (cache m) in
    let allocs := <[key := size]> (allocations m) in
    let total := total_allocated m + size in
    let st := bump "total_allocations" (stats m) in
    let st := <["virtual_memory_used"%string := total]> st in
    (true, mk c (max_virtual m) allocs total st).

Definition free (key : string) (m : t) : bool * t :=
  match allocations m !! key with
  | None => (false, m)
  | Some size =>
      let total := total_allocated m - size in
      let allocs := delete key (allocations m) in
      let c := cache m in
      let c := HelixCache.set_l1
                 (OrderedDict.pop key (HelixCache.l1_cache c)) c in
      let c := HelixCache.set_l2
                 (OrderedDict.pop key (HelixCache.l2_cache c)) c in
      let c := HelixCache.set_l3
                 (OrderedDict.pop key (HelixCache.l3_cache c)) c in
      let st := bump "total_deallocations" (stats m) in
      let st := <["virtual_memory_used"%string := total]> st in
      (true, mk c (max_virtual m) allocs total st)
  end.

Definition read `{PyRuntime} (key : string) (m : t) : pyval * t :=
  let '(v, c) := HelixCache.get key (cache m) in
  (v, set_cache c m).

Definition write `{PyRuntime} (key : string) (data : pyval) (m : t)
  : bool * t :=
  let m := match allocations m !! key with
           | Some _ => snd (free key m)
           | None => m
           end in
  malloc key data m.

End HelixMemoryManager.

(* ================================================================== *)
(** ** PART 7 and PART 5: HelixSystem and HelixFS

    [HelixSystem] owns one cache, one memory manager and one file cache;
    [system.cache], [memory.cache] and [fs.memory] alias those objects, so
    the model keeps each once.  The durable storage the file cache reads and
    writes is the [disk] component. *)

Module HelixSystem.

Record t := mk {
  memory : HelixMemoryManager.t;
  file_cache : gmap string string;
  fs_stats : gmap string Z;
  disk : gmap string bytes
}.

Definition fs_stat_keys : list string :=
  ["file_reads"; "file_writes"; "cache_hits"; "cache_misses";
   "disk_reads"; "disk_writes"]%string.

(** [HelixSystem(l1_mb, l2_mb, l3_mb, vram_mb)] over the storage [d]. *)
Definition init (l1_mb l2_mb l3_mb vram_mb : Z) (d : gmap string bytes) : t :=
  mk (HelixMemoryManager.init (HelixCache.init l1_mb l2_mb l3_mb) vram_mb)
     ∅ (zero_stats fs_stat_keys) d.

Definition set_memory (m : HelixMemoryManager.t) (s : t) : t :=
  mk m (file_cache s) (fs_stats s) (disk s).
Definition count (k : string) (s : t) : t :=
  mk (memory s) (file_cache s) (bump k (fs_stats s)) (disk s).
Definition set_file_cache (fc : gmap string string) (s : t) : t :=
  mk (memory s) fc (fs_stats s) (disk s).
Definition set_disk (d : gmap string bytes) (s : t) : t :=
  mk (memory s) (file_cache s) (fs_stats s) d.

End HelixSystem.

Module HelixFS.
Import HelixSystem.

Definition cache_key_of (filepath : string) : string :=
  ("file:" ++ filepath)%string.

Definition read_file `{PyRuntime} (filepath : string) (s : HelixSystem.t)
  : pyval * HelixSystem.t :=
  let s := count "file_reads" s in
  let cache_key := cache_key_of filepath in
  let '(cached, m) := HelixMemoryManager.read cache_key (memory s) in
  let s := set_memory m s in
  if negb (is_None cached) then (cached, count "cache_hits" s)
  else
    let s := count "cache_misses" s in
    match disk s !! filepath with
    | None => (PyNone, s)
    | Some data =>
        if disk_read_fails filepath then (PyNone, s)
        else
          let s := count "disk_reads" s in
          let '(_, m) :=
            HelixMemoryManager.malloc cache_key (PyBytes data) (memory s) in
          let s := set_memory m s in
          let s := set_file_cache (<[filepath := cache_key]> (file_cache s)) s in
          (PyBytes data, s)
    end.

Definition write_file `{PyRuntime}
    (filepath : string) (data : bytes) (write_through : bool)
    (s : HelixSystem.t) : HelixSystem.t :=
  let s := count "file_writes" s in
  let cache_key := cache_key_of filepath in
  let '(_, m) :=
    HelixMemoryManager.write cache_key (PyBytes data) (memory s) in
  let s := set_memory m s in
  let s := set_file_cache (<[filepath := cache_key]> (file_cache s)) s in
  if write_through then
    if disk_write_fails filepath then s
    else count "disk_writes" (set_disk (<[filepath := data]> (disk s)) s)
  else s.

End HelixFS.

(* ================================================================== *)
(** ** Python slices and string formatting used by the translator *)

Module Py.

(** Clamping of one slice bound against a sequence of length [n]. *)
Definition slice_index (n i : Z) : Z :=
  if i <? 0 then Z.max 0 (i + n) else Z.min i n.

(** [l[start:stop]] *)
Definition getslice {A} (l : list A) (start stop : Z) : list A :=
  let lo := slice_index (len l) start in
  let hi := slice_index (len l) stop in
  firstn (Z.to_nat (hi - lo)) (skipn (Z.to_nat lo) l).

(** [l[start:stop] = v] on a [bytearray] *)
Definition setslice {A} (l : list A) (start stop : Z) (v : list A) : list A :=
  let lo := slice_index (len l) start in
  let hi := Z.max lo (slice_index (len l) stop) in
  firstn (Z.to_nat lo) l ++ v ++ skipn (Z.to_nat hi) l.

(** [bytearray(n)] for [0 <= n] *)
Definition zeros (n : Z) : bytes := repeat Byte.x00 (Z.to_nat n).

(** [sys.maxsize], the largest index (of a 64-bit build). *)
Definition maxsize : Z := 2 ^ 63 - 1.

(** [n] fits an index: [bytearray(n)] raises [OverflowError] for any other
    integer, whatever its sign. *)
Definition fits_index (n : Z) : bool :=
  (- maxsize - 1 <=? n) && (n <=? maxsize).

(** [sys.get_int_max_str_digits()], 4300 unless it was changed. *)
Definition int_max_str_digits : Z := 4300.

(** [n] has a decimal form: [str(n)] and [f"{n}"] raise [ValueError] for an
    integer of more digits than [int_max_str_digits], whatever its sign.
    (The hexadecimal form has no such limit.) *)
Definition str_fits (n : Z) : bool :=
  Z.abs n <? 10 ^ int_max_str_digits.

Fixpoint zfill_pad (n : nat) (s : string) : string :=
  match n with
  | O => s
  | S n' => String "0" (zfill_pad n' s)
  end.

(** Left padding with zeros up to [width] characters. *)
Definition zfill (width : nat) (s : string) : string :=
  zfill_pad (width - String.length s) s.

(** [format(z, '016x')] *)
Definition hex16 (z : Z) : string :=
  match z with
  | Z0 => zfill 16 "0"
  | Zpos p => zfill 16 (HexString.Raw.of_pos p "")
  | Zneg p => String "-" (zfill 15 (HexString.Raw.of_pos p ""))
  end.

(** [str(z)] *)
Definition str (z : Z) : string := NilZero.string_of_int (Z.to_int z).

End Py.

(* ================================================================== *)
(** ** PART 6: translator layer *)

Inductive exn := KeyError | ValueError | TypeError | OverflowError.

(** How a call ends: it returns a value or an exception reaches the caller.
    The object keeps whatever was written before the exception. *)
Inductive outcome (A : Type) :=
| Returned (a : A)
| Raised (e : exn).
Arguments Returned {A} a.
Arguments Raised {A} e.

Module TranslationEntry.

Record t := mk {
  app_pointer : Z;
  helix_key : string;
  size : Z;
  access_count : Z
}.

Definition access (e : t) : t :=
  mk (app_pointer e) (helix_key e) (size e) (access_count e + 1).

End TranslationEntry.

Module HelixTranslator.

Record t := mk {
  helix : HelixSystem.t;
  ptr_to_key : gmap Z TranslationEntry.t;
  key_to_ptr : gmap string Z;
  next_fake_pointer : Z;
  fd_to_path : gmap Z string;
  path_to_fd : gmap string Z;
  next_fake_fd : Z;
  stats : gmap string Z
}.

Definition stat_keys : list string :=
  ["ingress_calls"; "egress_calls"; "malloc_intercepts"; "free_intercepts";
   "read_intercepts"; "write_intercepts"]%string.

(** [HelixTranslator(helix_system)] *)
Definition init (helix_system : HelixSystem.t) : t :=
  mk helix_system ∅ ∅ 0x10000000 ∅ ∅ 1000 (zero_stats stat_keys).

Definition set_helix (h : HelixSystem.t) (tr : t) : t :=
  mk h (ptr_to_key tr) (key_to_ptr tr) (next_fake_pointer tr)
     (fd_to_path tr) (path_to_fd tr) (next_fake_fd tr) (stats tr).
Definition set_memory (m : HelixMemoryManager.t) (tr : t) : t :=
  set_helix (HelixSystem.set_memory m (helix tr)) tr.
Definition set_ptr_to_key (p : gmap Z TranslationEntry.t) (tr : t) : t :=
  mk (helix tr) p (key_to_ptr tr) (next_fake_pointer tr)
     (fd_to_path tr) (path_to_fd tr) (next_fake_fd tr) (stats tr).
Definition set_key_to_ptr (k : gmap string Z) (tr : t) : t :=
  mk (helix tr) (ptr_to_key tr) k (next_fake_pointer tr)
     (fd_to_path tr) (path_to_fd tr) (next_fake_fd tr) (stats tr).
Definition set_next_fake_pointer (n : Z) (tr : t) : t :=
  mk (helix tr) (ptr_to_key tr) (key_to_ptr tr) n
     (fd_to_path tr) (path_to_fd tr) (next_fake_fd tr) (stats tr).
Definition set_fd_to_path (f : gmap Z string) (tr : t) : t :=
  mk (helix tr) (ptr_to_key tr) (key_to_ptr tr) (next_fake_pointer tr)
     f (path_to_fd tr) (next_fake_fd tr) (stats tr).
Definition set_path_to_fd (p : gmap string Z) (tr : t) : t :=
  mk (helix tr) (ptr_to_key tr) (key_to_ptr tr) (next_fake_pointer tr)
     (fd_to_path tr) p (next_fake_fd tr) (stats tr).
Definition set_next_fake_fd (n : Z) (tr : t) : t :=
  mk (helix tr) (ptr_to_key tr) (key_to_ptr tr) (next_fake_pointer tr)
     (fd_to_path tr) (path_to_fd tr) n (stats tr).
Definition count (k : string) (tr : t) : t :=
  mk (helix tr) (ptr_to_key tr) (key_to_ptr tr) (next_fake_pointer tr)
     (fd_to_path tr) (path_to_fd tr) (next_fake_fd tr) (bump k (stats tr)).

(** [f"mem_{next_fake_pointer:016x}_{size}"] *)
Definition mem_key (pointer size : Z) : string :=
  ("mem_" ++ Py.hex16 pointer ++ "_" ++ Py.str size)%string.

Definition memory (tr : t) : HelixMemoryManager.t :=
  HelixSystem.memory (helix tr).

(** The f-string of the key raises [ValueError] for a [size] of more than
    4300 digits; after it [bytearray(size)] raises [OverflowError] for a
    [size] that does not fit an index and [ValueError] for a negative one.
    A failed allocation is answered with the pointer 0. *)
Definition translate_malloc `{PyRuntime} (size : Z) (tr : t)
  : outcome Z * t :=
  let tr := count "ingress_calls" tr in
  let tr := count "malloc_intercepts" tr in
  if negb (Py.str_fits size) then (Raised ValueError, tr)
  else
  let helix_key := mem_key (next_fake_pointer tr) size in
  if negb (Py.fits_index size) then (Raised OverflowError, tr)
  else if size <? 0 then (Raised ValueError, tr)
  else
    let data := Py.zeros size in
    let '(success, m) :=
      HelixMemoryManager.malloc helix_key (PyBytes data) (memory tr) in
    let tr := set_memory m tr in
    if negb success then (Returned 0, tr)
    else
      let fake_ptr := next_fake_pointer tr in
      let tr := set_next_fake_pointer (next_fake_pointer tr + 0x1000) tr in
      let entry := TranslationEntry.mk fake_ptr helix_key size 0 in
      let tr := set_ptr_to_key (<[fake_ptr := entry]> (ptr_to_key tr)) tr in
      let tr := set_key_to_ptr (<[helix_key := fake_ptr]> (key_to_ptr tr)) tr in
      let tr := count "egress_calls" tr in
      (Returned fake_ptr, tr).

(** [del self.key_to_ptr[...]] raises [KeyError] when the key is not there. *)
Definition translate_free (pointer : Z) (tr : t) : outcome bool * t :=
  let tr := count "ingress_calls" tr in
  let tr := count "free_intercepts" tr in
  match ptr_to_key tr !! pointer with
  | None => (Returned false, tr)
  | Some entry =>
      let key := TranslationEntry.helix_key entry in
      let '(_, m) := HelixMemoryManager.free key (memory tr) in
      let tr := set_memory m tr in
      let tr := set_ptr_to_key (delete pointer (ptr_to_key tr)) tr in
      match key_to_ptr tr !! key with
      | None => (Raised KeyError, tr)
      | Some _ =>
          let tr := set_key_to_ptr (delete key (key_to_ptr tr)) tr in
          let tr := count "egress_calls" tr in
          (Returned true, tr)
      end
  end.

(** The result is [PyNone] where the source returns [None]. *)
Definition translate_read `{PyRuntime} (pointer size offset : Z) (tr : t)
  : outcome pyval * t :=
  let tr := count "ingress_calls" tr in
  let tr := count "read_intercepts" tr in
  match ptr_to_key tr !! pointer with
  | None => (Returned PyNone, tr)
  | Some entry =>
      let entry := TranslationEntry.access entry in
      let tr := set_ptr_to_key (<[pointer := entry]> (ptr_to_key tr)) tr in
      let '(data, m) :=
        HelixMemoryManager.read (TranslationEntry.helix_key entry)
                                (memory tr) in
      let tr := set_memory m tr in
      match data with
      | PyNone => (Returned PyNone, tr)
      | PyBytes b =>
          let tr := count "egress_calls" tr in
          (Returned (PyBytes (Py.getslice b offset (offset + size))), tr)
      | PyObj o =>
          let tr := count "egress_calls" tr in
          match obj_bytes o with
          | Some b =>
              (Returned (PyBytes (Py.getslice b offset (offset + size))), tr)
          | None => (Raised TypeError, tr)
          end
      end
  end.

(** The buffer is the cached value when that is truthy (a non-empty
    [bytes]), else [bytearray(entry.size)]; [data] goes into it by slice
    assignment and the whole buffer is written back. *)
Definition translate_write `{PyRuntime}
    (pointer : Z) (data : bytes) (offset : Z) (tr : t)
  : outcome bool * t :=
  let tr := count "ingress_calls" tr in
  let tr := count "write_intercepts" tr in
  match ptr_to_key tr !! pointer with
  | None => (Returned false, tr)
  | Some entry =>
      let entry := TranslationEntry.access entry in
      let tr := set_ptr_to_key (<[pointer := entry]> (ptr_to_key tr)) tr in
      let key := TranslationEntry.helix_key entry in
      let '(existing, m) := HelixMemoryManager.read key (memory tr) in
      let tr := set_memory m tr in
      let buffer : outcome bytes :=
        if truthy existing then
          match existing with
          | PyBytes b => Returned b
          | PyObj o =>
              match obj_bytes o with
              | Some b => Returned b
              | None => Raised TypeError
              end
          | PyNone => Raised TypeError
          end
        else if negb (Py.fits_index (TranslationEntry.size entry))
             then Raised OverflowError
        else if TranslationEntry.size entry <? 0 then Raised ValueError
        else Returned (Py.zeros (TranslationEntry.size entry)) in
      match buffer with
      | Raised e => (Raised e, tr)
      | Returned buffer =>
          let end_ := offset + len data in
          let buffer := Py.setslice buffer offset end_ data in
          let '(success, m) :=
            HelixMemoryManager.write key (PyBytes buffer) (memory tr) in
          let tr := set_memory m tr in
          let tr := count "egress_calls" tr in
          (Returned success, tr)
      end
  end.

Definition translate_open (filepath mode : string) (tr : t)
  : outcome Z * t :=
  let tr := count "ingress_calls" tr in
  let fake_fd := next_fake_fd tr in
  let tr := set_next_fake_fd (next_fake_fd tr + 1) tr in
  let tr := set_fd_to_path (<[fake_fd := filepath]> (fd_to_path tr)) tr in
  let tr := set_path_to_fd (<[filepath := fake_fd]> (path_to_fd tr)) tr in
  let tr := count "egress_calls" tr in
  (Returned fake_fd, tr).

Definition translate_read_file `{PyRuntime} (fd size : Z) (tr : t)
  : outcome pyval * t :=
  let tr := count "ingress_calls" tr in
  match fd_to_path tr !! fd with
  | None => (Returned PyNone, tr)
  | Some filepath =>
      let '(data, h) := HelixFS.read_file filepath (helix tr) in
      let tr := set_helix h tr in
      let tr := count "egress_calls" tr in
      if truthy data then
        match data with
        | PyBytes b => (Returned (PyBytes (Py.getslice b 0 size)), tr)
        | PyObj o =>
            match obj_prefix o size with
            | Some v => (Returned v, tr)
            | None => (Raised TypeError, tr)
            end
        | PyNone => (Returned PyNone, tr)
        end
      else (Returned PyNone, tr)
  end.

Definition translate_write_file `{PyRuntime} (fd : Z) (data : bytes) (tr : t)
  : outcome bool * t :=
  let tr := count "ingress_calls" tr in
  match fd_to_path tr !! fd with
  | None => (Returned false, tr)
  | Some filepath =>
      let h := HelixFS.write_file filepath data true (helix tr) in
      let tr := set_helix h tr in
      let tr := count "egress_calls" tr in
      (Returned true, tr)
  end.

(** [del self.path_to_fd[filepath]] raises [KeyError] when the path is not
    there; [fd_to_path] has lost [fd] by then. *)
Definition translate_close (fd : Z) (tr : t) : outcome bool * t :=
  let tr := count "ingress_calls" tr in
  match fd_to_path tr !! fd with
  | None => (Returned false, tr)
  | Some filepath =>
      let tr := set_fd_to_path (delete fd (fd_to_path tr)) tr in
      match path_to_fd tr !! filepath with
      | None => (Raised KeyError, tr)
      | Some _ =>
          let tr := set_path_to_fd (delete filepath (path_to_fd tr)) tr in
          let tr := count "egress_calls" tr in
          (Returned true, tr)
      end
  end.

End HelixTranslator.


(* ================================================================== *)
(** ** Runs of operations *)

(** Operations on the allocator and on the cache below it. *)
Inductive op :=
| Get (key : string)
| Put (key : string) (data : pyval) (size : Z)
| Malloc (key : string) (data : pyval)
| Free (key : string)
| Read (key : string)
| Write (key : string) (data : pyval).

Definition run_op `{PyRuntime} (o : op) (m : HelixMemoryManager.t)
  : HelixMemoryManager.t :=
  match o with
  | Get key =>
      HelixMemoryManager.set_cache
        (snd (HelixCache.get key (HelixMemoryManager.cache m))) m
  | Put key data size =>
      HelixMemoryManager.set_cache
        (HelixCache.put key data size (HelixMemoryManager.cache m)) m
  | Malloc key data => snd (HelixMemoryManager.malloc key data m)
  | Free key => snd (HelixMemoryManager.free key m)
  | Read key => snd (HelixMemoryManager.read key m)
  | Write key data => snd (HelixMemoryManager.write key data m)
  end.

Definition run_ops `{PyRuntime} (os : list op) (m : HelixMemoryManager.t)
  : HelixMemoryManager.t :=
  fold_left (fun m o => run_op o m) os m.

(** Calls of the translator's public API. *)
Inductive call :=
| CMalloc (size : Z)
| CFree (pointer : Z)
| CRead (pointer size offset : Z)
| CWrite (pointer : Z) (data : bytes) (offset : Z)
| COpen (filepath mode : string)
| CReadFile (fd size : Z)
| CWriteFile (fd : Z) (data : bytes)
| CClose (fd : Z).

(** What a call hands back to the caller. *)
Inductive answer :=
| AInt (r : outcome Z)
| ABool (r : outcome bool)
| AValue (r : outcome pyval).

Definition run_call `{PyRuntime} (c : call) (tr : HelixTranslator.t)
  : answer * HelixTranslator.t :=
  match c with
  | CMalloc size =>
      let '(r, tr) := HelixTranslator.translate_malloc size tr in (AInt r, tr)
  | CFree p =>
      let '(r, tr) := HelixTranslator.translate_free p tr in (ABool r, tr)
  | CRead p size offset =>
      let '(r, tr) := HelixTranslator.translate_read p size offset tr in
      (AValue r, tr)
  | CWrite p data offset =>
      let '(r, tr) := HelixTranslator.translate_write p data offset tr in
      (ABool r, tr)
  | COpen filepath mode =>
      let '(r, tr) := HelixTranslator.translate_open filepath mode tr in
      (AInt r, tr)
  | CReadFile fd size =>
      let '(r, tr) := HelixTranslator.translate_read_file fd size tr in
      (AValue r, tr)
  | CWriteFile fd data =>
      let '(r, tr) := HelixTranslator.translate_write_file fd data tr in
      (ABool r, tr)
  | CClose fd =>
      let '(r, tr) := HelixTranslator.translate_close fd tr in (ABool r, tr)
  end.

(** The answers of a run, oldest first, and the translator after it.  A
    caller that catches an exception goes on with the same object. *)
Fixpoint run_calls `{PyRuntime} (cs : list call) (tr : HelixTranslator.t)
  : list (call * answer) * HelixTranslator.t :=
  match cs with
  | [] => ([], tr)
  | c :: cs' =>
      let '(a, tr) := run_call c tr in
      let '(rest, tr) := run_calls cs' tr in
      ((c, a) :: rest, tr)
  end.

(** The pointers a run issued (successful [translate_malloc]s). *)
Fixpoint issued_pointers (log : list (call * answer)) : list Z :=
  match log with
  | [] => []
  | (CMalloc _, AInt (Returned p)) :: log' =>
      if p =? 0 then issued_pointers log' else p :: issued_pointers log'
  | _ :: log' => issued_pointers log'
  end.

(** The descriptors a run issued. *)
Fixpoint issued_fds (log : list (call * answer)) : list Z :=
  match log with
  | [] => []
  | (COpen _ _, AInt (Returned fd)) :: log' => fd :: issued_fds log'
  | _ :: log' => issued_fds log'
  end.

(* ================================================================== *)
(** ** Notions used by the statements *)

(** Two caches with the same capacities. *)
Definition same_caps (c c' : HelixCache.t) : Prop :=
  HelixCache.l1_max c' = HelixCache.l1_max c
  /\ HelixCache.l2_max c' = HelixCache.l2_max c
  /\ HelixCache.l3_max c' = HelixCache.l3_max c.

(** The eviction counter of the cache, [stats['evictions']]. *)
Definition evictions (c : HelixCache.t) : Z :=
  stat "evictions" (HelixCache.stats c).

(** From [c] to [c'] the eviction counter did not go down, and if it stood
    still every key resident in [c] is resident in [c']. *)
Definition keeps_residents (c c' : HelixCache.t) : Prop :=
  evictions c <= evictions c'
  /\ (evictions c' = evictions c ->
      forall k, HelixCache.resident k c = true ->
                HelixCache.resident k c' = true).

(** The same for every key but [key]. *)
Definition keeps_residents_but (key : string) (c c' : HelixCache.t) : Prop :=
  evictions c <= evictions c'
  /\ (evictions c' = evictions c ->
      forall k, k ≠ key -> HelixCache.resident k c = true ->
                HelixCache.resident k c' = true).

(* ------------------------------------------------------------------ *)
(** *** The keys that the cache evicts

    A block leaves the cache in one place only: [del self.l3_cache[key]] in
    [_make_room_l3], next to [stats['evictions'] += 1].  The functions of
    [Evicted] go through the functions of [HelixCache] of the same names and
    return the keys deleted there, in the order of the deletions; the states
    they pass on are those of [HelixCache]. *)

Module Evicted.
Import HelixCache.

Fixpoint _make_room_l3_loop (fuel : nat) (needed : Z) (c : t)
  : list string :=
  match fuel with
  | O => []
  | S fuel' =>
      match l3_cache c with
      | [] => []
      | (key, _) :: _ =>
          if _get_tier_size (l3_cache c) + needed >? l3_max c then
            let c := set_l3 (OrderedDict.pop key (l3_cache c)) c in
            let c := count "evictions" c in
            key :: _make_room_l3_loop fuel' needed c
          else []
      end
  end.

Definition _make_room_l3 (needed : Z) (c : t) : list string :=
  _make_room_l3_loop (length (l3_cache c)) needed c.

Definition _demote_to_l3 `{PyRuntime}
    (key : string) (block : CacheBlock.t) (c : t) : list string :=
  let c := set_l2 (OrderedDict.pop key (l2_cache c)) c in
  let '(saved, block) := CacheBlock.compress block in
  let c := if saved >? 0 then count "compressions" c else c in
  let size :=
    match CacheBlock._compressed_data block with
    | Some (x :: cd) => len (x :: cd)
    | _ => CacheBlock.size_bytes block
    end in
  _make_room_l3 size c.

Fixpoint _make_room_l2_loop `{PyRuntime}
    (fuel : nat) (needed : Z) (c : t) : list string :=
  match fuel with
  | O => []
  | S fuel' =>
      match l2_cache c with
      | [] => []
      | (key, block) :: _ =>
          if _get_tier_size (l2_cache c) + needed >? l2_max c then
            _demote_to_l3 key block c
            ++ _make_room_l2_loop fuel' needed
                 (HelixCache._demote_to_l3 key block c)
          else []
      end
  end.

Definition _make_room_l2 `{PyRuntime} (needed : Z) (c : t) : list string :=
  _make_room_l2_loop (length (l2_cache c)) needed c.

Definition _demote_to_l2 `{PyRuntime}
    (key : string) (block : CacheBlock.t) (c : t) : list string :=
  let c := set_l1 (OrderedDict.pop key (l1_cache c)) c in
  _make_room_l2 (CacheBlock.size_bytes block) c.

Fixpoint _make_room_l1_loop `{PyRuntime}
    (fuel : nat) (needed : Z) (c : t) : list string :=
  match fuel with
  | O => []
  | S fuel' =>
      match l1_cache c with
      | [] => []
      | (key, block) :: _ =>
          if _get_tier_size (l1_cache c) + needed >? l1_max c then
            _demote_to_l2 key block c
            ++ _make_room_l1_loop fuel' needed
                 (HelixCache._demote_to_l2 key block c)
          else []
      end
  end.

Definition _make_room_l1 `{PyRuntime} (needed : Z) (c : t) : list string :=
  _make_room_l1_loop (length (l1_cache c)) needed c.

Definition _promote_to_l1 `{PyRuntime}
    (key : string) (block : CacheBlock.t) (c : t) : list string :=
  let c := set_l2 (OrderedDict.pop key (l2_cache c)) c in
  _make_room_l1 (CacheBlock.size_bytes block) c.

Definition _promote_to_l2 `{PyRuntime}
    (key : string) (block : CacheBlock.t) (c : t) : list string :=
  let c := set_l3 (OrderedDict.pop key (l3_cache c)) c in
  _make_room_l2 (CacheBlock.size_bytes block) c.

(** A hit in the Hot tier and a miss move nothing; a hit in a lower tier
    evicts what the promotion evicts. *)
Definition get `{PyRuntime} (key : string) (c : t) : list string :=
  match OrderedDict.get key (l1_cache c) with
  | Some _ => []
  | None =>
      let c := count "l1_misses" c in
      match OrderedDict.get key (l2_cache c) with
      | Some block =>
          let c := count "l2_hits" c in
          let block := CacheBlock.access block in
          let c := set_l2 (OrderedDict.set key block (l2_cache c)) c in
          if CacheBlock.access_count block >? 3 then
            _promote_to_l1 key block c
          else []
      | None =>
          let c := count "l2_misses" c in
          match OrderedDict.get key (l3_cache c) with
          | Some block =>
              let c := count "l3_hits" c in
              let block := CacheBlock.access block in
              let block :=
                if CacheBlock.compressed block
                then CacheBlock.decompress block else block in
              let c := set_l3 (OrderedDict.set key block (l3_cache c)) c in
              if CacheBlock.access_count block >? 2 then
                _promote_to_l2 key block c
              else []
          | None => []
          end
      end
  end.

Definition put `{PyRuntime}
    (key : string) (data : pyval) (size : Z) (c : t) : list string :=
  let c := set_l2 (OrderedDict.pop key (l2_cache c)) c in
  let c := set_l3 (OrderedDict.pop key (l3_cache c)) c in
  _make_room_l1 size c.

(** The allocator: a refused [malloc] does not reach the cache, [free]
    evicts nothing, [write] evicts what its [malloc] evicts. *)
Definition malloc `{PyRuntime}
    (key : string) (data : pyval) (m : HelixMemoryManager.t) : list string :=
  let size := HelixMemoryManager.computed_size data in
  if HelixMemoryManager.total_allocated m + size
     >? HelixMemoryManager.max_virtual m
  then []
  else put key data size (HelixMemoryManager.cache m).

Definition write `{PyRuntime}
    (key : string) (data : pyval) (m : HelixMemoryManager.t) : list string :=
  let m := match HelixMemoryManager.allocations m !! key with
           | Some _ => snd (HelixMemoryManager.free key m)
           | None => m
           end in
  malloc key data m.

End Evicted.

(** The keys that one operation evicts when it runs on [m]. *)
Definition op_evicted `{PyRuntime} (o : op) (m : HelixMemoryManager.t)
  : list string :=
  match o with
  | Get key | Read key => Evicted.get key (HelixMemoryManager.cache m)
  | Put key data size =>
      Evicted.put key data size (HelixMemoryManager.cache m)
  | Malloc key data => Evicted.malloc key data m
  | Free _ => []
  | Write key data => Evicted.write key data m
  end.

(** The keys that a run evicts, one entry for each eviction. *)
Fixpoint evicted_keys `{PyRuntime} (os : list op) (m : HelixMemoryManager.t)
  : list string :=
  match os with
  | [] => []
  | o :: os' => op_evicted o m ++ evicted_keys os' (run_op o m)
  end.

(** The key that the operation stores anew or releases when it runs on [m]:
    the key of a [put], of a [malloc] or [write] that returns [True], and of
    a [free]. *)
Definition renewed `{PyRuntime} (o : op) (m : HelixMemoryManager.t)
  : option string :=
  match o with
  | Put key _ _ | Free key => Some key
  | Malloc key data =>
      if fst (HelixMemoryManager.malloc key data m) then Some key else None
  | Write key data =>
      if fst (HelixMemoryManager.write key data m) then Some key else None
  | Get _ | Read _ => None
  end.

(** [keys] without [key]. *)
Definition without (key : option string) (keys : list string)
  : list string :=
  match key with
  | Some k => List.filter (fun x => negb (String.eqb x k)) keys
  | None => keys
  end.

(** The keys that one operation evicts and that no tier holds after it.
    (A key that was held twice can lose one block and keep the other.) *)
Definition op_lost `{PyRuntime} (o : op) (m : HelixMemoryManager.t)
  : list string :=
  List.filter
    (fun k => negb (HelixCache.resident k
                      (HelixMemoryManager.cache (run_op o m))))
    (op_evicted o m).

(** The keys that are lost after the run of [os] from [m], when [lost] were
    lost before it: the keys that were evicted and have been neither stored
    anew nor released since. *)
Fixpoint lost_keys `{PyRuntime}
    (os : list op) (m : HelixMemoryManager.t) (lost : list string)
  : list string :=
  match os with
  | [] => lost
  | o :: os' =>
      lost_keys os' (run_op o m)
        (without (renewed o m) (lost ++ op_lost o m))
  end.

(** [key] is lost after the run of [os] from [m]. *)
Definition is_lost `{PyRuntime}
    (key : string) (os : list op) (m : HelixMemoryManager.t) : bool :=
  existsb (String.eqb key) (lost_keys os m []).

(** From [c] to [c'] the keys [V] were evicted, each counted once, and no
    other key ceased to be resident. *)
Definition evicts (V : list string) (c c' : HelixCache.t) : Prop :=
  evictions c' = evictions c + len V
  /\ forall k, HelixCache.resident k c = true ->
               HelixCache.resident k c' = true \/ In k V.

(** The same for every key but [key]. *)
Definition evicts_but (key : string) (V : list string)
    (c c' : HelixCache.t) : Prop :=
  evictions c' = evictions c + len V
  /\ forall k, k ≠ key -> HelixCache.resident k c = true ->
               HelixCache.resident k c' = true \/ In k V.

(** Every allocated key that is not among [lost] is resident. *)
Definition alloc_resident (lost : list string) (m : HelixMemoryManager.t)
  : Prop :=
  forall k, is_Some (HelixMemoryManager.allocations m !! k) ->
            ~ In k lost ->
            HelixCache.resident k (HelixMemoryManager.cache m) = true.

(** Every block of a tier satisfies [Q]. *)
Definition all_blocks (Q : CacheBlock.t -> Prop)
    (d : list (string * CacheBlock.t)) : Prop :=
  Forall (fun kv => Q (snd kv)) d.

(** A compressed block carries the compressed pickle of some value. *)
Definition compressed_from_pickle `{PyRuntime} (b : CacheBlock.t) : Prop :=
  CacheBlock.compressed b = true ->
  exists v s, pickle_dumps v = Some s
              /\ CacheBlock._compressed_data b = Some (zlib_compress s).

(** The block was inserted with a size between 0 and [cap]. *)
Definition block_fits `{PyRuntime} (cap : Z) (b : CacheBlock.t) : Prop :=
  0 <= CacheBlock.size_bytes b <= cap /\ compressed_from_pickle b.

(** The block counts with its uncompressed size. *)
Definition plain (b : CacheBlock.t) : Prop :=
  CacheBlock.effective_size b = CacheBlock.size_bytes b.

(** The block does not count negatively. *)
Definition nonneg (b : CacheBlock.t) : Prop :=
  0 <= CacheBlock.effective_size b.

(** The invariant behind the occupancy of Hot and Warm: block sizes are
    within [cap], which both capacities admit; Hot and Warm blocks count with
    their uncompressed size; Hot and Warm are within capacity. *)
Definition tiers_fit `{PyRuntime} (cap : Z) (c : HelixCache.t) : Prop :=
  cap <= HelixCache.l1_max c
  /\ cap <= HelixCache.l2_max c
  /\ all_blocks (fun b => block_fits cap b /\ plain b) (HelixCache.l1_cache c)
  /\ all_blocks (fun b => block_fits cap b /\ plain b) (HelixCache.l2_cache c)
  /\ all_blocks (block_fits cap) (HelixCache.l3_cache c)
  /\ HelixCache._get_tier_size (HelixCache.l1_cache c) <= HelixCache.l1_max c
  /\ HelixCache._get_tier_size (HelixCache.l2_cache c) <= HelixCache.l2_max c.

(** The operation inserts no block larger than [cap] (or of negative size). *)
Definition op_fits `{PyRuntime} (cap : Z) (o : op) : Prop :=
  match o with
  | Put _ _ size => 0 <= size <= cap
  | Malloc _ data | Write _ data =>
      HelixMemoryManager.computed_size data <= cap
  | _ => True
  end.

(** No character of the string is an underscore. *)
Fixpoint no_underscore (s : string) : bool :=
  match s with
  | EmptyString => true
  | String c s' => negb (Ascii.eqb c "_") && no_underscore s'
  end.

(** The handle tables of the translator are in order: an active pointer is
    positive, below the next pointer to be issued, and mapped to the key that
    was formatted from it; an active descriptor is below the next descriptor
    to be issued. *)
Definition handles_ok (tr : HelixTranslator.t) : Prop :=
  0 < HelixTranslator.next_fake_pointer tr
  /\ (forall p e,
        HelixTranslator.ptr_to_key tr !! p = Some e ->
        0 < p < HelixTranslator.next_fake_pointer tr
        /\ TranslationEntry.helix_key e
           = HelixTranslator.mem_key p (TranslationEntry.size e))
  /\ (forall fd path,
        HelixTranslator.fd_to_path tr !! fd = Some path ->
        fd < HelixTranslator.next_fake_fd tr).

(** From [tr] to [tr'] neither handle counter went back. *)
Definition advances (tr tr' : HelixTranslator.t) : Prop :=
  HelixTranslator.next_fake_pointer tr <= HelixTranslator.next_fake_pointer tr'
  /\ HelixTranslator.next_fake_fd tr <= HelixTranslator.next_fake_fd tr'.

(** The handle tables and counters of [tr'] are those of [tr]. *)
Definition same_handles (tr tr' : HelixTranslator.t) : Prop :=
  HelixTranslator.ptr_to_key tr' = HelixTranslator.ptr_to_key tr
  /\ HelixTranslator.next_fake_pointer tr' = HelixTranslator.next_fake_pointer tr
  /\ HelixTranslator.fd_to_path tr' = HelixTranslator.fd_to_path tr
  /\ HelixTranslator.next_fake_fd tr' = HelixTranslator.next_fake_fd tr.

(** Each tier is a dictionary: no key occurs twice in it. *)
Definition tiers_are_dicts (c : HelixCache.t) : Prop :=
  NoDup (OrderedDict.keys (HelixCache.l1_cache c))
  /\ NoDup (OrderedDict.keys (HelixCache.l2_cache c))
  /\ NoDup (OrderedDict.keys (HelixCache.l3_cache c)).

(* ================================================================== *)
(** ** A small runtime for closed examples

    The theorems hold for every [PyRuntime].  The closed examples run on this
    instance: pickling puts one tag byte before a [bytes] payload and maps
    [None] to a single byte, foreign objects do not pickle; compression
    stores its input behind one header byte; storage never fails. *)

Definition toy_dumps (v : pyval) : option bytes :=
  match v with
  | PyNone => Some [Byte.x4e]
  | PyBytes b => Some (Byte.x43 :: b)
  | PyObj _ => None
  end.

Definition toy_loads (s : bytes) : option pyval :=
  match s with
  | [Byte.x4e] => Some PyNone
  | Byte.x43 :: b => Some (PyBytes b)
  | _ => None
  end.

Definition toy_decompress (s : bytes) : option bytes :=
  match s with
  | Byte.x78 :: r => Some r
  | _ => None
  end.

Definition toy_runtime : PyRuntime := {|
  pickle_dumps := toy_dumps;
  pickle_loads := toy_loads;
  zlib_compress := cons Byte.x78;
  zlib_decompress := toy_decompress;
  obj_truthy := fun _ => true;
  obj_bytes := fun _ => None;
  obj_prefix := fun _ _ => None;
  disk_read_fails := fun _ => false;
  disk_write_fails := fun _ => false
|}.

(* ================================================================== *)
(** ** States and inputs of the closed examples *)

(** The default cache and allocator, [HelixCache()] and
    [HelixMemoryManager(cache)]. *)
Definition default_manager : HelixMemoryManager.t :=
  HelixMemoryManager.init (HelixCache.init 128 512 1024) 8192.

Definition MiB : Z := 1024 * 1024.

(** A Warm block that was hit three times while it was Hot. *)
Definition warm_after_three_hits : HelixCache.t :=
  HelixMemoryManager.cache
    (@run_ops toy_runtime
       [Put "a" (PyBytes [Byte.x01]) (100 * MiB);
        Get "a"; Get "a"; Get "a";
        Put "b" (PyBytes [Byte.x02]) (100 * MiB)]
       default_manager).

Definition twenty_bytes : bytes := repeat Byte.x00 20.

Definition forty_bytes : bytes := repeat Byte.x00 40.

(** An allocator with nothing allocated: tier capacities [m1], [m2], [m3]
    and the budget in bytes. *)
Definition fresh_manager (m1 m2 m3 budget : Z) : HelixMemoryManager.t :=
  HelixMemoryManager.mk (HelixCache.empty m1 m2 m3) budget ∅ 0
    (zero_stats HelixMemoryManager.stat_keys).

(** A budget of 64 bytes over tiers of 64 bytes, 64 bytes and 1 MiB, with
    three blocks of 20 bytes allocated (21 bytes each once pickled). *)
Definition nearly_full_manager : HelixMemoryManager.t :=
  @run_ops toy_runtime
    [Malloc "k0" (PyBytes twenty_bytes);
     Malloc "k1" (PyBytes twenty_bytes);
     Malloc "k2" (PyBytes twenty_bytes)]
    (fresh_manager 64 64 MiB 64).

(** [HelixCache(1, 1, 1)] after two [put]s of 600000 bytes under one key. *)
Definition put_twice : HelixCache.t :=
  @HelixCache.put toy_runtime "a" (PyBytes [Byte.x02]) 600000
    (@HelixCache.put toy_runtime "a" (PyBytes [Byte.x01]) 600000
       (HelixCache.init 1 1 1)).

(** Two allocations of 40 bytes under one key, over tiers of 64 bytes. *)
Definition malloc_twice : HelixMemoryManager.t :=
  @run_ops toy_runtime
    [Malloc "a" (PyBytes forty_bytes); Malloc "a" (PyBytes forty_bytes)]
    (fresh_manager 64 64 64 (8192 * MiB)).

(** The default cache after one [put] of 200 MiB. *)
Definition oversized_put : HelixCache.t :=
  @HelixCache.put toy_runtime "big" (PyBytes [Byte.x01]) (200 * MiB)
    (HelixCache.init 128 512 1024).

(** Six allocations of 40 bytes over tiers of 64 bytes each: every new block
    pushes the older ones one tier down, and the Compressed tier has to give
    blocks up. *)
Definition six_mallocs : HelixMemoryManager.t :=
  @run_ops toy_runtime
    [Malloc "a" (PyBytes forty_bytes);
     Malloc "b" (PyBytes forty_bytes);
     Malloc "c" (PyBytes forty_bytes);
     Malloc "d" (PyBytes forty_bytes);
     Malloc "e" (PyBytes forty_bytes);
     Malloc "f" (PyBytes forty_bytes)]
    (fresh_manager 64 64 64 (8192 * MiB)).

(** [HelixTranslator(HelixSystem())] over an empty storage. *)
Definition default_translator : HelixTranslator.t :=
  HelixTranslator.init (HelixSystem.init 512 2048 6000 8096 ∅).

(** The default translator with one buffer of four zero bytes allocated;
    its pointer is [0x10000000]. *)
Definition four_zero_bytes : HelixTranslator.t :=
  snd (@run_calls toy_runtime [CMalloc 4] default_translator).

Definition XY : bytes := [Byte.x58; Byte.x59].

(* ================================================================== *)
(** ** PART 8: the generic [key=value] parser of [AgnosticLayer]

    A Python [str] is a sequence of code points.  [_parse_generic] opens its
    file in text mode and iterates over the lines; the model starts from the
    lines. *)

Module PyStr.

(** [c.isspace()] for one code point: the white space that [str.strip]
    removes. *)
Definition isspace (c : N) : bool :=
  ((0x9 <=? c) && (c <=? 0xD))%N || ((0x1C <=? c) && (c <=? 0x20))%N
  || (c =? 0x85)%N || (c =? 0xA0)%N || (c =? 0x1680)%N
  || ((0x2000 <=? c) && (c <=? 0x200A))%N
  || (c =? 0x2028)%N || (c =? 0x2029)%N || (c =? 0x202F)%N
  || (c =? 0x205F)%N || (c =? 0x3000)%N.

Fixpoint lstrip (s : list N) : list N :=
  match s with
  | [] => []
  | c :: s' => if isspace c then lstrip s' else s
  end.

Definition rstrip (s : list N) : list N := rev (lstrip (rev s)).

(** [s.strip()] *)
Definition strip (s : list N) : list N := rstrip (lstrip s).

(** [c in s] *)
Definition contains (c : N) (s : list N) : bool := existsb (N.eqb c) s.

(** [s.partition(sep)] for a separator of one character: the text before
    the first [sep], whether [sep] was found, and the text after it. *)
Fixpoint partition (sep : N) (s : list N) : list N * bool * list N :=
  match s with
  | [] => ([], false, [])
  | c :: s' =>
      if (c =? sep)%N then ([], true, s')
      else let '(before, found, after) := partition sep s' in
           (c :: before, found, after)
  end.

(** The code points of a text of ASCII characters, for examples. *)
Definition text (s : string) : list N :=
  List.map Ascii.N_of_ascii (String.list_ascii_of_string s).

End PyStr.

Module AgnosticLayer.

(** The code point of ["="]. *)
Definition equals_sign : N := 61.

(** The body of the loop, for one line. *)
Definition parse_line (result : gmap (list N) (list N)) (line : list N)
  : gmap (list N) (list N) :=
  let line := PyStr.strip line in
  if PyStr.contains equals_sign line then
    let '(k, _, v) := PyStr.partition equals_sign line in
    <[PyStr.strip k := PyStr.strip v]> result
  else result.

Definition _parse_generic (lines : list (list N))
  : gmap (list N) (list N) :=
  fold_left parse_line lines ∅.

End AgnosticLayer.

(* ================================================================== *)
(** ** Further notions: lookups and stored values *)

(** The block a lookup of [key] finds: [get] asks Hot first, then Warm, then
    Compressed. *)
Definition first_block (key : string) (c : HelixCache.t)
  : option CacheBlock.t :=
  match OrderedDict.get key (HelixCache.l1_cache c) with
  | Some b => Some b
  | None =>
      match OrderedDict.get key (HelixCache.l2_cache c) with
      | Some b => Some b
      | None => OrderedDict.get key (HelixCache.l3_cache c)
      end
  end.

(** The block holds the value [v], and what it holds in compressed form is
    the compressed pickle of [v]. *)
Definition carries `{PyRuntime} (v : pyval) (b : CacheBlock.t) : Prop :=
  CacheBlock.data b = v
  /\ (CacheBlock.compressed b = true ->
      exists s, pickle_dumps v = Some s
                /\ CacheBlock._compressed_data b = Some (zlib_compress s)).

(** Whatever a lookup of [key] finds carries [v]. *)
Definition top_carries `{PyRuntime}
    (key : string) (v : pyval) (c : HelixCache.t) : Prop :=
  forall b, first_block key c = Some b -> carries v b.

(** The key an operation stores to or frees, if any. *)
Definition stores_to (o : op) : option string :=
  match o with
  | Put key _ _ | Malloc key _ | Free key | Write key _ => Some key
  | Get _ | Read _ => None
  end.

(** The key and value that the operation stores when it runs on [m]: a [put]
    always stores, [malloc] and [write] store when they return [True]. *)
Definition stored `{PyRuntime} (o : op) (m : HelixMemoryManager.t)
  : option (string * pyval) :=
  match o with
  | Put key data _ => Some (key, data)
  | Malloc key data =>
      if fst (HelixMemoryManager.malloc key data m)
      then Some (key, data) else None
  | Write key data =>
      if fst (HelixMemoryManager.write key data m)
      then Some (key, data) else None
  | _ => None
  end.

(** The number of cache lookups of a run. *)
Fixpoint lookups (os : list op) : Z :=
  match os with
  | [] => 0
  | (Get _ | Read _) :: os' => 1 + lookups os'
  | _ :: os' => lookups os'
  end.

(** [total_ops] and [total_hits] of [HelixSystem.get_stats]. *)
Definition total_ops (c : HelixCache.t) : Z :=
  let st := HelixCache.stats c in
  stat "l1_hits" st + stat "l1_misses" st + stat "l2_hits" st
  + stat "l2_misses" st + stat "l3_hits" st + stat "l3_misses" st.

Definition total_hits (c : HelixCache.t) : Z :=
  let st := HelixCache.stats c in
  stat "l1_hits" st + stat "l2_hits" st + stat "l3_hits" st.

(** The sum of the sizes recorded in the allocation table. *)
Definition allocated_sum (m : HelixMemoryManager.t) : Z :=
  map_fold (fun _ size acc => size + acc) 0 (HelixMemoryManager.allocations m).

(** The operation goes through the allocator and does not allocate a key
    that is allocated: no [put] past the allocator, no [malloc] of a key of
    the allocation table. *)
Definition op_disciplined (o : op) (m : HelixMemoryManager.t) : bool :=
  match o with
  | Put _ _ _ => false
  | Malloc key _ =>
      match HelixMemoryManager.allocations m !! key with
      | None => true
      | Some _ => false
      end
  | _ => true
  end.

(** Every operation of the run is disciplined in the state it meets. *)
Fixpoint disciplined `{PyRuntime} (os : list op) (m : HelixMemoryManager.t)
  : bool :=
  match os with
  | [] => true
  | o :: os' => op_disciplined o m && disciplined os' (run_op o m)
  end.

(** No key is held by two tiers. *)
Definition single_residence (c : HelixCache.t) : Prop :=
  forall k,
    (OrderedDict.contains k (HelixCache.l1_cache c) = true ->
     OrderedDict.contains k (HelixCache.l2_cache c) = false
     /\ OrderedDict.contains k (HelixCache.l3_cache c) = false)
    /\ (OrderedDict.contains k (HelixCache.l2_cache c) = true ->
        OrderedDict.contains k (HelixCache.l3_cache c) = false).

(** Every value a lookup can find is a [bytes] value. *)
Definition holds_bytes `{PyRuntime} (c : HelixCache.t) : Prop :=
  forall key, exists bs, top_carries key (PyBytes bs) c.

(** The two pointer tables agree, and the size of every entry is one that
    [bytearray] takes. *)
Definition pointers_synced (tr : HelixTranslator.t) : Prop :=
  forall p e,
    HelixTranslator.ptr_to_key tr !! p = Some e ->
    HelixTranslator.key_to_ptr tr !! TranslationEntry.helix_key e = Some p
    /\ 0 <= TranslationEntry.size e <= Py.maxsize.

(** The two descriptor tables agree. *)
Definition descriptors_synced (tr : HelixTranslator.t) : Prop :=
  forall fd path,
    HelixTranslator.fd_to_path tr !! fd = Some path ->
    HelixTranslator.path_to_fd tr !! path = Some fd.

(** The exception that reached the caller, if one did. *)
Definition raised (a : answer) : option exn :=
  match a with
  | AInt (Raised e) | ABool (Raised e) | AValue (Raised e) => Some e
  | _ => None
  end.

(** The sizes that [translate_malloc] answers with the exception [e]: a
    size of more than 4300 digits (the f-string of the key raises
    [ValueError]); else a size outside the indices of a 64-bit build
    ([bytearray] raises [OverflowError]); else a negative size ([bytearray]
    raises [ValueError]). *)
Definition malloc_refuses (size : Z) (e : exn) : Prop :=
  (e = ValueError
   /\ (10 ^ 4300 <= Z.abs size \/ - 2 ^ 63 <= size < 0))
  \/ (e = OverflowError
      /\ Z.abs size < 10 ^ 4300 /\ (size < - 2 ^ 63 \/ 2 ^ 63 <= size)).

(** The call does not open a path that has a descriptor. *)
Definition opens_new_path (c : call) (tr : HelixTranslator.t) : bool :=
  match c with
  | COpen filepath _ =>
      match HelixTranslator.path_to_fd tr !! filepath with
      | None => true
      | Some _ => false
      end
  | _ => true
  end.

(** No call of the run opens a path that has a descriptor at that time. *)
Fixpoint opens_once `{PyRuntime} (cs : list call) (tr : HelixTranslator.t)
  : bool :=
  match cs with
  | [] => true
  | c :: cs' => opens_new_path c tr && opens_once cs' (snd (run_call c tr))
  end.

(** The call names the pointer [p] ([translate_free], [translate_read],
    [translate_write]). *)
Definition call_on_pointer (p : Z) (c : call) : bool :=
  match c with
  | CFree q | CRead q _ _ | CWrite q _ _ => q =? p
  | _ => false
  end.

(** The call names the descriptor [fd] ([translate_read_file],
    [translate_write_file], [translate_close]). *)
Definition call_on_descriptor (fd : Z) (c : call) : bool :=
  match c with
  | CReadFile q _ | CWriteFile q _ | CClose q => q =? fd
  | _ => false
  end.

(** The answer to a handle the translator does not know: [None] or
    [False]. *)
Definition refused (a : answer) : bool :=
  match a with
  | AValue (Returned PyNone) | ABool (Returned false) => true
  | _ => false
  end.

(** The number of calls of a run that satisfy [p]. *)
Definition count_calls (p : call -> bool) (cs : list call) : Z :=
  len (List.filter p cs).

Definition is_malloc (c : call) : bool :=
  match c with CMalloc _ => true | _ => false end.
Definition is_free (c : call) : bool :=
  match c with CFree _ => true | _ => false end.
Definition is_read (c : call) : bool :=
  match c with CRead _ _ _ => true | _ => false end.
Definition is_write (c : call) : bool :=
  match c with CWrite _ _ _ => true | _ => false end.

(* ================================================================== *)
(** ** Further states of the closed examples *)

(** Three allocations of 40 bytes over Hot and Warm tiers of 64 bytes: the
    first block has reached the Compressed tier. *)
Definition three_mallocs : HelixMemoryManager.t :=
  @run_ops toy_runtime
    [Malloc "a" (PyBytes forty_bytes);
     Malloc "b" (PyBytes forty_bytes);
     Malloc "c" (PyBytes forty_bytes)]
    (fresh_manager 64 64 MiB (8192 * MiB)).

(* ================================================================== *)
(** ** Facts about the ordered dictionary *)

Section OrderedDict_facts.
Context {V : Type}.
Implicit Types (k : string) (v : V) (d : list (string * V)).

Lemma od_get_set_eq k v d :
  OrderedDict.get k (OrderedDict.set k v d) = Some v.
Proof.
  induction d as [|[k' v'] d IH]; simpl.
  - by rewrite String.eqb_refl.
  - destruct (String.eqb k' k) eqn:E; simpl.
    + by rewrite String.eqb_refl.
    + by rewrite E.
Qed.

Lemma od_get_set_ne k k' v d :
  k ≠ k' -> OrderedDict.get k' (OrderedDict.set k v d) = OrderedDict.get k' d.
Proof.
  intros Hne. induction d as [|[k0 v0] d IH]; simpl.
  - by apply String.eqb_neq in Hne as ->.
  - destruct (String.eqb k0 k) eqn:E; simpl.
    + apply String.eqb_eq in E as ->.
      by apply String.eqb_neq in Hne as ->.
    + by rewrite IH.
Qed.

Lemma od_contains_get k d :
  OrderedDict.contains k d
  = match OrderedDict.get k d with Some _ => true | None => false end.
Proof.
  induction d as [|[k' v'] d IH]; simpl; [done|].
  by destruct (String.eqb k' k).
Qed.

Lemma od_get_None k d :
  OrderedDict.get k d = None <-> OrderedDict.contains k d = false.
Proof.
  rewrite od_contains_get. by destruct (OrderedDict.get k d).
Qed.

Lemma od_get_Some_contains k v d :
  OrderedDict.get k d = Some v -> OrderedDict.contains k d = true.
Proof. intros E. by rewrite od_contains_get, E. Qed.

Lemma od_contains_pop_eq k d :
  OrderedDict.contains k (OrderedDict.pop k d) = false.
Proof.
  induction d as [|[k' v'] d IH]; simpl; [done|].
  destruct (String.eqb k' k) eqn:E; simpl; [done|]. by rewrite E.
Qed.

Lemma od_contains_pop_ne k k' d :
  k ≠ k' ->
  OrderedDict.contains k' (OrderedDict.pop k d) = OrderedDict.contains k' d.
Proof.
  intros Hne. induction d as [|[k0 v0] d IH]; simpl; [done|].
  destruct (String.eqb k0 k) eqn:E; simpl.
  - apply String.eqb_eq in E as ->.
    by apply String.eqb_neq in Hne as ->.
  - by rewrite IH.
Qed.

Lemma od_contains_pop_false k k' d :
  OrderedDict.contains k' d = false ->
  OrderedDict.contains k' (OrderedDict.pop k d) = false.
Proof.
  destruct (decide (k = k')) as [->|Hne].
  - intros _. apply od_contains_pop_eq.
  - by rewrite od_contains_pop_ne.
Qed.

Lemma od_contains_set k k' v d :
  OrderedDict.contains k' (OrderedDict.set k v d)
  = String.eqb k k' || OrderedDict.contains k' d.
Proof.
  induction d as [|[k0 v0] d IH]; simpl.
  - done.
  - destruct (String.eqb k0 k) eqn:E; simpl.
    + apply String.eqb_eq in E as ->.
      by destruct (String.eqb k k').
    + rewrite IH. by destruct (String.eqb k0 k'), (String.eqb k k').
Qed.

Lemma od_contains_app k d1 d2 :
  OrderedDict.contains k (d1 ++ d2)
  = OrderedDict.contains k d1 || OrderedDict.contains k d2.
Proof. apply existsb_app. Qed.

Lemma od_get_app k d1 d2 :
  OrderedDict.get k (d1 ++ d2)
  = match OrderedDict.get k d1 with
    | Some v => Some v
    | None => OrderedDict.get k d2
    end.
Proof.
  induction d1 as [|[k' v'] d1 IH]; simpl; [done|].
  by destruct (String.eqb k' k).
Qed.

Lemma od_pop_set k v d :
  OrderedDict.pop k (OrderedDict.set k v d) = OrderedDict.pop k d.
Proof.
  induction d as [|[k' v'] d IH]; simpl.
  - by rewrite String.eqb_refl.
  - destruct (String.eqb k' k) eqn:E; simpl.
    + by rewrite String.eqb_refl.
    + by rewrite E, IH.
Qed.

Lemma od_pop_length k d :
  (length (OrderedDict.pop k d) <= length d)%nat.
Proof. apply List.filter_length_le. Qed.

Lemma od_pop_head_length k v d :
  (length (OrderedDict.pop k ((k, v) :: d)) <= length d)%nat.
Proof.
  simpl. rewrite String.eqb_refl. simpl. apply od_pop_length.
Qed.

Lemma od_contains_move_to_end k k' d :
  OrderedDict.contains k' (OrderedDict.move_to_end k d)
  = OrderedDict.contains k' d.
Proof.
  unfold OrderedDict.move_to_end.
  destruct (OrderedDict.get k d) as [v|] eqn:E; [|done].
  rewrite od_contains_app. simpl. rewrite orb_false_r.
  destruct (decide (k = k')) as [->|Hne].
  - rewrite od_contains_pop_eq, String.eqb_refl. simpl.
    symmetry. by eapply od_get_Some_contains.
  - rewrite od_contains_pop_ne by done.
    apply String.eqb_neq in Hne as ->. apply orb_false_r.
Qed.

End OrderedDict_facts.

(* ================================================================== *)
(** ** The make-room loops *)

Section cache_loops.
Context `{PyRuntime}.
Import HelixCache.

(** Whatever one round keeps, the whole loop keeps. *)
Lemma _make_room_l3_loop_keeps (P : HelixCache.t -> Prop) :
  (forall c key block rest,
     l3_cache c = (key, block) :: rest -> P c ->
     P (count "evictions" (set_l3 (OrderedDict.pop key (l3_cache c)) c))) ->
  forall fuel needed c, P c -> P (_make_room_l3_loop fuel needed c).
Proof.
  intros Hstep fuel needed.
  induction fuel as [|fuel IH]; intros c Hc; simpl; [done|].
  destruct (l3_cache c) as [|[key block] rest] eqn:E; [done|].
  rewrite <- E.
  destruct (_ >? _); [|done].
  apply IH. eapply Hstep; eauto.
Qed.

Lemma _make_room_l2_loop_keeps (P : HelixCache.t -> Prop) :
  (forall c key block rest,
     l2_cache c = (key, block) :: rest -> P c ->
     P (_demote_to_l3 key block c)) ->
  forall fuel needed c, P c -> P (_make_room_l2_loop fuel needed c).
Proof.
  intros Hstep fuel needed.
  induction fuel as [|fuel IH]; intros c Hc; simpl; [done|].
  destruct (l2_cache c) as [|[key block] rest] eqn:E; [done|].
  rewrite <- E.
  destruct (_ >? _); [|done].
  apply IH. eapply Hstep; eauto.
Qed.

Lemma _make_room_l1_loop_keeps (P : HelixCache.t -> Prop) :
  (forall c key block rest,
     l1_cache c = (key, block) :: rest -> P c ->
     P (_demote_to_l2 key block c)) ->
  forall fuel needed c, P c -> P (_make_room_l1_loop fuel needed c).
Proof.
  intros Hstep fuel needed.
  induction fuel as [|fuel IH]; intros c Hc; simpl; [done|].
  destruct (l1_cache c) as [|[key block] rest] eqn:E; [done|].
  rewrite <- E.
  destruct (_ >? _); [|done].
  apply IH. eapply Hstep; eauto.
Qed.

(** The capacities are fixed and a tier is only touched from above. *)
Lemma _make_room_l3_frame needed c :
  let c' := _make_room_l3 needed c in
  same_caps c c' /\ l1_cache c' = l1_cache c /\ l2_cache c' = l2_cache c.
Proof.
  unfold _make_room_l3.
  apply (_make_room_l3_loop_keeps
           (fun c' => same_caps c c' /\ l1_cache c' = l1_cache c
                      /\ l2_cache c' = l2_cache c)); [|done].
  intros c0 key block rest _ Hc0. exact Hc0.
Qed.

Lemma _demote_to_l3_frame key block c :
  let c' := _demote_to_l3 key block c in
  same_caps c c' /\ l1_cache c' = l1_cache c
  /\ l2_cache c' = OrderedDict.pop key (l2_cache c).
Proof.
  unfold _demote_to_l3.
  destruct (CacheBlock.compress block) as [saved block'].
  match goal with
  | |- context [_make_room_l3 ?n ?c0] =>
      destruct (_make_room_l3_frame n c0) as (Hcaps & H1 & H2)
  end.
  destruct Hcaps as (E1 & E2 & E3).
  unfold same_caps. cbn -[_make_room_l3]. rewrite H1, H2, E1, E2, E3.
  by destruct (saved >? 0).
Qed.

Lemma _make_room_l2_frame needed c :
  let c' := _make_room_l2 needed c in
  same_caps c c' /\ l1_cache c' = l1_cache c.
Proof.
  unfold _make_room_l2.
  apply (_make_room_l2_loop_keeps
           (fun c' => same_caps c c' /\ l1_cache c' = l1_cache c)); [|done].
  intros c0 key block rest _ ((E1 & E2 & E3) & E4).
  destruct (_demote_to_l3_frame key block c0) as ((F1 & F2 & F3) & F4 & _).
  unfold same_caps. by rewrite F1, F2, F3, F4.
Qed.

Lemma _demote_to_l2_frame key block c :
  let c' := _demote_to_l2 key block c in
  same_caps c c' /\ l1_cache c' = OrderedDict.pop key (l1_cache c).
Proof.
  unfold _demote_to_l2.
  match goal with
  | |- context [_make_room_l2 ?n ?c0] =>
      destruct (_make_room_l2_frame n c0) as ((E1 & E2 & E3) & E4)
  end.
  unfold same_caps. cbn -[_make_room_l2]. by rewrite E1, E2, E3, E4.
Qed.

Lemma _make_room_l1_frame needed c :
  same_caps c (_make_room_l1 needed c).
Proof.
  unfold _make_room_l1.
  apply (_make_room_l1_loop_keeps (fun c' => same_caps c c')); [|done].
  intros c0 key block rest _ (E1 & E2 & E3).
  destruct (_demote_to_l2_frame key block c0) as ((F1 & F2 & F3) & _).
  unfold same_caps. by rewrite F1, F2, F3.
Qed.

(** The loops leave through their condition: with one unit of fuel per
    entry the tier has room for [needed] or is empty at the end. *)
Lemma _make_room_l3_loop_exit fuel needed c :
  (length (l3_cache c) <= fuel)%nat ->
  let c' := _make_room_l3_loop fuel needed c in
  _get_tier_size (l3_cache c') + needed <= l3_max c' \/ l3_cache c' = [].
Proof.
  revert c. induction fuel as [|fuel IH]; intros c Hlen; simpl.
  - right. destruct (l3_cache c); [done|simpl in Hlen; lia].
  - destruct (l3_cache c) as [|[key block] rest] eqn:E; [by right|].
    rewrite <- E.
    destruct (Z.gtb_spec (_get_tier_size (l3_cache c) + needed) (l3_max c));
      [|by left].
    apply IH. cbn. rewrite E.
    pose proof (od_pop_head_length key block rest). simpl in Hlen. lia.
Qed.

Lemma _make_room_l2_loop_exit fuel needed c :
  (length (l2_cache c) <= fuel)%nat ->
  let c' := _make_room_l2_loop fuel needed c in
  _get_tier_size (l2_cache c') + needed <= l2_max c' \/ l2_cache c' = [].
Proof.
  revert c. induction fuel as [|fuel IH]; intros c Hlen; simpl.
  - right. destruct (l2_cache c); [done|simpl in Hlen; lia].
  - destruct (l2_cache c) as [|[key block] rest] eqn:E; [by right|].
    rewrite <- E.
    destruct (Z.gtb_spec (_get_tier_size (l2_cache c) + needed) (l2_max c));
      [|by left].
    apply IH.
    destruct (_demote_to_l3_frame key block c) as (_ & _ & ->). rewrite E.
    pose proof (od_pop_head_length key block rest). simpl in Hlen. lia.
Qed.

Lemma _make_room_l1_loop_exit fuel needed c :
  (length (l1_cache c) <= fuel)%nat ->
  let c' := _make_room_l1_loop fuel needed c in
  _get_tier_size (l1_cache c') + needed <= l1_max c' \/ l1_cache c' = [].
Proof.
  revert c. induction fuel as [|fuel IH]; intros c Hlen; simpl.
  - right. destruct (l1_cache c); [done|simpl in Hlen; lia].
  - destruct (l1_cache c) as [|[key block] rest] eqn:E; [by right|].
    rewrite <- E.
    destruct (Z.gtb_spec (_get_tier_size (l1_cache c) + needed) (l1_max c));
      [|by left].
    apply IH.
    destruct (_demote_to_l2_frame key block c) as (_ & ->). rewrite E.
    pose proof (od_pop_head_length key block rest). simpl in Hlen. lia.
Qed.

Lemma _make_room_l3_exit needed c :
  let c' := _make_room_l3 needed c in
  _get_tier_size (l3_cache c') + needed <= l3_max c' \/ l3_cache c' = [].
Proof. by apply _make_room_l3_loop_exit. Qed.

Lemma _make_room_l2_exit needed c :
  let c' := _make_room_l2 needed c in
  _get_tier_size (l2_cache c') + needed <= l2_max c' \/ l2_cache c' = [].
Proof. by apply _make_room_l2_loop_exit. Qed.

Lemma _make_room_l1_exit needed c :
  let c' := _make_room_l1 needed c in
  _get_tier_size (l1_cache c') + needed <= l1_max c' \/ l1_cache c' = [].
Proof. by apply _make_room_l1_loop_exit. Qed.

(** Fuel beyond the number of entries changes nothing: the loops stop by
    themselves. *)
Lemma _make_room_l3_loop_fuel fuel1 fuel2 needed c :
  (length (l3_cache c) <= fuel1)%nat -> (length (l3_cache c) <= fuel2)%nat ->
  _make_room_l3_loop fuel1 needed c = _make_room_l3_loop fuel2 needed c.
Proof.
  revert fuel2 c. induction fuel1 as [|fuel1 IH]; intros [|fuel2] c H1 H2; simpl;
    try done;
    destruct (l3_cache c) as [|[key block] rest] eqn:E; try done;
    try (simpl in *; lia).
  rewrite <- E. destruct (_ >? _); [|done].
  pose proof (od_pop_head_length key block rest). simpl in H1, H2.
  apply IH; cbn; rewrite E; lia.
Qed.

Lemma _make_room_l2_loop_fuel fuel1 fuel2 needed c :
  (length (l2_cache c) <= fuel1)%nat -> (length (l2_cache c) <= fuel2)%nat ->
  _make_room_l2_loop fuel1 needed c = _make_room_l2_loop fuel2 needed c.
Proof.
  revert fuel2 c. induction fuel1 as [|fuel1 IH]; intros [|fuel2] c H1 H2; simpl;
    try done;
    destruct (l2_cache c) as [|[key block] rest] eqn:E; try done;
    try (simpl in *; lia).
  rewrite <- E. destruct (_ >? _); [|done].
  pose proof (od_pop_head_length key block rest). simpl in H1, H2.
  destruct (_demote_to_l3_frame key block c) as (_ & _ & El).
  apply IH; rewrite El, E; lia.
Qed.

Lemma _make_room_l1_loop_fuel fuel1 fuel2 needed c :
  (length (l1_cache c) <= fuel1)%nat -> (length (l1_cache c) <= fuel2)%nat ->
  _make_room_l1_loop fuel1 needed c = _make_room_l1_loop fuel2 needed c.
Proof.
  revert fuel2 c. induction fuel1 as [|fuel1 IH]; intros [|fuel2] c H1 H2; simpl;
    try done;
    destruct (l1_cache c) as [|[key block] rest] eqn:E; try done;
    try (simpl in *; lia).
  rewrite <- E. destruct (_ >? _); [|done].
  pose proof (od_pop_head_length key block rest). simpl in H1, H2.
  destruct (_demote_to_l2_frame key block c) as (_ & El).
  apply IH; rewrite El, E; lia.
Qed.

End cache_loops.

(* ================================================================== *)
(** ** Where a key can turn up during a cascade *)

Section cache_keys.
Context `{PyRuntime}.
Import HelixCache.

Lemma _make_room_l2_absent key needed c :
  OrderedDict.contains key (l2_cache c) = false ->
  OrderedDict.contains key (l2_cache (_make_room_l2 needed c)) = false.
Proof.
  unfold _make_room_l2.
  apply (_make_room_l2_loop_keeps
           (fun c' => OrderedDict.contains key (l2_cache c') = false)).
  intros c0 k b rest _ Hc0.
  destruct (_demote_to_l3_frame k b c0) as (_ & _ & ->).
  by apply od_contains_pop_false.
Qed.

Lemma _demote_to_l2_l2 k b c :
  l2_cache (_demote_to_l2 k b c)
  = OrderedDict.set k (CacheBlock.set_tier L2_WARM b)
      (l2_cache (_make_room_l2 (CacheBlock.size_bytes b)
                   (set_l1 (OrderedDict.pop k (l1_cache c)) c))).
Proof. reflexivity. Qed.

Lemma od_head_ne {V} (key k : string) (v : V) rest :
  OrderedDict.contains key ((k, v) :: rest) = false -> k ≠ key.
Proof.
  simpl. intros E ->. by rewrite String.eqb_refl in E.
Qed.

(** A key that is in neither Hot nor Warm is in neither after room was
    made in Hot: only Hot entries move to Warm. *)
Lemma _make_room_l1_absent key needed c :
  OrderedDict.contains key (l1_cache c) = false ->
  OrderedDict.contains key (l2_cache c) = false ->
  let c' := _make_room_l1 needed c in
  OrderedDict.contains key (l1_cache c') = false
  /\ OrderedDict.contains key (l2_cache c') = false.
Proof.
  intros H1 H2. unfold _make_room_l1.
  apply (_make_room_l1_loop_keeps
           (fun c' => OrderedDict.contains key (l1_cache c') = false
                      /\ OrderedDict.contains key (l2_cache c') = false));
    [|done].
  intros c0 k b rest E [F1 F2].
  assert (k ≠ key) as Hne by (rewrite E in F1; by eapply od_head_ne).
  destruct (_demote_to_l2_frame k b c0) as (_ & ->).
  split; [by apply od_contains_pop_false|].
  rewrite _demote_to_l2_l2, od_contains_set.
  apply String.eqb_neq in Hne as ->. simpl.
  by apply _make_room_l2_absent.
Qed.

End cache_keys.

(* ================================================================== *)
(** ** The association lists stay dictionaries *)

Section OrderedDict_unique.
Context {V : Type}.
Implicit Types (k : string) (v : V) (d : list (string * V)).

Lemma od_elem_of_keys k d :
  k ∈ OrderedDict.keys d <-> OrderedDict.contains k d = true.
Proof.
  unfold OrderedDict.keys.
  induction d as [|[k' v'] d IH]; simpl.
  - split; [by intros ?%elem_of_nil|done].
  - rewrite elem_of_cons, IH, orb_true_iff, String.eqb_eq.
    split; intros [E|E]; [left; by symmetry|by right|left; by symmetry|by right].
Qed.

Lemma od_NoDup_pop k d :
  NoDup (OrderedDict.keys d) -> NoDup (OrderedDict.keys (OrderedDict.pop k d)).
Proof.
  induction d as [|[k' v'] d IH]; simpl; [done|].
  intros [Hk Hd]%NoDup_cons.
  destruct (String.eqb k' k); simpl; [by apply IH|].
  apply NoDup_cons. split; [|by apply IH].
  rewrite od_elem_of_keys in *.
  intros E. apply Hk.
  destruct (OrderedDict.contains k' d) eqn:E'; [done|].
  by rewrite (od_contains_pop_false k k' d E') in E.
Qed.

Lemma od_NoDup_set k v d :
  NoDup (OrderedDict.keys d) -> NoDup (OrderedDict.keys (OrderedDict.set k v d)).
Proof.
  induction d as [|[k' v'] d IH]; simpl.
  - intros _. apply NoDup_singleton.
  - intros [Hk Hd]%NoDup_cons.
    destruct (String.eqb k' k) eqn:E; simpl.
    + apply String.eqb_eq in E as ->. by apply NoDup_cons.
    + apply NoDup_cons. split; [|by apply IH].
      rewrite od_elem_of_keys in *. rewrite od_contains_set.
      rewrite String.eqb_sym, E. simpl. done.
Qed.

Lemma od_NoDup_move_to_end k d :
  NoDup (OrderedDict.keys d) ->
  NoDup (OrderedDict.keys (OrderedDict.move_to_end k d)).
Proof.
  intros Hd. unfold OrderedDict.move_to_end.
  destruct (OrderedDict.get k d) as [v|]; [|done].
  unfold OrderedDict.keys. rewrite fmap_app. simpl.
  apply NoDup_app. split; [by apply od_NoDup_pop|].
  split; [|apply NoDup_singleton].
  intros k' Hk' ->%list_elem_of_singleton.
  apply od_elem_of_keys in Hk'. by rewrite od_contains_pop_eq in Hk'.
Qed.

End OrderedDict_unique.

Section cache_unique.
Context `{PyRuntime}.
Import HelixCache.

Lemma dicts_count k c : tiers_are_dicts c -> tiers_are_dicts (count k c).
Proof. done. Qed.

Lemma dicts_set_l1 d c :
  NoDup (OrderedDict.keys d) -> tiers_are_dicts c ->
  tiers_are_dicts (set_l1 d c).
Proof. intros Hd (_ & D2 & D3). by repeat split. Qed.

Lemma dicts_set_l2 d c :
  NoDup (OrderedDict.keys d) -> tiers_are_dicts c ->
  tiers_are_dicts (set_l2 d c).
Proof. intros Hd (D1 & _ & D3). by repeat split. Qed.

Lemma dicts_set_l3 d c :
  NoDup (OrderedDict.keys d) -> tiers_are_dicts c ->
  tiers_are_dicts (set_l3 d c).
Proof. intros Hd (D1 & D2 & _). by repeat split. Qed.

Lemma _make_room_l3_dicts needed c :
  tiers_are_dicts c -> tiers_are_dicts (_make_room_l3 needed c).
Proof.
  unfold _make_room_l3. apply _make_room_l3_loop_keeps.
  intros c0 key block rest _ D. apply dicts_count, dicts_set_l3; [|done].
  apply od_NoDup_pop, D.
Qed.

Lemma _demote_to_l3_dicts key block c :
  tiers_are_dicts c -> tiers_are_dicts (_demote_to_l3 key block c).
Proof.
  intros D. unfold _demote_to_l3.
  destruct (CacheBlock.compress block) as [saved block'].
  apply dicts_count.
  match goal with
  | |- tiers_are_dicts (set_l3 _ ?c0) =>
      assert (tiers_are_dicts c0) as D0
  end.
  { apply _make_room_l3_dicts.
    destruct (saved >? 0); [apply dicts_count|];
      (apply dicts_set_l2; [apply od_NoDup_pop, D|done]). }
  apply dicts_set_l3; [apply od_NoDup_set, D0|done].
Qed.

Lemma _make_room_l2_dicts needed c :
  tiers_are_dicts c -> tiers_are_dicts (_make_room_l2 needed c).
Proof.
  unfold _make_room_l2. apply _make_room_l2_loop_keeps.
  intros c0 key block rest _ D. by apply _demote_to_l3_dicts.
Qed.

Lemma _demote_to_l2_dicts key block c :
  tiers_are_dicts c -> tiers_are_dicts (_demote_to_l2 key block c).
Proof.
  intros D. unfold _demote_to_l2. apply dicts_count.
  match goal with
  | |- tiers_are_dicts (set_l2 _ ?c0) =>
      assert (tiers_are_dicts c0) as D0
  end.
  { apply _make_room_l2_dicts, dicts_set_l1; [apply od_NoDup_pop, D|done]. }
  apply dicts_set_l2; [apply od_NoDup_set, D0|done].
Qed.

Lemma _make_room_l1_dicts needed c :
  tiers_are_dicts c -> tiers_are_dicts (_make_room_l1 needed c).
Proof.
  unfold _make_room_l1. apply _make_room_l1_loop_keeps.
  intros c0 key block rest _ D. by apply _demote_to_l2_dicts.
Qed.

Lemma _promote_to_l1_dicts key block c :
  tiers_are_dicts c -> tiers_are_dicts (_promote_to_l1 key block c).
Proof.
  intros D. unfold _promote_to_l1. apply dicts_count.
  match goal with
  | |- tiers_are_dicts (set_l1 _ ?c0) =>
      assert (tiers_are_dicts c0) as D0
  end.
  { apply _make_room_l1_dicts, dicts_set_l2; [apply od_NoDup_pop, D|done]. }
  apply dicts_set_l1; [apply od_NoDup_set, D0|done].
Qed.

Lemma _promote_to_l2_dicts key block c :
  tiers_are_dicts c -> tiers_are_dicts (_promote_to_l2 key block c).
Proof.
  intros D. unfold _promote_to_l2. apply dicts_count.
  match goal with
  | |- tiers_are_dicts (set_l2 _ ?c0) =>
      assert (tiers_are_dicts c0) as D0
  end.
  { apply _make_room_l2_dicts, dicts_set_l3; [apply od_NoDup_pop, D|done]. }
  apply dicts_set_l2; [apply od_NoDup_set, D0|done].
Qed.

(** [put] and [get] keep every tier a dictionary, so that removing all
    entries of a key ([OrderedDict.pop]) removes at most one. *)
Lemma put_dicts key data size c :
  tiers_are_dicts c -> tiers_are_dicts (put key data size c).
Proof.
  intros D. unfold put.
  match goal with
  | |- tiers_are_dicts (set_l1 _ ?c0) =>
      assert (tiers_are_dicts c0) as D0
  end.
  { apply _make_room_l1_dicts.
    apply dicts_set_l3; [apply od_NoDup_pop, D|].
    apply dicts_set_l2; [apply od_NoDup_pop, D|done]. }
  apply dicts_set_l1; [apply od_NoDup_set, D0|done].
Qed.

Lemma get_dicts key c :
  tiers_are_dicts c -> tiers_are_dicts (snd (get key c)).
Proof.
  intros D. unfold get.
  destruct (OrderedDict.get key (l1_cache c)).
  { cbn [snd]. apply dicts_set_l1;
      [apply od_NoDup_move_to_end, od_NoDup_set, D|].
    apply dicts_set_l1; [apply od_NoDup_set, D|done]. }
  destruct (OrderedDict.get key (l2_cache _)).
  { match goal with
    | |- context [_promote_to_l1 key ?b ?c0] =>
        assert (tiers_are_dicts c0) as D0
          by (apply dicts_set_l2; [apply od_NoDup_set, D|done])
    end.
    destruct (_ >? 3); cbn [snd]; [by apply _promote_to_l1_dicts|].
    apply dicts_set_l2; [apply od_NoDup_move_to_end, D0|done]. }
  destruct (OrderedDict.get key (l3_cache _)); [|done].
  match goal with
  | |- context [_promote_to_l2 key ?b ?c0] =>
      assert (tiers_are_dicts c0) as D0
        by (apply dicts_set_l3; [apply od_NoDup_set, D|done])
  end.
  destruct (_ >? 2); cbn [snd]; [by apply _promote_to_l2_dicts|].
  apply dicts_set_l3; [apply od_NoDup_move_to_end, D0|done].
Qed.

End cache_unique.

(* ================================================================== *)
(** ** C1: the Warm-to-Hot promotion boundary *)

(** C1 (as the code has it).  A hit on a Warm block returns its payload; the
    hit first increments [access_count] and then compares with 3.  A block
    whose count was at most 2 before the hit stays in Warm and moves to the
    most-recent end; a block whose count was 3 or more before the hit is
    promoted: Hot holds it afterwards and Warm does not. *)
Theorem C1_warm_hit_promotion_boundary `{PyRuntime}
    (c : HelixCache.t) (key : string) (block : CacheBlock.t) :
  OrderedDict.get key (HelixCache.l1_cache c) = None ->
  OrderedDict.get key (HelixCache.l2_cache c) = Some block ->
  let hit := CacheBlock.access block in
  let c' := snd (HelixCache.get key c) in
  fst (HelixCache.get key c) = CacheBlock.data block
  /\ (CacheBlock.access_count block <= 2 ->
      HelixCache.l1_cache c' = HelixCache.l1_cache c
      /\ HelixCache.l2_cache c'
         = OrderedDict.pop key (HelixCache.l2_cache c) ++ [(key, hit)])
  /\ (3 <= CacheBlock.access_count block ->
      OrderedDict.get key (HelixCache.l1_cache c')
      = Some (CacheBlock.set_tier L1_HOT hit)
      /\ OrderedDict.contains key (HelixCache.l2_cache c') = false).
Proof.
  intros H1 H2 hit c'. subst c'. unfold HelixCache.get.
  rewrite H1. cbn [HelixCache.count HelixCache.l2_cache]. rewrite H2.
  fold hit.
  assert (CacheBlock.access_count hit = CacheBlock.access_count block + 1)
    as Ehit by reflexivity.
  destruct (Z.gtb_spec (CacheBlock.access_count hit) 3) as [Hgt|Hle].
  - split; [done|]. split; [lia|]. intros _. cbn [snd].
    unfold HelixCache._promote_to_l1.
    cbn -[HelixCache._make_room_l1 OrderedDict.pop OrderedDict.set].
    split; [apply od_get_set_eq|].
    rewrite od_pop_set.
    match goal with
    | |- context [HelixCache._make_room_l1 ?n ?c0] =>
        apply (_make_room_l1_absent key n c0)
    end; cbn.
    + by apply od_get_None.
    + apply od_contains_pop_eq.
  - split; [done|]. split; [|lia]. intros _. cbn.
    split; [done|].
    unfold OrderedDict.move_to_end.
    by rewrite od_get_set_eq, od_pop_set.
Qed.

(** C1 (as stated) fails: the Warm block "a" has [access_count] 3 before the
    hit, and the hit promotes it to Hot. *)
Lemma C1_count_three_is_promoted :
  let c := warm_after_three_hits in
  OrderedDict.get "a" (HelixCache.l1_cache c) = None
  /\ CacheBlock.access_count <$> OrderedDict.get "a" (HelixCache.l2_cache c)
     = Some 3
  /\ let c' := snd (@HelixCache.get toy_runtime "a" c) in
     OrderedDict.contains "a" (HelixCache.l1_cache c') = true
     /\ OrderedDict.contains "a" (HelixCache.l2_cache c') = false.
Proof. vm_compute. done. Qed.

(** C1 on [warm_after_three_hits], whose Warm block "a" has been hit three
    times. *)
Lemma C1_warm_hit_promotion_boundary_witness :
  let c := warm_after_three_hits in
  let block :=
    CacheBlock.mk "a" (PyBytes [Byte.x01]) L2_WARM (100 * MiB) 3 false None in
  let hit := CacheBlock.access block in
  let c' := snd (@HelixCache.get toy_runtime "a" c) in
  fst (@HelixCache.get toy_runtime "a" c) = CacheBlock.data block
  /\ (CacheBlock.access_count block <= 2 ->
      HelixCache.l1_cache c' = HelixCache.l1_cache c
      /\ HelixCache.l2_cache c'
         = OrderedDict.pop "a" (HelixCache.l2_cache c) ++ [("a", hit)])
  /\ (3 <= CacheBlock.access_count block ->
      OrderedDict.get "a" (HelixCache.l1_cache c')
      = Some (CacheBlock.set_tier L1_HOT hit)
      /\ OrderedDict.contains "a" (HelixCache.l2_cache c') = false).
Proof.
  apply (@C1_warm_hit_promotion_boundary toy_runtime warm_after_three_hits "a");
    vm_compute; reflexivity.
Defined.

(* ================================================================== *)
(** ** C5, C6, C10: the allocator *)

Lemma malloc_over_budget `{PyRuntime}
    (m : HelixMemoryManager.t) (key : string) (data : pyval) :
  HelixMemoryManager.total_allocated m + HelixMemoryManager.computed_size data
    > HelixMemoryManager.max_virtual m ->
  HelixMemoryManager.malloc key data m = (false, m).
Proof.
  intros Hover. unfold HelixMemoryManager.malloc.
  destruct (Z.gtb_spec
              (HelixMemoryManager.total_allocated m
               + HelixMemoryManager.computed_size data)
              (HelixMemoryManager.max_virtual m)); [done|lia].
Qed.

(** C5.  A [malloc] whose computed size would push [total_allocated] over the
    budget returns [False] and hands back the allocator as it was: counter,
    allocation table, statistics and all three tiers. *)
Theorem C5_malloc_over_budget_rejected `{PyRuntime}
    (m : HelixMemoryManager.t) (key : string) (data : pyval) :
  HelixMemoryManager.total_allocated m + HelixMemoryManager.computed_size data
    > HelixMemoryManager.max_virtual m ->
  HelixMemoryManager.malloc key data m = (false, m).
Proof.
  intros Hover. unfold HelixMemoryManager.malloc.
  set (size := HelixMemoryManager.computed_size data) in *.
  destruct (Z.gtb_spec (HelixMemoryManager.total_allocated m + size)
              (HelixMemoryManager.max_virtual m)) as [_|Hfits].
  - reflexivity.
  - lia.
Qed.

(** C5 on an allocator with 63 of its 64 bytes taken. *)
Lemma C5_malloc_over_budget_rejected_witness :
  @HelixMemoryManager.malloc toy_runtime "k3" (PyBytes twenty_bytes)
    nearly_full_manager
  = (false, nearly_full_manager).
Proof.
  apply (@C5_malloc_over_budget_rejected toy_runtime). vm_compute. reflexivity.
Defined.

Lemma put_get_l1 `{PyRuntime} key data size c :
  OrderedDict.get key (HelixCache.l1_cache (HelixCache.put key data size c))
  = Some (CacheBlock.new key data L1_HOT size).
Proof. unfold HelixCache.put. cbn -[HelixCache._make_room_l1]. apply od_get_set_eq. Qed.

Lemma get_l1_hit `{PyRuntime} key block c :
  OrderedDict.get key (HelixCache.l1_cache c) = Some block ->
  fst (HelixCache.get key c) = CacheBlock.data block.
Proof. intros E. unfold HelixCache.get. by rewrite E. Qed.

Lemma malloc_then_read `{PyRuntime}
    (m m' : HelixMemoryManager.t) (key : string) (data : pyval) :
  HelixMemoryManager.malloc key data m = (true, m') ->
  fst (HelixMemoryManager.read key m') = data.
Proof.
  unfold HelixMemoryManager.malloc.
  destruct (_ >? _); [done|]. intros [= <-].
  unfold HelixMemoryManager.read. cbn [HelixMemoryManager.cache].
  destruct (HelixCache.get key _) as [v c'] eqn:E. cbn [fst].
  change v with (fst (v, c')). rewrite <- E.
  erewrite get_l1_hit by apply put_get_l1. done.
Qed.

(** C6.  After a successful [malloc key data], whose serialized size fits the
    Hot tier, an immediate [read key] returns [data].  (The proof does not
    use the bound: [put] stores the block in Hot whatever its size, and [get]
    looks into Hot first.) *)
Theorem C6_malloc_read_roundtrip `{PyRuntime}
    (m m' : HelixMemoryManager.t) (key : string) (data : pyval) :
  HelixMemoryManager.computed_size data
    <= HelixCache.l1_max (HelixMemoryManager.cache m) ->
  HelixMemoryManager.malloc key data m = (true, m') ->
  fst (HelixMemoryManager.read key m') = data.
Proof.
  intros _ Hmalloc. unfold HelixMemoryManager.malloc in Hmalloc.
  destruct (_ >? _); [discriminate|].
  injection Hmalloc as <-.
  unfold HelixMemoryManager.read. cbn [HelixMemoryManager.cache].
  pose proof (put_get_l1 key data (HelixMemoryManager.computed_size data)
                (HelixMemoryManager.cache m)) as Hhot.
  pose proof (get_l1_hit key _ _ Hhot) as Hhit.
  destruct (HelixCache.get key _) as [v c']. exact Hhit.
Qed.

(** C6 on the default allocator, for twenty zero bytes. *)
Lemma C6_malloc_read_roundtrip_witness :
  fst (@HelixMemoryManager.read toy_runtime "k"
         (snd (@HelixMemoryManager.malloc toy_runtime "k"
                 (PyBytes twenty_bytes) default_manager)))
  = PyBytes twenty_bytes.
Proof.
  apply (@C6_malloc_read_roundtrip toy_runtime default_manager);
    vm_compute; [discriminate|reflexivity].
Defined.

Lemma get_miss `{PyRuntime} key c :
  HelixCache.resident key c = false ->
  fst (HelixCache.get key c) = PyNone.
Proof.
  unfold HelixCache.resident. intros E.
  apply orb_false_elim in E as [E E3].
  apply orb_false_elim in E as [E1 E2].
  apply od_get_None in E1, E2, E3.
  unfold HelixCache.get. rewrite E1. cbn [HelixCache.count HelixCache.l2_cache].
  rewrite E2. cbn [HelixCache.count HelixCache.l3_cache]. by rewrite E3.
Qed.

Lemma free_known (m : HelixMemoryManager.t) key size :
  HelixMemoryManager.allocations m !! key = Some size ->
  let m' := snd (HelixMemoryManager.free key m) in
  fst (HelixMemoryManager.free key m) = true
  /\ HelixMemoryManager.allocations m' !! key = None
  /\ HelixMemoryManager.total_allocated m'
     = HelixMemoryManager.total_allocated m - size
  /\ HelixMemoryManager.max_virtual m' = HelixMemoryManager.max_virtual m
  /\ HelixCache.resident key (HelixMemoryManager.cache m') = false.
Proof.
  intros E. unfold HelixMemoryManager.free. rewrite E.
  cbn -[OrderedDict.contains OrderedDict.pop].
  split; [done|]. split; [apply lookup_delete_eq|]. do 2 (split; [done|]).
  unfold HelixCache.resident. cbn -[OrderedDict.contains OrderedDict.pop].
  by rewrite !od_contains_pop_eq.
Qed.

(** C10.  A [write] to an allocated key whose new size does not fit the
    budget once the old size is given back returns [False] and has destroyed
    the old value: the key is gone from the allocation table and from all
    three tiers, [total_allocated] went down by the old size, and a following
    [read] misses. *)
Theorem C10_failed_write_destroys_old_value `{PyRuntime}
    (m : HelixMemoryManager.t) (key : string) (data : pyval) (s_old : Z) :
  HelixMemoryManager.allocations m !! key = Some s_old ->
  HelixMemoryManager.total_allocated m - s_old
    + HelixMemoryManager.computed_size data
    > HelixMemoryManager.max_virtual m ->
  let m' := snd (HelixMemoryManager.write key data m) in
  fst (HelixMemoryManager.write key data m) = false
  /\ HelixMemoryManager.allocations m' !! key = None
  /\ OrderedDict.contains key
       (HelixCache.l1_cache (HelixMemoryManager.cache m')) = false
  /\ OrderedDict.contains key
       (HelixCache.l2_cache (HelixMemoryManager.cache m')) = false
  /\ OrderedDict.contains key
       (HelixCache.l3_cache (HelixMemoryManager.cache m')) = false
  /\ HelixMemoryManager.total_allocated m'
     = HelixMemoryManager.total_allocated m - s_old
  /\ fst (HelixMemoryManager.read key m') = PyNone.
Proof.
  intros Ealloc Hover.
  destruct (free_known m key s_old Ealloc) as (_ & F1 & F2 & F3 & F4).
  unfold HelixMemoryManager.write. rewrite Ealloc.
  rewrite malloc_over_budget by (rewrite F2, F3; lia).
  cbn [fst snd]. split; [done|]. split; [done|].
  pose proof F4 as F4'. unfold HelixCache.resident in F4'.
  apply orb_false_elim in F4' as [F4' E3].
  apply orb_false_elim in F4' as [E1 E2].
  do 3 (split; [done|]). split; [done|].
  unfold HelixMemoryManager.read.
  destruct (HelixCache.get key _) as [v c'] eqn:E. cbn [fst].
  change v with (fst (v, c')). rewrite <- E. by apply get_miss.
Qed.

(** C10 on an allocator with 63 of its 64 bytes taken: "k0" is rewritten
    with forty bytes. *)
Lemma C10_failed_write_destroys_old_value_witness :
  let data := PyBytes forty_bytes in
  let m' := snd (@HelixMemoryManager.write toy_runtime "k0" data
                   nearly_full_manager) in
  fst (@HelixMemoryManager.write toy_runtime "k0" data nearly_full_manager)
  = false
  /\ HelixMemoryManager.allocations m' !! "k0"%string = None
  /\ OrderedDict.contains "k0"
       (HelixCache.l1_cache (HelixMemoryManager.cache m')) = false
  /\ OrderedDict.contains "k0"
       (HelixCache.l2_cache (HelixMemoryManager.cache m')) = false
  /\ OrderedDict.contains "k0"
       (HelixCache.l3_cache (HelixMemoryManager.cache m')) = false
  /\ HelixMemoryManager.total_allocated m'
     = HelixMemoryManager.total_allocated nearly_full_manager - 21
  /\ fst (@HelixMemoryManager.read toy_runtime "k0" m') = PyNone.
Proof.
  apply (@C10_failed_write_destroys_old_value toy_runtime
           nearly_full_manager "k0" (PyBytes forty_bytes) 21);
    vm_compute; reflexivity.
Defined.

(* ================================================================== *)
(** ** C3: one key in two tiers *)

(** C3 (the code at the failing input).  With 1 MiB per tier, a second
    [put] of 600000 bytes under the key "a" finds the first block in Hot,
    demotes it to Warm to make room and then inserts the new block into Hot:
    "a" is held by Hot and by Warm at once.  Two [malloc]s under one key end
    the same way. *)
Theorem C3_put_on_hot_key_leaves_two_entries :
  OrderedDict.contains "a" (HelixCache.l1_cache put_twice) = true
  /\ OrderedDict.contains "a" (HelixCache.l2_cache put_twice) = true
  /\ CacheBlock.data <$> OrderedDict.get "a" (HelixCache.l1_cache put_twice)
     = Some (PyBytes [Byte.x02])
  /\ CacheBlock.data <$> OrderedDict.get "a" (HelixCache.l2_cache put_twice)
     = Some (PyBytes [Byte.x01])
  /\ OrderedDict.contains "a"
       (HelixCache.l1_cache (HelixMemoryManager.cache malloc_twice)) = true
  /\ OrderedDict.contains "a"
       (HelixCache.l2_cache (HelixMemoryManager.cache malloc_twice)) = true.
Proof. vm_compute. done. Qed.

(* ================================================================== *)
(** ** C9: an exception that reaches the caller *)

(** C9 (the code at the failing input).  Two descriptors opened on one path
    share the single [path_to_fd] entry; closing the first removes it, and
    closing the second, which is still active, raises [KeyError] after its
    [fd_to_path] entry was already deleted. *)
Theorem C9_second_close_raises_KeyError :
  let '(log, tr) :=
    @run_calls toy_runtime
      [COpen "p" "r"; COpen "p" "r"; CClose 1000; CClose 1001]
      default_translator in
  log = [(COpen "p" "r", AInt (Returned 1000));
         (COpen "p" "r", AInt (Returned 1001));
         (CClose 1000, ABool (Returned true));
         (CClose 1001, ABool (Raised KeyError))]
  /\ HelixTranslator.fd_to_path tr !! 1001 = None.
Proof. vm_compute. done. Qed.

(** [translate_malloc] of a negative size raises from [bytearray(size)]. *)
Example negative_malloc_raises :
  fst (@run_calls toy_runtime [CMalloc (-1)] default_translator)
  = [(CMalloc (-1), AInt (Raised ValueError))].
Proof. vm_compute. reflexivity. Qed.

(* ================================================================== *)
(** ** C4: allocations and residency *)

Lemma stat_bump_eq k st : stat k (bump k st) = stat k st + 1.
Proof. unfold stat at 1, bump. by rewrite lookup_insert_eq. Qed.

Lemma stat_bump_ne k k' st : k ≠ k' -> stat k' (bump k st) = stat k' st.
Proof. intros Hne. unfold stat, bump. by rewrite lookup_insert_ne. Qed.

Ltac cache_simpl :=
  cbn [HelixCache.l1_cache HelixCache.l2_cache HelixCache.l3_cache
       HelixCache.l1_max HelixCache.l2_max HelixCache.l3_max
       HelixCache.stats HelixCache.set_l1 HelixCache.set_l2
       HelixCache.set_l3 HelixCache.count] in *.

Section residency.
Context `{PyRuntime}.
Import HelixCache.

Lemma keeps_residents_refl c : keeps_residents c c.
Proof. split; [lia|auto]. Qed.

Lemma keeps_residents_weaken key c c' :
  keeps_residents c c' -> keeps_residents_but key c c'.
Proof. intros [H1 H2]. split; [done|]. intros E k _. by apply H2. Qed.

Lemma keeps_residents_trans c1 c2 c3 :
  keeps_residents c1 c2 -> keeps_residents c2 c3 -> keeps_residents c1 c3.
Proof.
  intros [A1 A2] [B1 B2]. split; [lia|].
  intros E k Hk. apply B2; [lia|]. apply A2; [lia|done].
Qed.

Lemma keeps_residents_but_trans key c1 c2 c3 :
  keeps_residents_but key c1 c2 -> keeps_residents_but key c2 c3 ->
  keeps_residents_but key c1 c3.
Proof.
  intros [A1 A2] [B1 B2]. split; [lia|].
  intros E k Hne Hk. apply B2; [lia|done|]. apply A2; [lia|done|done].
Qed.

(** Counting anything but an eviction changes neither side. *)
Lemma keeps_residents_count k c :
  k ≠ "evictions"%string -> keeps_residents c (count k c).
Proof.
  intros Hne. unfold keeps_residents, evictions. cache_simpl.
  rewrite stat_bump_ne by done. split; [lia|]. auto.
Qed.

Lemma resident_set_l1 k d c :
  resident k (set_l1 d c)
  = OrderedDict.contains k d || OrderedDict.contains k (l2_cache c)
    || OrderedDict.contains k (l3_cache c).
Proof. reflexivity. Qed.
Lemma resident_set_l2 k d c :
  resident k (set_l2 d c)
  = OrderedDict.contains k (l1_cache c) || OrderedDict.contains k d
    || OrderedDict.contains k (l3_cache c).
Proof. reflexivity. Qed.
Lemma resident_set_l3 k d c :
  resident k (set_l3 d c)
  = OrderedDict.contains k (l1_cache c) || OrderedDict.contains k (l2_cache c)
    || OrderedDict.contains k d.
Proof. reflexivity. Qed.
Lemma resident_count k s c : resident k (count s c) = resident k c.
Proof. reflexivity. Qed.
Lemma evictions_set_l1 d c : evictions (set_l1 d c) = evictions c.
Proof. reflexivity. Qed.
Lemma evictions_set_l2 d c : evictions (set_l2 d c) = evictions c.
Proof. reflexivity. Qed.
Lemma evictions_set_l3 d c : evictions (set_l3 d c) = evictions c.
Proof. reflexivity. Qed.

Lemma orb3_mono (a b c a' b' c' : bool) :
  (a = true -> a' = true) -> (b = true -> b' = true) ->
  (c = true -> c' = true) ->
  a || b || c = true -> a' || b' || c' = true.
Proof. destruct a, b, c, a', b', c'; simpl; intuition congruence. Qed.

(** Taking [key] out of a tier keeps every other key. *)
Lemma keeps_but_pop_l1 key c :
  keeps_residents_but key c (set_l1 (OrderedDict.pop key (l1_cache c)) c).
Proof.
  split; [rewrite evictions_set_l1; lia|]. intros _ k Hne.
  rewrite resident_set_l1. unfold resident.
  by rewrite od_contains_pop_ne.
Qed.
Lemma keeps_but_pop_l2 key c :
  keeps_residents_but key c (set_l2 (OrderedDict.pop key (l2_cache c)) c).
Proof.
  split; [rewrite evictions_set_l2; lia|]. intros _ k Hne.
  rewrite resident_set_l2. unfold resident.
  by rewrite od_contains_pop_ne.
Qed.
Lemma keeps_but_pop_l3 key c :
  keeps_residents_but key c (set_l3 (OrderedDict.pop key (l3_cache c)) c).
Proof.
  split; [rewrite evictions_set_l3; lia|]. intros _ k Hne.
  rewrite resident_set_l3. unfold resident.
  by rewrite od_contains_pop_ne.
Qed.

(** Storing [key] into a tier makes it resident and keeps the others. *)
Lemma od_contains_set_mono {V} k key (v : V) d :
  OrderedDict.contains k d = true ->
  OrderedDict.contains k (OrderedDict.set key v d) = true.
Proof. intros E. rewrite od_contains_set, E. apply orb_true_r. Qed.

Lemma od_contains_set_eq {V} key (v : V) d :
  OrderedDict.contains key (OrderedDict.set key v d) = true.
Proof. by rewrite od_contains_set, String.eqb_refl. Qed.

Lemma keeps_residents_store_l1 key v c :
  keeps_residents c (set_l1 (OrderedDict.set key v (l1_cache c)) c)
  /\ resident key (set_l1 (OrderedDict.set key v (l1_cache c)) c) = true.
Proof.
  split; [split; [rewrite evictions_set_l1; lia|intros _ k]|];
    rewrite resident_set_l1; unfold resident.
  - apply orb3_mono; auto using od_contains_set_mono.
  - by rewrite od_contains_set_eq.
Qed.
Lemma keeps_residents_store_l2 key v c :
  keeps_residents c (set_l2 (OrderedDict.set key v (l2_cache c)) c)
  /\ resident key (set_l2 (OrderedDict.set key v (l2_cache c)) c) = true.
Proof.
  split; [split; [rewrite evictions_set_l2; lia|intros _ k]|];
    rewrite resident_set_l2; unfold resident.
  - apply orb3_mono; auto using od_contains_set_mono.
  - rewrite od_contains_set_eq. apply orb_true_iff. left. apply orb_true_r.
Qed.
Lemma keeps_residents_store_l3 key v c :
  keeps_residents c (set_l3 (OrderedDict.set key v (l3_cache c)) c)
  /\ resident key (set_l3 (OrderedDict.set key v (l3_cache c)) c) = true.
Proof.
  split; [split; [rewrite evictions_set_l3; lia|intros _ k]|];
    rewrite resident_set_l3; unfold resident.
  - apply orb3_mono; auto using od_contains_set_mono.
  - rewrite od_contains_set_eq. apply orb_true_r.
Qed.

(** A move: [key] leaves some tiers, room is made, [key] is stored. *)
Lemma keeps_residents_move key c c1 c2 :
  keeps_residents_but key c c1 ->
  keeps_residents c1 c2 ->
  resident key c2 = true ->
  keeps_residents c c2.
Proof.
  intros A [B1 B2] Hkey.
  destruct (keeps_residents_but_trans key c c1 c2 A
              (keeps_residents_weaken key _ _ (conj B1 B2))) as [C1 C2].
  split; [done|]. intros E k Hk.
  destruct (decide (k = key)) as [->|Hne]; [done|]. by apply C2.
Qed.

Lemma _make_room_l3_keeps_residents needed c :
  keeps_residents c (_make_room_l3 needed c).
Proof.
  unfold _make_room_l3.
  apply (_make_room_l3_loop_keeps (fun c' => keeps_residents c c'));
    [|apply keeps_residents_refl].
  intros c0 key block rest _ [A1 A2].
  assert (evictions (count "evictions"
                       (set_l3 (OrderedDict.pop key (l3_cache c0)) c0))
          = evictions c0 + 1) as E.
  { unfold evictions. cache_simpl. apply stat_bump_eq. }
  split; rewrite E; lia.
Qed.

Lemma _demote_to_l3_keeps_residents key block c :
  keeps_residents c (_demote_to_l3 key block c).
Proof.
  unfold _demote_to_l3.
  destruct (CacheBlock.compress block) as [saved block'].
  set (c1 := set_l2 (OrderedDict.pop key (l2_cache c)) c).
  set (c2 := if saved >? 0 then count "compressions" c1 else c1).
  set (size := match CacheBlock._compressed_data block' with
               | Some (x :: cd) => len (x :: cd)
               | _ => CacheBlock.size_bytes block'
               end).
  set (c3 := _make_room_l3 size c2).
  destruct (keeps_residents_store_l3 key
              (CacheBlock.set_tier L3_COMPRESSED block') c3) as [S1 S2].
  eapply (keeps_residents_move key c c1).
  - apply keeps_but_pop_l2.
  - eapply keeps_residents_trans; [|eapply keeps_residents_trans;
      [apply (_make_room_l3_keeps_residents size c2)|
       eapply keeps_residents_trans;
         [exact S1|by apply keeps_residents_count]]].
    subst c2. destruct (saved >? 0);
      [by apply keeps_residents_count|apply keeps_residents_refl].
  - by rewrite resident_count.
Qed.

Lemma _make_room_l2_keeps_residents needed c :
  keeps_residents c (_make_room_l2 needed c).
Proof.
  unfold _make_room_l2.
  apply (_make_room_l2_loop_keeps (fun c' => keeps_residents c c'));
    [|apply keeps_residents_refl].
  intros c0 key block rest _ A.
  eapply keeps_residents_trans; [exact A|].
  apply _demote_to_l3_keeps_residents.
Qed.

Lemma _demote_to_l2_keeps_residents key block c :
  keeps_residents c (_demote_to_l2 key block c).
Proof.
  unfold _demote_to_l2.
  set (c1 := set_l1 (OrderedDict.pop key (l1_cache c)) c).
  set (c2 := _make_room_l2 (CacheBlock.size_bytes block) c1).
  destruct (keeps_residents_store_l2 key
              (CacheBlock.set_tier L2_WARM block) c2) as [S1 S2].
  eapply (keeps_residents_move key c c1).
  - apply keeps_but_pop_l1.
  - eapply keeps_residents_trans;
      [apply _make_room_l2_keeps_residents|
       eapply keeps_residents_trans;
         [exact S1|by apply keeps_residents_count]].
  - by rewrite resident_count.
Qed.

Lemma _make_room_l1_keeps_residents needed c :
  keeps_residents c (_make_room_l1 needed c).
Proof.
  unfold _make_room_l1.
  apply (_make_room_l1_loop_keeps (fun c' => keeps_residents c c'));
    [|apply keeps_residents_refl].
  intros c0 key block rest _ A.
  eapply keeps_residents_trans; [exact A|].
  apply _demote_to_l2_keeps_residents.
Qed.

Lemma _promote_to_l1_keeps_residents key block c :
  keeps_residents c (_promote_to_l1 key block c).
Proof.
  unfold _promote_to_l1.
  set (c1 := set_l2 (OrderedDict.pop key (l2_cache c)) c).
  set (c2 := _make_room_l1 (CacheBlock.size_bytes block) c1).
  destruct (keeps_residents_store_l1 key
              (CacheBlock.set_tier L1_HOT block) c2) as [S1 S2].
  eapply (keeps_residents_move key c c1).
  - apply keeps_but_pop_l2.
  - eapply keeps_residents_trans;
      [apply _make_room_l1_keeps_residents|
       eapply keeps_residents_trans;
         [exact S1|by apply keeps_residents_count]].
  - by rewrite resident_count.
Qed.

Lemma _promote_to_l2_keeps_residents key block c :
  keeps_residents c (_promote_to_l2 key block c).
Proof.
  unfold _promote_to_l2.
  set (c1 := set_l3 (OrderedDict.pop key (l3_cache c)) c).
  set (c2 := _make_room_l2 (CacheBlock.size_bytes block) c1).
  destruct (keeps_residents_store_l2 key
              (CacheBlock.set_tier L2_WARM block) c2) as [S1 S2].
  eapply (keeps_residents_move key c c1).
  - apply keeps_but_pop_l3.
  - eapply keeps_residents_trans;
      [apply _make_room_l2_keeps_residents|
       eapply keeps_residents_trans;
         [exact S1|by apply keeps_residents_count]].
  - by rewrite resident_count.
Qed.

Lemma put_keeps_residents key data size c :
  keeps_residents c (put key data size c)
  /\ resident key (put key data size c) = true.
Proof.
  unfold put.
  set (c1 := set_l2 (OrderedDict.pop key (l2_cache c)) c).
  set (c2 := set_l3 (OrderedDict.pop key (l3_cache c1)) c1).
  set (c3 := _make_room_l1 size c2).
  destruct (keeps_residents_store_l1 key
              (CacheBlock.new key data L1_HOT size) c3) as [S1 S2].
  split; [|done].
  eapply (keeps_residents_move key c c2); [| |exact S2].
  - eapply keeps_residents_but_trans;
      [apply keeps_but_pop_l2|apply keeps_but_pop_l3].
  - eapply keeps_residents_trans;
      [apply _make_room_l1_keeps_residents|exact S1].
Qed.

Lemma keeps_residents_move_to_end_l1 key c :
  keeps_residents c (set_l1 (OrderedDict.move_to_end key (l1_cache c)) c).
Proof.
  split; [rewrite evictions_set_l1; lia|]. intros _ k.
  rewrite resident_set_l1. unfold resident.
  by rewrite od_contains_move_to_end.
Qed.
Lemma keeps_residents_move_to_end_l2 key c :
  keeps_residents c (set_l2 (OrderedDict.move_to_end key (l2_cache c)) c).
Proof.
  split; [rewrite evictions_set_l2; lia|]. intros _ k.
  rewrite resident_set_l2. unfold resident.
  by rewrite od_contains_move_to_end.
Qed.
Lemma keeps_residents_move_to_end_l3 key c :
  keeps_residents c (set_l3 (OrderedDict.move_to_end key (l3_cache c)) c).
Proof.
  split; [rewrite evictions_set_l3; lia|]. intros _ k.
  rewrite resident_set_l3. unfold resident.
  by rewrite od_contains_move_to_end.
Qed.

Lemma get_keeps_residents key c :
  keeps_residents c (snd (get key c)).
Proof.
  unfold get.
  destruct (OrderedDict.get key (l1_cache c)) as [b1|].
  { cbn [snd].
    eapply keeps_residents_trans; [by apply (keeps_residents_count "l1_hits")|].
    eapply keeps_residents_trans;
      [apply (keeps_residents_store_l1 key (CacheBlock.access b1))|].
    apply keeps_residents_move_to_end_l1. }
  eapply keeps_residents_trans; [by apply (keeps_residents_count "l1_misses")|].
  set (c1 := count "l1_misses" c).
  destruct (OrderedDict.get key (l2_cache c1)) as [b2|].
  { eapply keeps_residents_trans; [by apply (keeps_residents_count "l2_hits")|].
    eapply keeps_residents_trans;
      [apply (keeps_residents_store_l2 key (CacheBlock.access b2))|].
    destruct (_ >? 3); cbn [snd].
    - apply _promote_to_l1_keeps_residents.
    - apply keeps_residents_move_to_end_l2. }
  eapply keeps_residents_trans; [by apply (keeps_residents_count "l2_misses")|].
  set (c2 := count "l2_misses" c1).
  destruct (OrderedDict.get key (l3_cache c2)) as [b3|].
  { eapply keeps_residents_trans; [by apply (keeps_residents_count "l3_hits")|].
    set (b3' := if CacheBlock.compressed (CacheBlock.access b3)
                then CacheBlock.decompress (CacheBlock.access b3)
                else CacheBlock.access b3).
    eapply keeps_residents_trans;
      [apply (keeps_residents_store_l3 key b3')|].
    destruct (_ >? 2); cbn [snd].
    - apply _promote_to_l2_keeps_residents.
    - apply keeps_residents_move_to_end_l3. }
  cbn [snd]. by apply keeps_residents_count.
Qed.

End residency.

Section evicted_keys.
Context `{PyRuntime}.
Import HelixCache.

Lemma len_append {A} (l l' : list A) : len (l ++ l') = len l + len l'.
Proof. unfold len. rewrite length_app. lia. Qed.

Lemma evicts_refl c : evicts [] c c.
Proof. split; [unfold len; simpl; lia|auto]. Qed.

(** A step that keeps the residents and the counter evicts nothing. *)
Lemma evicts_nothing c c' :
  keeps_residents c c' -> evictions c' = evictions c -> evicts [] c c'.
Proof.
  intros [_ K] E. split; [unfold len; simpl; lia|].
  intros k Hk. left. by apply K.
Qed.

Lemma evicts_but_nothing key c c' :
  keeps_residents_but key c c' -> evictions c' = evictions c ->
  evicts_but key [] c c'.
Proof.
  intros [_ K] E. split; [unfold len; simpl; lia|].
  intros k Hne Hk. left. by apply K.
Qed.

Lemma evicts_trans V1 V2 c1 c2 c3 :
  evicts V1 c1 c2 -> evicts V2 c2 c3 -> evicts (V1 ++ V2) c1 c3.
Proof.
  intros [A1 A2] [B1 B2]. split; [rewrite len_append; lia|].
  intros k Hk. rewrite in_app_iff.
  destruct (A2 k Hk) as [Hk2|?]; [|by auto].
  destruct (B2 k Hk2); by auto.
Qed.

Lemma evicts_but_trans key V1 V2 c1 c2 c3 :
  evicts_but key V1 c1 c2 -> evicts_but key V2 c2 c3 ->
  evicts_but key (V1 ++ V2) c1 c3.
Proof.
  intros [A1 A2] [B1 B2]. split; [rewrite len_append; lia|].
  intros k Hne Hk. rewrite in_app_iff.
  destruct (A2 k Hne Hk) as [Hk2|?]; [|by auto].
  destruct (B2 k Hne Hk2); by auto.
Qed.

Lemma evicts_count V k c c' :
  k ≠ "evictions"%string -> evicts V c c' -> evicts V c (count k c').
Proof.
  intros Hne [E K]. split; [|exact K].
  unfold evictions in *. cache_simpl. by rewrite stat_bump_ne.
Qed.

Lemma evicts_count_first V k c c' :
  k ≠ "evictions"%string -> evicts V (count k c) c' -> evicts V c c'.
Proof.
  intros Hne [E K]. split; [|exact K].
  unfold evictions in *. cache_simpl. by rewrite stat_bump_ne in E.
Qed.

(** A move: [key] leaves some tiers, room is made, [key] is stored. *)
Lemma evicts_move key V c c1 c2 :
  evicts_but key [] c c1 ->
  evicts V c1 c2 ->
  resident key c2 = true ->
  evicts V c c2.
Proof.
  intros [A1 A2] [B1 B2] Hkey. split; [unfold len in *; simpl in *; lia|].
  intros k Hk. destruct (decide (k = key)) as [->|Hne]; [by left|].
  destruct (A2 k Hne Hk) as [Hk1|[]]. by apply B2.
Qed.

Lemma _make_room_l3_loop_evicts fuel needed c :
  evicts (Evicted._make_room_l3_loop fuel needed c) c
    (_make_room_l3_loop fuel needed c).
Proof.
  revert c. induction fuel as [|fuel IH]; intros c; simpl;
    [apply evicts_refl|].
  destruct (l3_cache c) as [|[key block] rest] eqn:E; [apply evicts_refl|].
  rewrite <- E. destruct (_ >? _); [|apply evicts_refl].
  eapply (evicts_trans [key]); [|apply IH].
  split.
  - unfold evictions. cache_simpl. rewrite stat_bump_eq.
    unfold len. simpl. lia.
  - intros k Hk. destruct (decide (k = key)) as [->|Hne];
      [right; by left|left].
    rewrite resident_count, resident_set_l3. revert Hk. unfold resident.
    by rewrite od_contains_pop_ne.
Qed.

Lemma _make_room_l3_evicts needed c :
  evicts (Evicted._make_room_l3 needed c) c (_make_room_l3 needed c).
Proof. apply _make_room_l3_loop_evicts. Qed.

Lemma _demote_to_l3_evicts key block c :
  evicts (Evicted._demote_to_l3 key block c) c (_demote_to_l3 key block c).
Proof.
  unfold _demote_to_l3, Evicted._demote_to_l3.
  destruct (CacheBlock.compress block) as [saved block'].
  set (c1 := set_l2 (OrderedDict.pop key (l2_cache c)) c).
  set (c2 := if saved >? 0 then count "compressions" c1 else c1).
  set (size := match CacheBlock._compressed_data block' with
               | Some (x :: cd) => len (x :: cd)
               | _ => CacheBlock.size_bytes block'
               end).
  set (c3 := _make_room_l3 size c2).
  destruct (keeps_residents_store_l3 key
              (CacheBlock.set_tier L3_COMPRESSED block') c3) as [S1 S2].
  apply (evicts_move key _ c c2).
  - subst c2. destruct (saved >? 0).
    + destruct (evicts_but_nothing key c c1 (keeps_but_pop_l2 key c) eq_refl)
        as [E K].
      split; [|exact K]. unfold evictions in *. cache_simpl.
      by rewrite stat_bump_ne.
    + by apply evicts_but_nothing; [apply keeps_but_pop_l2|].
  - apply evicts_count; [done|].
    rewrite <- (app_nil_r (Evicted._make_room_l3 size c2)).
    eapply evicts_trans; [apply _make_room_l3_evicts|].
    by apply evicts_nothing.
  - by rewrite resident_count.
Qed.

Lemma _make_room_l2_loop_evicts fuel needed c :
  evicts (Evicted._make_room_l2_loop fuel needed c) c
    (_make_room_l2_loop fuel needed c).
Proof.
  revert c. induction fuel as [|fuel IH]; intros c; simpl;
    [apply evicts_refl|].
  destruct (l2_cache c) as [|[key block] rest] eqn:E; [apply evicts_refl|].
  rewrite <- E. destruct (_ >? _); [|apply evicts_refl].
  eapply evicts_trans; [apply _demote_to_l3_evicts|apply IH].
Qed.

Lemma _make_room_l2_evicts needed c :
  evicts (Evicted._make_room_l2 needed c) c (_make_room_l2 needed c).
Proof. apply _make_room_l2_loop_evicts. Qed.

Lemma _demote_to_l2_evicts key block c :
  evicts (Evicted._demote_to_l2 key block c) c (_demote_to_l2 key block c).
Proof.
  unfold _demote_to_l2, Evicted._demote_to_l2.
  set (c1 := set_l1 (OrderedDict.pop key (l1_cache c)) c).
  set (c2 := _make_room_l2 (CacheBlock.size_bytes block) c1).
  destruct (keeps_residents_store_l2 key
              (CacheBlock.set_tier L2_WARM block) c2) as [S1 S2].
  apply (evicts_move key _ c c1).
  - by apply evicts_but_nothing; [apply keeps_but_pop_l1|].
  - apply evicts_count; [done|].
    rewrite <- (app_nil_r (Evicted._make_room_l2 _ c1)).
    eapply evicts_trans; [apply _make_room_l2_evicts|].
    by apply evicts_nothing.
  - by rewrite resident_count.
Qed.

Lemma _make_room_l1_loop_evicts fuel needed c :
  evicts (Evicted._make_room_l1_loop fuel needed c) c
    (_make_room_l1_loop fuel needed c).
Proof.
  revert c. induction fuel as [|fuel IH]; intros c; simpl;
    [apply evicts_refl|].
  destruct (l1_cache c) as [|[key block] rest] eqn:E; [apply evicts_refl|].
  rewrite <- E. destruct (_ >? _); [|apply evicts_refl].
  eapply evicts_trans; [apply _demote_to_l2_evicts|apply IH].
Qed.

Lemma _make_room_l1_evicts needed c :
  evicts (Evicted._make_room_l1 needed c) c (_make_room_l1 needed c).
Proof. apply _make_room_l1_loop_evicts. Qed.

Lemma _promote_to_l1_evicts key block c :
  evicts (Evicted._promote_to_l1 key block c) c (_promote_to_l1 key block c).
Proof.
  unfold _promote_to_l1, Evicted._promote_to_l1.
  set (c1 := set_l2 (OrderedDict.pop key (l2_cache c)) c).
  set (c2 := _make_room_l1 (CacheBlock.size_bytes block) c1).
  destruct (keeps_residents_store_l1 key
              (CacheBlock.set_tier L1_HOT block) c2) as [S1 S2].
  apply (evicts_move key _ c c1).
  - by apply evicts_but_nothing; [apply keeps_but_pop_l2|].
  - apply evicts_count; [done|].
    rewrite <- (app_nil_r (Evicted._make_room_l1 _ c1)).
    eapply evicts_trans; [apply _make_room_l1_evicts|].
    by apply evicts_nothing.
  - by rewrite resident_count.
Qed.

Lemma _promote_to_l2_evicts key block c :
  evicts (Evicted._promote_to_l2 key block c) c (_promote_to_l2 key block c).
Proof.
  unfold _promote_to_l2, Evicted._promote_to_l2.
  set (c1 := set_l3 (OrderedDict.pop key (l3_cache c)) c).
  set (c2 := _make_room_l2 (CacheBlock.size_bytes block) c1).
  destruct (keeps_residents_store_l2 key
              (CacheBlock.set_tier L2_WARM block) c2) as [S1 S2].
  apply (evicts_move key _ c c1).
  - by apply evicts_but_nothing; [apply keeps_but_pop_l3|].
  - apply evicts_count; [done|].
    rewrite <- (app_nil_r (Evicted._make_room_l2 _ c1)).
    eapply evicts_trans; [apply _make_room_l2_evicts|].
    by apply evicts_nothing.
  - by rewrite resident_count.
Qed.

Lemma put_evicts key data size c :
  evicts (Evicted.put key data size c) c (put key data size c).
Proof.
  unfold put, Evicted.put.
  set (c1 := set_l2 (OrderedDict.pop key (l2_cache c)) c).
  set (c2 := set_l3 (OrderedDict.pop key (l3_cache c1)) c1).
  set (c3 := _make_room_l1 size c2).
  destruct (keeps_residents_store_l1 key
              (CacheBlock.new key data L1_HOT size) c3) as [S1 S2].
  apply (evicts_move key _ c c2); [| |exact S2].
  - change (@nil string) with (@nil string ++ []).
    eapply evicts_but_trans;
      by apply evicts_but_nothing;
        [first [apply keeps_but_pop_l2|apply keeps_but_pop_l3]|].
  - rewrite <- (app_nil_r (Evicted._make_room_l1 size c2)).
    eapply evicts_trans; [apply _make_room_l1_evicts|].
    by apply evicts_nothing.
Qed.

Lemma get_evicts key c :
  evicts (Evicted.get key c) c (snd (get key c)).
Proof.
  unfold get, Evicted.get.
  destruct (OrderedDict.get key (l1_cache c)) as [b1|].
  { cbn [snd]. apply evicts_nothing;
      [|unfold evictions; cache_simpl; by rewrite stat_bump_ne].
    eapply keeps_residents_trans; [by apply (keeps_residents_count "l1_hits")|].
    eapply keeps_residents_trans;
      [apply (keeps_residents_store_l1 key (CacheBlock.access b1))|].
    apply keeps_residents_move_to_end_l1. }
  apply (evicts_count_first _ "l1_misses"); [done|].
  set (c1 := count "l1_misses" c).
  destruct (OrderedDict.get key (l2_cache c1)) as [b2|].
  { apply (evicts_count_first _ "l2_hits"); [done|].
    set (c2 := set_l2 _ (count "l2_hits" c1)).
    assert (evicts [] (count "l2_hits" c1) c2) as S.
    { by apply evicts_nothing;
        [apply (keeps_residents_store_l2 key (CacheBlock.access b2))|]. }
    destruct (_ >? 3); cbn [snd].
    - eapply (evicts_trans []); [exact S|apply _promote_to_l1_evicts].
    - eapply (evicts_trans [] []); [exact S|].
      by apply evicts_nothing; [apply keeps_residents_move_to_end_l2|]. }
  apply (evicts_count_first _ "l2_misses"); [done|].
  set (c2 := count "l2_misses" c1).
  destruct (OrderedDict.get key (l3_cache c2)) as [b3|].
  { apply (evicts_count_first _ "l3_hits"); [done|].
    set (b3' := if CacheBlock.compressed (CacheBlock.access b3)
                then CacheBlock.decompress (CacheBlock.access b3)
                else CacheBlock.access b3).
    set (c3 := set_l3 _ (count "l3_hits" c2)).
    assert (evicts [] (count "l3_hits" c2) c3) as S.
    { by apply evicts_nothing; [apply (keeps_residents_store_l3 key b3')|]. }
    destruct (_ >? 2); cbn [snd].
    - eapply (evicts_trans []); [exact S|apply _promote_to_l2_evicts].
    - eapply (evicts_trans [] []); [exact S|].
      by apply evicts_nothing; [apply keeps_residents_move_to_end_l3|]. }
  cbn [snd]. apply evicts_count; [done|apply evicts_refl].
Qed.

End evicted_keys.

Section alloc_residency.
Context `{PyRuntime}.
Import HelixMemoryManager.

Lemma in_without k key keys :
  In k (without key keys) <-> In k keys /\ key ≠ Some k.
Proof.
  destruct key as [k0|]; simpl; [|by intuition].
  rewrite filter_In, negb_true_iff, String.eqb_neq.
  split; intros [A B]; (split; [done|]); congruence.
Qed.

(** Releasing [key] keeps the other keys resident and evicts nothing. *)
Lemma free_keeps_others key m :
  evictions (cache (snd (free key m))) = evictions (cache m)
  /\ forall k, k ≠ key -> HelixCache.resident k (cache m) = true ->
               HelixCache.resident k (cache (snd (free key m))) = true.
Proof.
  unfold free. destruct (allocations m !! key); [|done].
  cbn [snd cache]. split; [done|]. intros k Hne.
  unfold HelixCache.resident. cache_simpl.
  by rewrite !od_contains_pop_ne.
Qed.

Lemma free_allocations key m k :
  is_Some (allocations (snd (free key m)) !! k) ->
  is_Some (allocations m !! k)
  /\ (is_Some (allocations m !! key) -> k ≠ key).
Proof.
  unfold free. destruct (allocations m !! key) as [size|] eqn:E;
    cbn [snd allocations].
  - intros Hk. destruct (decide (k = key)) as [->|Hne].
    + rewrite lookup_delete_eq in Hk. by destruct Hk.
    + rewrite lookup_delete_ne in Hk by done. by split.
  - intros Hk. split; [done|]. intros [? ?]. congruence.
Qed.

Lemma malloc_evicts key data m :
  evicts (Evicted.malloc key data m) (cache m)
    (cache (snd (malloc key data m)))
  /\ (fst (malloc key data m) = true ->
      HelixCache.resident key (cache (snd (malloc key data m))) = true
      /\ allocations (snd (malloc key data m))
         = <[key := computed_size data]> (allocations m))
  /\ (fst (malloc key data m) = false -> snd (malloc key data m) = m).
Proof.
  unfold malloc, Evicted.malloc.
  destruct (_ >? _); cbn [fst snd cache allocations].
  - split; [apply evicts_refl|]. by split.
  - split; [apply put_evicts|]. split; [|done].
    intros _. split; [apply put_keeps_residents|done].
Qed.

Lemma alloc_resident_evicts lost V m c' :
  alloc_resident lost m -> evicts V (cache m) c' ->
  alloc_resident (lost ++ V) (set_cache c' m).
Proof.
  intros A [_ K] k Hk Hn. cbn [cache set_cache allocations] in *.
  rewrite in_app_iff in Hn.
  destruct (K k) as [?|?]; [apply A; tauto|done|tauto].
Qed.

Lemma alloc_resident_malloc lost key data m :
  alloc_resident lost m ->
  alloc_resident (without (renewed (Malloc key data) m)
                    (lost ++ Evicted.malloc key data m))
    (snd (malloc key data m)).
Proof.
  intros A k Hk Hn. cbn [renewed] in Hn.
  destruct (malloc_evicts key data m) as ([_ K] & Hok & Hno).
  rewrite in_without, in_app_iff in Hn.
  destruct (fst (malloc key data m)) eqn:Ok.
  - destruct (Hok eq_refl) as [Hres Hall].
    destruct (decide (k = key)) as [->|Hne]; [done|].
    rewrite Hall, lookup_insert_ne in Hk by done.
    destruct (K k) as [?|?]; [|done|].
    + apply A; [done|]. intros ?. apply Hn. split; [tauto|congruence].
    + destruct Hn. split; [tauto|congruence].
  - rewrite Hno in * by done. apply A; [done|].
    intros ?. apply Hn. split; [tauto|done].
Qed.

Lemma alloc_resident_free lost key m :
  alloc_resident lost m ->
  alloc_resident (without (Some key) (lost ++ [])) (snd (free key m)).
Proof.
  intros A k Hk Hn. rewrite in_without, in_app_iff in Hn.
  destruct (free_keeps_others key m) as [_ K].
  destruct (free_allocations key m k Hk) as [Hk0 Hne].
  destruct (decide (k = key)) as [->|Hne'].
  - assert (snd (free key m) = m) as ->.
    { unfold free. destruct (allocations m !! key) eqn:E; [|done].
      destruct Hne; eauto. }
    destruct Hk0 as [size Hk0]. unfold free in Hk. rewrite Hk0 in Hk.
    cbn [snd allocations] in Hk. rewrite lookup_delete_eq in Hk.
    by destruct Hk.
  - apply K; [done|]. apply A; [done|].
    intros ?. apply Hn. split; [tauto|congruence].
Qed.

Lemma alloc_resident_write lost key data m :
  alloc_resident lost m ->
  alloc_resident (without (renewed (Write key data) m)
                    (lost ++ Evicted.write key data m))
    (snd (write key data m)).
Proof.
  intros A. cbn [renewed]. unfold write, Evicted.write.
  set (m1 := match allocations m !! key with
             | Some _ => snd (free key m)
             | None => m
             end).
  assert (forall k, is_Some (allocations m1 !! k) -> ~ In k lost ->
            HelixCache.resident k (cache m1) = true) as A1.
  { subst m1. destruct (allocations m !! key) as [size|] eqn:E; [|exact A].
    intros k Hk Hn. destruct (free_allocations key m k Hk) as [Hk0 Hne].
    destruct (free_keeps_others key m) as [_ K].
    apply K; [apply Hne; eauto|]. by apply A. }
  intros k Hk Hn.
  destruct (malloc_evicts key data m1) as ([_ K] & Hok & Hno).
  rewrite in_without, in_app_iff in Hn.
  destruct (fst (malloc key data m1)) eqn:Ok.
  - destruct (Hok eq_refl) as [Hres Hall].
    destruct (decide (k = key)) as [->|Hne]; [done|].
    rewrite Hall, lookup_insert_ne in Hk by done.
    destruct (K k) as [?|?]; [|done|].
    + apply A1; [done|]. intros ?. apply Hn. split; [tauto|congruence].
    + destruct Hn. split; [tauto|congruence].
  - rewrite Hno in * by done. apply A1; [done|].
    intros ?. apply Hn. split; [tauto|done].
Qed.

Lemma alloc_resident_put lost key data size m :
  alloc_resident lost m ->
  alloc_resident
    (without (Some key) (lost ++ Evicted.put key data size (cache m)))
    (set_cache (HelixCache.put key data size (cache m)) m).
Proof.
  intros A k Hk Hn. cbn [cache set_cache allocations] in *.
  rewrite in_without, in_app_iff in Hn.
  destruct (decide (k = key)) as [->|Hne]; [apply put_keeps_residents|].
  destruct (put_evicts key data size (cache m)) as [_ K].
  destruct (K k) as [?|?]; [|done|].
  - apply A; [done|]. intros ?. apply Hn. split; [tauto|congruence].
  - destruct Hn. split; [tauto|congruence].
Qed.

Lemma alloc_resident_evicted lost o m :
  alloc_resident lost m ->
  alloc_resident (without (renewed o m) (lost ++ op_evicted o m))
    (run_op o m).
Proof.
  intros A. destruct o; cbn [run_op op_evicted].
  - cbn [renewed without].
    apply alloc_resident_evicts; [done|apply get_evicts].
  - by apply alloc_resident_put.
  - by apply alloc_resident_malloc.
  - by apply alloc_resident_free.
  - cbn [renewed without]. unfold read.
    pose proof (get_evicts key (cache m)) as G.
    destruct (HelixCache.get key (cache m)) as [v c']. cbn [snd] in *.
    by apply alloc_resident_evicts.
  - by apply alloc_resident_write.
Qed.

(** An evicted key that some tier still holds need not be counted. *)
Lemma alloc_resident_run_op lost o m :
  alloc_resident lost m ->
  alloc_resident (without (renewed o m) (lost ++ op_lost o m)) (run_op o m).
Proof.
  intros A k Hk Hn.
  destruct (HelixCache.resident k (cache (run_op o m))) eqn:R; [done|].
  rewrite <- R. apply (alloc_resident_evicted lost o m A k Hk).
  rewrite in_without, in_app_iff in *. intros [[Hl|He] Hr]; apply Hn.
  - by split; [left|].
  - split; [right|done]. unfold op_lost. rewrite filter_In.
    split; [done|]. by rewrite R.
Qed.

Lemma alloc_resident_run_ops os lost m :
  alloc_resident lost m ->
  alloc_resident (lost_keys os m lost) (run_ops os m).
Proof.
  revert lost m. induction os as [|o os IH]; intros lost m A; [done|].
  cbn [lost_keys]. change (run_ops (o :: os) m) with (run_ops os (run_op o m)).
  apply IH. by apply alloc_resident_run_op.
Qed.

Lemma alloc_resident_fresh m1 m2 m3 budget :
  alloc_resident [] (fresh_manager m1 m2 m3 budget).
Proof.
  intros k [v Hk]. unfold fresh_manager in Hk. cbn [allocations] in Hk.
  by rewrite lookup_empty in Hk.
Qed.

(** Every eviction that the cache counts is an entry of [evicted_keys]. *)
Lemma op_evicted_counted o m :
  evictions (cache (run_op o m))
  = evictions (cache m) + len (op_evicted o m).
Proof.
  destruct o; cbn [run_op op_evicted].
  - apply get_evicts.
  - apply put_evicts.
  - apply malloc_evicts.
  - destruct (free_keeps_others key m) as [E _]. rewrite E.
    unfold len. simpl. lia.
  - unfold read. pose proof (get_evicts key (cache m)) as [G _].
    by destruct (HelixCache.get key (cache m)).
  - unfold write, Evicted.write.
    destruct (allocations m !! key).
    + destruct (malloc_evicts key data (snd (free key m))) as ([E _] & _).
      destruct (free_keeps_others key m) as [F _]. by rewrite E, F.
    + apply malloc_evicts.
Qed.

Lemma evicted_keys_counted os m :
  evictions (cache (run_ops os m))
  = evictions (cache m) + len (evicted_keys os m).
Proof.
  revert m. induction os as [|o os IH]; intros m.
  { unfold len. simpl. lia. }
  change (run_ops (o :: os) m) with (run_ops os (run_op o m)).
  cbn [evicted_keys]. rewrite IH, op_evicted_counted, len_append. lia.
Qed.

(** A lost key was lost before the run or evicted by it. *)
Lemma lost_keys_evicted os m lost k :
  In k (lost_keys os m lost) -> In k lost \/ In k (evicted_keys os m).
Proof.
  revert m lost. induction os as [|o os IH]; intros m lost; cbn; [by left|].
  intros Hk. destruct (IH _ _ Hk) as [Hl|He].
  - apply in_without in Hl as [Hl _]. rewrite in_app_iff in *.
    destruct Hl as [?|[? _]%filter_In]; tauto.
  - rewrite in_app_iff. tauto.
Qed.

Lemma is_lost_spec key os m :
  is_lost key os m = false <-> ~ In key (lost_keys os m []).
Proof.
  unfold is_lost. split.
  - intros E Hin. rewrite <- not_true_iff_false in E. apply E.
    apply existsb_exists. exists key. split; [done|apply String.eqb_refl].
  - intros Hn. destruct (existsb _ _) eqn:E; [|done].
    apply existsb_exists in E as (x & Hx & ->%String.eqb_eq). done.
Qed.

End alloc_residency.

(** Without an eviction no key is lost: while the eviction counter of a run
    from a fresh allocator is 0, every allocated key is resident. *)
Lemma allocations_resident_until_eviction `{PyRuntime}
    (m1 m2 m3 budget : Z) (os : list op) (key : string) :
  let m := run_ops os (fresh_manager m1 m2 m3 budget) in
  evictions (HelixMemoryManager.cache m) = 0 ->
  is_Some (HelixMemoryManager.allocations m !! key) ->
  HelixCache.resident key (HelixMemoryManager.cache m) = true.
Proof.
  intros m E Hk.
  apply (alloc_resident_run_ops os [] _
           (alloc_resident_fresh m1 m2 m3 budget)); [done|].
  intros [[]|Hin]%lost_keys_evicted.
  pose proof (evicted_keys_counted os (fresh_manager m1 m2 m3 budget)) as C.
  fold m in C. rewrite E in C.
  destruct (evicted_keys os _); [done|].
  unfold len in C. simpl in C. change (evictions _) with 0 in C. lia.
Qed.

(** C4 (as stated) fails: "a" was evicted from the Compressed tier to make
    room for younger blocks and no tier holds it, yet it is still in the
    allocation table.  (On this runtime the eviction comes with the fourth
    allocation; a codec that shrinks the blocks more delays it.) *)
Lemma C4_evicted_key_stays_allocated :
  is_Some (HelixMemoryManager.allocations six_mallocs !! "a"%string)
  /\ HelixCache.resident "a" (HelixMemoryManager.cache six_mallocs) = false
  /\ 0 < evictions (HelixMemoryManager.cache six_mallocs).
Proof. vm_compute. eauto. Qed.

(* ================================================================== *)
(** ** C2: occupancy of the tiers *)

Section tier_sizes.
Implicit Types (d : list (string * CacheBlock.t)) (b : CacheBlock.t).

Lemma len_nonneg {A} (l : list A) : 0 <= len l.
Proof. unfold len. lia. Qed.

Lemma all_blocks_pop Q k d :
  all_blocks Q d -> all_blocks Q (OrderedDict.pop k d).
Proof.
  unfold all_blocks. induction 1 as [|[k' v'] d Hx Hd IH]; simpl; [done|].
  destruct (String.eqb k' k); simpl; [done|]. by constructor.
Qed.

Lemma all_blocks_set Q k b d :
  Q b -> all_blocks Q d -> all_blocks Q (OrderedDict.set k b d).
Proof.
  unfold all_blocks. intros Hb. induction 1 as [|[k' v'] d Hx Hd IH]; simpl.
  - by repeat constructor.
  - destruct (String.eqb k' k); by constructor.
Qed.

Lemma all_blocks_get Q k b d :
  all_blocks Q d -> OrderedDict.get k d = Some b -> Q b.
Proof.
  unfold all_blocks. induction 1 as [|[k' v'] d Hx Hd IH]; simpl; [done|].
  destruct (String.eqb k' k); [by intros [= <-]|done].
Qed.

Lemma all_blocks_move_to_end Q k d :
  all_blocks Q d -> all_blocks Q (OrderedDict.move_to_end k d).
Proof.
  intros Hd. unfold OrderedDict.move_to_end.
  destruct (OrderedDict.get k d) as [b|] eqn:E; [|done].
  apply Forall_app. split; [by apply all_blocks_pop|].
  repeat constructor. by eapply all_blocks_get.
Qed.

Lemma all_blocks_impl (Q R : CacheBlock.t -> Prop) d :
  (forall b, Q b -> R b) -> all_blocks Q d -> all_blocks R d.
Proof.
  intros HQR Hd. unfold all_blocks in *.
  eapply Forall_impl; [exact Hd|]. intros x. apply HQR.
Qed.

Lemma tier_size_nonneg d :
  all_blocks nonneg d -> 0 <= HelixCache._get_tier_size d.
Proof.
  unfold all_blocks, nonneg. induction 1 as [|[k v] d Hx Hd IH]; simpl in *; lia.
Qed.

Lemma tier_size_app d1 d2 :
  HelixCache._get_tier_size (d1 ++ d2)
  = HelixCache._get_tier_size d1 + HelixCache._get_tier_size d2.
Proof. induction d1 as [|[k v] d1 IH]; simpl; lia. Qed.

Lemma tier_size_pop_le k d :
  all_blocks nonneg d ->
  HelixCache._get_tier_size (OrderedDict.pop k d) <= HelixCache._get_tier_size d.
Proof.
  unfold all_blocks, nonneg. induction 1 as [|[k' v'] d Hx Hd IH]; simpl in *; [lia|].
  destruct (String.eqb k' k); simpl; lia.
Qed.

Lemma tier_size_set_le k b d :
  all_blocks nonneg d ->
  HelixCache._get_tier_size (OrderedDict.set k b d)
  <= HelixCache._get_tier_size d + CacheBlock.effective_size b.
Proof.
  unfold all_blocks, nonneg. induction 1 as [|[k' v'] d Hx Hd IH]; simpl in *; [lia|].
  destruct (String.eqb k' k); simpl; lia.
Qed.

Lemma tier_size_set_same k b b0 d :
  OrderedDict.get k d = Some b0 ->
  CacheBlock.effective_size b = CacheBlock.effective_size b0 ->
  HelixCache._get_tier_size (OrderedDict.set k b d) = HelixCache._get_tier_size d.
Proof.
  intros Hget Heq. induction d as [|[k' v'] d IH]; simpl in *; [done|].
  destruct (String.eqb k' k); simpl.
  - injection Hget as ->. lia.
  - rewrite IH by done. lia.
Qed.

Lemma tier_size_pop_get k b d :
  all_blocks nonneg d ->
  OrderedDict.get k d = Some b ->
  HelixCache._get_tier_size (OrderedDict.pop k d) + CacheBlock.effective_size b
  <= HelixCache._get_tier_size d.
Proof.
  unfold all_blocks, nonneg. induction 1 as [|[k' v'] d Hx Hd IH]; simpl in *; [done|].
  destruct (String.eqb k' k) eqn:E; simpl.
  - intros [= <-].
    pose proof (tier_size_pop_le k d Hd). unfold OrderedDict.pop in *. lia.
  - intros Hg. specialize (IH Hg). unfold OrderedDict.pop in *. lia.
Qed.

Lemma tier_size_move_to_end_le k d :
  all_blocks nonneg d ->
  HelixCache._get_tier_size (OrderedDict.move_to_end k d)
  <= HelixCache._get_tier_size d.
Proof.
  intros Hd. unfold OrderedDict.move_to_end.
  destruct (OrderedDict.get k d) as [b|] eqn:E; [|lia].
  rewrite tier_size_app. simpl.
  pose proof (tier_size_pop_get k b d Hd E). lia.
Qed.

End tier_sizes.

Section occupancy.
Context `{PyRuntime}.
Hypothesis zlib_roundtrip : forall s, zlib_decompress (zlib_compress s) = Some s.
Hypothesis pickle_loads_total :
  forall v s, pickle_dumps v = Some s -> is_Some (pickle_loads s).
Variable cap : Z.
Import HelixCache.

Local Abbreviation good := (fun b => block_fits cap b /\ plain b).

Lemma block_fits_nonneg b : block_fits cap b -> nonneg b.
Proof.
  intros [[Hs _] _]. unfold nonneg, CacheBlock.effective_size.
  destruct (_ && _); [|done].
  destruct (CacheBlock._compressed_data b); [apply len_nonneg|done].
Qed.

Lemma all_good_nonneg d : all_blocks good d -> all_blocks nonneg d.
Proof. apply all_blocks_impl. intros b [Hb _]. by apply block_fits_nonneg. Qed.

Lemma all_fits_nonneg d : all_blocks (block_fits cap) d -> all_blocks nonneg d.
Proof. apply all_blocks_impl, block_fits_nonneg. Qed.

Lemma all_good_fits d :
  all_blocks good d -> all_blocks (block_fits cap) d.
Proof. apply all_blocks_impl. by intros b [Hb _]. Qed.

Lemma good_access b : good b -> good (CacheBlock.access b).
Proof. by destruct b. Qed.

Lemma block_fits_access b : block_fits cap b -> block_fits cap (CacheBlock.access b).
Proof. by destruct b. Qed.

Lemma good_set_tier ti b : good b -> good (CacheBlock.set_tier ti b).
Proof. by destruct b. Qed.

Lemma block_fits_set_tier ti b :
  block_fits cap b -> block_fits cap (CacheBlock.set_tier ti b).
Proof. by destruct b. Qed.

Lemma good_new key data size :
  0 <= size <= cap -> good (CacheBlock.new key data L1_HOT size).
Proof.
  intros Hs. split; [split; [done|]|reflexivity]. intros [=].
Qed.

Lemma block_fits_compress b :
  block_fits cap b -> block_fits cap (snd (CacheBlock.compress b)).
Proof.
  intros Hb. unfold CacheBlock.compress.
  destruct (_ && _); [|done].
  destruct (pickle_dumps (CacheBlock.data b)) as [s|] eqn:E; [|done].
  destruct Hb as [Hs _]. split; [done|]. intros _. eauto.
Qed.

Lemma plain_uncompressed b : CacheBlock.compressed b = false -> plain b.
Proof. intros E. unfold plain, CacheBlock.effective_size. by rewrite E. Qed.

(** After [decompress] a block counts with its uncompressed size. *)
Lemma good_decompress b :
  block_fits cap b -> good (CacheBlock.decompress b).
Proof.
  intros [Hs Hc]. unfold CacheBlock.decompress.
  destruct (CacheBlock.compressed b && truthy_bytes (CacheBlock._compressed_data b))
    eqn:E.
  - apply andb_true_iff in E as [E1 E2].
    destruct (Hc E1) as (v & s & Hv & ->).
    rewrite zlib_roundtrip.
    destruct (pickle_loads_total v s Hv) as [d ->].
    split; [split; [done|intros [=]]|reflexivity].
  - split; [done|]. unfold plain, CacheBlock.effective_size. by rewrite E.
Qed.

Lemma good_after_hit b :
  block_fits cap b ->
  good (if CacheBlock.compressed b then CacheBlock.decompress b else b).
Proof.
  intros Hb. destruct (CacheBlock.compressed b) eqn:E.
  - by apply good_decompress.
  - split; [done|by apply plain_uncompressed].
Qed.

(** *** Single updates *)

Lemma tiers_fit_count k c : tiers_fit cap c -> tiers_fit cap (count k c).
Proof. done. Qed.

Lemma tiers_fit_pop_l1 k c :
  tiers_fit cap c -> tiers_fit cap (set_l1 (OrderedDict.pop k (l1_cache c)) c).
Proof.
  intros (C1 & C2 & G1 & G2 & G3 & S1 & S2).
  repeat split; cache_simpl; try done.
  - by apply all_blocks_pop.
  - pose proof (tier_size_pop_le k _ (all_good_nonneg _ G1)). lia.
Qed.

Lemma tiers_fit_pop_l2 k c :
  tiers_fit cap c -> tiers_fit cap (set_l2 (OrderedDict.pop k (l2_cache c)) c).
Proof.
  intros (C1 & C2 & G1 & G2 & G3 & S1 & S2).
  repeat split; cache_simpl; try done.
  - by apply all_blocks_pop.
  - pose proof (tier_size_pop_le k _ (all_good_nonneg _ G2)). lia.
Qed.

Lemma tiers_fit_pop_l3 k c :
  tiers_fit cap c -> tiers_fit cap (set_l3 (OrderedDict.pop k (l3_cache c)) c).
Proof.
  intros (C1 & C2 & G1 & G2 & G3 & S1 & S2).
  repeat split; cache_simpl; try done.
  by apply all_blocks_pop.
Qed.

Lemma tiers_fit_store_l3 k b c :
  tiers_fit cap c -> block_fits cap b ->
  tiers_fit cap (set_l3 (OrderedDict.set k b (l3_cache c)) c).
Proof.
  intros (C1 & C2 & G1 & G2 & G3 & S1 & S2) Hb.
  repeat split; cache_simpl; try done.
  by apply all_blocks_set.
Qed.

Lemma store_size k b d M :
  all_blocks good d -> good b -> cap <= M ->
  _get_tier_size d + CacheBlock.size_bytes b <= M \/ d = [] ->
  _get_tier_size (OrderedDict.set k b d) <= M.
Proof.
  intros Gd [[Hs _] Hp] HM [Hroom| ->].
  - pose proof (tier_size_set_le k b d (all_good_nonneg _ Gd)).
    unfold plain in Hp. lia.
  - simpl. unfold plain in Hp. lia.
Qed.

Lemma tiers_fit_store_l1 k b c :
  tiers_fit cap c -> good b ->
  _get_tier_size (l1_cache c) + CacheBlock.size_bytes b <= l1_max c
  \/ l1_cache c = [] ->
  tiers_fit cap (set_l1 (OrderedDict.set k b (l1_cache c)) c).
Proof.
  intros (C1 & C2 & G1 & G2 & G3 & S1 & S2) Hb Hroom.
  repeat split; cache_simpl; try done.
  - by apply (all_blocks_set good).
  - by apply store_size.
Qed.

Lemma tiers_fit_store_l2 k b c :
  tiers_fit cap c -> good b ->
  _get_tier_size (l2_cache c) + CacheBlock.size_bytes b <= l2_max c
  \/ l2_cache c = [] ->
  tiers_fit cap (set_l2 (OrderedDict.set k b (l2_cache c)) c).
Proof.
  intros (C1 & C2 & G1 & G2 & G3 & S1 & S2) Hb Hroom.
  repeat split; cache_simpl; try done.
  - by apply (all_blocks_set good).
  - by apply store_size.
Qed.

(** A hit that stays in its tier: the block is updated in place and moved
    to the most-recent end. *)
Lemma touch_size k b b0 d M :
  all_blocks good d -> OrderedDict.get k d = Some b0 ->
  good b -> CacheBlock.effective_size b = CacheBlock.effective_size b0 ->
  _get_tier_size d <= M ->
  all_blocks good (OrderedDict.move_to_end k (OrderedDict.set k b d))
  /\ _get_tier_size (OrderedDict.move_to_end k (OrderedDict.set k b d)) <= M.
Proof.
  intros Gd Hget Hb Heq HM.
  assert (all_blocks good (OrderedDict.set k b d)) as Gd'
    by by apply (all_blocks_set good).
  split; [by apply (all_blocks_move_to_end good)|].
  pose proof (tier_size_move_to_end_le k _ (all_good_nonneg _ Gd')).
  rewrite (tier_size_set_same k b b0 d Hget Heq) in *. lia.
Qed.

Lemma tiers_fit_touch_l1 k b0 c :
  tiers_fit cap c -> OrderedDict.get k (l1_cache c) = Some b0 ->
  let b := CacheBlock.access b0 in
  let c1 := set_l1 (OrderedDict.set k b (l1_cache c)) c in
  tiers_fit cap (set_l1 (OrderedDict.move_to_end k (l1_cache c1)) c1).
Proof.
  intros (C1 & C2 & G1 & G2 & G3 & S1 & S2) Hget b c1.
  assert (good b0) as Hb0 by exact (all_blocks_get good k b0 _ G1 Hget).
  destruct (touch_size k b b0 _ (l1_max c) G1 Hget) as [T1 T2];
    [by apply good_access|reflexivity|done|].
  repeat split; subst c1; cache_simpl; try done.
Qed.

Lemma tiers_fit_touch_l2 k b0 c :
  tiers_fit cap c -> OrderedDict.get k (l2_cache c) = Some b0 ->
  let b := CacheBlock.access b0 in
  let c1 := set_l2 (OrderedDict.set k b (l2_cache c)) c in
  tiers_fit cap c1
  /\ tiers_fit cap (set_l2 (OrderedDict.move_to_end k (l2_cache c1)) c1).
Proof.
  intros (C1 & C2 & G1 & G2 & G3 & S1 & S2) Hget b c1.
  assert (good b0) as Hb0 by exact (all_blocks_get good k b0 _ G2 Hget).
  assert (good b) as Hb by by apply good_access.
  assert (CacheBlock.effective_size b = CacheBlock.effective_size b0) as Heq
    by reflexivity.
  destruct (touch_size k b b0 _ (l2_max c) G2 Hget) as [T1 T2]; try done.
  split; repeat split; subst c1; cache_simpl; try done.
  - by apply (all_blocks_set good).
  - by rewrite (tier_size_set_same k b b0 _ Hget Heq).
Qed.

(** *** The cascades *)

Lemma _make_room_l3_fits needed c :
  tiers_fit cap c -> tiers_fit cap (_make_room_l3 needed c).
Proof.
  unfold _make_room_l3. apply _make_room_l3_loop_keeps.
  intros c0 key block rest _ T. by apply tiers_fit_count, tiers_fit_pop_l3.
Qed.

Lemma _demote_to_l3_fits key block c :
  tiers_fit cap c -> block_fits cap block ->
  tiers_fit cap (_demote_to_l3 key block c).
Proof.
  intros T Hb. unfold _demote_to_l3.
  pose proof (block_fits_compress block Hb) as Hb'.
  destruct (CacheBlock.compress block) as [saved block']. cbn [snd] in Hb'.
  apply tiers_fit_count, tiers_fit_store_l3; [|by apply block_fits_set_tier].
  apply _make_room_l3_fits.
  destruct (saved >? 0); [apply tiers_fit_count|]; by apply tiers_fit_pop_l2.
Qed.

Lemma _make_room_l2_fits needed c :
  tiers_fit cap c -> tiers_fit cap (_make_room_l2 needed c).
Proof.
  unfold _make_room_l2. apply _make_room_l2_loop_keeps.
  intros c0 key block rest E T. apply _demote_to_l3_fits; [done|].
  destruct T as (_ & _ & _ & G2 & _). rewrite E in G2.
  by apply Forall_cons in G2 as [[Hb _] _].
Qed.

Lemma _demote_to_l2_fits key block c :
  tiers_fit cap c -> good block -> tiers_fit cap (_demote_to_l2 key block c).
Proof.
  intros T Hb. unfold _demote_to_l2.
  apply tiers_fit_count, tiers_fit_store_l2.
  - by apply _make_room_l2_fits, tiers_fit_pop_l1.
  - by apply good_set_tier.
  - apply _make_room_l2_exit.
Qed.

Lemma _make_room_l1_fits needed c :
  tiers_fit cap c -> tiers_fit cap (_make_room_l1 needed c).
Proof.
  unfold _make_room_l1. apply _make_room_l1_loop_keeps.
  intros c0 key block rest E T. apply _demote_to_l2_fits; [done|].
  destruct T as (_ & _ & G1 & _). rewrite E in G1.
  by apply Forall_cons in G1 as [Hb _].
Qed.

Lemma _promote_to_l1_fits key block c :
  tiers_fit cap c -> good block -> tiers_fit cap (_promote_to_l1 key block c).
Proof.
  intros T Hb. unfold _promote_to_l1.
  apply tiers_fit_count, tiers_fit_store_l1.
  - by apply _make_room_l1_fits, tiers_fit_pop_l2.
  - by apply good_set_tier.
  - apply _make_room_l1_exit.
Qed.

Lemma _promote_to_l2_fits key block c :
  tiers_fit cap c -> good block -> tiers_fit cap (_promote_to_l2 key block c).
Proof.
  intros T Hb. unfold _promote_to_l2.
  apply tiers_fit_count, tiers_fit_store_l2.
  - by apply _make_room_l2_fits, tiers_fit_pop_l3.
  - by apply good_set_tier.
  - apply _make_room_l2_exit.
Qed.

Lemma put_fits key data size c :
  tiers_fit cap c -> 0 <= size <= cap -> tiers_fit cap (put key data size c).
Proof.
  intros T Hs. unfold put.
  apply tiers_fit_store_l1.
  - by apply _make_room_l1_fits, tiers_fit_pop_l3, tiers_fit_pop_l2.
  - by apply good_new.
  - apply _make_room_l1_exit.
Qed.

Lemma get_fits key c :
  tiers_fit cap c -> tiers_fit cap (snd (get key c)).
Proof.
  intros T. unfold get.
  destruct (OrderedDict.get key (l1_cache c)) as [b1|] eqn:E1.
  { cbn [snd]. by apply (tiers_fit_touch_l1 key b1 (count "l1_hits" c)). }
  destruct (OrderedDict.get key (l2_cache (count "l1_misses" c)))
    as [b2|] eqn:E2.
  { destruct (tiers_fit_touch_l2 key b2
                (count "l2_hits" (count "l1_misses" c))) as [T1 T2];
      [done|done|].
    destruct (_ >? 3); cbn [snd]; [|done].
    apply _promote_to_l1_fits; [done|].
    apply good_access.
    destruct T as (_ & _ & _ & G2 & _).
    exact (all_blocks_get good key b2 _ G2 E2). }
  destruct (OrderedDict.get key
              (l3_cache (count "l2_misses" (count "l1_misses" c))))
    as [b3|] eqn:E3; [|done].
  assert (block_fits cap (CacheBlock.access b3)) as Hb3.
  { apply block_fits_access.
    destruct T as (_ & _ & _ & _ & G3 & _).
    exact (all_blocks_get _ key b3 _ G3 E3). }
  pose proof (good_after_hit _ Hb3) as Hgood.
  set (b3' := if CacheBlock.compressed (CacheBlock.access b3)
              then CacheBlock.decompress (CacheBlock.access b3)
              else CacheBlock.access b3) in *.
  assert (tiers_fit cap
            (set_l3 (OrderedDict.set key b3'
                       (l3_cache (count "l3_hits"
                          (count "l2_misses" (count "l1_misses" c)))))
               (count "l3_hits" (count "l2_misses" (count "l1_misses" c)))))
    as T3 by (apply tiers_fit_store_l3; [done|apply Hgood]).
  destruct (_ >? 2); cbn [snd].
  - by apply _promote_to_l2_fits.
  - destruct T3 as (C1 & C2 & G1 & G2 & G3 & S1 & S2).
    repeat split; cache_simpl; try done.
    by apply all_blocks_move_to_end.
Qed.

(** *** The allocator on top *)

Lemma computed_size_nonneg data : 0 <= HelixMemoryManager.computed_size data.
Proof.
  unfold HelixMemoryManager.computed_size.
  destruct (pickle_dumps data); [apply len_nonneg|lia].
Qed.

Lemma malloc_fits key data m :
  tiers_fit cap (HelixMemoryManager.cache m) ->
  HelixMemoryManager.computed_size data <= cap ->
  tiers_fit cap (HelixMemoryManager.cache
                   (snd (HelixMemoryManager.malloc key data m))).
Proof.
  intros T Hs. unfold HelixMemoryManager.malloc.
  destruct (_ >? _); [done|]. cbn [snd HelixMemoryManager.cache].
  apply put_fits; [done|]. pose proof (computed_size_nonneg data). lia.
Qed.

Lemma free_fits key m :
  tiers_fit cap (HelixMemoryManager.cache m) ->
  tiers_fit cap (HelixMemoryManager.cache
                   (snd (HelixMemoryManager.free key m))).
Proof.
  intros T. unfold HelixMemoryManager.free.
  destruct (_ !! _); [|done]. cbn [snd HelixMemoryManager.cache].
  by apply tiers_fit_pop_l3, tiers_fit_pop_l2, tiers_fit_pop_l1.
Qed.

Lemma run_op_fits o m :
  op_fits cap o ->
  tiers_fit cap (HelixMemoryManager.cache m) ->
  tiers_fit cap (HelixMemoryManager.cache (run_op o m)).
Proof.
  intros Ho T. destruct o; simpl in *.
  - by apply get_fits.
  - by apply put_fits.
  - by apply malloc_fits.
  - by apply free_fits.
  - unfold HelixMemoryManager.read.
    pose proof (get_fits key _ T) as T'.
    by destruct (get key (HelixMemoryManager.cache m)).
  - unfold HelixMemoryManager.write. apply malloc_fits; [|done].
    destruct (_ !! _); [|done]. by apply free_fits.
Qed.

Lemma run_ops_fits os m :
  Forall (op_fits cap) os ->
  tiers_fit cap (HelixMemoryManager.cache m) ->
  tiers_fit cap (HelixMemoryManager.cache (run_ops os m)).
Proof.
  intros Hos. revert m. induction Hos as [|o os Ho Hos IH]; intros m T; [done|].
  apply IH. by apply run_op_fits.
Qed.

End occupancy.

Section capacities.
Context `{PyRuntime}.
Import HelixCache.

Lemma same_caps_refl c : same_caps c c.
Proof. done. Qed.

Lemma same_caps_trans c1 c2 c3 :
  same_caps c1 c2 -> same_caps c2 c3 -> same_caps c1 c3.
Proof.
  intros (A1 & A2 & A3) (B1 & B2 & B3). unfold same_caps.
  by rewrite B1, B2, B3.
Qed.

Lemma put_caps key data size c : same_caps c (put key data size c).
Proof.
  unfold put.
  match goal with
  | |- context [_make_room_l1 ?n ?c0] =>
      destruct (_make_room_l1_frame n c0) as (E1 & E2 & E3)
  end.
  unfold same_caps. cache_simpl. by rewrite E1, E2, E3.
Qed.

Lemma _promote_to_l1_caps key block c :
  same_caps c (_promote_to_l1 key block c).
Proof.
  unfold _promote_to_l1.
  match goal with
  | |- context [_make_room_l1 ?n ?c0] =>
      destruct (_make_room_l1_frame n c0) as (E1 & E2 & E3)
  end.
  unfold same_caps. cache_simpl. by rewrite E1, E2, E3.
Qed.

Lemma _promote_to_l2_caps key block c :
  same_caps c (_promote_to_l2 key block c).
Proof.
  unfold _promote_to_l2.
  match goal with
  | |- context [_make_room_l2 ?n ?c0] =>
      destruct (_make_room_l2_frame n c0) as ((E1 & E2 & E3) & _)
  end.
  unfold same_caps. cache_simpl. by rewrite E1, E2, E3.
Qed.

Lemma get_caps key c : same_caps c (snd (get key c)).
Proof.
  unfold get.
  destruct (OrderedDict.get key (l1_cache c)); [done|].
  destruct (OrderedDict.get key (l2_cache _)).
  { destruct (_ >? 3); cbn [snd]; [|done].
    eapply same_caps_trans; [|apply _promote_to_l1_caps]. done. }
  destruct (OrderedDict.get key (l3_cache _)); [|done].
  destruct (_ >? 2); cbn [snd]; [|done].
  eapply same_caps_trans; [|apply _promote_to_l2_caps]. done.
Qed.

Lemma run_op_caps o m :
  same_caps (HelixMemoryManager.cache m) (HelixMemoryManager.cache (run_op o m)).
Proof.
  destruct o; simpl.
  - apply get_caps.
  - apply put_caps.
  - unfold HelixMemoryManager.malloc. destruct (_ >? _); [done|apply put_caps].
  - unfold HelixMemoryManager.free. by destruct (_ !! _).
  - unfold HelixMemoryManager.read.
    pose proof (get_caps key (HelixMemoryManager.cache m)).
    by destruct (get key (HelixMemoryManager.cache m)).
  - unfold HelixMemoryManager.write, HelixMemoryManager.malloc.
    destruct (_ >? _).
    + unfold HelixMemoryManager.free. cbn [snd].
      by destruct (HelixMemoryManager.allocations m !! key) eqn:E; rewrite ?E.
    + cbn [snd HelixMemoryManager.cache].
      eapply same_caps_trans; [|apply put_caps].
      unfold HelixMemoryManager.free.
      by destruct (HelixMemoryManager.allocations m !! key) eqn:E; rewrite ?E.
Qed.

Lemma run_ops_caps os m :
  same_caps (HelixMemoryManager.cache m)
            (HelixMemoryManager.cache (run_ops os m)).
Proof.
  revert m. induction os as [|o os IH]; intros m; [done|].
  eapply same_caps_trans; [apply run_op_caps|apply IH].
Qed.

End capacities.

(** C2 (as the code has it).  Start from an empty cache with Hot and Warm
    capacities [m1] and [m2], and let no operation insert a block whose size
    is negative or larger than either capacity.  With a lossless codec, after
    every sequence of operations (get, put, malloc, free, read, write and the
    cascades they trigger) the effective occupied size of Hot is at most [m1]
    and that of Warm at most [m2]. *)
Theorem C2_hot_and_warm_within_capacity `{PyRuntime}
    (m1 m2 m3 budget : Z) (os : list op) :
  (forall s, zlib_decompress (zlib_compress s) = Some s) ->
  (forall v s, pickle_dumps v = Some s -> is_Some (pickle_loads s)) ->
  0 <= m1 -> 0 <= m2 ->
  Forall (op_fits (Z.min m1 m2)) os ->
  let c := HelixMemoryManager.cache
             (run_ops os (fresh_manager m1 m2 m3 budget)) in
  HelixCache._get_tier_size (HelixCache.l1_cache c) <= m1
  /\ HelixCache._get_tier_size (HelixCache.l2_cache c) <= m2.
Proof.
  intros Hz Hp H1 H2 Hos c.
  destruct (run_ops_caps os (fresh_manager m1 m2 m3 budget)) as (E1 & E2 & _).
  assert (tiers_fit (Z.min m1 m2)
            (HelixMemoryManager.cache (fresh_manager m1 m2 m3 budget))) as T0.
  { repeat split; simpl; try lia; constructor. }
  destruct (run_ops_fits Hz Hp _ os _ Hos T0) as (_ & _ & _ & _ & _ & S1 & S2).
  fold c in E1, E2, S1, S2. simpl in E1, E2. lia.
Qed.

Lemma toy_zlib_roundtrip s :
  @zlib_decompress toy_runtime (@zlib_compress toy_runtime s) = Some s.
Proof. reflexivity. Qed.

Lemma toy_pickle_loads_total v s :
  @pickle_dumps toy_runtime v = Some s -> is_Some (@pickle_loads toy_runtime s).
Proof. destruct v; simpl; intros [= <-]; eauto. Qed.

(** C2 for three allocations of twenty bytes over tiers of 64 bytes. *)
Lemma C2_hot_and_warm_within_capacity_witness :
  let c := HelixMemoryManager.cache nearly_full_manager in
  HelixCache._get_tier_size (HelixCache.l1_cache c) <= 64
  /\ HelixCache._get_tier_size (HelixCache.l2_cache c) <= 64.
Proof.
  apply (@C2_hot_and_warm_within_capacity toy_runtime 64 64 MiB 64
           [Malloc "k0" (PyBytes twenty_bytes);
            Malloc "k1" (PyBytes twenty_bytes);
            Malloc "k2" (PyBytes twenty_bytes)]).
  - exact toy_zlib_roundtrip.
  - exact toy_pickle_loads_total.
  - lia.
  - lia.
  - repeat (constructor; [vm_compute; discriminate|]). constructor.
Defined.

(** C2 (as stated) fails: a single block larger than the Hot tier is
    inserted once the tier is empty, and Hot then holds more than its
    capacity. *)
Lemma C2_oversized_block_exceeds_hot :
  HelixCache._get_tier_size (HelixCache.l1_cache oversized_put)
  > HelixCache.l1_max oversized_put.
Proof. vm_compute. reflexivity. Qed.

(** Blocks of 60 declared bytes whose payload compresses to 12 bytes: two of
    them are in the Compressed tier of 64 bytes; a hit on one decompresses
    it in place, and the tier then counts 72 bytes. *)
Example compressed_tier_grows_on_hit :
  let ten := PyBytes (repeat Byte.x00 10) in
  let c := HelixMemoryManager.cache
             (@run_ops toy_runtime
                [Put "a" ten 60; Put "b" ten 60; Put "c" ten 60;
                 Put "d" ten 60]
                (fresh_manager 64 64 64 MiB)) in
  let c' := snd (@HelixCache.get toy_runtime "a" c) in
  HelixCache._get_tier_size (HelixCache.l3_cache c) = 24
  /\ HelixCache._get_tier_size (HelixCache.l3_cache c') = 72
  /\ evictions c' = 0.
Proof. vm_compute. done. Qed.

(* ================================================================== *)
(** ** C8: the keys and values of handles *)

Section key_format.
Local Open Scope string_scope.

Lemma no_underscore_of_pos (p : positive) (rest : string) :
  no_underscore rest = true ->
  no_underscore (HexString.Raw.of_pos p rest) = true.
Proof.
  remember (Pos.to_nat p) as n eqn:En. revert p rest En.
  induction n as [n IH] using lt_wf_ind. intros p rest -> Hrest.
  do 4 try destruct p as [p|p|]; cbn; try (by rewrite ?Hrest);
    (eapply IH; [|reflexivity|by cbn; rewrite Hrest]; lia).
Qed.

Lemma no_underscore_zfill_pad n s :
  no_underscore (Py.zfill_pad n s) = no_underscore s.
Proof. induction n as [|n IH]; [done|]. cbn. exact IH. Qed.

Lemma to_N_zfill_pad n s :
  HexString.Raw.to_N (Py.zfill_pad n s) 0 = HexString.Raw.to_N s 0.
Proof. induction n as [|n IH]; [done|]. cbn. exact IH. Qed.

Lemma split_at_underscore (h1 h2 r1 r2 : string) :
  no_underscore h1 = true -> no_underscore h2 = true ->
  h1 ++ String "_" r1 = h2 ++ String "_" r2 -> h1 = h2.
Proof.
  revert h2. induction h1 as [|c1 h1 IH]; intros [|c2 h2]; cbn.
  - done.
  - intros _ Hc [= <- _]. by rewrite Ascii.eqb_refl in Hc.
  - intros Hc _ [= -> _]. by rewrite Ascii.eqb_refl in Hc.
  - intros H1 H2 [= -> E].
    apply andb_true_iff in H1 as [_ H1]. apply andb_true_iff in H2 as [_ H2].
    f_equal. by apply IH.
Qed.

(** Positive pointers are formatted to different hexadecimal fields. *)
Lemma hex16_inj (p1 p2 : Z) :
  0 < p1 -> 0 < p2 -> Py.hex16 p1 = Py.hex16 p2 -> p1 = p2.
Proof.
  destruct p1 as [|q1|q1], p2 as [|q2|q2]; try lia. intros _ _.
  unfold Py.hex16, Py.zfill. intros E.
  apply (f_equal (fun s => HexString.Raw.to_N s 0)) in E.
  rewrite !to_N_zfill_pad, !HexString.Raw.to_N_of_pos in E.
  cbn in E. by injection E as ->.
Qed.

Lemma no_underscore_hex16 (p : Z) : 0 < p -> no_underscore (Py.hex16 p) = true.
Proof.
  destruct p as [|q|q]; try lia. intros _.
  unfold Py.hex16, Py.zfill. rewrite no_underscore_zfill_pad.
  by apply no_underscore_of_pos.
Qed.

(** The cache key determines the pointer it was formatted from. *)
Lemma mem_key_inj (p1 p2 s1 s2 : Z) :
  0 < p1 -> 0 < p2 ->
  HelixTranslator.mem_key p1 s1 = HelixTranslator.mem_key p2 s2 -> p1 = p2.
Proof.
  intros H1 H2. unfold HelixTranslator.mem_key. cbn. intros [= E].
  apply hex16_inj; [done|done|].
  eapply split_at_underscore; [| |exact E]; by apply no_underscore_hex16.
Qed.

End key_format.

Ltac tr_simpl :=
  cbn [HelixTranslator.helix HelixTranslator.ptr_to_key
       HelixTranslator.key_to_ptr HelixTranslator.next_fake_pointer
       HelixTranslator.fd_to_path HelixTranslator.path_to_fd
       HelixTranslator.next_fake_fd HelixTranslator.stats
       HelixTranslator.set_helix HelixTranslator.set_memory
       HelixTranslator.set_ptr_to_key HelixTranslator.set_key_to_ptr
       HelixTranslator.set_next_fake_pointer HelixTranslator.set_fd_to_path
       HelixTranslator.set_path_to_fd HelixTranslator.set_next_fake_fd
       HelixTranslator.count HelixTranslator.memory
       TranslationEntry.app_pointer TranslationEntry.helix_key
       TranslationEntry.size TranslationEntry.access_count
       TranslationEntry.access fst snd negb
       HelixSystem.memory HelixSystem.file_cache HelixSystem.fs_stats
       HelixSystem.disk HelixSystem.set_memory] in *.

Ltac finish_handles B C :=
  unfold handles_ok, advances, same_handles; tr_simpl;
  repeat split; try lia; try done; try congruence;
  try (match goal with
       | Hp : _ !! _ = Some _ |- _ =>
           destruct (B _ _ Hp) as [[? ?] ?]; first [lia | done]
       end);
  try (match goal with
       | Hfd : _ !! _ = Some _ |- _ =>
           pose proof (C _ _ Hfd); lia
       end).

Section handles.
Context `{PyRuntime}.
Import HelixTranslator.

Lemma handles_ok_same tr tr' :
  same_handles tr tr' -> handles_ok tr -> handles_ok tr'.
Proof.
  intros (E1 & E2 & E3 & E4) (A & B & C). unfold handles_ok.
  by rewrite E1, E2, E3, E4.
Qed.

Lemma advances_same tr tr' : same_handles tr tr' -> advances tr tr'.
Proof. intros (_ & E2 & _ & E4). unfold advances. lia. Qed.

(** Touching an entry: the key and the size of the handle stay. *)
Lemma handles_ok_access pointer entry tr tr' :
  ptr_to_key tr !! pointer = Some entry ->
  ptr_to_key tr' = <[pointer := TranslationEntry.access entry]> (ptr_to_key tr) ->
  next_fake_pointer tr' = next_fake_pointer tr ->
  fd_to_path tr' = fd_to_path tr ->
  next_fake_fd tr' = next_fake_fd tr ->
  handles_ok tr -> handles_ok tr'.
Proof.
  intros He E1 E2 E3 E4 (A & B & C). unfold handles_ok.
  rewrite E1, E2, E3, E4. split; [done|]. split; [|done].
  intros p e. destruct (decide (p = pointer)) as [->|Hne].
  - rewrite lookup_insert_eq. intros [= <-].
    destruct (B pointer entry He) as [B1 B2]. by split.
  - rewrite lookup_insert_ne by done. apply B.
Qed.

Lemma translate_malloc_handles size tr :
  handles_ok tr ->
  let r := translate_malloc size tr in
  handles_ok (snd r) /\ advances tr (snd r)
  /\ (forall p, fst r = Returned p -> p ≠ 0 ->
        p = next_fake_pointer tr /\ p < next_fake_pointer (snd r))
  /\ fd_to_path (snd r) = fd_to_path tr
  /\ next_fake_fd (snd r) = next_fake_fd tr.
Proof.
  intros (A & B & C). unfold translate_malloc.
  destruct (Py.str_fits size); cbn [negb]; [|finish_handles B C].
    destruct (Py.fits_index size); cbn [negb]; [|finish_handles B C].
    destruct (size <? 0); [finish_handles B C|].
  tr_simpl.
  destruct (HelixMemoryManager.malloc _ _ _) as [[|] m]; tr_simpl.
  - unfold handles_ok, advances. tr_simpl.
    split; [|split; [split; lia|];
              split; [intros p [= <-] _; split; [done|lia]|by split]].
    split; [lia|]. split; [|done].
    intros p e. destruct (decide (p = next_fake_pointer tr)) as [->|Hne].
    + rewrite lookup_insert_eq. intros [= <-]. tr_simpl. split; [lia|done].
    + rewrite lookup_insert_ne by done. intros Hp.
      destruct (B p e Hp) as [Hlt Hk]. split; [lia|done].
  - finish_handles B C.
Qed.

Lemma translate_free_handles pointer tr :
  handles_ok tr ->
  let r := translate_free pointer tr in
  handles_ok (snd r) /\ advances tr (snd r)
  /\ fd_to_path (snd r) = fd_to_path tr
  /\ next_fake_fd (snd r) = next_fake_fd tr.
Proof.
  intros (A & B & C). unfold translate_free. tr_simpl.
  destruct (ptr_to_key tr !! pointer) as [entry|] eqn:E;
    [|finish_handles B C].
  destruct (HelixMemoryManager.free _ _) as [ok m]. tr_simpl.
  assert (forall p e, delete pointer (ptr_to_key tr) !! p = Some e ->
            0 < p < next_fake_pointer tr
            /\ TranslationEntry.helix_key e
               = mem_key p (TranslationEntry.size e)) as B'.
  { intros p e Hp. apply lookup_delete_Some in Hp as [_ Hp]. by apply B. }
  destruct (key_to_ptr tr !! TranslationEntry.helix_key entry);
    finish_handles B' C.
Qed.

Lemma handles_after_access pointer entry tr tr' :
  handles_ok tr ->
  ptr_to_key tr !! pointer = Some entry ->
  ptr_to_key tr' = <[pointer := TranslationEntry.access entry]> (ptr_to_key tr) ->
  next_fake_pointer tr' = next_fake_pointer tr ->
  fd_to_path tr' = fd_to_path tr ->
  next_fake_fd tr' = next_fake_fd tr ->
  handles_ok tr' /\ advances tr tr'
  /\ fd_to_path tr' = fd_to_path tr
  /\ next_fake_fd tr' = next_fake_fd tr.
Proof.
  intros Hok E E1 E2 E3 E4. split; [by eapply handles_ok_access|].
  unfold advances. rewrite E2, E4. by repeat split; try lia.
Qed.

Lemma translate_read_handles pointer size offset tr :
  handles_ok tr ->
  let r := translate_read pointer size offset tr in
  handles_ok (snd r) /\ advances tr (snd r)
  /\ fd_to_path (snd r) = fd_to_path tr
  /\ next_fake_fd (snd r) = next_fake_fd tr.
Proof.
  intros Hok. unfold translate_read. tr_simpl.
  destruct (ptr_to_key tr !! pointer) as [entry|] eqn:E.
  2:{ destruct Hok as (A & B & C). finish_handles B C. }
  destruct (HelixMemoryManager.read _ _) as [data m]. tr_simpl.
  destruct data as [|b|o]; [| |destruct (obj_bytes o)]; tr_simpl;
    lazymatch goal with
    | |- handles_ok ?t /\ _ =>
        by apply (handles_after_access pointer entry tr t)
    end.
Qed.

Lemma translate_write_handles pointer data offset tr :
  handles_ok tr ->
  let r := translate_write pointer data offset tr in
  handles_ok (snd r) /\ advances tr (snd r)
  /\ fd_to_path (snd r) = fd_to_path tr
  /\ next_fake_fd (snd r) = next_fake_fd tr.
Proof.
  intros Hok. unfold translate_write. tr_simpl.
  destruct (ptr_to_key tr !! pointer) as [entry|] eqn:E.
  2:{ destruct Hok as (A & B & C). finish_handles B C. }
  destruct (HelixMemoryManager.read _ _) as [existing m]. tr_simpl.
  match goal with
  | |- context [match ?buf with Returned _ => _ | Raised _ => _ end] =>
      destruct buf as [buffer|e]
  end; [|lazymatch goal with
    | |- handles_ok ?t /\ _ =>
        by apply (handles_after_access pointer entry tr t)
    end].
  destruct (HelixMemoryManager.write _ _ _) as [success m']. tr_simpl.
  lazymatch goal with
    | |- handles_ok ?t /\ _ =>
        by apply (handles_after_access pointer entry tr t)
    end.
Qed.

Lemma translate_open_handles filepath mode tr :
  handles_ok tr ->
  let r := translate_open filepath mode tr in
  handles_ok (snd r) /\ advances tr (snd r)
  /\ fst r = Returned (next_fake_fd tr)
  /\ next_fake_fd (snd r) = next_fake_fd tr + 1
  /\ ptr_to_key (snd r) = ptr_to_key tr
  /\ next_fake_pointer (snd r) = next_fake_pointer tr.
Proof.
  intros (A & B & C). unfold translate_open, handles_ok, advances. tr_simpl.
  split; [|split; [split; lia|by repeat split]].
  split; [done|]. split; [done|].
  intros fd path. destruct (decide (fd = next_fake_fd tr)) as [->|Hne].
  - intros _. lia.
  - rewrite lookup_insert_ne by done. intros Hfd.
    specialize (C fd path Hfd). lia.
Qed.

Lemma translate_read_file_handles fd size tr :
  same_handles tr (snd (translate_read_file fd size tr)).
Proof.
  unfold translate_read_file. tr_simpl.
  destruct (fd_to_path tr !! fd) as [filepath|]; [|done].
  destruct (HelixFS.read_file filepath (helix tr)) as [data h]. tr_simpl.
  destruct (truthy data); [|done].
  destruct data as [|b|o]; [done|done|]. by destruct (obj_prefix o size).
Qed.

Lemma translate_write_file_handles fd data tr :
  same_handles tr (snd (translate_write_file fd data tr)).
Proof.
  unfold translate_write_file. tr_simpl.
  by destruct (fd_to_path tr !! fd) as [filepath|].
Qed.

Lemma translate_close_handles fd tr :
  handles_ok tr ->
  let r := translate_close fd tr in
  handles_ok (snd r) /\ advances tr (snd r)
  /\ ptr_to_key (snd r) = ptr_to_key tr
  /\ next_fake_pointer (snd r) = next_fake_pointer tr.
Proof.
  intros (A & B & C). unfold translate_close. tr_simpl.
  destruct (fd_to_path tr !! fd) as [filepath|] eqn:E;
    [|finish_handles B C].
  assert (forall fd' path, delete fd (fd_to_path tr) !! fd' = Some path ->
            fd' < next_fake_fd tr) as C'.
  { intros fd' path Hp. apply lookup_delete_Some in Hp as [_ Hp]. by eapply C. }
  tr_simpl.
  destruct (path_to_fd tr !! filepath); finish_handles B C'.
Qed.

End handles.

Section issuing.
Context `{PyRuntime}.
Import HelixTranslator.

Lemma advances_refl tr : advances tr tr.
Proof. unfold advances. lia. Qed.

Lemma advances_trans tr1 tr2 tr3 :
  advances tr1 tr2 -> advances tr2 tr3 -> advances tr1 tr3.
Proof. unfold advances. lia. Qed.

(** One call issues at most one pointer and at most one descriptor, and what
    it issues is the value of the counter before the call. *)
Lemma run_call_handles c tr :
  handles_ok tr ->
  let r := run_call c tr in
  handles_ok (snd r) /\ advances tr (snd r)
  /\ (issued_pointers [(c, fst r)] = []
      \/ issued_pointers [(c, fst r)] = [next_fake_pointer tr]
         /\ next_fake_pointer tr < next_fake_pointer (snd r))
  /\ (issued_fds [(c, fst r)] = []
      \/ issued_fds [(c, fst r)] = [next_fake_fd tr]
         /\ next_fake_fd tr < next_fake_fd (snd r)).
Proof.
  intros Hok. destruct c; cbn [run_call].
  - destruct (translate_malloc_handles size tr Hok) as (A & B & C & _).
    destruct (translate_malloc size tr) as [[p|e] tr1]; simpl in *.
    + split; [done|]. split; [done|]. split; [|by left].
      destruct (Z.eqb_spec p 0) as [->|Hne]; [by left|right].
      destruct (C p eq_refl Hne) as [-> Hlt]. done.
    + split; [done|]. split; [done|]. split; by left.
  - destruct (translate_free_handles pointer tr Hok) as (A & B & _).
    destruct (translate_free pointer tr) as [r tr1]; simpl in *.
    split; [done|]. split; [done|]. split; by left.
  - destruct (translate_read_handles pointer size offset tr Hok) as (A & B & _).
    destruct (translate_read pointer size offset tr) as [r tr1]; simpl in *.
    split; [done|]. split; [done|]. split; by left.
  - destruct (translate_write_handles pointer data offset tr Hok) as (A & B & _).
    destruct (translate_write pointer data offset tr) as [r tr1]; simpl in *.
    split; [done|]. split; [done|]. split; by left.
  - destruct (translate_open_handles filepath mode tr Hok)
      as (A & B & C & D & _).
    destruct (translate_open filepath mode tr) as [r tr1]; simpl in *.
    subst r. split; [done|]. split; [done|]. split; [by left|right].
    split; [done|lia].
  - pose proof (translate_read_file_handles fd size tr) as S.
    destruct (translate_read_file fd size tr) as [r tr1]; simpl in *.
    split; [by eapply handles_ok_same|]. split; [by apply advances_same|].
    split; by left.
  - pose proof (translate_write_file_handles fd data tr) as S.
    destruct (translate_write_file fd data tr) as [r tr1]; simpl in *.
    split; [by eapply handles_ok_same|]. split; [by apply advances_same|].
    split; by left.
  - destruct (translate_close_handles fd tr Hok) as (A & B & _).
    destruct (translate_close fd tr) as [r tr1]; simpl in *.
    split; [done|]. split; [done|]. split; by left.
Qed.

Lemma issued_pointers_cons c a log :
  issued_pointers ((c, a) :: log)
  = issued_pointers [(c, a)] ++ issued_pointers log.
Proof.
  destruct c, a as [[p|e]|r|r]; simpl; try done. by destruct (p =? 0).
Qed.

Lemma issued_fds_cons c a log :
  issued_fds ((c, a) :: log) = issued_fds [(c, a)] ++ issued_fds log.
Proof. by destruct c, a as [[p|e]|r|r]. Qed.

Lemma sorted_after_head (x lo hi : Z) (head rest : list Z) :
  head = [] \/ head = [x] /\ x < lo ->
  Forall (fun y => lo <= y < hi) rest ->
  StronglySorted Z.lt rest ->
  StronglySorted Z.lt (head ++ rest).
Proof.
  intros [->|[-> Hx]] Hrest Hs; simpl; [done|].
  constructor; [done|]. eapply Forall_impl; [exact Hrest|].
  intros y Hy. simpl in Hy. lia.
Qed.

Lemma bounds_after_head (lo mid hi : Z) (head rest : list Z) :
  head = [] \/ head = [lo] /\ lo < mid ->
  lo <= mid -> mid <= hi ->
  Forall (fun y => mid <= y < hi) rest ->
  Forall (fun y => lo <= y < hi) (head ++ rest).
Proof.
  intros Hhead Hlo Hhi Hrest.
  assert (Forall (fun y => lo <= y < hi) rest) as Hrest'.
  { eapply Forall_impl; [exact Hrest|]. intros y Hy. simpl in Hy. lia. }
  destruct Hhead as [->|[-> Hx]]; simpl; [done|].
  constructor; [lia|done].
Qed.

(** Along a run the issued pointers, and the issued descriptors, go up. *)
Lemma run_calls_handles cs tr :
  handles_ok tr ->
  let r := run_calls cs tr in
  handles_ok (snd r) /\ advances tr (snd r)
  /\ Forall (fun p => next_fake_pointer tr <= p < next_fake_pointer (snd r))
       (issued_pointers (fst r))
  /\ StronglySorted Z.lt (issued_pointers (fst r))
  /\ Forall (fun fd => next_fake_fd tr <= fd < next_fake_fd (snd r))
       (issued_fds (fst r))
  /\ StronglySorted Z.lt (issued_fds (fst r)).
Proof.
  revert tr. induction cs as [|c cs IH]; intros tr Hok; cbn [run_calls].
  { split; [done|]. split; [apply advances_refl|]. repeat split; constructor. }
  destruct (run_call_handles c tr Hok) as (A & B & C & D).
  destruct (run_call c tr) as [a tr1]. cbn [fst snd] in A, B, C, D.
  destruct (IH tr1 A) as (A' & B' & P1 & P2 & F1 & F2).
  destruct (run_calls cs tr1) as [rest tr2]. cbn [fst snd] in *.
  rewrite issued_pointers_cons, issued_fds_cons.
  destruct B as [B1 B2], B' as [B1' B2'].
  split; [done|]. split; [split; lia|].
  split; [by eapply bounds_after_head|].
  split; [by eapply sorted_after_head|].
  split; [by eapply bounds_after_head|].
  by eapply sorted_after_head.
Qed.

Lemma handles_ok_init h : handles_ok (init h).
Proof.
  split; [done|]. split; intros ? ?; simpl; by rewrite lookup_empty.
Qed.

End issuing.

(** C8 (as the code has it).  After any run of calls on a new translator:
    - no two active pointers map to the same cache key;
    - the pointers that were issued, and the descriptors that were issued,
      went up strictly, each list in the order of issue;
    - whatever the next call is, a pointer or a descriptor it issues is not
      the value of an active handle.
    Two active descriptors can map to the same path: nothing is said of
    that. *)
Theorem C8_handles_distinct_and_increasing `{PyRuntime}
    (h : HelixSystem.t) (cs : list call) :
  let r := run_calls cs (HelixTranslator.init h) in
  let tr := snd r in
  (forall p1 p2 e1 e2,
     HelixTranslator.ptr_to_key tr !! p1 = Some e1 ->
     HelixTranslator.ptr_to_key tr !! p2 = Some e2 ->
     TranslationEntry.helix_key e1 = TranslationEntry.helix_key e2 ->
     p1 = p2)
  /\ StronglySorted Z.lt (issued_pointers (fst r))
  /\ StronglySorted Z.lt (issued_fds (fst r))
  /\ (forall c p,
        p ∈ issued_pointers [(c, fst (run_call c tr))] ->
        HelixTranslator.ptr_to_key tr !! p = None)
  /\ (forall c fd,
        fd ∈ issued_fds [(c, fst (run_call c tr))] ->
        HelixTranslator.fd_to_path tr !! fd = None).
Proof.
  intros r tr.
  destruct (run_calls_handles cs _ (handles_ok_init h))
    as (Hok & _ & _ & S1 & _ & S2).
  fold r in Hok, S1, S2. fold tr in Hok.
  split; [|split; [done|split; [done|split]]].
  - destruct Hok as (_ & B & _). intros p1 p2 e1 e2 H1 H2 E.
    destruct (B p1 e1 H1) as [[L1 _] K1], (B p2 e2 H2) as [[L2 _] K2].
    rewrite K1, K2 in E. by eapply mem_key_inj.
  - intros c p Hp.
    destruct (run_call_handles c tr Hok) as (_ & _ & [E|[E _]] & _);
      rewrite E in Hp.
    + by apply elem_of_nil in Hp.
    + apply list_elem_of_singleton in Hp as ->.
      destruct (HelixTranslator.ptr_to_key tr
                  !! HelixTranslator.next_fake_pointer tr) as [e|] eqn:El;
        [|done].
      destruct Hok as (_ & B & _). destruct (B _ _ El) as [[_ L] _]. lia.
  - intros c fd Hfd.
    destruct (run_call_handles c tr Hok) as (_ & _ & _ & [E|[E _]]);
      rewrite E in Hfd.
    + by apply elem_of_nil in Hfd.
    + apply list_elem_of_singleton in Hfd as ->.
      destruct (HelixTranslator.fd_to_path tr
                  !! HelixTranslator.next_fake_fd tr) as [path|] eqn:El;
        [|done].
      destruct Hok as (_ & _ & C). specialize (C _ _ El). lia.
Qed.

(** C8 (as stated) fails for descriptors: two [translate_open]s of one path
    give two active descriptors that map to that path. *)
Lemma C8_two_descriptors_one_path :
  let tr := snd (@run_calls toy_runtime [COpen "p" "r"; COpen "p" "r"]
                   default_translator) in
  HelixTranslator.fd_to_path tr !! 1000 = Some "p"%string
  /\ HelixTranslator.fd_to_path tr !! 1001 = Some "p"%string
  /\ HelixTranslator.path_to_fd tr !! "p"%string = Some 1001.
Proof. vm_compute. done. Qed.

(* ================================================================== *)
(** ** C7: offset writes *)

Section slices.
Context {A : Type}.
Implicit Types (l v : list A).

Lemma slice_index_inside n i : 0 <= i <= n -> Py.slice_index n i = i.
Proof.
  intros Hi. unfold Py.slice_index.
  destruct (Z.ltb_spec i 0); lia.
Qed.

Lemma slice_index_above n i : 0 <= n <= i -> Py.slice_index n i = n.
Proof.
  intros Hi. unfold Py.slice_index.
  destruct (Z.ltb_spec i 0); lia.
Qed.

(** [l[o:o+len v] = v] for an offset inside [l] or at its end. *)
Lemma setslice_inside l v o :
  0 <= o <= len l ->
  Py.setslice l o (o + len v) v
  = firstn (Z.to_nat o) l ++ v ++ skipn (Z.to_nat (o + len v)) l.
Proof.
  intros Ho. unfold Py.setslice. rewrite (slice_index_inside _ o) by done.
  pose proof (len_nonneg v) as Hv.
  destruct (Z.le_gt_cases (o + len v) (len l)) as [Hin|Hout].
  - rewrite slice_index_inside by lia. by rewrite Z.max_r by lia.
  - rewrite slice_index_above by lia. rewrite Z.max_r by lia.
    do 2 f_equal. unfold len in *.
    rewrite !skipn_all2; [done|lia|lia].
Qed.

Lemma len_app l1 l2 : len (l1 ++ l2) = len l1 + len l2.
Proof. unfold len. rewrite length_app. lia. Qed.

Lemma len_firstn l o : 0 <= o <= len l -> len (firstn (Z.to_nat o) l) = o.
Proof. unfold len. intros Ho. rewrite length_firstn. lia. Qed.

Lemma len_skipn l o :
  0 <= o -> len (skipn (Z.to_nat o) l) = Z.max 0 (len l - o).
Proof. unfold len. intros Ho. rewrite length_skipn. lia. Qed.

Lemma setslice_len l v o :
  0 <= o <= len l ->
  len (Py.setslice l o (o + len v) v) = Z.max (len l) (o + len v).
Proof.
  intros Ho. rewrite setslice_inside by done.
  pose proof (len_nonneg v).
  rewrite !len_app, len_firstn, len_skipn by lia. lia.
Qed.

Lemma getslice_setslice l v o :
  0 <= o <= len l ->
  Py.getslice (Py.setslice l o (o + len v) v) o (o + len v) = v.
Proof.
  intros Ho. pose proof (len_nonneg v) as Hv.
  unfold Py.getslice. rewrite setslice_len by done.
  rewrite !slice_index_inside by lia.
  rewrite setslice_inside by done.
  rewrite skipn_app, skipn_all2, app_nil_l
    by (pose proof (len_firstn l o Ho); unfold len in *; lia).
  replace (Z.to_nat o - length (firstn (Z.to_nat o) l))%nat with 0%nat
    by (pose proof (len_firstn l o Ho); unfold len in *; lia).
  rewrite skipn_O.
  replace (Z.to_nat (o + len v - o)) with (length v) by (unfold len; lia).
  by rewrite firstn_app, firstn_all, Nat.sub_diag, firstn_O, app_nil_r.
Qed.

Lemma firstn_setslice l v o :
  0 <= o <= len l ->
  firstn (Z.to_nat o) (Py.setslice l o (o + len v) v) = firstn (Z.to_nat o) l.
Proof.
  intros Ho. rewrite setslice_inside by done.
  pose proof (len_firstn l o Ho) as Hf. unfold len in Hf.
  rewrite firstn_app.
  replace (Z.to_nat o - length (firstn (Z.to_nat o) l))%nat with 0%nat by lia.
  rewrite firstn_O, app_nil_r. apply firstn_all2. lia.
Qed.

Lemma skipn_setslice l v o :
  0 <= o <= len l ->
  skipn (Z.to_nat (o + len v)) (Py.setslice l o (o + len v) v)
  = skipn (Z.to_nat (o + len v)) l.
Proof.
  intros Ho. rewrite setslice_inside by done.
  pose proof (len_firstn l o Ho) as Hf. pose proof (len_nonneg v) as Hv.
  unfold len in *.
  rewrite skipn_app, skipn_all2, app_nil_l by lia.
  rewrite skipn_app, skipn_all2, app_nil_l by lia.
  replace (Z.to_nat (o + Z.of_nat (length v))
           - length (firstn (Z.to_nat o) l) - length v)%nat with 0%nat by lia.
  done.
Qed.

End slices.

Lemma write_then_read `{PyRuntime}
    (m m' : HelixMemoryManager.t) (key : string) (data : pyval) :
  HelixMemoryManager.write key data m = (true, m') ->
  fst (HelixMemoryManager.read key m') = data.
Proof. unfold HelixMemoryManager.write. apply malloc_then_read. Qed.

(** C7 (as the code has it).  Let [pointer] be active, let the cache hold the
    non-empty buffer [b] for it, and let [0 <= offset <= len b].  Then
    [translate_write pointer data offset] builds the buffer that has [data]
    at positions [offset, offset + len data), is [b] before and after them,
    and has grown to [offset + len data] bytes where [b] was shorter; it
    hands that whole buffer to the allocator's [write] and returns its
    answer; and when the allocator accepted it,
    [translate_read pointer (len data) offset] returns [data]. *)
Theorem C7_translate_write_splices_inside_buffer `{PyRuntime}
    (tr : HelixTranslator.t) (pointer : Z) (entry : TranslationEntry.t)
    (data b : bytes) (offset : Z) :
  HelixTranslator.ptr_to_key tr !! pointer = Some entry ->
  fst (HelixMemoryManager.read (TranslationEntry.helix_key entry)
         (HelixTranslator.memory tr)) = PyBytes b ->
  b ≠ [] ->
  0 <= offset <= len b ->
  let key := TranslationEntry.helix_key entry in
  let buffer := Py.setslice b offset (offset + len data) data in
  let w := HelixMemoryManager.write key (PyBytes buffer)
             (snd (HelixMemoryManager.read key (HelixTranslator.memory tr))) in
  let r := HelixTranslator.translate_write pointer data offset tr in
  Py.getslice buffer offset (offset + len data) = data
  /\ len buffer = Z.max (len b) (offset + len data)
  /\ firstn (Z.to_nat offset) buffer = firstn (Z.to_nat offset) b
  /\ skipn (Z.to_nat (offset + len data)) buffer
     = skipn (Z.to_nat (offset + len data)) b
  /\ fst r = Returned (fst w)
  /\ HelixTranslator.memory (snd r) = snd w
  /\ (fst w = true ->
      fst (HelixTranslator.translate_read pointer (len data) offset (snd r))
      = Returned (PyBytes data)).
Proof.
  intros Hp Hread Hb Ho key buffer w r.
  split; [by apply getslice_setslice|].
  split; [by apply setslice_len|].
  split; [by apply firstn_setslice|].
  split; [by apply skipn_setslice|].
  subst r w key. unfold HelixTranslator.translate_write.
  unfold HelixTranslator.memory in *. tr_simpl. rewrite Hp.
  tr_simpl.
  destruct (HelixMemoryManager.read (TranslationEntry.helix_key entry)
              (HelixSystem.memory (HelixTranslator.helix tr)))
    as [existing m] eqn:Er.
  cbn [fst snd] in *. subst existing.
  assert (truthy (PyBytes b) = true) as -> by by destruct b.
  tr_simpl. fold buffer.
  destruct (HelixMemoryManager.write (TranslationEntry.helix_key entry)
              (PyBytes buffer) m) as [ok m'] eqn:Ew.
  tr_simpl.
  split; [done|]. split; [done|]. intros ->.
  unfold HelixTranslator.translate_read. tr_simpl.
  rewrite lookup_insert_eq. tr_simpl.
  pose proof (write_then_read _ _ _ _ Ew) as Hback.
  destruct (HelixMemoryManager.read (TranslationEntry.helix_key entry) m')
    as [v m''].
  cbn [fst] in Hback. subst v. tr_simpl.
  do 2 f_equal. by apply getslice_setslice.
Qed.

(** C7 for [XY] written at offset 2 of a buffer of four zero bytes. *)
Lemma C7_translate_write_splices_inside_buffer_witness :
  let tr := four_zero_bytes in
  let key := "mem_0000000010000000_4"%string in
  let buffer := Py.setslice (Py.zeros 4) 2 (2 + len XY) XY in
  let w := @HelixMemoryManager.write toy_runtime key (PyBytes buffer)
             (snd (@HelixMemoryManager.read toy_runtime key
                     (HelixTranslator.memory tr))) in
  let r := @HelixTranslator.translate_write toy_runtime 0x10000000 XY 2 tr in
  Py.getslice buffer 2 (2 + len XY) = XY
  /\ len buffer = Z.max (len (Py.zeros 4)) (2 + len XY)
  /\ firstn (Z.to_nat 2) buffer = firstn (Z.to_nat 2) (Py.zeros 4)
  /\ skipn (Z.to_nat (2 + len XY)) buffer
     = skipn (Z.to_nat (2 + len XY)) (Py.zeros 4)
  /\ fst r = Returned (fst w)
  /\ HelixTranslator.memory (snd r) = snd w
  /\ (fst w = true ->
      fst (@HelixTranslator.translate_read toy_runtime 0x10000000 (len XY) 2
             (snd r))
      = Returned (PyBytes XY)).
Proof.
  apply (@C7_translate_write_splices_inside_buffer toy_runtime
           four_zero_bytes 0x10000000
           (TranslationEntry.mk 0x10000000 "mem_0000000010000000_4" 4 0)
           XY (Py.zeros 4) 2).
  - vm_compute. reflexivity.
  - vm_compute. reflexivity.
  - vm_compute. discriminate.
  - vm_compute. split; discriminate.
Defined.

(** The scenario of the specification: writing [XY] at offset 2 of a
    four-byte zeroed buffer gives [00 00 X Y], and reading two bytes at
    offset 2 returns [XY]. *)
Example offset_write_then_read :
  fst (@run_calls toy_runtime
         [CWrite 0x10000000 XY 2; CRead 0x10000000 4 0; CRead 0x10000000 2 2]
         four_zero_bytes)
  = [(CWrite 0x10000000 XY 2, ABool (Returned true));
     (CRead 0x10000000 4 0,
      AValue (Returned (PyBytes [Byte.x00; Byte.x00; Byte.x58; Byte.x59])));
     (CRead 0x10000000 2 2, AValue (Returned (PyBytes XY)))].
Proof. vm_compute. reflexivity. Qed.

(** C7 (as stated) fails for an offset beyond the end of the buffer: the
    slice assignment clamps the offset, so [XY] written at offset 6 of the
    four-byte buffer lands at positions 4 and 5, and positions 6 and 7 do
    not exist. *)
Lemma C7_write_past_end_appends :
  fst (@run_calls toy_runtime
         [CWrite 0x10000000 XY 6; CRead 0x10000000 10 0; CRead 0x10000000 2 6]
         four_zero_bytes)
  = [(CWrite 0x10000000 XY 6, ABool (Returned true));
     (CRead 0x10000000 10 0,
      AValue (Returned (PyBytes [Byte.x00; Byte.x00; Byte.x00; Byte.x00;
                                 Byte.x58; Byte.x59])));
     (CRead 0x10000000 2 6, AValue (Returned (PyBytes [])))].
Proof. vm_compute. reflexivity. Qed.

(* ================================================================== *)
(** ** Further properties of the cache *)

Section cache_more.
Context `{PyRuntime}.
Import HelixCache.

Lemma _make_room_l3_absent key needed c :
  OrderedDict.contains key (l3_cache c) = false ->
  OrderedDict.contains key (l3_cache (_make_room_l3 needed c)) = false.
Proof.
  unfold _make_room_l3.
  apply (_make_room_l3_loop_keeps
           (fun c' => OrderedDict.contains key (l3_cache c') = false)).
  intros c0 k b rest _ Hc0. cache_simpl. by apply od_contains_pop_false.
Qed.

Lemma _demote_to_l3_l3 k b c :
  exists b' c0,
    l3_cache (_demote_to_l3 k b c) = OrderedDict.set k b' (l3_cache c0)
    /\ (forall key, OrderedDict.contains key (l3_cache c) = false ->
                    OrderedDict.contains key (l3_cache c0) = false).
Proof.
  unfold _demote_to_l3.
  destruct (CacheBlock.compress b) as [saved b'].
  eexists _, _. split; [reflexivity|].
  intros key Hk. apply _make_room_l3_absent.
  by destruct (saved >? 0).
Qed.

(** A key that is in neither Warm nor Compressed is in neither after room
    was made in Warm: only Warm entries move to Compressed. *)
Lemma _make_room_l2_absent_both key needed c :
  OrderedDict.contains key (l2_cache c) = false ->
  OrderedDict.contains key (l3_cache c) = false ->
  let c' := _make_room_l2 needed c in
  OrderedDict.contains key (l2_cache c') = false
  /\ OrderedDict.contains key (l3_cache c') = false.
Proof.
  intros H2 H3. unfold _make_room_l2.
  apply (_make_room_l2_loop_keeps
           (fun c' => OrderedDict.contains key (l2_cache c') = false
                      /\ OrderedDict.contains key (l3_cache c') = false));
    [|done].
  intros c0 k b rest E [F2 F3].
  assert (k ≠ key) as Hne by (rewrite E in F2; by eapply od_head_ne).
  destruct (_demote_to_l3_frame k b c0) as (_ & _ & ->).
  split; [by apply od_contains_pop_false|].
  destruct (_demote_to_l3_l3 k b c0) as (b' & c1 & -> & Hc1).
  rewrite od_contains_set.
  apply String.eqb_neq in Hne as ->. simpl. by apply Hc1.
Qed.

End cache_more.

(** X1.  A hit on a block of the Compressed tier returns its payload, after
    [decompress] when the block was compressed; the hit first increments
    [access_count] and then compares with 2.  A block whose count was at most
    1 before the hit stays in Compressed, decompressed in place, and moves to
    the most-recent end; a block whose count was 2 or more is promoted: Warm
    holds it afterwards, Compressed does not, and Hot is untouched. *)
Theorem compressed_hit_promotion_boundary `{PyRuntime}
    (c : HelixCache.t) (key : string) (block : CacheBlock.t) :
  OrderedDict.get key (HelixCache.l1_cache c) = None ->
  OrderedDict.get key (HelixCache.l2_cache c) = None ->
  OrderedDict.get key (HelixCache.l3_cache c) = Some block ->
  let hit := if CacheBlock.compressed block
             then CacheBlock.decompress (CacheBlock.access block)
             else CacheBlock.access block in
  let c' := snd (HelixCache.get key c) in
  fst (HelixCache.get key c) = CacheBlock.data hit
  /\ (CacheBlock.access_count block <= 1 ->
      HelixCache.l1_cache c' = HelixCache.l1_cache c
      /\ HelixCache.l2_cache c' = HelixCache.l2_cache c
      /\ HelixCache.l3_cache c'
         = OrderedDict.pop key (HelixCache.l3_cache c) ++ [(key, hit)])
  /\ (2 <= CacheBlock.access_count block ->
      HelixCache.l1_cache c' = HelixCache.l1_cache c
      /\ OrderedDict.get key (HelixCache.l2_cache c')
         = Some (CacheBlock.set_tier L2_WARM hit)
      /\ OrderedDict.contains key (HelixCache.l3_cache c') = false).
Proof.
  intros H1 H2 H3 hit c'. subst c'. unfold HelixCache.get.
  rewrite H1. cbn [HelixCache.count HelixCache.l2_cache]. rewrite H2.
  cbn [HelixCache.count HelixCache.l3_cache]. rewrite H3.
  change (CacheBlock.compressed (CacheBlock.access block))
    with (CacheBlock.compressed block).
  fold hit.
  assert (CacheBlock.access_count hit = CacheBlock.access_count block + 1)
    as Ehit.
  { subst hit. destruct (CacheBlock.compressed block); [|done].
    unfold CacheBlock.decompress.
    destruct (_ && _); [|done].
    destruct (CacheBlock._compressed_data _); [|done].
    destruct (zlib_decompress _); [|done].
    by destruct (pickle_loads _). }
  destruct (Z.gtb_spec (CacheBlock.access_count hit) 2) as [Hgt|Hle].
  - split; [done|]. split; [lia|]. intros _. cbn [snd].
    unfold HelixCache._promote_to_l2.
    match goal with
    | |- context [HelixCache._make_room_l2 ?n ?c0] =>
        destruct (_make_room_l2_frame n c0) as (_ & El1);
        destruct (_make_room_l2_absent_both key n c0) as [_ A3]
    end.
    { cache_simpl. by apply od_get_None. }
    { cache_simpl. apply od_contains_pop_eq. }
    cache_simpl. split; [by rewrite El1|].
    split; [apply od_get_set_eq|done].
  - split; [done|]. split; [|lia]. intros _. cbn [snd]. cache_simpl.
    do 2 (split; [done|]).
    unfold OrderedDict.move_to_end.
    by rewrite od_get_set_eq, od_pop_set.
Qed.

(** X1 on [three_mallocs], whose block "a" lies compressed in the Compressed
    tier and has not been hit yet. *)
Lemma compressed_hit_promotion_boundary_witness :
  let c := HelixMemoryManager.cache three_mallocs in
  let block :=
    CacheBlock.mk "a" (PyBytes forty_bytes) L3_COMPRESSED 41 0 true
      (Some (Byte.x78 :: Byte.x43 :: forty_bytes)) in
  let hit := @CacheBlock.decompress toy_runtime (CacheBlock.access block) in
  let c' := snd (@HelixCache.get toy_runtime "a" c) in
  fst (@HelixCache.get toy_runtime "a" c) = CacheBlock.data hit
  /\ (CacheBlock.access_count block <= 1 ->
      HelixCache.l1_cache c' = HelixCache.l1_cache c
      /\ HelixCache.l2_cache c' = HelixCache.l2_cache c
      /\ HelixCache.l3_cache c'
         = OrderedDict.pop "a" (HelixCache.l3_cache c) ++ [("a", hit)])
  /\ (2 <= CacheBlock.access_count block ->
      HelixCache.l1_cache c' = HelixCache.l1_cache c
      /\ OrderedDict.get "a" (HelixCache.l2_cache c')
         = Some (CacheBlock.set_tier L2_WARM hit)
      /\ OrderedDict.contains "a" (HelixCache.l3_cache c') = false).
Proof.
  apply (@compressed_hit_promotion_boundary toy_runtime
           (HelixMemoryManager.cache three_mallocs) "a"
           (CacheBlock.mk "a" (PyBytes forty_bytes) L3_COMPRESSED 41 0 true
              (Some (Byte.x78 :: Byte.x43 :: forty_bytes))));
    vm_compute; reflexivity.
Defined.

(** X3.  [get] and [put] never lose a resident key silently: a key that was
    resident before the call is resident after it, unless the call evicted
    from the Compressed tier and counted it. *)
Theorem get_put_drop_only_by_eviction `{PyRuntime}
    (c : HelixCache.t) (key k : string) (data : pyval) (size : Z) :
  HelixCache.resident k c = true ->
  (HelixCache.resident k (snd (HelixCache.get key c)) = true
   \/ evictions c < evictions (snd (HelixCache.get key c)))
  /\ (HelixCache.resident k (HelixCache.put key data size c) = true
      \/ evictions c < evictions (HelixCache.put key data size c)).
Proof.
  intros Hk.
  destruct (get_keeps_residents key c) as [G1 G2].
  destruct (put_keeps_residents key data size c) as [[P1 P2] _].
  split.
  - destruct (Z.eq_dec (evictions (snd (HelixCache.get key c))) (evictions c))
      as [E|E]; [left; by apply G2|right; lia].
  - destruct (Z.eq_dec (evictions (HelixCache.put key data size c))
                (evictions c)) as [E|E]; [left; by apply P2|right; lia].
Qed.

(** X3 on [three_mallocs]: the block "a" survives a lookup and a [put] of
    "b". *)
Lemma get_put_drop_only_by_eviction_witness :
  let c := HelixMemoryManager.cache three_mallocs in
  (HelixCache.resident "a" (snd (@HelixCache.get toy_runtime "b" c)) = true
   \/ evictions c < evictions (snd (@HelixCache.get toy_runtime "b" c)))
  /\ (HelixCache.resident "a"
        (@HelixCache.put toy_runtime "b" (PyBytes [Byte.x01]) 2 c) = true
      \/ evictions c
         < evictions (@HelixCache.put toy_runtime "b" (PyBytes [Byte.x01]) 2 c)).
Proof.
  apply (@get_put_drop_only_by_eviction toy_runtime
           (HelixMemoryManager.cache three_mallocs) "b" "a"
           (PyBytes [Byte.x01]) 2).
  vm_compute; reflexivity.
Defined.

(** X4.  Compression round trip of a block.  For an uncompressed block whose
    payload pickles to [s], with a codec that gives [s] back and a non-empty
    compressed form: [compress] reports [max 0 (size_bytes - compressed
    length)] bytes saved, the block then counts with its compressed length,
    and [decompress] restores the block exactly. *)
Theorem compress_decompress_roundtrip `{PyRuntime}
    (b : CacheBlock.t) (s : bytes) :
  CacheBlock.compressed b = false ->
  CacheBlock._compressed_data b = None ->
  is_None (CacheBlock.data b) = false ->
  pickle_dumps (CacheBlock.data b) = Some s ->
  zlib_compress s ≠ [] ->
  zlib_decompress (zlib_compress s) = Some s ->
  pickle_loads s = Some (CacheBlock.data b) ->
  let '(saved, b') := CacheBlock.compress b in
  saved = Z.max 0 (CacheBlock.size_bytes b - len (zlib_compress s))
  /\ CacheBlock.effective_size b' = len (zlib_compress s)
  /\ CacheBlock.data b' = CacheBlock.data b
  /\ CacheBlock.decompress b' = b.
Proof.
  intros Hc Hcd Hn Hd Hz Hzd Hl. unfold CacheBlock.compress.
  rewrite Hc, Hn, Hd. cbn [negb andb].
  assert (truthy_bytes (Some (zlib_compress s)) = true) as Ht
    by (by destruct (zlib_compress s)).
  split; [done|].
  unfold CacheBlock.effective_size, CacheBlock.decompress.
  cbn [CacheBlock.compressed CacheBlock._compressed_data CacheBlock.data
       CacheBlock.size_bytes CacheBlock.key CacheBlock.tier
       CacheBlock.access_count].
  rewrite Ht, Hzd, Hl. cbn [andb].
  split; [done|]. split; [done|].
  destruct b. cbn in *. by subst.
Qed.

(** X4 for a block of forty bytes recorded with 100 bytes. *)
Lemma compress_decompress_roundtrip_witness :
  let b := CacheBlock.new "a" (PyBytes forty_bytes) L2_WARM 100 in
  let '(saved, b') := @CacheBlock.compress toy_runtime b in
  saved = Z.max 0 (100 - 42)
  /\ CacheBlock.effective_size b' = 42
  /\ CacheBlock.data b' = PyBytes forty_bytes
  /\ @CacheBlock.decompress toy_runtime b' = b.
Proof.
  apply (@compress_decompress_roundtrip toy_runtime
           (CacheBlock.new "a" (PyBytes forty_bytes) L2_WARM 100)
           (Byte.x43 :: forty_bytes)); try reflexivity.
  discriminate.
Defined.

(* ================================================================== *)
(** ** Least recently used first *)

Section lru.
Context `{PyRuntime}.
Import HelixCache.

Lemma od_pop_absent {V} k (d : list (string * V)) :
  OrderedDict.contains k d = false -> OrderedDict.pop k d = d.
Proof.
  induction d as [|[k' v'] d IH]; simpl; [done|].
  intros [E1 E2]%orb_false_elim. rewrite E1. simpl. by rewrite IH.
Qed.

Lemma od_set_absent {V} k (v : V) d :
  OrderedDict.contains k d = false -> OrderedDict.set k v d = d ++ [(k, v)].
Proof.
  induction d as [|[k' v'] d IH]; simpl; [done|].
  intros [E1 E2]%orb_false_elim. rewrite E1. by rewrite IH.
Qed.

Lemma od_pop_head_NoDup {V} k (v : V) rest :
  NoDup (OrderedDict.keys ((k, v) :: rest)) ->
  OrderedDict.pop k ((k, v) :: rest) = rest.
Proof.
  intros [Hk _]%NoDup_cons. simpl. rewrite String.eqb_refl. simpl.
  apply od_pop_absent.
  destruct (OrderedDict.contains k rest) eqn:E; [|done].
  by apply od_elem_of_keys in E.
Qed.

Lemma od_contains_drop {V} k n (d : list (string * V)) :
  OrderedDict.contains k d = false -> OrderedDict.contains k (drop n d) = false.
Proof.
  revert d. induction n as [|n IH]; intros [|[k' v'] d]; simpl; try done.
  intros [_ E]%orb_false_elim. by apply IH.
Qed.

(** The loop drops entries from the old end of Hot, as few as make room. *)
Lemma _make_room_l1_loop_lru fuel needed c :
  NoDup (OrderedDict.keys (l1_cache c)) ->
  (length (l1_cache c) <= fuel)%nat ->
  let c' := _make_room_l1_loop fuel needed c in
  exists n,
    l1_cache c' = drop n (l1_cache c)
    /\ (_get_tier_size (drop n (l1_cache c)) + needed <= l1_max c
        \/ drop n (l1_cache c) = [])
    /\ (forall j, (j < n)%nat ->
          _get_tier_size (drop j (l1_cache c)) + needed > l1_max c).
Proof.
  cbn zeta. revert c.
  induction fuel as [|fuel IH]; intros c Hd Hlen; simpl.
  { exists 0%nat. rewrite drop_0. split; [done|]. split; [|intros j Hj; lia].
    right. destruct (l1_cache c); [done|simpl in Hlen; lia]. }
  destruct (l1_cache c) as [|[k b] rest] eqn:E.
  { exists 0%nat. rewrite ?E. simpl.
    split; [done|]. split; [by right|]. intros j Hj. lia. }
  rewrite <- E.
  destruct (Z.gtb_spec (_get_tier_size (l1_cache c) + needed) (l1_max c))
    as [Hgt|Hle].
  2:{ exists 0%nat. rewrite drop_0.
      split; [done|]. split; [by left|intros j Hj; lia]. }
  destruct (_demote_to_l2_frame k b c) as ((M1 & _) & E1).
  rewrite E, od_pop_head_NoDup in E1 by exact Hd.
  destruct (IH (_demote_to_l2 k b c)) as (n & A & B & C).
  { rewrite E1. by apply NoDup_cons in Hd as [_ ?]. }
  { rewrite E1. simpl in Hlen. lia. }
  rewrite E1, M1 in *. exists (S n). rewrite E. simpl.
  split; [done|]. split; [done|].
  rewrite E in Hgt. simpl in Hgt.
  intros [|j] Hj; simpl; [lia|]. apply C. lia.
Qed.

Lemma _make_room_l1_lru needed c :
  NoDup (OrderedDict.keys (l1_cache c)) ->
  exists n,
    l1_cache (_make_room_l1 needed c) = drop n (l1_cache c)
    /\ (_get_tier_size (drop n (l1_cache c)) + needed <= l1_max c
        \/ drop n (l1_cache c) = [])
    /\ (forall j, (j < n)%nat ->
          _get_tier_size (drop j (l1_cache c)) + needed > l1_max c).
Proof. intros Hd. by apply _make_room_l1_loop_lru. Qed.

End lru.

(** X2.  Hot is kept in order of last use, and [put] gives up the least
    recently used blocks first.  A hit on a Hot block moves it to the
    most-recent end, with its count incremented, and touches nothing else.
    A [put] of a key that Hot does not hold removes the [n] oldest entries
    of Hot, for the least [n] that makes room for [size] or empties the
    tier, and appends the new block at the most-recent end. *)
Theorem hot_tier_is_lru `{PyRuntime}
    (c : HelixCache.t) (hot key : string) (data : pyval) (size : Z) :
  NoDup (OrderedDict.keys (HelixCache.l1_cache c)) ->
  (forall block,
     OrderedDict.get hot (HelixCache.l1_cache c) = Some block ->
     let c' := snd (HelixCache.get hot c) in
     HelixCache.l1_cache c'
     = OrderedDict.pop hot (HelixCache.l1_cache c)
       ++ [(hot, CacheBlock.access block)]
     /\ HelixCache.l2_cache c' = HelixCache.l2_cache c
     /\ HelixCache.l3_cache c' = HelixCache.l3_cache c)
  /\ (OrderedDict.contains key (HelixCache.l1_cache c) = false ->
      exists n,
        HelixCache.l1_cache (HelixCache.put key data size c)
        = drop n (HelixCache.l1_cache c)
          ++ [(key, CacheBlock.new key data L1_HOT size)]
        /\ (HelixCache._get_tier_size (drop n (HelixCache.l1_cache c)) + size
            <= HelixCache.l1_max c
            \/ drop n (HelixCache.l1_cache c) = [])
        /\ (forall j, (j < n)%nat ->
              HelixCache._get_tier_size (drop j (HelixCache.l1_cache c))
              + size > HelixCache.l1_max c)).
Proof.
  intros Hd. split.
  - intros block E. cbn zeta. unfold HelixCache.get. rewrite E.
    cbn [snd]. cache_simpl. split; [|done].
    unfold OrderedDict.move_to_end. by rewrite od_get_set_eq, od_pop_set.
  - intros Habs. unfold HelixCache.put.
    set (c0 := HelixCache.set_l3 _ _).
    destruct (_make_room_l1_lru size c0 Hd) as (n & A & B & C).
    exists n. cbn [HelixCache.set_l1 HelixCache.l1_cache]. rewrite A.
    split; [|by split].
    apply od_set_absent. by apply od_contains_drop.
Qed.

(** X2 on [three_mallocs], whose Hot tier of 64 bytes holds the block "c"
    of 41 bytes: a hit on "c", and a [put] of 30 bytes under "d". *)
Lemma hot_tier_is_lru_witness :
  let c := HelixMemoryManager.cache three_mallocs in
  (forall block,
     OrderedDict.get "c" (HelixCache.l1_cache c) = Some block ->
     let c' := snd (@HelixCache.get toy_runtime "c" c) in
     HelixCache.l1_cache c'
     = OrderedDict.pop "c" (HelixCache.l1_cache c)
       ++ [("c", CacheBlock.access block)]
     /\ HelixCache.l2_cache c' = HelixCache.l2_cache c
     /\ HelixCache.l3_cache c' = HelixCache.l3_cache c)
  /\ (OrderedDict.contains "d" (HelixCache.l1_cache c) = false ->
      exists n,
        HelixCache.l1_cache
          (@HelixCache.put toy_runtime "d" (PyBytes [Byte.x01]) 30 c)
        = drop n (HelixCache.l1_cache c)
          ++ [("d", CacheBlock.new "d" (PyBytes [Byte.x01]) L1_HOT 30)]
        /\ (HelixCache._get_tier_size (drop n (HelixCache.l1_cache c)) + 30
            <= HelixCache.l1_max c
            \/ drop n (HelixCache.l1_cache c) = [])
        /\ (forall j, (j < n)%nat ->
              HelixCache._get_tier_size (drop j (HelixCache.l1_cache c))
              + 30 > HelixCache.l1_max c)).
Proof.
  apply (@hot_tier_is_lru toy_runtime
           (HelixMemoryManager.cache three_mallocs) "c" "d"
           (PyBytes [Byte.x01]) 30).
  vm_compute. apply NoDup_singleton.
Defined.

(* ================================================================== *)
(** ** What a lookup finds *)

Section OrderedDict_get.
Context {V : Type}.
Implicit Types (d : list (string * V)).

Lemma od_get_pop_eq k d : OrderedDict.get k (OrderedDict.pop k d) = None.
Proof. apply od_get_None, od_contains_pop_eq. Qed.

Lemma od_get_pop_ne k k' d :
  k ≠ k' -> OrderedDict.get k' (OrderedDict.pop k d) = OrderedDict.get k' d.
Proof.
  intros Hne. induction d as [|[k0 v0] d IH]; simpl; [done|].
  destruct (String.eqb k0 k) eqn:E; simpl.
  - apply String.eqb_eq in E as ->.
    by apply String.eqb_neq in Hne as ->.
  - by rewrite IH.
Qed.

Lemma od_get_move_to_end k k' d :
  OrderedDict.get k' (OrderedDict.move_to_end k d) = OrderedDict.get k' d.
Proof.
  unfold OrderedDict.move_to_end.
  destruct (OrderedDict.get k d) as [v|] eqn:E; [|done].
  rewrite od_get_app. destruct (decide (k = k')) as [->|Hne].
  - rewrite od_get_pop_eq. simpl. by rewrite String.eqb_refl.
  - rewrite od_get_pop_ne by done. simpl.
    apply String.eqb_neq in Hne as ->.
    by destruct (OrderedDict.get k' d).
Qed.

End OrderedDict_get.

Section lookups.
Context `{PyRuntime}.
Hypothesis zlib_roundtrip :
  forall s, zlib_decompress (zlib_compress s) = Some s.
Hypothesis pickle_roundtrip :
  forall v s, pickle_dumps v = Some s -> pickle_loads s = Some v.
Import HelixCache.

Lemma carries_new key v tier size : carries v (CacheBlock.new key v tier size).
Proof. by split. Qed.

Lemma carries_access v b : carries v b -> carries v (CacheBlock.access b).
Proof. by intros [? ?]. Qed.

Lemma carries_set_tier v ti b :
  carries v b -> carries v (CacheBlock.set_tier ti b).
Proof. by intros [? ?]. Qed.

Lemma carries_compress v b :
  carries v b -> carries v (snd (CacheBlock.compress b)).
Proof.
  intros [Hd Hc]. unfold CacheBlock.compress.
  destruct (negb (CacheBlock.compressed b) && _); [|by split].
  destruct (pickle_dumps (CacheBlock.data b)) as [s|] eqn:E; [|by split].
  split; [done|]. intros _. exists s. cbn. by rewrite <- Hd.
Qed.

Lemma carries_decompress v b :
  carries v b -> carries v (CacheBlock.decompress b).
Proof.
  intros [Hd Hc]. unfold CacheBlock.decompress.
  destruct (CacheBlock.compressed b) eqn:Ec; cbn [andb];
    [|split; [done|by rewrite Ec]].
  destruct (Hc eq_refl) as (s & Hs & Hcd). rewrite Hcd.
  destruct (truthy_bytes _); [|split; [done|by rewrite Ec]].
  rewrite zlib_roundtrip, (pickle_roundtrip _ _ Hs). by split.
Qed.

(** The value [get] hands out for the block it found. *)
Lemma carries_hit v b :
  carries v b ->
  let hit := if CacheBlock.compressed (CacheBlock.access b)
             then CacheBlock.decompress (CacheBlock.access b)
             else CacheBlock.access b in
  carries v hit.
Proof.
  intros Hb. cbn zeta.
  destruct (CacheBlock.compressed _);
    [apply carries_decompress|]; by apply carries_access.
Qed.

Lemma top_carries_count key v k c :
  top_carries key v (count k c) <-> top_carries key v c.
Proof. done. Qed.

(** [_make_room_l3] forgets blocks of the Compressed tier and changes none. *)
Lemma _make_room_l3_get key needed c :
  let c' := _make_room_l3 needed c in
  OrderedDict.get key (l3_cache c') = None
  \/ OrderedDict.get key (l3_cache c') = OrderedDict.get key (l3_cache c).
Proof.
  unfold _make_room_l3.
  apply (_make_room_l3_loop_keeps
           (fun c' => OrderedDict.get key (l3_cache c') = None
                      \/ OrderedDict.get key (l3_cache c')
                         = OrderedDict.get key (l3_cache c))); [|by right].
  intros c0 k0 b0 rest _ Hc0. cbn [count set_l3 l3_cache].
  destruct (decide (k0 = key)) as [->|Hne].
  - left. apply od_get_pop_eq.
  - by rewrite od_get_pop_ne.
Qed.

Lemma _make_room_l3_top key v needed c :
  top_carries key v c -> top_carries key v (_make_room_l3 needed c).
Proof.
  intros Hc b. unfold first_block.
  destruct (_make_room_l3_frame needed c) as (_ & -> & ->).
  destruct (_make_room_l3_get key needed c) as [->| ->].
  - intros Hb. apply Hc. unfold first_block.
    destruct (OrderedDict.get key (l1_cache c)); [done|].
    by destruct (OrderedDict.get key (l2_cache c)).
  - apply Hc.
Qed.

Lemma _demote_to_l3_top key v k0 block c :
  OrderedDict.get k0 (l2_cache c) = Some block ->
  top_carries key v c -> top_carries key v (_demote_to_l3 k0 block c).
Proof.
  intros Hk0 Hc. unfold _demote_to_l3.
  pose proof (carries_compress v block) as Hcomp.
  destruct (CacheBlock.compress block) as [saved block'].
  cbn [snd] in Hcomp.
  match goal with
  | |- context [_make_room_l3 ?n ?c0] =>
      pose proof (_make_room_l3_top key v n c0) as Hroom;
      destruct (_make_room_l3_frame n c0) as (_ & E1 & E2);
      set (c1 := _make_room_l3 n c0) in *
  end.
  intros b. unfold first_block. cbn [count set_l3 l1_cache l2_cache l3_cache].
  rewrite E1, E2.
  replace (l1_cache (if saved >? 0 then _ else _)) with (l1_cache c)
    by (by destruct (saved >? 0)).
  replace (l2_cache (if saved >? 0 then _ else _))
    with (OrderedDict.pop k0 (l2_cache c)) by (by destruct (saved >? 0)).
  destruct (decide (k0 = key)) as [->|Hne].
  - rewrite od_get_pop_eq, od_get_set_eq.
    destruct (OrderedDict.get key (l1_cache c)) as [b1|] eqn:G1.
    + intros [= <-]. apply Hc. unfold first_block. by rewrite G1.
    + intros [= <-]. apply carries_set_tier, Hcomp, Hc.
      unfold first_block. by rewrite G1, Hk0.
  - rewrite od_get_pop_ne, od_get_set_ne by done.
    intros Hb. apply Hroom; [|unfold first_block; subst c1].
    + intros b'. unfold first_block.
      replace (l1_cache (if saved >? 0 then _ else _)) with (l1_cache c)
        by (by destruct (saved >? 0)).
      replace (l2_cache (if saved >? 0 then _ else _))
        with (OrderedDict.pop k0 (l2_cache c)) by (by destruct (saved >? 0)).
      replace (l3_cache (if saved >? 0 then _ else _)) with (l3_cache c)
        by (by destruct (saved >? 0)).
      rewrite od_get_pop_ne by done. apply Hc.
    + rewrite E1, E2.
      replace (l1_cache (if saved >? 0 then _ else _)) with (l1_cache c)
        by (by destruct (saved >? 0)).
      replace (l2_cache (if saved >? 0 then _ else _))
        with (OrderedDict.pop k0 (l2_cache c)) by (by destruct (saved >? 0)).
      by rewrite od_get_pop_ne.
Qed.

Lemma od_get_head {V} (k : string) (v : V) rest :
  OrderedDict.get k ((k, v) :: rest) = Some v.
Proof. simpl. by rewrite String.eqb_refl. Qed.

Lemma _make_room_l2_top key v needed c :
  top_carries key v c -> top_carries key v (_make_room_l2 needed c).
Proof.
  unfold _make_room_l2. apply _make_room_l2_loop_keeps.
  intros c0 k0 b0 rest E Hc0. apply _demote_to_l3_top; [|done].
  rewrite E. apply od_get_head.
Qed.

Lemma _demote_to_l2_top key v k0 block c :
  OrderedDict.get k0 (l1_cache c) = Some block ->
  top_carries key v c -> top_carries key v (_demote_to_l2 k0 block c).
Proof.
  intros Hk0 Hc. unfold _demote_to_l2.
  match goal with
  | |- context [_make_room_l2 ?n ?c0] =>
      pose proof (_make_room_l2_top key v n c0) as Hroom;
      destruct (_make_room_l2_frame n c0) as (_ & E1);
      set (c1 := _make_room_l2 n c0) in *
  end.
  cbn [set_l1 l1_cache] in E1.
  intros b. unfold first_block. cbn [count set_l2 l1_cache l2_cache l3_cache].
  rewrite E1.
  destruct (decide (k0 = key)) as [->|Hne].
  - rewrite od_get_pop_eq, od_get_set_eq. intros [= <-].
    apply carries_set_tier, Hc. unfold first_block. by rewrite Hk0.
  - rewrite od_get_pop_ne, od_get_set_ne by done.
    intros Hb. apply Hroom.
    + intros b'. unfold first_block. cbn [set_l1 l1_cache l2_cache l3_cache].
      rewrite od_get_pop_ne by done. apply Hc.
    + unfold first_block. fold c1. rewrite E1. by rewrite od_get_pop_ne.
Qed.

Lemma _make_room_l1_top key v needed c :
  top_carries key v c -> top_carries key v (_make_room_l1 needed c).
Proof.
  unfold _make_room_l1. apply _make_room_l1_loop_keeps.
  intros c0 k0 b0 rest E Hc0. apply _demote_to_l2_top; [|done].
  rewrite E. apply od_get_head.
Qed.

(** Storing into Hot a block that carries the value, or a block of another
    key. *)
Lemma top_carries_set_l1 key v k0 block c :
  (k0 = key -> carries v block) ->
  (k0 ≠ key -> top_carries key v c) ->
  top_carries key v (set_l1 (OrderedDict.set k0 block (l1_cache c)) c).
Proof.
  intros Hb Hc b. unfold first_block. cbn [set_l1 l1_cache l2_cache l3_cache].
  destruct (decide (k0 = key)) as [->|Hne].
  - rewrite od_get_set_eq. intros [= <-]. by apply Hb.
  - rewrite od_get_set_ne by done. by apply Hc.
Qed.

Lemma top_carries_set_l2 key v k0 block c :
  (k0 = key -> OrderedDict.get key (l1_cache c) = None -> carries v block) ->
  (k0 ≠ key -> top_carries key v c) ->
  (k0 = key -> forall b, OrderedDict.get key (l1_cache c) = Some b ->
                         carries v b) ->
  top_carries key v (set_l2 (OrderedDict.set k0 block (l2_cache c)) c).
Proof.
  intros Hb Hc H1 b. unfold first_block.
  cbn [set_l2 l1_cache l2_cache l3_cache].
  destruct (decide (k0 = key)) as [->|Hne].
  - rewrite od_get_set_eq.
    destruct (OrderedDict.get key (l1_cache c)) as [b1|] eqn:G1.
    + intros [= <-]. by apply H1.
    + intros [= <-]. by apply Hb.
  - rewrite od_get_set_ne by done. by apply Hc.
Qed.

Lemma top_carries_pop_l1_ne key v k0 c :
  k0 ≠ key -> top_carries key v c ->
  top_carries key v (set_l1 (OrderedDict.pop k0 (l1_cache c)) c).
Proof.
  intros Hne Hc b. unfold first_block. cbn [set_l1 l1_cache l2_cache l3_cache].
  rewrite od_get_pop_ne by done. apply Hc.
Qed.

Lemma top_carries_pop_l2_ne key v k0 c :
  k0 ≠ key -> top_carries key v c ->
  top_carries key v (set_l2 (OrderedDict.pop k0 (l2_cache c)) c).
Proof.
  intros Hne Hc b. unfold first_block. cbn [set_l2 l1_cache l2_cache l3_cache].
  rewrite od_get_pop_ne by done. apply Hc.
Qed.

Lemma top_carries_pop_l3_ne key v k0 c :
  k0 ≠ key -> top_carries key v c ->
  top_carries key v (set_l3 (OrderedDict.pop k0 (l3_cache c)) c).
Proof.
  intros Hne Hc b. unfold first_block. cbn [set_l3 l1_cache l2_cache l3_cache].
  rewrite od_get_pop_ne by done. apply Hc.
Qed.

Lemma put_top_other key v k0 data size c :
  k0 ≠ key -> top_carries key v c -> top_carries key v (put k0 data size c).
Proof.
  intros Hne Hc. unfold put.
  apply top_carries_set_l1; [done|]. intros _.
  by apply _make_room_l1_top, top_carries_pop_l3_ne, top_carries_pop_l2_ne.
Qed.

Lemma put_top key data size c : top_carries key data (put key data size c).
Proof.
  intros b. unfold first_block. rewrite put_get_l1. intros [= <-].
  apply carries_new.
Qed.

Lemma _promote_to_l1_top key v k0 block c :
  (k0 = key -> carries v block) ->
  top_carries key v c -> top_carries key v (_promote_to_l1 k0 block c).
Proof.
  intros Hb Hc. unfold _promote_to_l1.
  apply top_carries_count, top_carries_set_l1; [done|]. intros Hne.
  by apply _make_room_l1_top, top_carries_pop_l2_ne.
Qed.

Lemma _promote_to_l2_top key v k0 block c :
  (k0 = key -> carries v block) ->
  OrderedDict.get k0 (l1_cache c) = None ->
  top_carries key v c -> top_carries key v (_promote_to_l2 k0 block c).
Proof.
  intros Hb Hk0 Hc. unfold _promote_to_l2.
  match goal with
  | |- context [_make_room_l2 ?n ?c0] =>
      destruct (_make_room_l2_frame n c0) as (_ & E1)
  end.
  cbn [set_l3 l1_cache] in E1.
  apply top_carries_count, top_carries_set_l2.
  - intros -> _. by apply Hb.
  - intros Hne. by apply _make_room_l2_top, top_carries_pop_l3_ne.
  - intros -> b. rewrite E1, Hk0. done.
Qed.

Lemma top_carries_touch_l1 key v k0 block c :
  (k0 = key -> carries v block) ->
  top_carries key v c ->
  top_carries key v
    (set_l1 (OrderedDict.move_to_end k0
               (OrderedDict.set k0 block (l1_cache c))) c).
Proof.
  intros Hb Hc b. unfold first_block. cbn [set_l1 l1_cache l2_cache l3_cache].
  rewrite od_get_move_to_end.
  pose proof (top_carries_set_l1 key v k0 block c Hb (fun _ => Hc) b) as Hs.
  unfold first_block in Hs. cbn [set_l1 l1_cache l2_cache l3_cache] in Hs.
  exact Hs.
Qed.

(** [get] changes no value a lookup finds. *)
Lemma get_top key v k0 c :
  top_carries key v c -> top_carries key v (snd (get k0 c)).
Proof.
  intros Hc. unfold get.
  destruct (OrderedDict.get k0 (l1_cache c)) as [b1|] eqn:G1.
  { cbn [snd count l1_cache set_l1]. intros b. unfold first_block.
    cbn [set_l1 l1_cache l2_cache l3_cache]. rewrite od_get_move_to_end.
    destruct (decide (k0 = key)) as [->|Hne].
    - rewrite od_get_set_eq. intros [= <-]. apply carries_access, Hc.
      unfold first_block. by rewrite G1.
    - rewrite od_get_set_ne by done. apply Hc. }
  cbn [count l2_cache].
  destruct (OrderedDict.get k0 (l2_cache c)) as [b2|] eqn:G2.
  { cbn [count l2_cache set_l2].
    assert (k0 = key -> carries v (CacheBlock.access b2)) as Hb.
    { intros ->. apply carries_access, Hc. unfold first_block.
      by rewrite G1, G2. }
    assert (top_carries key v
              (set_l2 (OrderedDict.set k0 (CacheBlock.access b2) (l2_cache c))
                 (count "l2_hits" (count "l1_misses" c)))) as Hc2.
    { apply (top_carries_set_l2 key v k0 (CacheBlock.access b2)
               (count "l2_hits" (count "l1_misses" c))); [by auto|by auto|].
      intros -> b. cbn [count l1_cache]. by rewrite G1. }
    destruct (_ >? 3); cbn [snd].
    - by apply _promote_to_l1_top.
    - intros b. unfold first_block.
      cbn [set_l2 count l1_cache l2_cache l3_cache].
      rewrite od_get_move_to_end. apply Hc2. }
  cbn [count l3_cache].
  destruct (OrderedDict.get k0 (l3_cache c)) as [b3|] eqn:G3; [|done].
  cbn [count l3_cache set_l3].
  set (hit := if CacheBlock.compressed (CacheBlock.access b3)
              then CacheBlock.decompress (CacheBlock.access b3)
              else CacheBlock.access b3).
  assert (k0 = key -> carries v hit) as Hb.
  { intros ->. apply carries_hit, Hc. unfold first_block.
    by rewrite G1, G2, G3. }
  assert (top_carries key v
            (set_l3 (OrderedDict.set k0 hit (l3_cache c))
               (count "l3_hits" (count "l2_misses" (count "l1_misses" c)))))
    as Hc3.
  { intros b. unfold first_block. cbn [set_l3 count l1_cache l2_cache l3_cache].
    destruct (decide (k0 = key)) as [->|Hne].
    - rewrite G1, G2, od_get_set_eq. intros [= <-]. by apply Hb.
    - rewrite od_get_set_ne by done. apply Hc. }
  destruct (_ >? 2); cbn [snd].
  - by apply _promote_to_l2_top.
  - intros b. unfold first_block.
    cbn [set_l3 count l1_cache l2_cache l3_cache].
    rewrite od_get_move_to_end. apply Hc3.
Qed.

(** What [get] returns is the value of the block it finds. *)
Lemma get_value key v c :
  top_carries key v c ->
  fst (get key c) = match first_block key c with
                    | Some _ => v
                    | None => PyNone
                    end.
Proof.
  intros Hc. unfold top_carries, first_block in Hc. unfold get, first_block.
  destruct (OrderedDict.get key (l1_cache c)) as [b1|] eqn:G1.
  { by destruct (Hc b1 eq_refl). }
  cbn [count l2_cache].
  destruct (OrderedDict.get key (l2_cache c)) as [b2|] eqn:G2.
  { destruct (Hc b2 eq_refl) as [Hd _]. by destruct (_ >? 3). }
  cbn [count l3_cache].
  destruct (OrderedDict.get key (l3_cache c)) as [b3|] eqn:G3; [|done].
  destruct (carries_hit v b3 (Hc b3 eq_refl)) as [Hd _].
  by destruct (_ >? 2).
Qed.

End lookups.

Section stored_values.
Context `{PyRuntime}.
Hypothesis zlib_roundtrip :
  forall s, zlib_decompress (zlib_compress s) = Some s.
Hypothesis pickle_roundtrip :
  forall v s, pickle_dumps v = Some s -> pickle_loads s = Some v.
Import HelixMemoryManager.

Lemma free_top_other key v k0 m :
  k0 ≠ key -> top_carries key v (cache m) ->
  top_carries key v (cache (snd (free k0 m))).
Proof.
  intros Hne Hc. unfold free. destruct (_ !! _); [|done].
  cbn [snd cache].
  by apply top_carries_pop_l3_ne, top_carries_pop_l2_ne,
           top_carries_pop_l1_ne.
Qed.

Lemma malloc_top_other key v k0 data m :
  k0 ≠ key -> top_carries key v (cache m) ->
  top_carries key v (cache (snd (malloc k0 data m))).
Proof.
  intros Hne Hc. unfold malloc. destruct (_ >? _); [done|].
  cbn [snd cache]. by apply put_top_other.
Qed.

Lemma read_top key v k0 m :
  top_carries key v (cache m) -> top_carries key v (cache (snd (read k0 m))).
Proof.
  intros Hc. unfold read.
  pose proof (get_top zlib_roundtrip pickle_roundtrip key v k0 (cache m) Hc).
  by destruct (HelixCache.get k0 (cache m)).
Qed.

Lemma run_op_top key v o m :
  stores_to o ≠ Some key ->
  top_carries key v (cache m) -> top_carries key v (cache (run_op o m)).
Proof.
  intros Ho Hc. destruct o as [k|k d s|k d|k|k|k d]; simpl in *.
  - by apply get_top.
  - apply put_top_other; [congruence|done].
  - apply malloc_top_other; [congruence|done].
  - apply free_top_other; [congruence|done].
  - by apply read_top.
  - unfold write. apply malloc_top_other; [congruence|].
    destruct (_ !! _); [|done]. apply free_top_other; [congruence|done].
Qed.

Lemma run_ops_top key v os m :
  Forall (fun o => stores_to o ≠ Some key) os ->
  top_carries key v (cache m) -> top_carries key v (cache (run_ops os m)).
Proof.
  intros Hos. revert m.
  induction Hos as [|o os Ho Hos IH]; intros m Hc; [done|].
  apply IH. by apply run_op_top.
Qed.

(** An operation on other keys drops [key] only with a counted eviction. *)
Lemma free_keeps_key key k0 m :
  k0 ≠ key ->
  evictions (cache (snd (free k0 m))) = evictions (cache m)
  /\ (HelixCache.resident key (cache m) = true ->
      HelixCache.resident key (cache (snd (free k0 m))) = true).
Proof.
  intros Hne. unfold free. destruct (_ !! _); [|done].
  cbn [snd cache]. split; [done|].
  unfold HelixCache.resident. cache_simpl.
  by rewrite !od_contains_pop_ne.
Qed.

Lemma malloc_keeps_residents k0 data m :
  keeps_residents (cache m) (cache (snd (malloc k0 data m))).
Proof.
  unfold malloc. destruct (_ >? _); [apply keeps_residents_refl|].
  apply put_keeps_residents.
Qed.

Lemma run_op_keeps key o m :
  stores_to o ≠ Some key ->
  evictions (cache m) <= evictions (cache (run_op o m))
  /\ (evictions (cache (run_op o m)) = evictions (cache m) ->
      HelixCache.resident key (cache m) = true ->
      HelixCache.resident key (cache (run_op o m)) = true).
Proof.
  intros Ho.
  assert (forall c', keeps_residents (cache m) c' ->
            evictions (cache m) <= evictions c'
            /\ (evictions c' = evictions (cache m) ->
                HelixCache.resident key (cache m) = true ->
                HelixCache.resident key c' = true)) as K.
  { intros c' [K1 K2]. split; [done|]. intros E. by apply K2. }
  destruct o as [k|k d s|k d|k|k|k d]; simpl in *.
  - apply K, get_keeps_residents.
  - apply K, put_keeps_residents.
  - apply K, malloc_keeps_residents.
  - destruct (free_keeps_key key k m) as [E R]; [congruence|].
    split; [lia|]. intros _. exact R.
  - unfold read.
    pose proof (get_keeps_residents k (cache m)) as G.
    destruct (HelixCache.get k (cache m)). by apply K.
  - unfold write.
    assert (k ≠ key) as Hne by congruence.
    destruct (allocations m !! k); [|apply K, malloc_keeps_residents].
    destruct (free_keeps_key key k m Hne) as [E R].
    destruct (malloc_keeps_residents k d (snd (free k m))) as [M1 M2].
    split; [lia|]. intros E' Hk. apply M2; [lia|]. by apply R.
Qed.

Lemma run_ops_keeps key os m :
  Forall (fun o => stores_to o ≠ Some key) os ->
  evictions (cache m) <= evictions (cache (run_ops os m))
  /\ (evictions (cache (run_ops os m)) = evictions (cache m) ->
      HelixCache.resident key (cache m) = true ->
      HelixCache.resident key (cache (run_ops os m)) = true).
Proof.
  intros Hos. revert m.
  induction Hos as [|o os Ho Hos IH]; intros m; [simpl; split; [lia|done]|].
  destruct (run_op_keeps key o m Ho) as [A1 A2].
  destruct (IH (run_op o m)) as [B1 B2].
  change (run_ops (o :: os) m) with (run_ops os (run_op o m)).
  split; [lia|]. intros E Hk. apply B2; [lia|]. apply A2; [lia|done].
Qed.

(** A store leaves the value on top and the key resident. *)
Lemma stored_top o m key data :
  stored o m = Some (key, data) ->
  top_carries key data (cache (run_op o m))
  /\ HelixCache.resident key (cache (run_op o m)) = true.
Proof.
  assert (forall m0, fst (malloc key data m0) = true ->
            top_carries key data (cache (snd (malloc key data m0)))
            /\ HelixCache.resident key (cache (snd (malloc key data m0)))
               = true) as M.
  { intros m0. unfold malloc. destruct (_ >? _); [done|]. intros _.
    cbn [snd cache]. split; [apply put_top|apply put_keeps_residents]. }
  destruct o as [k|k d s|k d|k|k|k d]; simpl; try done.
  - intros [= -> ->]. split; [apply put_top|apply put_keeps_residents].
  - destruct (fst (malloc k d m)) eqn:E; [|done]. intros [= -> ->].
    by apply M.
  - destruct (fst (write k d m)) eqn:E; [|done]. intros [= -> ->].
    unfold write in *. by apply M.
Qed.

Lemma resident_first_block key c :
  HelixCache.resident key c = true -> is_Some (first_block key c).
Proof.
  unfold HelixCache.resident, first_block. rewrite !od_contains_get.
  destruct (OrderedDict.get key (HelixCache.l1_cache c)); [eauto|].
  destruct (OrderedDict.get key (HelixCache.l2_cache c)); [eauto|].
  destruct (OrderedDict.get key (HelixCache.l3_cache c)); [eauto|done].
Qed.

Lemma read_value key v m :
  top_carries key v (cache m) ->
  (fst (read key m) = v \/ fst (read key m) = PyNone)
  /\ (HelixCache.resident key (cache m) = true -> fst (read key m) = v).
Proof.
  intros Hc. unfold read.
  pose proof (get_value zlib_roundtrip pickle_roundtrip key v (cache m) Hc)
    as G.
  destruct (HelixCache.get key (cache m)) as [r c']. cbn [fst] in *.
  split.
  - destruct (first_block key (cache m)); auto.
  - intros [b Hb]%resident_first_block. by rewrite Hb in G.
Qed.

End stored_values.

(** X5.  No stale reads.  Let an operation store [data] under [key] (a
    [put], or a [malloc] or [write] that returns [True]) and let any
    operations follow that neither store to [key] nor free it: lookups of any
    key, and stores and frees of other keys, with all the demotions,
    compressions, promotions and evictions they trigger.  With a lossless
    codec a [read] of [key] then returns [data] or [None], never another
    value; and it returns [data] if the eviction counter has not moved since
    the store. *)
Theorem read_returns_last_stored `{PyRuntime}
    (m : HelixMemoryManager.t) (o : op) (os : list op)
    (key : string) (data : pyval) :
  (forall s, zlib_decompress (zlib_compress s) = Some s) ->
  (forall v s, pickle_dumps v = Some s -> pickle_loads s = Some v) ->
  stored o m = Some (key, data) ->
  Forall (fun o' => stores_to o' ≠ Some key) os ->
  let m1 := run_op o m in
  let m2 := run_ops os m1 in
  let v := fst (HelixMemoryManager.read key m2) in
  (v = data \/ v = PyNone)
  /\ (evictions (HelixMemoryManager.cache m2)
      = evictions (HelixMemoryManager.cache m1) -> v = data).
Proof.
  intros Hz Hp Hst Hos m1 m2 v.
  destruct (stored_top o m key data Hst) as [T R].
  pose proof (run_ops_top Hz Hp key data os m1 Hos T) as T2.
  destruct (run_ops_keeps key os m1 Hos) as [_ K].
  destruct (read_value Hz Hp key data m2 T2) as [V1 V2].
  split; [exact V1|]. intros E. apply V2. by apply K.
Qed.

Lemma toy_pickle_roundtrip v s :
  @pickle_dumps toy_runtime v = Some s -> @pickle_loads toy_runtime s = Some v.
Proof. destruct v; simpl; by intros [= <-]. Qed.

(** X5 for a block that two later allocations push down to the Compressed
    tier, read back after a lookup, a [free] and a [write] of other keys. *)
Lemma read_returns_last_stored_witness :
  let os := [Malloc "b" (PyBytes forty_bytes);
             Malloc "c" (PyBytes forty_bytes);
             Read "b"; Free "c";
             Write "d" (PyBytes twenty_bytes)] in
  let m1 := @run_op toy_runtime (Malloc "a" (PyBytes [Byte.x01]))
              (fresh_manager 64 64 MiB (8192 * MiB)) in
  let m2 := @run_ops toy_runtime os m1 in
  let v := fst (@HelixMemoryManager.read toy_runtime "a" m2) in
  (v = PyBytes [Byte.x01] \/ v = PyNone)
  /\ (evictions (HelixMemoryManager.cache m2)
      = evictions (HelixMemoryManager.cache m1) -> v = PyBytes [Byte.x01]).
Proof.
  apply (@read_returns_last_stored toy_runtime
           (fresh_manager 64 64 MiB (8192 * MiB))
           (Malloc "a" (PyBytes [Byte.x01]))).
  - exact toy_zlib_roundtrip.
  - exact toy_pickle_roundtrip.
  - reflexivity.
  - repeat constructor; discriminate.
Defined.

(* ================================================================== *)
(** ** The hit and miss counters *)

(** A counter that moving blocks between tiers does not touch. *)
Section lookup_counters.
Context `{PyRuntime}.
Variable k : string.
Hypothesis not_promotions : k ≠ "promotions"%string.
Hypothesis not_demotions : k ≠ "demotions"%string.
Hypothesis not_evictions : k ≠ "evictions"%string.
Hypothesis not_compressions : k ≠ "compressions"%string.
Import HelixCache.

Lemma _make_room_l3_stat needed c :
  stat k (stats (_make_room_l3 needed c)) = stat k (stats c).
Proof.
  unfold _make_room_l3.
  apply (_make_room_l3_loop_keeps
           (fun c' => stat k (stats c') = stat k (stats c))); [|done].
  intros c0 k0 b0 rest _ Hc0. cache_simpl. by rewrite stat_bump_ne.
Qed.

Lemma _demote_to_l3_stat k0 block c :
  stat k (stats (_demote_to_l3 k0 block c)) = stat k (stats c).
Proof.
  unfold _demote_to_l3. destruct (CacheBlock.compress block) as [saved b'].
  cbn [count set_l3 stats]. rewrite stat_bump_ne, _make_room_l3_stat by done.
  destruct (saved >? 0); cache_simpl; [by rewrite stat_bump_ne|done].
Qed.

Lemma _make_room_l2_stat needed c :
  stat k (stats (_make_room_l2 needed c)) = stat k (stats c).
Proof.
  unfold _make_room_l2.
  apply (_make_room_l2_loop_keeps
           (fun c' => stat k (stats c') = stat k (stats c))); [|done].
  intros c0 k0 b0 rest _ Hc0. by rewrite _demote_to_l3_stat.
Qed.

Lemma _demote_to_l2_stat k0 block c :
  stat k (stats (_demote_to_l2 k0 block c)) = stat k (stats c).
Proof.
  unfold _demote_to_l2. cbn [count set_l2 stats].
  by rewrite stat_bump_ne, _make_room_l2_stat.
Qed.

Lemma _make_room_l1_stat needed c :
  stat k (stats (_make_room_l1 needed c)) = stat k (stats c).
Proof.
  unfold _make_room_l1.
  apply (_make_room_l1_loop_keeps
           (fun c' => stat k (stats c') = stat k (stats c))); [|done].
  intros c0 k0 b0 rest _ Hc0. by rewrite _demote_to_l2_stat.
Qed.

Lemma _promote_to_l1_stat k0 block c :
  stat k (stats (_promote_to_l1 k0 block c)) = stat k (stats c).
Proof.
  unfold _promote_to_l1. cbn [count set_l1 stats].
  by rewrite stat_bump_ne, _make_room_l1_stat.
Qed.

Lemma _promote_to_l2_stat k0 block c :
  stat k (stats (_promote_to_l2 k0 block c)) = stat k (stats c).
Proof.
  unfold _promote_to_l2. cbn [count set_l2 stats].
  by rewrite stat_bump_ne, _make_room_l2_stat.
Qed.

Lemma put_stat key data size c :
  stat k (stats (put key data size c)) = stat k (stats c).
Proof. unfold put. cbn [set_l1 stats]. by rewrite _make_room_l1_stat. Qed.

End lookup_counters.

Section lookup_accounting.
Context `{PyRuntime}.
Import HelixCache.

(** The counters one lookup moves: one of [l1_hits] and [l1_misses]; after a
    Hot miss one of [l2_hits] and [l2_misses]; after a Warm miss one of
    [l3_hits] and [l3_misses]. *)
Lemma get_counts key c :
  let st := stats c in
  let st' := stats (snd (get key c)) in
  stat "l1_hits" st' + stat "l1_misses" st'
  = stat "l1_hits" st + stat "l1_misses" st + 1
  /\ stat "l2_hits" st' + stat "l2_misses" st' - stat "l1_misses" st'
     = stat "l2_hits" st + stat "l2_misses" st - stat "l1_misses" st
  /\ stat "l3_hits" st' + stat "l3_misses" st' - stat "l2_misses" st'
     = stat "l3_hits" st + stat "l3_misses" st - stat "l2_misses" st.
Proof.
  cbn zeta. unfold get.
  destruct (OrderedDict.get key (l1_cache c)).
  { cbn [snd set_l1 count stats].
    rewrite !stat_bump_eq, !stat_bump_ne by done. lia. }
  cbn [count l2_cache].
  destruct (OrderedDict.get key (l2_cache c)).
  { destruct (_ >? 3); cbn [snd];
      rewrite ?_promote_to_l1_stat by done; cbn [set_l2 count stats];
      rewrite !stat_bump_eq, !stat_bump_ne by done;
      rewrite ?stat_bump_eq, ?stat_bump_ne by done; lia. }
  cbn [count l3_cache].
  destruct (OrderedDict.get key (l3_cache c)).
  { destruct (_ >? 2); cbn [snd];
      rewrite ?_promote_to_l2_stat by done; cbn [set_l3 count stats];
      repeat (rewrite ?stat_bump_eq, ?stat_bump_ne by done); lia. }
  cbn [snd count stats].
  repeat (rewrite ?stat_bump_eq, ?stat_bump_ne by done). lia.
Qed.

End lookup_accounting.

Section run_accounting.
Context `{PyRuntime}.
Import HelixMemoryManager.

Lemma run_op_counts o m :
  let st := HelixCache.stats (cache m) in
  let st' := HelixCache.stats (cache (run_op o m)) in
  stat "l1_hits" st' + stat "l1_misses" st'
  = stat "l1_hits" st + stat "l1_misses" st + lookups [o]
  /\ stat "l2_hits" st' + stat "l2_misses" st' - stat "l1_misses" st'
     = stat "l2_hits" st + stat "l2_misses" st - stat "l1_misses" st
  /\ stat "l3_hits" st' + stat "l3_misses" st' - stat "l2_misses" st'
     = stat "l3_hits" st + stat "l3_misses" st - stat "l2_misses" st.
Proof.
  assert (forall key data m0,
            forall k, k ≠ "promotions"%string -> k ≠ "demotions"%string ->
              k ≠ "evictions"%string -> k ≠ "compressions"%string ->
              stat k (HelixCache.stats (cache (snd (malloc key data m0))))
              = stat k (HelixCache.stats (cache m0))) as M.
  { intros key data m0 k ? ? ? ?. unfold malloc. destruct (_ >? _); [done|].
    cbn [snd cache]. by apply put_stat. }
  assert (forall key m0,
            HelixCache.stats (cache (snd (free key m0)))
            = HelixCache.stats (cache m0)) as F.
  { intros key m0. unfold free. by destruct (_ !! _). }
  cbn zeta. destruct o as [k|k d s|k d|k|k|k d];
    cbn [run_op lookups cache set_cache].
  - pose proof (get_counts k (cache m)). cbn zeta in *. lia.
  - rewrite !put_stat by done. lia.
  - rewrite !M by done. lia.
  - rewrite F. lia.
  - unfold read. pose proof (get_counts k (cache m)) as G.
    destruct (HelixCache.get k (cache m)). cbn [snd cache set_cache] in *. lia.
  - unfold write. rewrite !M by done.
    destruct (_ !! _); [rewrite F|]; lia.
Qed.

Lemma lookups_app os1 os2 : lookups (os1 ++ os2) = lookups os1 + lookups os2.
Proof.
  induction os1 as [|o os1 IH]; simpl; [done|]. destruct o; lia.
Qed.

Lemma run_ops_counts os m :
  let st := HelixCache.stats (cache m) in
  let st' := HelixCache.stats (cache (run_ops os m)) in
  stat "l1_hits" st' + stat "l1_misses" st'
  = stat "l1_hits" st + stat "l1_misses" st + lookups os
  /\ stat "l2_hits" st' + stat "l2_misses" st' - stat "l1_misses" st'
     = stat "l2_hits" st + stat "l2_misses" st - stat "l1_misses" st
  /\ stat "l3_hits" st' + stat "l3_misses" st' - stat "l2_misses" st'
     = stat "l3_hits" st + stat "l3_misses" st - stat "l2_misses" st.
Proof.
  cbn zeta. revert m. induction os as [|o os IH]; intros m; [simpl; lia|].
  change (run_ops (o :: os) m) with (run_ops os (run_op o m)).
  change (o :: os) with ([o] ++ os). rewrite lookups_app.
  pose proof (run_op_counts o m). pose proof (IH (run_op o m)).
  cbn zeta in *. lia.
Qed.

End run_accounting.

(** X6.  The hit and miss counters account for every lookup.  After any run
    of operations on a new cache and allocator, the Hot counters add up to the
    number of lookups made ([get] and [read]), the Warm counters to the number
    of Hot misses and the Compressed counters to the number of Warm misses;
    stores, frees, demotions and promotions move none of them.  So
    [total_hits] of [get_stats] plus the Compressed misses is the number of
    lookups, while [total_ops], the denominator of its hit rate, counts a
    lookup once for every tier it asked. *)
Theorem lookup_counters_account `{PyRuntime}
    (m1 m2 m3 budget : Z) (os : list op) :
  let c := HelixMemoryManager.cache
             (run_ops os (fresh_manager m1 m2 m3 budget)) in
  let st := HelixCache.stats c in
  stat "l1_hits" st + stat "l1_misses" st = lookups os
  /\ stat "l2_hits" st + stat "l2_misses" st = stat "l1_misses" st
  /\ stat "l3_hits" st + stat "l3_misses" st = stat "l2_misses" st
  /\ total_hits c + stat "l3_misses" st = lookups os
  /\ total_ops c = lookups os + stat "l1_misses" st + stat "l2_misses" st.
Proof.
  cbn zeta. unfold total_hits, total_ops.
  pose proof (run_ops_counts os (fresh_manager m1 m2 m3 budget)) as R.
  cbn zeta in R.
  change (stat "l1_hits" (HelixCache.stats (HelixMemoryManager.cache
            (fresh_manager m1 m2 m3 budget)))) with 0 in R.
  change (stat "l1_misses" (HelixCache.stats (HelixMemoryManager.cache
            (fresh_manager m1 m2 m3 budget)))) with 0 in R.
  change (stat "l2_hits" (HelixCache.stats (HelixMemoryManager.cache
            (fresh_manager m1 m2 m3 budget)))) with 0 in R.
  change (stat "l2_misses" (HelixCache.stats (HelixMemoryManager.cache
            (fresh_manager m1 m2 m3 budget)))) with 0 in R.
  change (stat "l3_hits" (HelixCache.stats (HelixMemoryManager.cache
            (fresh_manager m1 m2 m3 budget)))) with 0 in R.
  change (stat "l3_misses" (HelixCache.stats (HelixMemoryManager.cache
            (fresh_manager m1 m2 m3 budget)))) with 0 in R.
  lia.
Qed.

(* ================================================================== *)
(** ** The allocation budget *)

Section sizes_sum.
Implicit Types (a : gmap string Z).

Local Abbreviation sum a := (map_fold (fun (_ : string) size acc => size + acc) 0 a).

Lemma sum_insert_fresh k s a :
  a !! k = None -> sum (<[k := s]> a) = s + sum a.
Proof.
  intros Hk. apply (map_fold_insert_L (fun _ size acc => size + acc));
    [|done].
  intros. lia.
Qed.

Lemma sum_delete k s a :
  a !! k = Some s -> sum (delete k a) = sum a - s.
Proof.
  intros Hk.
  rewrite <- (insert_delete_id a k s Hk) at 2.
  rewrite sum_insert_fresh by apply lookup_delete_eq. lia.
Qed.

Lemma sum_insert k s a :
  sum (<[k := s]> a) = s + sum a - default 0 (a !! k).
Proof.
  destruct (a !! k) as [old|] eqn:Hk; simpl.
  - rewrite <- insert_delete_eq, sum_insert_fresh by apply lookup_delete_eq.
    rewrite (sum_delete k old) by done. lia.
  - rewrite sum_insert_fresh by done. lia.
Qed.

Lemma sum_nonneg a :
  map_Forall (fun _ s => 0 <= s) a -> 0 <= sum a.
Proof.
  induction a as [|k s a Hk IH] using map_ind; intros Ha.
  - by rewrite map_fold_empty.
  - rewrite sum_insert_fresh by done.
    apply map_Forall_insert in Ha as [Hs Ha]; [|done].
    specialize (IH Ha). lia.
Qed.

End sizes_sum.

Section budget.
Context `{PyRuntime}.
Import HelixMemoryManager.

(** What every operation keeps of the accounts: recorded sizes are not
    negative, their sum is covered by [total_allocated], which is within the
    budget and shown by the [virtual_memory_used] counter. *)
Lemma malloc_budget key data m :
  map_Forall (fun _ s => 0 <= s) (allocations m) ->
  allocated_sum m <= total_allocated m <= max_virtual m ->
  stat "virtual_memory_used" (stats m) = total_allocated m ->
  let m' := snd (malloc key data m) in
  map_Forall (fun _ s => 0 <= s) (allocations m')
  /\ allocated_sum m' <= total_allocated m' <= max_virtual m'
  /\ stat "virtual_memory_used" (stats m') = total_allocated m'
  /\ max_virtual m' = max_virtual m.
Proof.
  intros Hs Hb Hst. cbn zeta. unfold malloc.
  pose proof (computed_size_nonneg data) as Hsize.
  destruct (Z.gtb_spec (total_allocated m + computed_size data)
              (max_virtual m)); [done|].
  cbn [snd]. unfold allocated_sum in *.
  cbn [allocations total_allocated max_virtual stats].
  split; [by apply map_Forall_insert_2|].
  rewrite sum_insert.
  assert (0 <= default 0 (allocations m !! key)).
  { destruct (allocations m !! key) as [old|] eqn:E; [|done].
    exact (Hs key old E). }
  split; [lia|]. split; [|done].
  unfold stat. by rewrite lookup_insert_eq.
Qed.

Lemma free_budget key m :
  map_Forall (fun _ s => 0 <= s) (allocations m) ->
  allocated_sum m <= total_allocated m <= max_virtual m ->
  stat "virtual_memory_used" (stats m) = total_allocated m ->
  let m' := snd (free key m) in
  map_Forall (fun _ s => 0 <= s) (allocations m')
  /\ allocated_sum m' <= total_allocated m' <= max_virtual m'
  /\ stat "virtual_memory_used" (stats m') = total_allocated m'
  /\ max_virtual m' = max_virtual m.
Proof.
  intros Hs Hb Hst. cbn zeta. unfold free.
  destruct (allocations m !! key) as [size|] eqn:E; [|done].
  cbn [snd]. unfold allocated_sum in *.
  cbn [allocations total_allocated max_virtual stats].
  assert (0 <= size) by exact (Hs key size E).
  split; [by apply map_Forall_delete|].
  rewrite (sum_delete key size) by done.
  split; [lia|]. split; [|done].
  unfold stat. by rewrite lookup_insert_eq.
Qed.

Lemma run_op_budget o m :
  map_Forall (fun _ s => 0 <= s) (allocations m) ->
  allocated_sum m <= total_allocated m <= max_virtual m ->
  stat "virtual_memory_used" (stats m) = total_allocated m ->
  let m' := run_op o m in
  map_Forall (fun _ s => 0 <= s) (allocations m')
  /\ allocated_sum m' <= total_allocated m' <= max_virtual m'
  /\ stat "virtual_memory_used" (stats m') = total_allocated m'
  /\ max_virtual m' = max_virtual m.
Proof.
  intros Hs Hb Hst. cbn zeta.
  destruct o as [k|k d s|k d|k|k|k d]; cbn [run_op].
  - done.
  - done.
  - by apply malloc_budget.
  - by apply free_budget.
  - unfold read. by destruct (HelixCache.get k (cache m)).
  - unfold write. destruct (allocations m !! k).
    + destruct (free_budget k m Hs Hb Hst) as (F1 & F2 & F3 & F4).
      destruct (malloc_budget k d _ F1 F2 F3) as (M1 & M2 & M3 & M4).
      cbn zeta in *. by rewrite <- F4, <- M4.
    + by apply malloc_budget.
Qed.

Lemma run_ops_budget os m :
  map_Forall (fun _ s => 0 <= s) (allocations m) ->
  allocated_sum m <= total_allocated m <= max_virtual m ->
  stat "virtual_memory_used" (stats m) = total_allocated m ->
  let m' := run_ops os m in
  map_Forall (fun _ s => 0 <= s) (allocations m')
  /\ allocated_sum m' <= total_allocated m' <= max_virtual m'
  /\ stat "virtual_memory_used" (stats m') = total_allocated m'
  /\ max_virtual m' = max_virtual m.
Proof.
  cbn zeta. revert m. induction os as [|o os IH]; intros m Hs Hb Hst; [done|].
  destruct (run_op_budget o m Hs Hb Hst) as (R1 & R2 & R3 & R4).
  destruct (IH _ R1 R2 R3) as (I1 & I2 & I3 & I4).
  change (run_ops (o :: os) m) with (run_ops os (run_op o m)).
  cbn zeta in *. by rewrite <- R4, <- I4.
Qed.

End budget.

(** X7.  The budget is never exceeded.  After any run of operations on a new
    allocator with a budget that is not negative, [total_allocated] is at
    most the budget and at least the sum of the sizes recorded in the
    allocation table, every size recorded in the allocation table is at
    least 0 (and so is their sum), and the [virtual_memory_used] counter
    shows [total_allocated]. *)
Theorem budget_never_exceeded `{PyRuntime}
    (m1 m2 m3 budget : Z) (os : list op) :
  0 <= budget ->
  let m := run_ops os (fresh_manager m1 m2 m3 budget) in
  HelixMemoryManager.max_virtual m = budget
  /\ map_Forall (fun _ size => 0 <= size) (HelixMemoryManager.allocations m)
  /\ 0 <= allocated_sum m
  /\ allocated_sum m <= HelixMemoryManager.total_allocated m
  /\ HelixMemoryManager.total_allocated m <= budget
  /\ stat "virtual_memory_used" (HelixMemoryManager.stats m)
     = HelixMemoryManager.total_allocated m.
Proof.
  intros Hb m.
  destruct (run_ops_budget os (fresh_manager m1 m2 m3 budget))
    as (R1 & R2 & R3 & R4).
  - apply map_Forall_empty.
  - unfold allocated_sum; cbn. rewrite map_fold_empty. lia.
  - reflexivity.
  - fold m in R1, R2, R3, R4. cbn in R4.
    split; [done|]. split; [done|]. split; [by apply sum_nonneg|].
    rewrite R4 in R2. by repeat split; try lia.
Qed.

(** X7 for a run that fills the budget, is refused once, frees and
    allocates again. *)
Lemma budget_never_exceeded_witness :
  let m := @run_ops toy_runtime
             [Malloc "a" (PyBytes forty_bytes);
              Malloc "b" (PyBytes forty_bytes);
              Malloc "c" (PyBytes forty_bytes);
              Free "a";
              Write "b" (PyBytes twenty_bytes)]
             (fresh_manager 64 64 64 100) in
  HelixMemoryManager.max_virtual m = 100
  /\ map_Forall (fun _ size => 0 <= size) (HelixMemoryManager.allocations m)
  /\ 0 <= allocated_sum m
  /\ allocated_sum m <= HelixMemoryManager.total_allocated m
  /\ HelixMemoryManager.total_allocated m <= 100
  /\ stat "virtual_memory_used" (HelixMemoryManager.stats m)
     = HelixMemoryManager.total_allocated m.
Proof.
  apply (@budget_never_exceeded toy_runtime 64 64 64 100). lia.
Defined.

(* ================================================================== *)
(** ** One tier for every key *)

Section single_residence.
Context `{PyRuntime}.
Import HelixCache.

Lemma od_contains_pop_true {V} k k0 (d : list (string * V)) :
  OrderedDict.contains k (OrderedDict.pop k0 d) = true ->
  k0 ≠ k /\ OrderedDict.contains k d = true.
Proof.
  intros E. destruct (decide (k0 = k)) as [->|Hne].
  - by rewrite od_contains_pop_eq in E.
  - by rewrite od_contains_pop_ne in E.
Qed.

Lemma od_contains_head {V} k (v : V) rest :
  OrderedDict.contains k ((k, v) :: rest) = true.
Proof. simpl. by rewrite String.eqb_refl. Qed.

(** Tiers that only lose keys stay disjoint. *)
Lemma single_sub c c' :
  (forall k, OrderedDict.contains k (l1_cache c) = false ->
             OrderedDict.contains k (l1_cache c') = false) ->
  (forall k, OrderedDict.contains k (l2_cache c) = false ->
             OrderedDict.contains k (l2_cache c') = false) ->
  (forall k, OrderedDict.contains k (l3_cache c) = false ->
             OrderedDict.contains k (l3_cache c') = false) ->
  single_residence c -> single_residence c'.
Proof.
  intros S1 S2 S3 Hc k. destruct (Hc k) as [A B].
  specialize (S1 k). specialize (S2 k). specialize (S3 k).
  destruct (OrderedDict.contains k (l1_cache c)),
           (OrderedDict.contains k (l2_cache c)),
           (OrderedDict.contains k (l3_cache c));
    split; intros E; try split; try (by auto); try (by destruct A; auto);
    try (by rewrite S1 in E); try (by rewrite S2 in E);
    try (by destruct B; auto).
Qed.

Lemma single_absent_l1 k c :
  single_residence c ->
  OrderedDict.contains k (l2_cache c) = true
  \/ OrderedDict.contains k (l3_cache c) = true ->
  OrderedDict.contains k (l1_cache c) = false.
Proof.
  intros Hc E. destruct (Hc k) as [A _].
  destruct (OrderedDict.contains k (l1_cache c)); [|done].
  destruct (A eq_refl) as [A2 A3]. destruct E; congruence.
Qed.

Lemma single_store_l1 key block c :
  OrderedDict.contains key (l2_cache c) = false ->
  OrderedDict.contains key (l3_cache c) = false ->
  single_residence c ->
  single_residence (set_l1 (OrderedDict.set key block (l1_cache c)) c).
Proof.
  intros E2 E3 Hc k. destruct (Hc k) as [A B]. cache_simpl.
  rewrite od_contains_set. split; [|done].
  destruct (String.eqb_spec key k) as [<-|Hne]; simpl; [done|exact A].
Qed.

Lemma single_store_l2 key block c :
  OrderedDict.contains key (l1_cache c) = false ->
  OrderedDict.contains key (l3_cache c) = false ->
  single_residence c ->
  single_residence (set_l2 (OrderedDict.set key block (l2_cache c)) c).
Proof.
  intros E1 E3 Hc k. destruct (Hc k) as [A B]. cache_simpl.
  rewrite od_contains_set.
  destruct (String.eqb_spec key k) as [<-|Hne]; simpl; [|done].
  split; [by rewrite E1|done].
Qed.

Lemma single_store_l3 key block c :
  OrderedDict.contains key (l1_cache c) = false ->
  OrderedDict.contains key (l2_cache c) = false ->
  single_residence c ->
  single_residence (set_l3 (OrderedDict.set key block (l3_cache c)) c).
Proof.
  intros E1 E2 Hc k. destruct (Hc k) as [A B]. cache_simpl.
  rewrite od_contains_set.
  destruct (String.eqb_spec key k) as [<-|Hne]; simpl; [|done].
  split; [by rewrite E1|by rewrite E2].
Qed.

Lemma single_pop_l1 key c :
  single_residence c ->
  single_residence (set_l1 (OrderedDict.pop key (l1_cache c)) c).
Proof.
  apply single_sub; cache_simpl; auto using od_contains_pop_false.
Qed.

Lemma single_pop_l2 key c :
  single_residence c ->
  single_residence (set_l2 (OrderedDict.pop key (l2_cache c)) c).
Proof.
  apply single_sub; cache_simpl; auto using od_contains_pop_false.
Qed.

Lemma single_pop_l3 key c :
  single_residence c ->
  single_residence (set_l3 (OrderedDict.pop key (l3_cache c)) c).
Proof.
  apply single_sub; cache_simpl; auto using od_contains_pop_false.
Qed.

Lemma _make_room_l3_single needed c :
  single_residence c -> single_residence (_make_room_l3 needed c).
Proof.
  destruct (_make_room_l3_frame needed c) as (_ & E1 & E2).
  apply single_sub.
  - intros k. by rewrite E1.
  - intros k. by rewrite E2.
  - intros k. apply _make_room_l3_absent.
Qed.

Lemma _demote_to_l3_single k block rest c :
  l2_cache c = (k, block) :: rest ->
  single_residence c -> single_residence (_demote_to_l3 k block c).
Proof.
  intros E Hc. unfold _demote_to_l3.
  destruct (CacheBlock.compress block) as [saved block'].
  assert (OrderedDict.contains k (l1_cache c) = false) as E1.
  { apply single_absent_l1; [done|]. left. rewrite E. apply od_contains_head. }
  match goal with
  | |- context [_make_room_l3 ?n ?c0] =>
      destruct (_make_room_l3_frame n c0) as (_ & F1 & F2);
      pose proof (_make_room_l3_single n c0) as S
  end.
  apply (single_store_l3 k _ (_make_room_l3 _ _)).
  - rewrite F1. by destruct (saved >? 0).
  - rewrite F2. destruct (saved >? 0); apply od_contains_pop_eq.
  - apply S. destruct (saved >? 0); by apply single_pop_l2.
Qed.

Lemma _make_room_l2_single needed c :
  single_residence c -> single_residence (_make_room_l2 needed c).
Proof.
  unfold _make_room_l2. apply _make_room_l2_loop_keeps.
  intros c0 k b rest E Hc0. by eapply _demote_to_l3_single.
Qed.

Lemma _demote_to_l2_single k block rest c :
  l1_cache c = (k, block) :: rest ->
  single_residence c -> single_residence (_demote_to_l2 k block c).
Proof.
  intros E Hc. unfold _demote_to_l2.
  destruct (Hc k) as [A _].
  destruct A as [A2 A3]; [rewrite E; apply od_contains_head|].
  match goal with
  | |- context [_make_room_l2 ?n ?c0] =>
      destruct (_make_room_l2_frame n c0) as (_ & F1);
      destruct (_make_room_l2_absent_both k n c0) as [G2 G3]; [done|done|];
      pose proof (_make_room_l2_single n c0) as S
  end.
  apply (single_store_l2 k _ (_make_room_l2 _ _)).
  - rewrite F1. apply od_contains_pop_eq.
  - exact G3.
  - apply S. by apply single_pop_l1.
Qed.

Lemma _make_room_l1_single needed c :
  single_residence c -> single_residence (_make_room_l1 needed c).
Proof.
  unfold _make_room_l1. apply _make_room_l1_loop_keeps.
  intros c0 k b rest E Hc0. by eapply _demote_to_l2_single.
Qed.

(** A key that no tier holds is still in none after room was made. *)
Lemma _make_room_l1_absent_all key needed c :
  resident key c = false -> resident key (_make_room_l1 needed c) = false.
Proof.
  unfold _make_room_l1.
  apply (_make_room_l1_loop_keeps (fun c' => resident key c' = false)).
  intros c0 k b rest E. unfold resident.
  intros R. apply orb_false_elim in R as [R R3].
  apply orb_false_elim in R as [R1 R2].
  assert (k ≠ key) as Hne by (rewrite E in R1; by eapply od_head_ne).
  destruct (_demote_to_l2_frame k b c0) as (_ & ->).
  rewrite _demote_to_l2_l2, od_contains_set.
  apply String.eqb_neq in Hne as ->.
  match goal with
  | |- context [_make_room_l2 ?n ?c1] =>
      destruct (_make_room_l2_absent_both key n c1) as [G2 G3]; [done|done|]
  end.
  rewrite (od_contains_pop_false _ _ _ R1), G2. simpl.
  exact G3.
Qed.

Lemma _make_room_l2_absent_all key needed c :
  resident key c = false -> resident key (_make_room_l2 needed c) = false.
Proof.
  unfold resident. intros R. apply orb_false_elim in R as [R R3].
  apply orb_false_elim in R as [R1 R2].
  destruct (_make_room_l2_frame needed c) as (_ & ->).
  destruct (_make_room_l2_absent_both key needed c) as [-> ->]; [done|done|].
  by rewrite R1.
Qed.

Lemma resident_false key c :
  resident key c = false <->
  OrderedDict.contains key (l1_cache c) = false
  /\ OrderedDict.contains key (l2_cache c) = false
  /\ OrderedDict.contains key (l3_cache c) = false.
Proof.
  unfold resident. rewrite !orb_false_iff. tauto.
Qed.

(** [put] of a key that Hot does not hold. *)
Lemma put_single key data size c :
  OrderedDict.contains key (l1_cache c) = false ->
  single_residence c -> single_residence (put key data size c).
Proof.
  intros E1 Hc. unfold put.
  match goal with
  | |- context [_make_room_l1 ?n ?c0] =>
      pose proof (_make_room_l1_absent_all key n c0) as Ab;
      pose proof (_make_room_l1_single n c0) as S
  end.
  apply resident_false in Ab as (_ & B2 & B3).
  2: { apply resident_false. cache_simpl.
       split; [done|]. split; apply od_contains_pop_eq. }
  apply (single_store_l1 key _ (_make_room_l1 _ _)); [done|done|].
  by apply S, single_pop_l3, single_pop_l2.
Qed.

Lemma _promote_to_l1_single key block c :
  OrderedDict.contains key (l1_cache c) = false ->
  OrderedDict.contains key (l3_cache c) = false ->
  single_residence c -> single_residence (_promote_to_l1 key block c).
Proof.
  intros E1 E3 Hc. unfold _promote_to_l1.
  match goal with
  | |- context [_make_room_l1 ?n ?c0] =>
      pose proof (_make_room_l1_absent_all key n c0) as Ab;
      pose proof (_make_room_l1_single n c0) as S
  end.
  apply resident_false in Ab as (_ & B2 & B3).
  2: { apply resident_false. cache_simpl.
       split; [done|]. split; [apply od_contains_pop_eq|done]. }
  apply (single_store_l1 key _ (_make_room_l1 _ _)); [done|done|].
  by apply S, single_pop_l2.
Qed.

Lemma _promote_to_l2_single key block c :
  OrderedDict.contains key (l1_cache c) = false ->
  OrderedDict.contains key (l2_cache c) = false ->
  single_residence c -> single_residence (_promote_to_l2 key block c).
Proof.
  intros E1 E2 Hc. unfold _promote_to_l2.
  match goal with
  | |- context [_make_room_l2 ?n ?c0] =>
      pose proof (_make_room_l2_absent_all key n c0) as Ab;
      pose proof (_make_room_l2_single n c0) as S
  end.
  apply resident_false in Ab as (B1 & _ & B3).
  2: { apply resident_false. cache_simpl.
       split; [done|]. split; [done|apply od_contains_pop_eq]. }
  apply (single_store_l2 key _ (_make_room_l2 _ _)); [done|done|].
  by apply S, single_pop_l3.
Qed.

(** Writing a block back under a key that the tier holds, and moving it to
    the end, changes no membership. *)
Lemma single_same_keys c c' :
  (forall k, OrderedDict.contains k (l1_cache c')
             = OrderedDict.contains k (l1_cache c)) ->
  (forall k, OrderedDict.contains k (l2_cache c')
             = OrderedDict.contains k (l2_cache c)) ->
  (forall k, OrderedDict.contains k (l3_cache c')
             = OrderedDict.contains k (l3_cache c)) ->
  single_residence c -> single_residence c'.
Proof.
  intros S1 S2 S3. apply single_sub; intros k; by rewrite ?S1, ?S2, ?S3.
Qed.

Lemma od_contains_set_present {V} k k' (v v0 : V) d :
  OrderedDict.get k d = Some v0 ->
  OrderedDict.contains k' (OrderedDict.set k v d) = OrderedDict.contains k' d.
Proof.
  intros E. rewrite od_contains_set.
  destruct (String.eqb_spec k k') as [<-|Hne]; [|done].
  simpl. symmetry. by eapply od_get_Some_contains.
Qed.

Lemma get_single key c :
  single_residence c -> single_residence (snd (get key c)).
Proof.
  intros Hc. unfold get.
  destruct (OrderedDict.get key (l1_cache c)) as [b1|] eqn:G1.
  { cbn [snd]. revert Hc. apply single_same_keys; cache_simpl; [|done|done].
    intros k. rewrite od_contains_move_to_end.
    by eapply od_contains_set_present. }
  cbn [count l2_cache].
  destruct (OrderedDict.get key (l2_cache c)) as [b2|] eqn:G2.
  { assert (single_residence
              (set_l2 (OrderedDict.set key (CacheBlock.access b2) (l2_cache c))
                 (count "l2_hits" (count "l1_misses" c)))) as Hc2.
    { revert Hc. apply single_same_keys; cache_simpl; [done| |done].
      intros k. by eapply od_contains_set_present. }
    destruct (_ >? 3); cbn [snd].
    - apply _promote_to_l1_single; cache_simpl; [by apply od_get_None| |done].
      destruct (Hc key) as [_ B]. apply B. by eapply od_get_Some_contains.
    - revert Hc2. apply single_same_keys; cache_simpl; [done| |done].
      intros k. apply od_contains_move_to_end. }
  cbn [count l3_cache].
  destruct (OrderedDict.get key (l3_cache c)) as [b3|] eqn:G3; [|done].
  set (hit := if CacheBlock.compressed (CacheBlock.access b3)
              then CacheBlock.decompress (CacheBlock.access b3)
              else CacheBlock.access b3).
  assert (single_residence
            (set_l3 (OrderedDict.set key hit (l3_cache c))
               (count "l3_hits" (count "l2_misses" (count "l1_misses" c)))))
    as Hc3.
  { revert Hc. apply single_same_keys; cache_simpl; [done|done|].
    intros k. by eapply od_contains_set_present. }
  destruct (_ >? 2); cbn [snd].
  - apply _promote_to_l2_single; cache_simpl; [by apply od_get_None..|done].
  - revert Hc3. apply single_same_keys; cache_simpl; [done|done|].
    intros k. apply od_contains_move_to_end.
Qed.

End single_residence.

Section no_new_keys.
Context `{PyRuntime}.
Import HelixCache.

(** Only the key that is stored or looked up can become resident. *)
Lemma resident_store_l1 k key block c :
  k ≠ key -> resident k c = false ->
  resident k (set_l1 (OrderedDict.set key block (l1_cache c)) c) = false.
Proof.
  intros Hne. unfold resident. cache_simpl. rewrite od_contains_set.
  apply not_eq_sym in Hne. by apply String.eqb_neq in Hne as ->.
Qed.

Lemma resident_store_l2 k key block c :
  k ≠ key -> resident k c = false ->
  resident k (set_l2 (OrderedDict.set key block (l2_cache c)) c) = false.
Proof.
  intros Hne. unfold resident. cache_simpl. rewrite od_contains_set.
  apply not_eq_sym in Hne. by apply String.eqb_neq in Hne as ->.
Qed.

Lemma resident_store_l3 k key block c :
  k ≠ key -> resident k c = false ->
  resident k (set_l3 (OrderedDict.set key block (l3_cache c)) c) = false.
Proof.
  intros Hne. unfold resident. cache_simpl. rewrite od_contains_set.
  apply not_eq_sym in Hne. by apply String.eqb_neq in Hne as ->.
Qed.

Lemma resident_pops k key c :
  resident k c = false ->
  resident k (set_l1 (OrderedDict.pop key (l1_cache c)) c) = false
  /\ resident k (set_l2 (OrderedDict.pop key (l2_cache c)) c) = false
  /\ resident k (set_l3 (OrderedDict.pop key (l3_cache c)) c) = false.
Proof.
  intros (R1 & R2 & R3)%resident_false.
  rewrite !resident_false. cache_simpl.
  auto 10 using od_contains_pop_false.
Qed.

Lemma put_absent k key data size c :
  k ≠ key -> resident k c = false -> resident k (put key data size c) = false.
Proof.
  intros Hne R. unfold put.
  apply resident_store_l1; [done|]. apply _make_room_l1_absent_all.
  by apply resident_pops, resident_pops.
Qed.

Lemma get_absent k key c :
  resident k c = false -> resident k (snd (get key c)) = false.
Proof.
  intros R. pose proof R as (R1 & R2 & R3)%resident_false.
  unfold get.
  destruct (OrderedDict.get key (l1_cache c)) as [b1|] eqn:G1.
  { cbn [snd]. apply resident_false. cache_simpl.
    rewrite od_contains_move_to_end.
    by rewrite (od_contains_set_present _ _ _ _ _ G1). }
  cbn [count l2_cache].
  destruct (OrderedDict.get key (l2_cache c)) as [b2|] eqn:G2.
  { assert (k ≠ key) as Hne.
    { intros ->. apply od_get_Some_contains in G2. congruence. }
    destruct (_ >? 3); cbn [snd].
    - unfold _promote_to_l1. apply resident_store_l1; [done|].
      apply _make_room_l1_absent_all, resident_pops.
      by apply (resident_store_l2 k key _
                  (count "l2_hits" (count "l1_misses" c))).
    - apply resident_false. cache_simpl.
      rewrite od_contains_move_to_end.
      by rewrite (od_contains_set_present _ _ _ _ _ G2). }
  cbn [count l3_cache].
  destruct (OrderedDict.get key (l3_cache c)) as [b3|] eqn:G3; [|done].
  assert (k ≠ key) as Hne.
  { intros ->. apply od_get_Some_contains in G3. congruence. }
  destruct (_ >? 2); cbn [snd].
  - unfold _promote_to_l2. apply resident_store_l2; [done|].
    apply _make_room_l2_absent_all, resident_pops.
    by apply (resident_store_l3 k key _
                (count "l3_hits" (count "l2_misses" (count "l1_misses" c)))).
  - apply resident_false. cache_simpl.
    rewrite od_contains_move_to_end.
    by rewrite (od_contains_set_present _ _ _ _ _ G3).
Qed.

End no_new_keys.

Section discipline.
Context `{PyRuntime}.
Import HelixMemoryManager.

(** What a disciplined run keeps: no key in two tiers, every resident key
    in the allocation table, and the accounts exact. *)
Lemma malloc_disciplined key data m :
  allocations m !! key = None ->
  single_residence (cache m) ->
  (forall k, HelixCache.resident k (cache m) = true ->
             is_Some (allocations m !! k)) ->
  allocated_sum m = total_allocated m ->
  let m' := snd (malloc key data m) in
  single_residence (cache m')
  /\ (forall k, HelixCache.resident k (cache m') = true ->
                is_Some (allocations m' !! k))
  /\ allocated_sum m' = total_allocated m'.
Proof.
  intros Hk D1 D2 D3. cbn zeta. unfold malloc.
  destruct (_ >? _); [done|]. cbn [snd]. unfold allocated_sum in *.
  cbn [cache allocations total_allocated].
  assert (HelixCache.resident key (cache m) = false) as Hr.
  { destruct (HelixCache.resident key (cache m)) eqn:E; [|done].
    destruct (D2 key E) as [? ?]. congruence. }
  split; [|split].
  - apply put_single; [|done]. by apply resident_false in Hr as (? & _).
  - intros k Rk. destruct (decide (k = key)) as [->|Hne].
    + rewrite lookup_insert_eq. eauto.
    + rewrite lookup_insert_ne by done. apply D2.
      destruct (HelixCache.resident k (cache m)) eqn:E; [done|].
      by rewrite (put_absent k key data _ _ Hne E) in Rk.
  - rewrite sum_insert_fresh by done. lia.
Qed.

Lemma free_disciplined key m :
  single_residence (cache m) ->
  (forall k, HelixCache.resident k (cache m) = true ->
             is_Some (allocations m !! k)) ->
  allocated_sum m = total_allocated m ->
  let m' := snd (free key m) in
  single_residence (cache m')
  /\ (forall k, HelixCache.resident k (cache m') = true ->
                is_Some (allocations m' !! k))
  /\ allocated_sum m' = total_allocated m'
  /\ allocations m' !! key = None.
Proof.
  intros D1 D2 D3. cbn zeta. unfold free.
  destruct (allocations m !! key) as [size|] eqn:E; [|done].
  cbn [snd]. unfold allocated_sum in *.
  cbn [cache allocations total_allocated].
  split; [|split; [|split]].
  - by apply single_pop_l3, single_pop_l2, single_pop_l1.
  - intros k. unfold HelixCache.resident. cache_simpl. intros Rk.
    destruct (decide (k = key)) as [->|Hne].
    { by rewrite !od_contains_pop_eq in Rk. }
    rewrite lookup_delete_ne by done. apply D2.
    unfold HelixCache.resident.
    by rewrite !od_contains_pop_ne in Rk.
  - rewrite (sum_delete key size) by done. lia.
  - apply lookup_delete_eq.
Qed.

Lemma get_disciplined key m :
  single_residence (cache m) ->
  (forall k, HelixCache.resident k (cache m) = true ->
             is_Some (allocations m !! k)) ->
  single_residence (snd (HelixCache.get key (cache m)))
  /\ (forall k, HelixCache.resident k (snd (HelixCache.get key (cache m)))
                = true -> is_Some (allocations m !! k)).
Proof.
  intros D1 D2. split; [by apply get_single|].
  intros k Rk. apply D2.
  destruct (HelixCache.resident k (cache m)) eqn:E; [done|].
  by rewrite (get_absent k key _ E) in Rk.
Qed.

Lemma run_op_disciplined o m :
  op_disciplined o m = true ->
  single_residence (cache m) ->
  (forall k, HelixCache.resident k (cache m) = true ->
             is_Some (allocations m !! k)) ->
  allocated_sum m = total_allocated m ->
  let m' := run_op o m in
  single_residence (cache m')
  /\ (forall k, HelixCache.resident k (cache m') = true ->
                is_Some (allocations m' !! k))
  /\ allocated_sum m' = total_allocated m'.
Proof.
  intros Ho D1 D2 D3. cbn zeta.
  destruct o as [k|k d s|k d|k|k|k d]; cbn [run_op op_disciplined] in *.
  - destruct (get_disciplined k m D1 D2) as [G1 G2].
    split; [exact G1|]. split; [exact G2|exact D3].
  - done.
  - destruct (allocations m !! k) eqn:Ek; [done|].
    by apply malloc_disciplined.
  - by destruct (free_disciplined k m D1 D2 D3) as (F1 & F2 & F3 & F4).
  - destruct (get_disciplined k m D1 D2) as [G1 G2]. unfold read.
    destruct (HelixCache.get k (cache m)).
    split; [exact G1|]. split; [exact G2|exact D3].
  - unfold write. destruct (allocations m !! k) eqn:Ek.
    + destruct (free_disciplined k m D1 D2 D3) as (F1 & F2 & F3 & F4).
      by apply malloc_disciplined.
    + by apply malloc_disciplined.
Qed.

Lemma run_ops_disciplined os m :
  disciplined os m = true ->
  single_residence (cache m) ->
  (forall k, HelixCache.resident k (cache m) = true ->
             is_Some (allocations m !! k)) ->
  allocated_sum m = total_allocated m ->
  let m' := run_ops os m in
  single_residence (cache m')
  /\ (forall k, HelixCache.resident k (cache m') = true ->
                is_Some (allocations m' !! k))
  /\ allocated_sum m' = total_allocated m'.
Proof.
  cbn zeta. revert m.
  induction os as [|o os IH]; intros m Hd D1 D2 D3; [done|].
  cbn [disciplined] in Hd. apply andb_true_iff in Hd as [Ho Hd].
  change (run_ops (o :: os) m) with (run_ops os (run_op o m)).
  destruct (run_op_disciplined o m Ho D1 D2 D3) as (R1 & R2 & R3).
  by apply IH.
Qed.

End discipline.

(** X8.  One tier for every key, and exact accounts, when the allocator is
    used with discipline.  Let a run on a new allocator go through the
    allocator only (no [put] on the cache below it) and never [malloc] a key
    that is in the allocation table ([write] may be applied to any key: it
    frees first).  Then no key is held by two tiers, every resident key is
    in the allocation table, and [total_allocated] is exactly the sum of the
    recorded sizes. *)
Theorem disciplined_run_single_residence `{PyRuntime}
    (m1 m2 m3 budget : Z) (os : list op) :
  disciplined os (fresh_manager m1 m2 m3 budget) = true ->
  let m := run_ops os (fresh_manager m1 m2 m3 budget) in
  single_residence (HelixMemoryManager.cache m)
  /\ (forall k, HelixCache.resident k (HelixMemoryManager.cache m) = true ->
                is_Some (HelixMemoryManager.allocations m !! k))
  /\ allocated_sum m = HelixMemoryManager.total_allocated m.
Proof.
  intros Hd. apply run_ops_disciplined; [done|..].
  - intros k. by split.
  - intros k. by vm_compute.
  - unfold allocated_sum. cbn. by rewrite map_fold_empty.
Qed.

(** X8 for a run that rewrites a Hot key and reads a compressed one back. *)
Lemma disciplined_run_single_residence_witness :
  let m := @run_ops toy_runtime
             [Malloc "a" (PyBytes forty_bytes);
              Malloc "b" (PyBytes forty_bytes);
              Write "b" (PyBytes twenty_bytes);
              Malloc "c" (PyBytes forty_bytes);
              Read "a"; Free "b"; Get "a"; Get "a"]
             (fresh_manager 64 64 MiB (8192 * MiB)) in
  single_residence (HelixMemoryManager.cache m)
  /\ (forall k, HelixCache.resident k (HelixMemoryManager.cache m) = true ->
                is_Some (HelixMemoryManager.allocations m !! k))
  /\ allocated_sum m = HelixMemoryManager.total_allocated m.
Proof.
  apply (@disciplined_run_single_residence toy_runtime 64 64 MiB (8192 * MiB)).
  vm_compute. reflexivity.
Defined.

(* ================================================================== *)
(** ** Allocated keys and lost keys *)

Section lost_keys_gone.
Context `{PyRuntime}.
Import HelixMemoryManager.

Lemma free_absent k key m :
  HelixCache.resident k (cache m) = false ->
  HelixCache.resident k (cache (snd (free key m))) = false.
Proof.
  intros R. unfold free. destruct (allocations m !! key); [|done].
  cbn [snd cache]. by apply resident_pops, resident_pops, resident_pops.
Qed.

Lemma malloc_absent k key data m :
  (fst (malloc key data m) = true -> k ≠ key) ->
  HelixCache.resident k (cache m) = false ->
  HelixCache.resident k (cache (snd (malloc key data m))) = false.
Proof.
  unfold malloc. destruct (_ >? _); cbn [fst snd cache]; [done|].
  intros Hne R. apply put_absent; [by apply Hne|done].
Qed.

(** A key that no tier holds is held by none after an operation that does
    not store it. *)
Lemma run_op_absent k o m :
  renewed o m ≠ Some k ->
  HelixCache.resident k (cache m) = false ->
  HelixCache.resident k (cache (run_op o m)) = false.
Proof.
  intros Hr R. destruct o; cbn [run_op renewed] in *.
  - by apply get_absent.
  - apply put_absent; [congruence|done].
  - apply malloc_absent; [|done].
    intros Ok. rewrite Ok in Hr. congruence.
  - by apply free_absent.
  - unfold read. pose proof (get_absent k key (cache m) R).
    by destruct (HelixCache.get key (cache m)).
  - unfold write in *. apply malloc_absent.
    + intros Ok. rewrite Ok in Hr. congruence.
    + destruct (allocations m !! key); [by apply free_absent|done].
Qed.

(** No tier holds a lost key. *)
Lemma lost_keys_absent os m lost :
  (forall k, In k lost -> HelixCache.resident k (cache m) = false) ->
  forall k, In k (lost_keys os m lost) ->
            HelixCache.resident k (cache (run_ops os m)) = false.
Proof.
  revert m lost. induction os as [|o os IH]; intros m lost A; [done|].
  cbn [lost_keys]. change (run_ops (o :: os) m) with (run_ops os (run_op o m)).
  apply IH. intros k [[Hl|He]%in_app_iff Hr]%in_without.
  - apply run_op_absent; [done|by apply A].
  - unfold op_lost in He. apply filter_In in He as [_ He].
    by apply negb_true_iff in He.
Qed.

End lost_keys_gone.

(** C4 (as the code has it).  After any sequence of operations on a fresh
    allocator (malloc, free, read, write, and get/put on the cache below it),
    every key of the allocation table is resident in some tier, except the
    keys that the cache has evicted, and only those: an allocated key is
    resident if and only if it is not lost, where a key is lost when
    [_make_room_l3] deleted its block from the Compressed tier, no tier kept
    another block of it, and no operation has stored it anew or released it
    since ([lost_keys]; by [lost_keys_evicted] and [evicted_keys_counted]
    every lost key is an eviction that the cache counted).  Evictions of
    other keys do not matter. *)
Theorem C4_allocations_resident_unless_evicted `{PyRuntime}
    (m1 m2 m3 budget : Z) (os : list op) (key : string) :
  let m0 := fresh_manager m1 m2 m3 budget in
  let m := run_ops os m0 in
  is_Some (HelixMemoryManager.allocations m !! key) ->
  HelixCache.resident key (HelixMemoryManager.cache m)
  = negb (is_lost key os m0).
Proof.
  intros m0 m Hk. destruct (is_lost key os m0) eqn:L; cbn [negb].
  - apply (lost_keys_absent os m0 []); [by intros k []|].
    unfold is_lost in L.
    by apply existsb_exists in L as (x & Hx & ->%String.eqb_eq).
  - apply (alloc_resident_run_ops os [] _
             (alloc_resident_fresh m1 m2 m3 budget)); [done|].
    by apply is_lost_spec.
Qed.

(** C4 after six allocations, three of which were evicted: the key allocated
    last was not, and it is resident. *)
Lemma C4_allocations_resident_unless_evicted_witness :
  let os := [Malloc "a" (PyBytes forty_bytes);
             Malloc "b" (PyBytes forty_bytes);
             Malloc "c" (PyBytes forty_bytes);
             Malloc "d" (PyBytes forty_bytes);
             Malloc "e" (PyBytes forty_bytes);
             Malloc "f" (PyBytes forty_bytes)] in
  let m0 := fresh_manager 64 64 64 (8192 * MiB) in
  HelixCache.resident "f"
    (HelixMemoryManager.cache (@run_ops toy_runtime os m0))
  = negb (@is_lost toy_runtime "f" os m0).
Proof.
  apply (@C4_allocations_resident_unless_evicted toy_runtime
           64 64 64 (8192 * MiB)
           [Malloc "a" (PyBytes forty_bytes);
            Malloc "b" (PyBytes forty_bytes);
            Malloc "c" (PyBytes forty_bytes);
            Malloc "d" (PyBytes forty_bytes);
            Malloc "e" (PyBytes forty_bytes);
            Malloc "f" (PyBytes forty_bytes)] "f").
  vm_compute. eauto.
Defined.

(** In that run the cache evicts "a", "b" and "c", three evictions by its
    counter; they stay lost, and they are just the allocated keys that are
    not resident.  Once "a" is written again only "b" and "c" are lost. *)
Lemma six_mallocs_lost :
  let os := [Malloc "a" (PyBytes forty_bytes);
             Malloc "b" (PyBytes forty_bytes);
             Malloc "c" (PyBytes forty_bytes);
             Malloc "d" (PyBytes forty_bytes);
             Malloc "e" (PyBytes forty_bytes);
             Malloc "f" (PyBytes forty_bytes)] in
  let m0 := fresh_manager 64 64 64 (8192 * MiB) in
  @lost_keys toy_runtime os m0 [] = ["a"; "b"; "c"]%string
  /\ evictions (HelixMemoryManager.cache six_mallocs) = 3
  /\ List.map (fun k => HelixCache.resident k
                          (HelixMemoryManager.cache six_mallocs))
       ["a"; "b"; "c"; "d"; "e"; "f"]%string
     = [false; false; false; true; true; true]
  /\ @lost_keys toy_runtime
       (os ++ [Write "a" (PyBytes twenty_bytes); Read "c"]) m0 []
     = ["b"; "c"]%string.
Proof. vm_compute. done. Qed.

Section freed_keys.
Context `{PyRuntime}.
Import HelixMemoryManager.

(** An operation that does not store to [key] leaves it out of the cache and
    out of the allocation table if it was in neither. *)
Lemma run_op_stays_gone key o m :
  stores_to o ≠ Some key ->
  HelixCache.resident key (cache m) = false ->
  allocations m !! key = None ->
  HelixCache.resident key (cache (run_op o m)) = false
  /\ allocations (run_op o m) !! key = None.
Proof.
  intros Ho R A.
  assert (forall k d m0, k ≠ key ->
            HelixCache.resident key (cache m0) = false ->
            allocations m0 !! key = None ->
            HelixCache.resident key (cache (snd (malloc k d m0))) = false
            /\ allocations (snd (malloc k d m0)) !! key = None) as M.
  { intros k d m0 Hne R0 A0. unfold malloc. destruct (_ >? _); [done|].
    cbn [snd cache allocations].
    split; [by apply put_absent|by rewrite lookup_insert_ne]. }
  assert (forall k m0,
            HelixCache.resident key (cache m0) = false ->
            allocations m0 !! key = None ->
            HelixCache.resident key (cache (snd (free k m0))) = false
            /\ allocations (snd (free k m0)) !! key = None) as F.
  { intros k m0 R0 A0. unfold free. destruct (allocations m0 !! k); [|done].
    cbn [snd cache allocations]. split.
    - by apply resident_pops, resident_pops, resident_pops.
    - destruct (decide (k = key)) as [->|Hne];
        [apply lookup_delete_eq|by rewrite lookup_delete_ne]. }
  destruct o as [k|k d s|k d|k|k|k d]; cbn [run_op stores_to] in *.
  - split; [by apply get_absent|done].
  - split; [apply put_absent; [congruence|done]|done].
  - apply M; [congruence|done..].
  - by apply F.
  - unfold read. pose proof (get_absent key k (cache m) R).
    by destruct (HelixCache.get k (cache m)).
  - unfold write. assert (k ≠ key) as Hne by congruence.
    destruct (allocations m !! k); [|by apply M].
    destruct (F k m R A). by apply M.
Qed.

Lemma run_ops_stays_gone key os m :
  Forall (fun o => stores_to o ≠ Some key) os ->
  HelixCache.resident key (cache m) = false ->
  allocations m !! key = None ->
  HelixCache.resident key (cache (run_ops os m)) = false
  /\ allocations (run_ops os m) !! key = None.
Proof.
  intros Hos. revert m.
  induction Hos as [|o os Ho Hos IH]; intros m R A; [done|].
  destruct (run_op_stays_gone key o m Ho R A).
  change (run_ops (o :: os) m) with (run_ops os (run_op o m)). by apply IH.
Qed.

End freed_keys.

(** X9.  A freed key stays gone.  [free] of an unknown key returns [False]
    and changes nothing.  [free] of an allocated key returns [True], gives
    the recorded size back to the budget and removes the key from the table
    and from every tier; and whatever operations follow that do not store to
    the key (lookups of any key, stores and frees of other keys), a [read] of
    the key returns [None], a second [free] returns [False], and the key is
    in no tier and not in the table. *)
Theorem freed_key_stays_gone `{PyRuntime}
    (m : HelixMemoryManager.t) (key : string) (os : list op) :
  match HelixMemoryManager.allocations m !! key with
  | None => HelixMemoryManager.free key m = (false, m)
  | Some size =>
      let m1 := snd (HelixMemoryManager.free key m) in
      fst (HelixMemoryManager.free key m) = true
      /\ HelixMemoryManager.total_allocated m1
         = HelixMemoryManager.total_allocated m - size
      /\ (Forall (fun o => stores_to o ≠ Some key) os ->
          let m2 := run_ops os m1 in
          fst (HelixMemoryManager.read key m2) = PyNone
          /\ fst (HelixMemoryManager.free key m2) = false
          /\ HelixCache.resident key (HelixMemoryManager.cache m2) = false
          /\ HelixMemoryManager.allocations m2 !! key = None)
  end.
Proof.
  assert (forall m0, HelixMemoryManager.allocations m0 !! key = None ->
            HelixMemoryManager.free key m0 = (false, m0)) as Unknown.
  { intros m0 E0. unfold HelixMemoryManager.free. by rewrite E0. }
  destruct (HelixMemoryManager.allocations m !! key) as [size|] eqn:E.
  - destruct (free_known m key size E) as (F1 & F2 & F3 & _ & F5).
    cbn zeta. split; [done|]. split; [done|]. intros Hos.
    destruct (run_ops_stays_gone key os _ Hos F5 F2) as [R A].
    split; [|split; [|done]].
    + unfold HelixMemoryManager.read.
      pose proof (get_miss key _ R).
      by destruct (HelixCache.get key _).
    + by rewrite Unknown.
  - by apply Unknown.
Qed.

(* ================================================================== *)
(** ** Allocation and release *)

(** X10.  [malloc] then [free], and the charge of a replaced allocation.
    After an accepted [malloc] of a key and a [free] of it, the key is in no
    tier and not in the table, and [total_allocated] is what it was before
    the [malloc].  For a key that was not allocated that is a clean round
    trip: the table is the old one.  For a key that was allocated with [old]
    bytes the table has lost the key while [total_allocated] still counts
    [old]: [malloc] does not give the charge of the allocation it replaces
    back, and nothing can free it afterwards. *)
Theorem malloc_free_roundtrip `{PyRuntime}
    (m : HelixMemoryManager.t) (key : string) (data : pyval) :
  fst (HelixMemoryManager.malloc key data m) = true ->
  let m1 := snd (HelixMemoryManager.malloc key data m) in
  let m2 := snd (HelixMemoryManager.free key m1) in
  HelixMemoryManager.total_allocated m1
  = HelixMemoryManager.total_allocated m
    + HelixMemoryManager.computed_size data
  /\ fst (HelixMemoryManager.free key m1) = true
  /\ HelixMemoryManager.total_allocated m2
     = HelixMemoryManager.total_allocated m
  /\ HelixMemoryManager.allocations m2
     = delete key (HelixMemoryManager.allocations m)
  /\ HelixCache.resident key (HelixMemoryManager.cache m2) = false
  /\ allocated_sum m2
     = allocated_sum m
       - default 0 (HelixMemoryManager.allocations m !! key).
Proof.
  intros Hok m1 m2.
  assert (HelixMemoryManager.allocations m1
          = <[key := HelixMemoryManager.computed_size data]>
              (HelixMemoryManager.allocations m)
          /\ HelixMemoryManager.total_allocated m1
             = HelixMemoryManager.total_allocated m
               + HelixMemoryManager.computed_size data) as [Ea Et].
  { subst m1. unfold HelixMemoryManager.malloc in *.
    by destruct (_ >? _). }
  destruct (free_known m1 key (HelixMemoryManager.computed_size data))
    as (F1 & F2 & F3 & _ & F5).
  { rewrite Ea. apply lookup_insert_eq. }
  fold m2 in F2, F3, F5.
  assert (HelixMemoryManager.allocations m2
          = delete key (HelixMemoryManager.allocations m)) as Ed.
  { subst m2. unfold HelixMemoryManager.free.
    rewrite Ea, lookup_insert_eq. cbn [snd HelixMemoryManager.allocations].
    by rewrite delete_insert_eq. }
  split; [done|]. split; [done|]. split; [lia|]. split; [done|].
  split; [done|]. unfold allocated_sum. rewrite Ed.
  destruct (HelixMemoryManager.allocations m !! key) as [old|] eqn:E; simpl.
  - by rewrite (sum_delete key old).
  - rewrite delete_id by done. lia.
Qed.

(** X10 for a second [malloc] under the key of [malloc_twice]. *)
Lemma malloc_free_roundtrip_witness :
  let m := malloc_twice in
  let m1 := snd (@HelixMemoryManager.malloc toy_runtime "a"
                   (PyBytes twenty_bytes) m) in
  let m2 := snd (HelixMemoryManager.free "a" m1) in
  HelixMemoryManager.total_allocated m1
  = HelixMemoryManager.total_allocated m
    + @HelixMemoryManager.computed_size toy_runtime (PyBytes twenty_bytes)
  /\ fst (HelixMemoryManager.free "a" m1) = true
  /\ HelixMemoryManager.total_allocated m2
     = HelixMemoryManager.total_allocated m
  /\ HelixMemoryManager.allocations m2
     = delete "a" (HelixMemoryManager.allocations m)
  /\ HelixCache.resident "a" (HelixMemoryManager.cache m2) = false
  /\ allocated_sum m2
     = allocated_sum m
       - default 0 (HelixMemoryManager.allocations m !! "a").
Proof.
  apply (@malloc_free_roundtrip toy_runtime malloc_twice "a"
           (PyBytes twenty_bytes)).
  vm_compute. reflexivity.
Defined.

(* ================================================================== *)
(** ** The exceptions of the translator *)

Section bytes_only.
Context `{PyRuntime}.
Hypothesis zlib_roundtrip :
  forall s, zlib_decompress (zlib_compress s) = Some s.
Hypothesis pickle_roundtrip :
  forall v s, pickle_dumps v = Some s -> pickle_loads s = Some v.
Import HelixMemoryManager.

Lemma top_carries_gone key v c : first_block key c = None -> top_carries key v c.
Proof. intros E b. by rewrite E. Qed.

Lemma holds_bytes_empty m1 m2 m3 : holds_bytes (HelixCache.empty m1 m2 m3).
Proof. intros key. exists []. by apply top_carries_gone. Qed.

Lemma read_bytes k m :
  holds_bytes (cache m) ->
  holds_bytes (cache (snd (read k m)))
  /\ (fst (read k m) = PyNone \/ exists bs, fst (read k m) = PyBytes bs).
Proof.
  intros Hb. split.
  - intros key. destruct (Hb key) as [bs T]. exists bs. by apply read_top.
  - destruct (Hb k) as [bs T].
    destruct (read_value zlib_roundtrip pickle_roundtrip k _ m T) as [[E|E] _];
      eauto.
Qed.

Lemma malloc_bytes k bs m :
  holds_bytes (cache m) -> holds_bytes (cache (snd (malloc k (PyBytes bs) m))).
Proof.
  intros Hb key. destruct (decide (k = key)) as [->|Hne].
  - unfold malloc. destruct (_ >? _); [apply Hb|].
    exists bs. cbn [snd cache]. apply put_top.
  - destruct (Hb key) as [bs' T]. exists bs'. by apply malloc_top_other.
Qed.

Lemma free_bytes k m :
  holds_bytes (cache m) -> holds_bytes (cache (snd (free k m))).
Proof.
  intros Hb key. destruct (decide (k = key)) as [->|Hne].
  - unfold free. destruct (_ !! _); [|apply Hb].
    exists []. apply top_carries_gone. unfold first_block. cbn [snd cache].
    cache_simpl. by rewrite !od_get_pop_eq.
  - destruct (Hb key) as [bs' T]. exists bs'. by apply free_top_other.
Qed.

Lemma write_bytes k bs m :
  holds_bytes (cache m) -> holds_bytes (cache (snd (write k (PyBytes bs) m))).
Proof.
  intros Hb. unfold write. apply malloc_bytes.
  destruct (_ !! _); [by apply free_bytes|done].
Qed.

Lemma read_file_bytes path s :
  holds_bytes (cache (HelixSystem.memory s)) ->
  let r := HelixFS.read_file path s in
  holds_bytes (cache (HelixSystem.memory (snd r)))
  /\ (fst r = PyNone \/ exists bs, fst r = PyBytes bs).
Proof.
  intros Hb. cbn zeta. unfold HelixFS.read_file.
  cbn [HelixSystem.count HelixSystem.memory].
  destruct (read_bytes (HelixFS.cache_key_of path) (HelixSystem.memory s) Hb)
    as [Hb1 Hv].
  destruct (read _ _) as [cached m]. cbn [fst snd] in *.
  destruct Hv as [->|[bs ->]]; cbn [is_None negb]; [|by eauto].
  cbn [HelixSystem.count HelixSystem.set_memory HelixSystem.disk
       HelixSystem.memory].
  destruct (HelixSystem.disk s !! path) as [data|]; [|by auto].
  destruct (disk_read_fails path); [by auto|].
  pose proof (malloc_bytes (HelixFS.cache_key_of path) data m Hb1) as Hb2.
  destruct (malloc _ _ _) as [ok m']. cbn [fst snd] in *. by eauto.
Qed.

Lemma write_file_bytes path data wt s :
  holds_bytes (cache (HelixSystem.memory s)) ->
  holds_bytes (cache (HelixSystem.memory (HelixFS.write_file path data wt s))).
Proof.
  intros Hb. unfold HelixFS.write_file.
  cbn [HelixSystem.count HelixSystem.memory].
  pose proof (write_bytes (HelixFS.cache_key_of path) data _ Hb) as Hb1.
  destruct (write _ _ _) as [ok m]. cbn [snd] in Hb1.
  destruct wt; [destruct (disk_write_fails path)|]; done.
Qed.

End bytes_only.

Section translator_invariant.
Context `{PyRuntime}.
Hypothesis zlib_roundtrip :
  forall s, zlib_decompress (zlib_compress s) = Some s.
Hypothesis pickle_roundtrip :
  forall v s, pickle_dumps v = Some s -> pickle_loads s = Some v.
Import HelixTranslator.

Local Abbreviation cache_of tr := (HelixMemoryManager.cache (memory tr)).

(** The three checks that [translate_malloc] makes on its size, as
    arithmetic. *)
Lemma str_fits_spec n :
  (Py.str_fits n = true /\ Z.abs n < 10 ^ 4300)
  \/ (Py.str_fits n = false /\ 10 ^ 4300 <= Z.abs n).
Proof.
  unfold Py.str_fits, Py.int_max_str_digits.
  destruct (Z.ltb_spec (Z.abs n) (10 ^ 4300)); [by left|by right].
Qed.

Lemma fits_index_spec n :
  (Py.fits_index n = true /\ - 2 ^ 63 <= n <= Py.maxsize)
  \/ (Py.fits_index n = false /\ (n < - 2 ^ 63 \/ 2 ^ 63 <= n)).
Proof.
  unfold Py.fits_index, Py.maxsize.
  destruct (Z.leb_spec (- (2 ^ 63 - 1) - 1) n);
    destruct (Z.leb_spec n (2 ^ 63 - 1)); cbn [andb];
    [left|right|right|right]; split; try done; lia.
Qed.

Lemma index_below_str_limit : 2 ^ 63 < 10 ^ 4300.
Proof. apply Z.ltb_lt. vm_compute. reflexivity. Qed.

Lemma str_limit_not_index n :
  10 ^ 4300 <= Z.abs n -> - 2 ^ 63 <= n <= Py.maxsize -> False.
Proof.
  intros Hge Hi. pose proof index_below_str_limit as L.
  revert Hge L. generalize (10 ^ 4300). unfold Py.maxsize in Hi. lia.
Qed.

(** [translate_malloc] raises for the sizes of [malloc_refuses], and for no
    other. *)
Lemma translate_malloc_raises size tr e :
  fst (translate_malloc size tr) = Raised e <-> malloc_refuses size e.
Proof.
  unfold translate_malloc, malloc_refuses.
  destruct (str_fits_spec size) as [[-> Hs]|[-> Hs]]; cbn [negb fst].
  2:{ split.
      - intros [= <-]. left. split; [done|by left].
      - intros [[-> _]|(_ & Hlt & _)]; [done|]. by apply Z.lt_nge in Hlt. }
  destruct (fits_index_spec size) as [[-> Hi]|[-> Hi]]; cbn [negb fst].
  2:{ split.
      - intros [= <-]. by right.
      - intros [[_ [Hge|Hn]]|[-> _]]; [by apply Z.lt_nge in Hs| |done].
        clear Hs. lia. }
  destruct (Z.ltb_spec size 0) as [Hneg|Hpos]; cbn [fst].
  { split.
    - intros [= <-]. left. split; [done|right]. clear Hs. lia.
    - intros [[-> _]|(_ & _ & Hout)]; [done|].
      clear Hs. unfold Py.maxsize in Hi. lia. }
  split.
  - destruct (HelixMemoryManager.malloc _ _ _) as [[|] m]; by cbn.
  - intros [[_ [Hge|Hn]]|(_ & _ & Hout)].
    + by destruct (str_limit_not_index size).
    + clear Hs. lia.
    + clear Hs. unfold Py.maxsize in Hi. lia.
Qed.

Lemma translate_malloc_inv size tr :
  handles_ok tr -> pointers_synced tr -> holds_bytes (cache_of tr) ->
  let r := translate_malloc size tr in
  pointers_synced (snd r) /\ holds_bytes (cache_of (snd r))
  /\ (forall e, fst r = Raised e -> malloc_refuses size e).
Proof.
  intros (A & B & C) S Hb. cbn zeta.
  split; [|split; [|intros e; apply translate_malloc_raises]];
    unfold translate_malloc;
    (destruct (Py.str_fits size); cbn [negb]; [|done]);
    (destruct (fits_index_spec size) as [[-> Hi]|[-> _]]; cbn [negb];
     [|done]);
    (destruct (Z.ltb_spec size 0) as [Hneg|Hpos]; [done|]);
    tr_simpl;
    pose proof (malloc_bytes (mem_key (next_fake_pointer tr) size)
                  (Py.zeros size) (memory tr) Hb) as Hb';
    unfold memory in *;
    (destruct (HelixMemoryManager.malloc _ _ _) as [[|] m]; tr_simpl;
     cbn [snd] in Hb'; [|done]); [|done].
  intros p e. unfold pointers_synced in S. tr_simpl.
  destruct (decide (p = next_fake_pointer tr)) as [->|Hne].
  - rewrite lookup_insert_eq. intros [= <-]. tr_simpl.
    rewrite lookup_insert_eq. split; [done|lia].
  - rewrite lookup_insert_ne by done. intros Hp.
    destruct (S p e Hp) as [S1 S2]. destruct (B p e Hp) as [B1 B2].
    split; [|done]. rewrite lookup_insert_ne; [done|].
    rewrite B2. intros E. apply mem_key_inj in E; lia.
Qed.

Lemma translate_free_inv pointer tr :
  pointers_synced tr -> holds_bytes (cache_of tr) ->
  let r := translate_free pointer tr in
  pointers_synced (snd r) /\ holds_bytes (cache_of (snd r))
  /\ (forall e, fst r ≠ Raised e).
Proof.
  intros S Hb. cbn zeta. unfold translate_free. tr_simpl.
  destruct (ptr_to_key tr !! pointer) as [entry|] eqn:E; [|done].
  pose proof (free_bytes (TranslationEntry.helix_key entry) (memory tr) Hb)
    as Hb'.
  unfold memory in *.
  destruct (HelixMemoryManager.free _ _) as [ok m]. tr_simpl.
  cbn [snd] in Hb'.
  destruct (S pointer entry E) as [S1 S2]. rewrite S1. tr_simpl.
  split; [|by split].
  intros p e. unfold pointers_synced in S. tr_simpl.
  intros [Hne Hp]%lookup_delete_Some.
  destruct (S p e Hp) as [Sp1 Sp2]. split; [|done].
  rewrite lookup_delete_ne; [done|]. intros Ek. rewrite Ek in S1. congruence.
Qed.

Lemma pointers_synced_access pointer entry tr tr' :
  ptr_to_key tr !! pointer = Some entry ->
  ptr_to_key tr' = <[pointer := TranslationEntry.access entry]> (ptr_to_key tr) ->
  key_to_ptr tr' = key_to_ptr tr ->
  pointers_synced tr -> pointers_synced tr'.
Proof.
  intros E E1 E2 S p e. rewrite E1, E2.
  destruct (decide (p = pointer)) as [->|Hne].
  - rewrite lookup_insert_eq. intros [= <-]. exact (S pointer entry E).
  - rewrite lookup_insert_ne by done. apply S.
Qed.

Lemma translate_read_inv pointer size offset tr :
  pointers_synced tr -> holds_bytes (cache_of tr) ->
  let r := translate_read pointer size offset tr in
  pointers_synced (snd r) /\ holds_bytes (cache_of (snd r))
  /\ (forall e, fst r ≠ Raised e).
Proof.
  intros S Hb. cbn zeta. unfold translate_read. tr_simpl.
  destruct (ptr_to_key tr !! pointer) as [entry|] eqn:E; [|done].
  destruct (read_bytes zlib_roundtrip pickle_roundtrip
              (TranslationEntry.helix_key entry) (memory tr) Hb) as [Hb' Hv].
  unfold memory in *.
  destruct (HelixMemoryManager.read _ _) as [data m]. tr_simpl.
  cbn [fst snd] in *.
  destruct Hv as [->|[bs ->]]; tr_simpl;
    (split; [|by split]);
    (eapply (pointers_synced_access pointer entry tr);
       [exact E|reflexivity|reflexivity|exact S]).
Qed.

Lemma translate_write_inv pointer data offset tr :
  pointers_synced tr -> holds_bytes (cache_of tr) ->
  let r := translate_write pointer data offset tr in
  pointers_synced (snd r) /\ holds_bytes (cache_of (snd r))
  /\ (forall e, fst r ≠ Raised e).
Proof.
  intros S Hb. cbn zeta. unfold translate_write. tr_simpl.
  destruct (ptr_to_key tr !! pointer) as [entry|] eqn:E; [|done].
  destruct (S pointer entry E) as [_ Hsize].
  destruct (read_bytes zlib_roundtrip pickle_roundtrip
              (TranslationEntry.helix_key entry) (memory tr) Hb) as [Hb' Hv].
  unfold memory in *.
  destruct (HelixMemoryManager.read _ _) as [existing m]. tr_simpl.
  cbn [fst snd] in *.
  assert (exists buffer,
            (if truthy existing
             then match existing with
                  | PyBytes b => Returned b
                  | PyObj o => match obj_bytes o with
                               | Some b => Returned b
                               | None => Raised TypeError
                               end
                  | PyNone => Raised TypeError
                  end
             else if negb (Py.fits_index (TranslationEntry.size entry))
                  then Raised OverflowError
             else if TranslationEntry.size entry <? 0 then Raised ValueError
                  else Returned (Py.zeros (TranslationEntry.size entry)))
            = Returned buffer) as [buffer ->].
  { destruct (fits_index_spec (TranslationEntry.size entry))
      as [[-> _]|[_ Hout]]; [|unfold Py.maxsize in Hsize; lia].
    cbn [negb].
    destruct (Z.ltb_spec (TranslationEntry.size entry) 0); [lia|].
    destruct Hv as [->|[bs ->]]; cbn [truthy]; [by eauto|].
    destruct (truthy_bytes (Some bs)); by eauto. }
  pose proof (write_bytes (TranslationEntry.helix_key entry)
                (Py.setslice buffer offset (offset + len data) data) m Hb')
    as Hb''.
  destruct (HelixMemoryManager.write _ _ _) as [success m']. tr_simpl.
  cbn [snd] in Hb''.
  split; [|by split].
  eapply (pointers_synced_access pointer entry tr);
    [exact E|reflexivity|reflexivity|exact S].
Qed.

Lemma translate_read_file_inv fd size tr :
  pointers_synced tr -> holds_bytes (cache_of tr) ->
  let r := translate_read_file fd size tr in
  pointers_synced (snd r) /\ holds_bytes (cache_of (snd r))
  /\ (forall e, fst r ≠ Raised e).
Proof.
  intros S Hb. cbn zeta. unfold translate_read_file. tr_simpl.
  destruct (fd_to_path tr !! fd) as [filepath|]; [|done].
  destruct (read_file_bytes zlib_roundtrip pickle_roundtrip filepath
              (helix tr) Hb) as [Hb' Hv].
  destruct (HelixFS.read_file filepath (helix tr)) as [data h]. tr_simpl.
  cbn [fst snd] in *.
  destruct Hv as [->|[bs ->]]; cbn [truthy]; [done|].
  by destruct (truthy_bytes (Some bs)).
Qed.

Lemma translate_write_file_inv fd data tr :
  pointers_synced tr -> holds_bytes (cache_of tr) ->
  let r := translate_write_file fd data tr in
  pointers_synced (snd r) /\ holds_bytes (cache_of (snd r))
  /\ (forall e, fst r ≠ Raised e).
Proof.
  intros S Hb. cbn zeta. unfold translate_write_file. tr_simpl.
  destruct (fd_to_path tr !! fd) as [filepath|]; [|done].
  pose proof (write_file_bytes filepath data true (helix tr) Hb) as Hb'.
  tr_simpl. split; [exact S|]. split; [exact Hb'|done].
Qed.

Lemma translate_close_inv fd tr :
  pointers_synced tr -> holds_bytes (cache_of tr) ->
  let r := translate_close fd tr in
  pointers_synced (snd r) /\ holds_bytes (cache_of (snd r))
  /\ (forall e, fst r = Raised e -> e = KeyError).
Proof.
  intros S Hb. cbn zeta. unfold translate_close. tr_simpl.
  destruct (fd_to_path tr !! fd) as [filepath|]; [|done].
  tr_simpl. destruct (path_to_fd tr !! filepath); tr_simpl; [done|].
  split; [done|]. split; [done|]. by intros e [= <-].
Qed.

(** One call: the invariant goes on, and the call raises only as
    [translate_malloc] of a size it cannot take or as [translate_close]. *)
Lemma run_call_raises c tr :
  handles_ok tr -> pointers_synced tr -> holds_bytes (cache_of tr) ->
  let r := run_call c tr in
  pointers_synced (snd r) /\ holds_bytes (cache_of (snd r))
  /\ (forall e, raised (fst r) = Some e ->
        (exists size, c = CMalloc size /\ malloc_refuses size e)
        \/ (exists fd, c = CClose fd /\ e = KeyError))
  /\ (forall size e, c = CMalloc size -> malloc_refuses size e ->
        fst r = AInt (Raised e)).
Proof.
  intros Hok S Hb. cbn zeta. destruct c; cbn [run_call].
  - destruct (translate_malloc_inv size tr Hok S Hb) as (A & B & C).
    pose proof (translate_malloc_raises size tr) as R.
    destruct (translate_malloc size tr) as [r tr1]; cbn [fst snd] in *.
    split; [done|]. split; [done|]. split.
    + destruct r as [p|e]; [done|]. intros e' [= <-]. left. exists size.
      split; [done|]. by apply C.
    + intros size' e' [= <-] Hr. apply R in Hr. by rewrite Hr.
  - destruct (translate_free_inv pointer tr S Hb) as (A & B & C).
    destruct (translate_free pointer tr) as [[p|e] tr1]; cbn [fst snd] in *;
      (split; [done|]; split; [done|]; split; [|done]); [done|].
    by destruct (C e).
  - destruct (translate_read_inv pointer size offset tr S Hb) as (A & B & C).
    destruct (translate_read pointer size offset tr) as [[p|e] tr1];
      cbn [fst snd] in *;
      (split; [done|]; split; [done|]; split; [|done]); [done|].
    by destruct (C e).
  - destruct (translate_write_inv pointer data offset tr S Hb) as (A & B & C).
    destruct (translate_write pointer data offset tr) as [[p|e] tr1];
      cbn [fst snd] in *;
      (split; [done|]; split; [done|]; split; [|done]); [done|].
    by destruct (C e).
  - by cbn.
  - destruct (translate_read_file_inv fd size tr S Hb) as (A & B & C).
    destruct (translate_read_file fd size tr) as [[p|e] tr1];
      cbn [fst snd] in *;
      (split; [done|]; split; [done|]; split; [|done]); [done|].
    by destruct (C e).
  - destruct (translate_write_file_inv fd data tr S Hb) as (A & B & C).
    destruct (translate_write_file fd data tr) as [[p|e] tr1];
      cbn [fst snd] in *;
      (split; [done|]; split; [done|]; split; [|done]); [done|].
    by destruct (C e).
  - destruct (translate_close_inv fd tr S Hb) as (A & B & C).
    destruct (translate_close fd tr) as [[p|e] tr1]; cbn [fst snd] in *;
      (split; [done|]; split; [done|]; split; [|done]); [done|].
    intros e' [= <-]. right. exists fd. by rewrite (C e eq_refl).
Qed.

Lemma run_calls_raises cs tr :
  handles_ok tr -> pointers_synced tr -> holds_bytes (cache_of tr) ->
  Forall (fun ca =>
            (forall e, raised (snd ca) = Some e ->
               (exists size, fst ca = CMalloc size /\ malloc_refuses size e)
               \/ (exists fd, fst ca = CClose fd /\ e = KeyError))
            /\ (forall size e, fst ca = CMalloc size ->
                  malloc_refuses size e -> snd ca = AInt (Raised e)))
    (fst (run_calls cs tr)).
Proof.
  revert tr. induction cs as [|c cs IH]; intros tr Hok S Hb; cbn [run_calls].
  { constructor. }
  destruct (run_call_raises c tr Hok S Hb) as (A & B & C & D).
  destruct (run_call_handles c tr Hok) as (Hok' & _).
  destruct (run_call c tr) as [a tr1]. cbn [fst snd] in *.
  specialize (IH tr1 Hok' A B).
  destruct (run_calls cs tr1) as [rest tr2]. cbn [fst snd] in *.
  constructor; [by split|exact IH].
Qed.

End translator_invariant.

(** X11.  The exceptions that reach a caller of the translator (running out
    of memory aside).  With a lossless codec, in any run of calls on a new
    translator a call raises only in these ways.  [translate_malloc] raises
    for the sizes it cannot take, and for each of them: [ValueError] for a
    size of more than 4300 digits; [OverflowError] for a shorter size
    outside the indices of a 64-bit build, that is below [-2^63] or from
    [2^63] on; [ValueError] for a negative size from [-2^63] on.
    [translate_close] can raise [KeyError].  Every other call returns:
    [translate_free], [translate_read], [translate_write], [translate_open],
    [translate_read_file] and [translate_write_file] never raise, whatever
    the handles, sizes and offsets they are given. *)
Theorem translator_raises_only_in_malloc_and_close `{PyRuntime}
    (l1_mb l2_mb l3_mb vram_mb : Z) (d : gmap string bytes)
    (cs : list call) :
  (forall s, zlib_decompress (zlib_compress s) = Some s) ->
  (forall v s, pickle_dumps v = Some s -> pickle_loads s = Some v) ->
  Forall (fun ca =>
            (forall e, raised (snd ca) = Some e ->
               (exists size, fst ca = CMalloc size /\ malloc_refuses size e)
               \/ (exists fd, fst ca = CClose fd /\ e = KeyError))
            /\ (forall size e, fst ca = CMalloc size ->
                  malloc_refuses size e -> snd ca = AInt (Raised e)))
    (fst (run_calls cs
            (HelixTranslator.init
               (HelixSystem.init l1_mb l2_mb l3_mb vram_mb d)))).
Proof.
  intros Hz Hp. apply run_calls_raises; [done|done|apply handles_ok_init|..].
  - intros p e. cbn. by rewrite lookup_empty.
  - apply holds_bytes_empty.
Qed.

(** X11 for a run with stale and unknown handles, offsets outside the
    buffer, sizes that are negative, outside the indices and of more than
    4300 digits, and a second close. *)
Lemma translator_raises_only_in_malloc_and_close_witness :
  Forall (fun ca =>
            (forall e, raised (snd ca) = Some e ->
               (exists size, fst ca = CMalloc size /\ malloc_refuses size e)
               \/ (exists fd, fst ca = CClose fd /\ e = KeyError))
            /\ (forall size e, fst ca = CMalloc size ->
                  malloc_refuses size e -> snd ca = AInt (Raised e)))
    (fst (@run_calls toy_runtime
            [CMalloc 4; CRead 0x10000000 10 (-3);
             CWrite 0x10000000 XY 100; CFree 0x10000000; CFree 0x10000000;
             CRead 0x10000000 1 0; CWrite 7 XY 0; CMalloc (-1);
             CMalloc (2 ^ 63); CMalloc (- 2 ^ 63 - 1); CMalloc (- 10 ^ 4300);
             COpen "p" "r"; COpen "p" "r"; CReadFile 1000 5;
             CWriteFile 1001 XY; CClose 1000; CClose 1001; CReadFile 1001 1]
            (HelixTranslator.init (HelixSystem.init 512 2048 6000 8096 ∅)))).
Proof.
  apply (@translator_raises_only_in_malloc_and_close toy_runtime).
  - exact toy_zlib_roundtrip.
  - exact toy_pickle_roundtrip.
Defined.

Section descriptors.
Context `{PyRuntime}.
Import HelixTranslator.

(** Calls on memory and on file contents leave the descriptor tables. *)
Lemma run_call_descriptor_tables c tr :
  (forall filepath mode, c ≠ COpen filepath mode) ->
  (forall fd, c ≠ CClose fd) ->
  fd_to_path (snd (run_call c tr)) = fd_to_path tr
  /\ path_to_fd (snd (run_call c tr)) = path_to_fd tr.
Proof.
  intros Ho Hc. destruct c; cbn [run_call].
  - unfold translate_malloc. destruct (Py.str_fits size); cbn [negb]; [|done].
    destruct (Py.fits_index size); cbn [negb]; [|done].
    destruct (size <? 0); [done|]. tr_simpl.
    by destruct (HelixMemoryManager.malloc _ _ _) as [[|] m].
  - unfold translate_free. tr_simpl.
    destruct (ptr_to_key tr !! pointer) as [entry|]; [|done].
    destruct (HelixMemoryManager.free _ _) as [ok m]. tr_simpl.
    by destruct (key_to_ptr tr !! _).
  - unfold translate_read. tr_simpl.
    destruct (ptr_to_key tr !! pointer) as [entry|]; [|done].
    destruct (HelixMemoryManager.read _ _) as [data m]. tr_simpl.
    destruct data as [|b|o]; [done|done|]. by destruct (obj_bytes o).
  - unfold translate_write. tr_simpl.
    destruct (ptr_to_key tr !! pointer) as [entry|]; [|done].
    destruct (HelixMemoryManager.read _ _) as [existing m]. tr_simpl.
    match goal with
    | |- context [match ?buf with Returned _ => _ | Raised _ => _ end] =>
        destruct buf as [buffer|e]
    end; [|done].
    by destruct (HelixMemoryManager.write _ _ _) as [success m'].
  - by destruct (Ho filepath mode).
  - unfold translate_read_file. tr_simpl.
    destruct (fd_to_path tr !! fd) as [filepath|]; [|done].
    destruct (HelixFS.read_file filepath (helix tr)) as [data h]. tr_simpl.
    destruct (truthy data); [|done].
    destruct data as [|b|o]; [done|done|]. by destruct (obj_prefix o size).
  - unfold translate_write_file. tr_simpl.
    by destruct (fd_to_path tr !! fd) as [filepath|].
  - by destruct (Hc fd).
Qed.

Lemma translate_open_synced filepath mode tr :
  path_to_fd tr !! filepath = None ->
  descriptors_synced tr ->
  descriptors_synced (snd (translate_open filepath mode tr)).
Proof.
  intros Hnew S fd path. unfold translate_open. tr_simpl.
  destruct (decide (fd = next_fake_fd tr)) as [->|Hne].
  - rewrite lookup_insert_eq. intros [= <-]. by rewrite lookup_insert_eq.
  - rewrite lookup_insert_ne by done. intros Hfd.
    pose proof (S fd path Hfd) as Hp.
    rewrite lookup_insert_ne; [done|]. intros ->. congruence.
Qed.

Lemma translate_close_synced fd tr :
  descriptors_synced tr ->
  descriptors_synced (snd (translate_close fd tr))
  /\ (forall e, fst (translate_close fd tr) ≠ Raised e).
Proof.
  intros S. unfold translate_close. tr_simpl.
  destruct (fd_to_path tr !! fd) as [filepath|] eqn:E; [|done].
  tr_simpl. rewrite (S fd filepath E). tr_simpl. split; [|done].
  intros fd' path. unfold descriptors_synced in S. tr_simpl.
  intros [Hne Hfd]%lookup_delete_Some.
  pose proof (S fd' path Hfd) as Hp.
  rewrite lookup_delete_ne; [done|]. intros ->.
  rewrite (S fd path E) in Hp. congruence.
Qed.

Lemma run_call_synced c tr :
  opens_new_path c tr = true ->
  descriptors_synced tr ->
  descriptors_synced (snd (run_call c tr))
  /\ (forall fd e, c = CClose fd -> raised (fst (run_call c tr)) ≠ Some e).
Proof.
  intros Hnew S.
  assert ((exists filepath mode, c = COpen filepath mode)
          \/ (exists fd, c = CClose fd)
          \/ (forall filepath mode, c ≠ COpen filepath mode)
             /\ (forall fd, c ≠ CClose fd)) as [(filepath & mode & ->)|
                                                 [(fd & ->)|[Ho Hc]]].
  { destruct c; eauto; right; right; by split. }
  - cbn [run_call opens_new_path] in *.
    destruct (path_to_fd tr !! filepath) eqn:E; [done|].
    pose proof (translate_open_synced filepath mode tr E S).
    by destruct (translate_open filepath mode tr).
  - cbn [run_call]. destruct (translate_close_synced fd tr S) as [A B].
    destruct (translate_close fd tr) as [[r|e] tr1]; cbn [fst snd] in *.
    + by split.
    + by destruct (B e).
  - destruct (run_call_descriptor_tables c tr Ho Hc) as [E1 E2].
    split.
    + intros fd path. rewrite E1, E2. apply S.
    + intros fd e ->. by destruct (Hc fd).
Qed.

Lemma run_calls_synced cs tr :
  opens_once cs tr = true ->
  descriptors_synced tr ->
  Forall (fun ca => forall fd e, fst ca = CClose fd -> raised (snd ca) ≠ Some e)
    (fst (run_calls cs tr)).
Proof.
  revert tr. induction cs as [|c cs IH]; intros tr Hcs S; cbn [run_calls].
  { constructor. }
  cbn [opens_once] in Hcs. apply andb_true_iff in Hcs as [Hc Hcs].
  destruct (run_call_synced c tr Hc S) as [A B].
  destruct (run_call c tr) as [a tr1]. cbn [fst snd] in *.
  specialize (IH tr1 Hcs A).
  destruct (run_calls cs tr1) as [rest tr2]. cbn [fst snd] in *.
  constructor; [exact B|exact IH].
Qed.

End descriptors.

(** X12.  [translate_close] raises only when a path was opened twice.  In a
    run of calls on a new translator in which no [translate_open] is given a
    path that has a descriptor at that time, with a lossless codec (and
    running out of memory aside), every [translate_close] returns: the only
    exceptions are those of [translate_malloc] for a size it cannot take, a
    [ValueError] for a size of more than 4300 digits or a negative size from
    [-2^63] on, an [OverflowError] for a shorter size below [-2^63] or from
    [2^63] on. *)
Theorem close_returns_when_paths_open_once `{PyRuntime}
    (l1_mb l2_mb l3_mb vram_mb : Z) (d : gmap string bytes)
    (cs : list call) :
  (forall s, zlib_decompress (zlib_compress s) = Some s) ->
  (forall v s, pickle_dumps v = Some s -> pickle_loads s = Some v) ->
  let tr0 := HelixTranslator.init
               (HelixSystem.init l1_mb l2_mb l3_mb vram_mb d) in
  opens_once cs tr0 = true ->
  Forall (fun ca =>
            (forall fd, fst ca = CClose fd -> raised (snd ca) = None)
            /\ (forall e, raised (snd ca) = Some e ->
                  exists size, fst ca = CMalloc size
                               /\ malloc_refuses size e))
    (fst (run_calls cs tr0)).
Proof.
  intros Hz Hp tr0 Hcs.
  assert (pointers_synced tr0) as P0.
  { intros p e. cbn. by rewrite lookup_empty. }
  pose proof (run_calls_raises Hz Hp cs tr0 (handles_ok_init _) P0
                (holds_bytes_empty _ _ _)) as R.
  pose proof (run_calls_synced cs tr0 Hcs) as S.
  revert R S.
  generalize (fst (run_calls cs tr0)). intros log R S.
  assert (descriptors_synced tr0) as S0.
  { intros fd path. cbn. by rewrite lookup_empty. }
  specialize (S S0). induction R as [|[c a] log [Hca _] R IH]; [constructor|].
  apply Forall_cons_1 in S as [Sca S]. constructor; [|by apply IH].
  split.
  - intros fd Hc. destruct (raised (snd (c, a))) as [e|] eqn:E; [|done].
    by destruct (Sca fd e Hc).
  - intros e He. destruct (Hca e He) as [?|(fd & Hc & _)]; [done|].
    by destruct (Sca fd e Hc).
Qed.

(** X12 for a run that opens a path again after it was closed. *)
Lemma close_returns_when_paths_open_once_witness :
  let tr0 := HelixTranslator.init (HelixSystem.init 512 2048 6000 8096 ∅) in
  Forall (fun ca =>
            (forall fd, fst ca = CClose fd -> raised (snd ca) = None)
            /\ (forall e, raised (snd ca) = Some e ->
                  exists size, fst ca = CMalloc size
                               /\ malloc_refuses size e))
    (fst (@run_calls toy_runtime
            [COpen "p" "r"; COpen "q" "w"; CClose 1000; COpen "p" "r";
             CClose 1000; CClose 1002; CClose 1001; CMalloc (-1);
             CMalloc (2 ^ 63)]
            tr0)).
Proof.
  apply (@close_returns_when_paths_open_once toy_runtime).
  - exact toy_zlib_roundtrip.
  - exact toy_pickle_roundtrip.
  - vm_compute. reflexivity.
Defined.

(* ================================================================== *)
(** ** Released handles *)

Ltac released_done :=
  tr_simpl; cbn [issued_pointers issued_fds refused];
  split_and!; try done; try lia; try apply not_elem_of_nil.

Section released.
Context `{PyRuntime}.
Import HelixTranslator.

(** A pointer below the counter that the table does not hold: no call brings
    it back, and calls that name it are refused. *)
Lemma run_call_released_pointer p c tr :
  0 < p < next_fake_pointer tr ->
  ptr_to_key tr !! p = None ->
  let r := run_call c tr in
  0 < p < next_fake_pointer (snd r)
  /\ ptr_to_key (snd r) !! p = None
  /\ (call_on_pointer p c = true -> refused (fst r) = true)
  /\ (p ∉ issued_pointers [(c, fst r)]).
Proof.
  intros Hp Hnone. cbn zeta.
  destruct c; cbn [run_call call_on_pointer].
  - unfold translate_malloc.
    destruct (Py.str_fits size); cbn [negb]; [|released_done].
    destruct (Py.fits_index size); cbn [negb]; [|released_done].
    destruct (size <? 0); [released_done|].
    tr_simpl.
    destruct (HelixMemoryManager.malloc _ _ _) as [[|] m]; tr_simpl.
    + split; [lia|]. split; [by rewrite lookup_insert_ne by lia|].
      split; [done|]. cbn [issued_pointers].
      destruct (_ =? 0); [apply not_elem_of_nil|].
      rewrite list_elem_of_singleton. lia.
    + released_done.
  - unfold translate_free. tr_simpl.
    destruct (ptr_to_key tr !! pointer) as [entry|] eqn:E;
      [|released_done].
    assert (pointer ≠ p) as Hne by congruence.
    destruct (HelixMemoryManager.free _ _) as [ok m]. tr_simpl.
    destruct (key_to_ptr tr !! _); released_done;
      try (by rewrite lookup_delete_ne); by intros ?%Z.eqb_eq.
  - unfold translate_read. tr_simpl.
    destruct (ptr_to_key tr !! pointer) as [entry|] eqn:E;
      [|released_done].
    assert (pointer ≠ p) as Hne by congruence.
    destruct (HelixMemoryManager.read _ _) as [data m]. tr_simpl.
    destruct data as [|b|o]; [| |destruct (obj_bytes o)]; released_done;
      try (by rewrite lookup_insert_ne); by intros ?%Z.eqb_eq.
  - unfold translate_write. tr_simpl.
    destruct (ptr_to_key tr !! pointer) as [entry|] eqn:E;
      [|released_done].
    assert (pointer ≠ p) as Hne by congruence.
    destruct (HelixMemoryManager.read _ _) as [existing m]. tr_simpl.
    match goal with
    | |- context [match ?buf with Returned _ => _ | Raised _ => _ end] =>
        destruct buf as [buffer|e]
    end; [destruct (HelixMemoryManager.write _ _ _) as [success m']|];
      released_done;
      try (by rewrite lookup_insert_ne); by intros ?%Z.eqb_eq.
  - unfold translate_open. released_done.
  - pose proof (translate_read_file_handles fd size tr) as (E1 & E2 & _).
    destruct (translate_read_file fd size tr) as [r tr1]. cbn [fst snd] in *.
    rewrite E1, E2. released_done.
  - pose proof (translate_write_file_handles fd data tr) as (E1 & E2 & _).
    destruct (translate_write_file fd data tr) as [r tr1]. cbn [fst snd] in *.
    rewrite E1, E2. released_done.
  - unfold translate_close. tr_simpl.
    destruct (fd_to_path tr !! fd) as [filepath|]; [|released_done].
    tr_simpl. destruct (path_to_fd tr !! filepath); released_done.
Qed.

Lemma run_calls_released_pointer p cs tr :
  0 < p < next_fake_pointer tr ->
  ptr_to_key tr !! p = None ->
  let log := fst (run_calls cs tr) in
  (p ∉ issued_pointers log)
  /\ Forall (fun ca => call_on_pointer p (fst ca) = true ->
                       refused (snd ca) = true) log.
Proof.
  cbn zeta. revert tr.
  induction cs as [|c cs IH]; intros tr Hp Hnone; cbn [run_calls].
  { split; [apply not_elem_of_nil|constructor]. }
  destruct (run_call_released_pointer p c tr Hp Hnone) as (A & B & C & D).
  destruct (run_call c tr) as [a tr1]. cbn [fst snd] in *.
  destruct (IH tr1 A B) as [I1 I2].
  destruct (run_calls cs tr1) as [rest tr2]. cbn [fst snd] in *.
  split; [|by constructor].
  rewrite issued_pointers_cons, elem_of_app. tauto.
Qed.

(** The same for a descriptor. *)
Lemma run_call_released_descriptor fd c tr :
  fd < next_fake_fd tr ->
  fd_to_path tr !! fd = None ->
  let r := run_call c tr in
  fd < next_fake_fd (snd r)
  /\ fd_to_path (snd r) !! fd = None
  /\ (call_on_descriptor fd c = true -> refused (fst r) = true)
  /\ (fd ∉ issued_fds [(c, fst r)]).
Proof.
  intros Hfd Hnone. cbn zeta.
  destruct c; cbn [run_call call_on_descriptor].
  - unfold translate_malloc.
    destruct (Py.str_fits size); cbn [negb]; [|released_done].
    destruct (Py.fits_index size); cbn [negb]; [|released_done].
    destruct (size <? 0); [released_done|].
    tr_simpl.
    destruct (HelixMemoryManager.malloc _ _ _) as [[|] m]; released_done.
  - unfold translate_free. tr_simpl.
    destruct (ptr_to_key tr !! pointer) as [entry|]; [|released_done].
    destruct (HelixMemoryManager.free _ _) as [ok m]. tr_simpl.
    destruct (key_to_ptr tr !! _); released_done.
  - unfold translate_read. tr_simpl.
    destruct (ptr_to_key tr !! pointer) as [entry|]; [|released_done].
    destruct (HelixMemoryManager.read _ _) as [data m]. tr_simpl.
    destruct data as [|b|o]; [| |destruct (obj_bytes o)]; released_done.
  - unfold translate_write. tr_simpl.
    destruct (ptr_to_key tr !! pointer) as [entry|]; [|released_done].
    destruct (HelixMemoryManager.read _ _) as [existing m]. tr_simpl.
    match goal with
    | |- context [match ?buf with Returned _ => _ | Raised _ => _ end] =>
        destruct buf as [buffer|e]
    end; [destruct (HelixMemoryManager.write _ _ _) as [success m']|];
      released_done.
  - unfold translate_open. tr_simpl.
    split; [lia|]. split; [by rewrite lookup_insert_ne by lia|].
    split; [done|]. cbn [issued_fds]. rewrite list_elem_of_singleton. lia.
  - unfold translate_read_file. tr_simpl.
    destruct (fd_to_path tr !! fd0) as [filepath|] eqn:E.
    2:{ released_done. }
    assert (fd0 ≠ fd) as Hne by congruence.
    destruct (HelixFS.read_file filepath (helix tr)) as [data h]. tr_simpl.
    destruct (truthy data); [|released_done; by intros ?%Z.eqb_eq].
    destruct data as [|b|o]; [| |destruct (obj_prefix o size)];
      released_done; by intros ?%Z.eqb_eq.
  - unfold translate_write_file. tr_simpl.
    destruct (fd_to_path tr !! fd0) as [filepath|] eqn:E;
      [|released_done].
    assert (fd0 ≠ fd) as Hne by congruence.
    released_done; by intros ?%Z.eqb_eq.
  - unfold translate_close. tr_simpl.
    destruct (fd_to_path tr !! fd0) as [filepath|] eqn:E;
      [|released_done].
    assert (fd0 ≠ fd) as Hne by congruence.
    tr_simpl. destruct (path_to_fd tr !! filepath); released_done;
      try (by rewrite lookup_delete_ne); by intros ?%Z.eqb_eq.
Qed.

Lemma run_calls_released_descriptor fd cs tr :
  fd < next_fake_fd tr ->
  fd_to_path tr !! fd = None ->
  let log := fst (run_calls cs tr) in
  (fd ∉ issued_fds log)
  /\ Forall (fun ca => call_on_descriptor fd (fst ca) = true ->
                       refused (snd ca) = true) log.
Proof.
  cbn zeta. revert tr.
  induction cs as [|c cs IH]; intros tr Hfd Hnone; cbn [run_calls].
  { split; [apply not_elem_of_nil|constructor]. }
  destruct (run_call_released_descriptor fd c tr Hfd Hnone) as (A & B & C & D).
  destruct (run_call c tr) as [a tr1]. cbn [fst snd] in *.
  destruct (IH tr1 A B) as [I1 I2].
  destruct (run_calls cs tr1) as [rest tr2]. cbn [fst snd] in *.
  split; [|by constructor].
  rewrite issued_fds_cons, elem_of_app. tauto.
Qed.

End released.

(** X13.  No use after free.  Take any state a new translator reaches and a
    pointer [p] that is active in it.  After [translate_free p], whatever
    calls follow: [translate_read], [translate_write] and [translate_free]
    on [p] are refused ([None] or [False]), and no [translate_malloc] issues
    [p] again. *)
Theorem freed_pointer_stays_invalid `{PyRuntime}
    (h : HelixSystem.t) (cs0 cs : list call) (p : Z) :
  let tr := snd (run_calls cs0 (HelixTranslator.init h)) in
  is_Some (HelixTranslator.ptr_to_key tr !! p) ->
  let tr1 := snd (HelixTranslator.translate_free p tr) in
  let log := fst (run_calls cs tr1) in
  (p ∉ issued_pointers log)
  /\ Forall (fun ca => call_on_pointer p (fst ca) = true ->
                       refused (snd ca) = true) log.
Proof.
  intros tr [entry E] tr1 log.
  destruct (run_calls_handles cs0 (HelixTranslator.init h)
              (handles_ok_init h)) as ((A & B & C) & _).
  fold tr in A, B, C. destruct (B p entry E) as [Hp _].
  apply run_calls_released_pointer; subst tr1;
    unfold HelixTranslator.translate_free; tr_simpl; rewrite E;
    destruct (HelixMemoryManager.free _ _) as [ok m]; tr_simpl;
    destruct (HelixTranslator.key_to_ptr tr !! _); tr_simpl;
    try done; apply lookup_delete_eq.
Qed.

(** X13 for the buffer of [four_zero_bytes]. *)
Lemma freed_pointer_stays_invalid_witness :
  let tr := snd (@run_calls toy_runtime [CMalloc 4]
                   (HelixTranslator.init
                      (HelixSystem.init 512 2048 6000 8096 ∅))) in
  let tr1 := snd (HelixTranslator.translate_free 0x10000000 tr) in
  let log := fst (@run_calls toy_runtime
                    [CRead 0x10000000 4 0; CMalloc 4;
                     CWrite 0x10000000 XY 0; CFree 0x10000000]
                    tr1) in
  (0x10000000 ∉ issued_pointers log)
  /\ Forall (fun ca => call_on_pointer 0x10000000 (fst ca) = true ->
                       refused (snd ca) = true) log.
Proof.
  apply (@freed_pointer_stays_invalid toy_runtime
           (HelixSystem.init 512 2048 6000 8096 ∅) [CMalloc 4]).
  vm_compute. eauto.
Defined.

(** X14.  No use after close.  Take any state a new translator reaches and a
    descriptor [fd] that is active in it.  After [translate_close fd],
    whether it returned or raised, whatever calls follow:
    [translate_read_file], [translate_write_file] and [translate_close] on
    [fd] are refused ([None] or [False]), and no [translate_open] issues
    [fd] again. *)
Theorem closed_descriptor_stays_invalid `{PyRuntime}
    (h : HelixSystem.t) (cs0 cs : list call) (fd : Z) :
  let tr := snd (run_calls cs0 (HelixTranslator.init h)) in
  is_Some (HelixTranslator.fd_to_path tr !! fd) ->
  let tr1 := snd (HelixTranslator.translate_close fd tr) in
  let log := fst (run_calls cs tr1) in
  (fd ∉ issued_fds log)
  /\ Forall (fun ca => call_on_descriptor fd (fst ca) = true ->
                       refused (snd ca) = true) log.
Proof.
  intros tr [path E] tr1 log.
  destruct (run_calls_handles cs0 (HelixTranslator.init h)
              (handles_ok_init h)) as ((A & B & C) & _).
  fold tr in A, B, C. pose proof (C fd path E) as Hfd.
  apply run_calls_released_descriptor; subst tr1;
    unfold HelixTranslator.translate_close; tr_simpl; rewrite E; tr_simpl;
    destruct (HelixTranslator.path_to_fd tr !! path); tr_simpl;
    try done; apply lookup_delete_eq.
Qed.

(** X14 for the second of two descriptors of one path, whose close
    raises. *)
Lemma closed_descriptor_stays_invalid_witness :
  let tr := snd (@run_calls toy_runtime
                   [COpen "p" "r"; COpen "p" "r"; CClose 1000]
                   (HelixTranslator.init
                      (HelixSystem.init 512 2048 6000 8096 ∅))) in
  let tr1 := snd (HelixTranslator.translate_close 1001 tr) in
  let log := fst (@run_calls toy_runtime
                    [CReadFile 1001 4; COpen "p" "r"; CWriteFile 1001 XY;
                     CClose 1001]
                    tr1) in
  (1001 ∉ issued_fds log)
  /\ Forall (fun ca => call_on_descriptor 1001 (fst ca) = true ->
                       refused (snd ca) = true) log.
Proof.
  apply (@closed_descriptor_stays_invalid toy_runtime
           (HelixSystem.init 512 2048 6000 8096 ∅)
           [COpen "p" "r"; COpen "p" "r"; CClose 1000]).
  vm_compute. eauto.
Defined.

(* ================================================================== *)
(** ** Reads are clipped to the buffer *)

Lemma getslice_clip {A} (l : list A) (offset size : Z) :
  0 <= offset -> 0 <= size ->
  Py.getslice l offset (offset + size)
  = firstn (Z.to_nat size) (skipn (Z.to_nat offset) l)
  /\ len (Py.getslice l offset (offset + size))
     = Z.min size (Z.max 0 (len l - offset)).
Proof.
  intros Ho Hs. pose proof (len_nonneg l) as Hl.
  assert (Py.getslice l offset (offset + size)
          = firstn (Z.to_nat size) (skipn (Z.to_nat offset) l)) as E.
  { unfold Py.getslice.
    destruct (Z.le_gt_cases offset (len l)) as [Hin|Hout].
    - rewrite (slice_index_inside _ offset) by lia.
      destruct (Z.le_gt_cases (offset + size) (len l)) as [Hin2|Hout2].
      + rewrite slice_index_inside by lia. do 2 f_equal. lia.
      + rewrite slice_index_above by lia.
        rewrite !firstn_all2; [done|..];
          rewrite length_skipn; unfold len in *; lia.
    - rewrite !slice_index_above by lia.
      rewrite !skipn_all2 by (unfold len in *; lia).
      by rewrite !firstn_nil. }
  split; [done|]. rewrite E. unfold len in *.
  rewrite length_firstn, length_skipn. lia.
Qed.

Lemma firstn_repeat_min {A} (x : A) (n m : nat) :
  firstn n (repeat x m) = repeat x (Nat.min n m).
Proof.
  revert m. induction n as [|n IH]; intros [|m]; simpl; try done.
  by rewrite IH.
Qed.

Lemma skipn_repeat_sub {A} (x : A) (n m : nat) :
  skipn n (repeat x m) = repeat x (m - n).
Proof.
  revert m. induction n as [|n IH]; intros [|m]; simpl; try done.
Qed.

Lemma firstn_skipn_zeros (size offset n : Z) :
  0 <= offset -> 0 <= n ->
  firstn (Z.to_nat n) (skipn (Z.to_nat offset) (Py.zeros size))
  = Py.zeros (Z.min n (Z.max 0 (size - offset))).
Proof.
  intros Ho Hn. unfold Py.zeros.
  rewrite skipn_repeat_sub, firstn_repeat_min. f_equal. lia.
Qed.

(** X15.  New memory reads as zeros, and reads are clipped to the buffer.
    When [translate_malloc size] has issued the pointer [p], a
    [translate_read p n offset] with [offset] and [n] not negative returns
    zero bytes only: [n] of them, or as many as the buffer has from [offset]
    on, and none when [offset] lies behind the buffer.  It never fails and
    never reads beyond the [size] bytes. *)
Theorem malloc_then_read_zeros `{PyRuntime}
    (tr tr1 : HelixTranslator.t) (size p n offset : Z) :
  HelixTranslator.translate_malloc size tr = (Returned p, tr1) ->
  p ≠ 0 -> 0 <= offset -> 0 <= n ->
  0 <= size
  /\ fst (HelixTranslator.translate_read p n offset tr1)
     = Returned (PyBytes (Py.zeros (Z.min n (Z.max 0 (size - offset))))).
Proof.
  unfold HelixTranslator.translate_malloc.
  destruct (Py.str_fits size); cbn [negb]; [|done].
  destruct (Py.fits_index size); cbn [negb]; [|done].
  destruct (Z.ltb_spec size 0) as [Hneg|Hpos]; [done|]. tr_simpl.
  destruct (HelixMemoryManager.malloc _ _ _) as [[|] m] eqn:M; tr_simpl;
    [|by intros [= <- <-]].
  intros [= <- <-] _ Ho Hn. split; [done|].
  unfold HelixTranslator.translate_read. tr_simpl.
  rewrite lookup_insert_eq. tr_simpl.
  pose proof (malloc_then_read _ _ _ _ M) as R.
  destruct (HelixMemoryManager.read _ m) as [data m']. cbn [fst] in R.
  subst data. tr_simpl.
  destruct (getslice_clip (Py.zeros size) offset n Ho Hn) as [-> _].
  by rewrite firstn_skipn_zeros.
Qed.

(** X15 for a buffer of four bytes read from offset 2 with size 10. *)
Lemma malloc_then_read_zeros_witness :
  0 <= 4
  /\ fst (@HelixTranslator.translate_read toy_runtime 0x10000000 10 2
            four_zero_bytes)
     = Returned (PyBytes (Py.zeros (Z.min 10 (Z.max 0 (4 - 2))))).
Proof.
  apply (@malloc_then_read_zeros toy_runtime default_translator
           four_zero_bytes 4 0x10000000 10 2); [|done|lia|lia].
  vm_compute. reflexivity.
Defined.

(* ================================================================== *)
(** ** The values of the handles *)

Section handle_values.
Context `{PyRuntime}.
Import HelixTranslator.

(** One call moves the pointer counter by [0x1000] when it issues a pointer
    and the descriptor counter by 1 when it issues a descriptor, and by
    nothing otherwise. *)
Lemma run_call_counters c tr :
  0 < next_fake_pointer tr ->
  let r := run_call c tr in
  (issued_pointers [(c, fst r)] = []
   /\ next_fake_pointer (snd r) = next_fake_pointer tr
   \/ issued_pointers [(c, fst r)] = [next_fake_pointer tr]
      /\ next_fake_pointer (snd r) = next_fake_pointer tr + 0x1000)
  /\ (issued_fds [(c, fst r)] = []
      /\ next_fake_fd (snd r) = next_fake_fd tr
      \/ issued_fds [(c, fst r)] = [next_fake_fd tr]
         /\ next_fake_fd (snd r) = next_fake_fd tr + 1).
Proof.
  intros Hpos. cbn zeta. destruct c; cbn [run_call].
  - unfold translate_malloc.
    destruct (Py.str_fits size); cbn [negb]; [|by split; left].
    destruct (Py.fits_index size); cbn [negb]; [|by split; left].
    destruct (size <? 0); [by split; left|]. tr_simpl.
    destruct (HelixMemoryManager.malloc _ _ _) as [[|] m]; tr_simpl;
      [|by split; left].
    split; [right|by left]. cbn [issued_pointers].
    by destruct (Z.eqb_spec (next_fake_pointer tr) 0); [lia|].
  - unfold translate_free. tr_simpl.
    destruct (ptr_to_key tr !! pointer) as [entry|]; [|by split; left].
    destruct (HelixMemoryManager.free _ _) as [ok m]. tr_simpl.
    by destruct (key_to_ptr tr !! _); split; left.
  - unfold translate_read. tr_simpl.
    destruct (ptr_to_key tr !! pointer) as [entry|]; [|by split; left].
    destruct (HelixMemoryManager.read _ _) as [data m]. tr_simpl.
    by destruct data as [|b|o]; [| |destruct (obj_bytes o)]; split; left.
  - unfold translate_write. tr_simpl.
    destruct (ptr_to_key tr !! pointer) as [entry|]; [|by split; left].
    destruct (HelixMemoryManager.read _ _) as [existing m]. tr_simpl.
    match goal with
    | |- context [match ?buf with Returned _ => _ | Raised _ => _ end] =>
        destruct buf as [buffer|e]
    end; [destruct (HelixMemoryManager.write _ _ _) as [success m']|];
      by split; left.
  - unfold translate_open. tr_simpl. split; [by left|by right].
  - pose proof (translate_read_file_handles fd size tr) as (_ & E1 & _ & E2).
    destruct (translate_read_file fd size tr) as [r tr1]. cbn [fst snd] in *.
    rewrite E1, E2. by split; left.
  - pose proof (translate_write_file_handles fd data tr) as (_ & E1 & _ & E2).
    destruct (translate_write_file fd data tr) as [r tr1]. cbn [fst snd] in *.
    rewrite E1, E2. by split; left.
  - unfold translate_close. tr_simpl.
    destruct (fd_to_path tr !! fd) as [filepath|]; [|by split; left].
    tr_simpl. by destruct (path_to_fd tr !! filepath); split; left.
Qed.

Lemma run_calls_counters cs tr :
  0 < next_fake_pointer tr ->
  let log := fst (run_calls cs tr) in
  let tr' := snd (run_calls cs tr) in
  issued_pointers log
  = (fun i => next_fake_pointer tr + 0x1000 * Z.of_nat i)
      <$> seq 0 (length (issued_pointers log))
  /\ next_fake_pointer tr'
     = next_fake_pointer tr + 0x1000 * len (issued_pointers log)
  /\ issued_fds log
     = (fun i => next_fake_fd tr + Z.of_nat i)
         <$> seq 0 (length (issued_fds log))
  /\ next_fake_fd tr' = next_fake_fd tr + len (issued_fds log).
Proof.
  cbn zeta. revert tr.
  induction cs as [|c cs IH]; intros tr Hpos; cbn [run_calls].
  { cbn. unfold len. cbn. split_and!; try done; lia. }
  destruct (run_call_counters c tr Hpos) as [P F].
  destruct (run_call c tr) as [a tr1]. cbn [fst snd] in *.
  destruct (IH tr1) as (I1 & I2 & I3 & I4).
  { destruct P as [[_ ->]|[_ ->]]; lia. }
  destruct (run_calls cs tr1) as [rest tr2]. cbn [fst snd] in *.
  rewrite issued_pointers_cons, issued_fds_cons.
  assert (forall (base step : Z) (n : nat),
            (fun i => base + step * Z.of_nat i) <$> seq 0 (S n)
            = base :: ((fun i => (base + step) + step * Z.of_nat i)
                         <$> seq 0 n)) as Shift.
  { intros base step n. simpl. f_equal; [lia|].
    rewrite <- seq_shift, <- list_fmap_compose.
    apply list_fmap_ext. intros _ i _. simpl. lia. }
  unfold len in *.
  split_and!.
  - destruct P as [[-> E]|[-> E]]; rewrite E in *; cbn [app length];
      [done|].
    rewrite (Shift _ 0x1000). by f_equal.
  - destruct P as [[-> E]|[-> E]]; rewrite E in *; cbn [app length]; lia.
  - destruct F as [[-> E]|[-> E]]; rewrite E in *; cbn [app length];
      [done|].
    pose proof (Shift (next_fake_fd tr) 1 (length (issued_fds rest))) as S1.
    etrans; [|etrans; [symmetry; exact S1|]].
    + f_equal. rewrite I3 at 1.
      apply list_fmap_ext. intros _ i _. simpl. lia.
    + apply list_fmap_ext. intros _ i _. simpl. lia.
  - destruct F as [[-> E]|[-> E]]; rewrite E in *; cbn [app length]; lia.
Qed.

End handle_values.

(** X16.  The values of the handles.  In any run of calls on a new
    translator the pointers issued are [0x10000000], [0x10001000],
    [0x10002000] and so on, 4096 apart in the order of issue, and the
    descriptors issued are 1000, 1001, 1002 and so on; the two counters
    stand at the next value of each sequence.  Refused and failed calls
    use up no value. *)
Theorem handles_issued_in_sequence `{PyRuntime}
    (h : HelixSystem.t) (cs : list call) :
  let log := fst (run_calls cs (HelixTranslator.init h)) in
  let tr := snd (run_calls cs (HelixTranslator.init h)) in
  issued_pointers log
  = (fun i => 0x10000000 + 0x1000 * Z.of_nat i)
      <$> seq 0 (length (issued_pointers log))
  /\ HelixTranslator.next_fake_pointer tr
     = 0x10000000 + 0x1000 * len (issued_pointers log)
  /\ issued_fds log
     = (fun i => 1000 + Z.of_nat i) <$> seq 0 (length (issued_fds log))
  /\ HelixTranslator.next_fake_fd tr = 1000 + len (issued_fds log).
Proof. by apply (run_calls_counters cs (HelixTranslator.init h)). Qed.

(* ================================================================== *)
(** ** The counters of the translator *)

Ltac tr_count :=
  tr_simpl; cbn [is_malloc is_free is_read is_write];
  repeat (rewrite ?stat_bump_eq, ?stat_bump_ne by done); lia.

Section translator_counters.
Context `{PyRuntime}.
Import HelixTranslator.

(** What one call adds to the counters. *)
Lemma run_call_stats c tr :
  let st := stats tr in
  let st' := stats (snd (run_call c tr)) in
  stat "ingress_calls" st' = stat "ingress_calls" st + 1
  /\ stat "egress_calls" st <= stat "egress_calls" st'
     <= stat "egress_calls" st + 1
  /\ stat "malloc_intercepts" st'
     = stat "malloc_intercepts" st + (if is_malloc c then 1 else 0)
  /\ stat "free_intercepts" st'
     = stat "free_intercepts" st + (if is_free c then 1 else 0)
  /\ stat "read_intercepts" st'
     = stat "read_intercepts" st + (if is_read c then 1 else 0)
  /\ stat "write_intercepts" st'
     = stat "write_intercepts" st + (if is_write c then 1 else 0).
Proof.
  cbn zeta. destruct c; cbn [run_call].
  - unfold translate_malloc. destruct (Py.str_fits size); cbn [negb]; [|tr_count].
    destruct (Py.fits_index size); cbn [negb]; [|tr_count].
    destruct (size <? 0); [tr_count|]. tr_simpl.
    destruct (HelixMemoryManager.malloc _ _ _) as [[|] m]; tr_count.
  - unfold translate_free. tr_simpl.
    destruct (ptr_to_key tr !! pointer) as [entry|]; [|tr_count].
    destruct (HelixMemoryManager.free _ _) as [ok m]. tr_simpl.
    destruct (key_to_ptr tr !! _); tr_count.
  - unfold translate_read. tr_simpl.
    destruct (ptr_to_key tr !! pointer) as [entry|]; [|tr_count].
    destruct (HelixMemoryManager.read _ _) as [data m]. tr_simpl.
    destruct data as [|b|o]; [| |destruct (obj_bytes o)]; tr_count.
  - unfold translate_write. tr_simpl.
    destruct (ptr_to_key tr !! pointer) as [entry|]; [|tr_count].
    destruct (HelixMemoryManager.read _ _) as [existing m]. tr_simpl.
    match goal with
    | |- context [match ?buf with Returned _ => _ | Raised _ => _ end] =>
        destruct buf as [buffer|e]
    end; [destruct (HelixMemoryManager.write _ _ _) as [success m']|];
      tr_count.
  - unfold translate_open. tr_count.
  - unfold translate_read_file. tr_simpl.
    destruct (fd_to_path tr !! fd) as [filepath|]; [|tr_count].
    destruct (HelixFS.read_file filepath (helix tr)) as [data h]. tr_simpl.
    destruct (truthy data); [|tr_count].
    destruct data as [|b|o]; [| |destruct (obj_prefix o size)]; tr_count.
  - unfold translate_write_file. tr_simpl.
    destruct (fd_to_path tr !! fd) as [filepath|]; tr_count.
  - unfold translate_close. tr_simpl.
    destruct (fd_to_path tr !! fd) as [filepath|]; [|tr_count].
    tr_simpl. destruct (path_to_fd tr !! filepath); tr_count.
Qed.

Lemma count_calls_cons p c cs :
  count_calls p (c :: cs) = (if p c then 1 else 0) + count_calls p cs.
Proof.
  unfold count_calls, len. cbn [List.filter].
  destruct (p c); cbn [length]; lia.
Qed.

Lemma run_calls_stats cs tr :
  let st := stats tr in
  let st' := stats (snd (run_calls cs tr)) in
  stat "ingress_calls" st' = stat "ingress_calls" st + len cs
  /\ stat "egress_calls" st <= stat "egress_calls" st'
     <= stat "egress_calls" st + len cs
  /\ stat "malloc_intercepts" st'
     = stat "malloc_intercepts" st + count_calls is_malloc cs
  /\ stat "free_intercepts" st'
     = stat "free_intercepts" st + count_calls is_free cs
  /\ stat "read_intercepts" st'
     = stat "read_intercepts" st + count_calls is_read cs
  /\ stat "write_intercepts" st'
     = stat "write_intercepts" st + count_calls is_write cs.
Proof.
  cbn zeta. revert tr. induction cs as [|c cs IH]; intros tr; cbn [run_calls].
  { unfold count_calls, len. cbn. lia. }
  pose proof (run_call_stats c tr) as R. cbn zeta in R.
  destruct (run_call c tr) as [a tr1]. cbn [snd] in R.
  specialize (IH tr1). destruct (run_calls cs tr1) as [rest tr2].
  cbn [snd] in *. rewrite !count_calls_cons.
  replace (len (c :: cs)) with (1 + len cs) by (unfold len; cbn [length]; lia).
  lia.
Qed.

End translator_counters.

(** X23.  The counters of the translator.  After any run of calls on a new
    translator, [ingress_calls] is the number of calls made, the raising
    ones included; [malloc_intercepts], [free_intercepts],
    [read_intercepts] and [write_intercepts] are the numbers of
    [translate_malloc], [translate_free], [translate_read] and
    [translate_write] calls, whatever they answered; and [egress_calls]
    lies between 0 and [ingress_calls]. *)
Theorem translator_counters_account `{PyRuntime}
    (h : HelixSystem.t) (cs : list call) :
  let st := HelixTranslator.stats
              (snd (run_calls cs (HelixTranslator.init h))) in
  stat "ingress_calls" st = len cs
  /\ 0 <= stat "egress_calls" st <= stat "ingress_calls" st
  /\ stat "malloc_intercepts" st = count_calls is_malloc cs
  /\ stat "free_intercepts" st = count_calls is_free cs
  /\ stat "read_intercepts" st = count_calls is_read cs
  /\ stat "write_intercepts" st = count_calls is_write cs.
Proof.
  cbn zeta.
  pose proof (run_calls_stats cs (HelixTranslator.init h)) as R.
  cbn zeta in R.
  change (HelixTranslator.stats (HelixTranslator.init h))
    with (zero_stats HelixTranslator.stat_keys) in R.
  change (stat "ingress_calls" (zero_stats HelixTranslator.stat_keys))
    with 0 in R.
  change (stat "egress_calls" (zero_stats HelixTranslator.stat_keys))
    with 0 in R.
  change (stat "malloc_intercepts" (zero_stats HelixTranslator.stat_keys))
    with 0 in R.
  change (stat "free_intercepts" (zero_stats HelixTranslator.stat_keys))
    with 0 in R.
  change (stat "read_intercepts" (zero_stats HelixTranslator.stat_keys))
    with 0 in R.
  change (stat "write_intercepts" (zero_stats HelixTranslator.stat_keys))
    with 0 in R.
  lia.
Qed.

(* ================================================================== *)
(** ** The file cache *)

Section file_cache.
Context `{PyRuntime}.
Import HelixSystem.

(** A lookup changes nothing of the allocator but its cache. *)
Lemma read_accounts key m :
  HelixMemoryManager.total_allocated (snd (HelixMemoryManager.read key m))
  = HelixMemoryManager.total_allocated m
  /\ HelixMemoryManager.max_virtual (snd (HelixMemoryManager.read key m))
     = HelixMemoryManager.max_virtual m
  /\ HelixMemoryManager.allocations (snd (HelixMemoryManager.read key m))
     = HelixMemoryManager.allocations m.
Proof.
  unfold HelixMemoryManager.read.
  by destruct (HelixCache.get key (HelixMemoryManager.cache m)).
Qed.

Lemma malloc_within_budget key data m :
  HelixMemoryManager.total_allocated m
  + HelixMemoryManager.computed_size data
  <= HelixMemoryManager.max_virtual m ->
  fst (HelixMemoryManager.malloc key data m) = true.
Proof.
  intros Hfit. unfold HelixMemoryManager.malloc.
  destruct (Z.gtb_spec
              (HelixMemoryManager.total_allocated m
               + HelixMemoryManager.computed_size data)
              (HelixMemoryManager.max_virtual m)); [lia|done].
Qed.

(** A cached file is answered from the cache, whatever the storage holds. *)
Lemma read_file_hit path s v :
  fst (HelixMemoryManager.read (HelixFS.cache_key_of path) (memory s)) = v ->
  v ≠ PyNone ->
  let r := HelixFS.read_file path s in
  fst r = v /\ disk (snd r) = disk s
  /\ stat "disk_reads" (fs_stats (snd r)) = stat "disk_reads" (fs_stats s)
  /\ stat "cache_hits" (fs_stats (snd r)) = stat "cache_hits" (fs_stats s) + 1.
Proof.
  intros Hv Hn. cbn zeta. unfold HelixFS.read_file.
  cbn [count memory].
  destruct (HelixMemoryManager.read _ _) as [cached m]. cbn [fst] in Hv.
  subst cached. destruct v; [done|..];
    cbn [is_None negb fst snd count set_memory disk fs_stats];
    (split; [done|]; split; [done|]; split;
     [by rewrite !stat_bump_ne by done
     |by rewrite stat_bump_eq, stat_bump_ne by done]).
Qed.

(** A file that the cache does not hold is read from the storage and
    handed to the allocator. *)
Lemma read_file_miss path s data :
  HelixCache.resident (HelixFS.cache_key_of path)
    (HelixMemoryManager.cache (memory s)) = false ->
  disk s !! path = Some data ->
  disk_read_fails path = false ->
  exists m0 ok m s1,
    HelixMemoryManager.total_allocated m0
    = HelixMemoryManager.total_allocated (memory s)
    /\ HelixMemoryManager.max_virtual m0
       = HelixMemoryManager.max_virtual (memory s)
    /\ HelixMemoryManager.malloc (HelixFS.cache_key_of path) (PyBytes data) m0
       = (ok, m)
    /\ HelixFS.read_file path s = (PyBytes data, s1)
    /\ memory s1 = m /\ disk s1 = disk s.
Proof.
  intros Hmiss Hdisk Hread. unfold HelixFS.read_file.
  cbn [count memory].
  pose proof (get_miss _ _ Hmiss) as G.
  destruct (read_accounts (HelixFS.cache_key_of path) (memory s))
    as (A1 & A2 & _).
  destruct (HelixMemoryManager.read _ _) as [cached m0] eqn:R.
  assert (cached = PyNone) as ->.
  { unfold HelixMemoryManager.read in R.
    destruct (HelixCache.get _ _). cbn [fst] in G. congruence. }
  cbn [is_None negb count set_memory disk memory].
  rewrite Hdisk, Hread.
  destruct (HelixMemoryManager.malloc _ _ _) as [ok m] eqn:M.
  exists m0, ok, m. eexists. cbn [snd] in A1, A2.
  split; [exact A1|]. split; [exact A2|]. split; [exact M|].
  split; [reflexivity|]. by split.
Qed.

End file_cache.

Lemma write_file_cached `{PyRuntime} path data wt s :
  fst (HelixMemoryManager.write (HelixFS.cache_key_of path) (PyBytes data)
         (HelixSystem.memory s)) = true ->
  fst (HelixMemoryManager.read (HelixFS.cache_key_of path)
         (HelixSystem.memory (HelixFS.write_file path data wt s)))
  = PyBytes data.
Proof.
  unfold HelixFS.write_file. cbn [HelixSystem.count HelixSystem.memory].
  destruct (HelixMemoryManager.write _ _ _) as [ok m] eqn:W. cbn [fst].
  intros ->. pose proof (write_then_read _ _ _ _ W) as R.
  destruct wt; [destruct (disk_write_fails path)|]; exact R.
Qed.

(** X17.  [write_file] then [read_file].  [write_file] records the path in
    [file_cache]; without [write_through] it leaves the storage as it is,
    with [write_through] and a storage that takes the write the path holds
    the data afterwards.  When the allocator accepts the data, a following
    [read_file] of the path returns it from the cache: the storage is
    neither read nor changed. *)
Theorem write_file_then_read_file `{PyRuntime}
    (s : HelixSystem.t) (path : string) (data : bytes) (write_through : bool) :
  let s1 := HelixFS.write_file path data write_through s in
  (write_through = false -> HelixSystem.disk s1 = HelixSystem.disk s)
  /\ (write_through = true -> disk_write_fails path = false ->
      HelixSystem.disk s1 !! path = Some data)
  /\ HelixSystem.file_cache s1 !! path = Some (HelixFS.cache_key_of path)
  /\ (fst (HelixMemoryManager.write (HelixFS.cache_key_of path)
             (PyBytes data) (HelixSystem.memory s)) = true ->
      let r := HelixFS.read_file path s1 in
      fst r = PyBytes data
      /\ HelixSystem.disk (snd r) = HelixSystem.disk s1
      /\ stat "disk_reads" (HelixSystem.fs_stats (snd r))
         = stat "disk_reads" (HelixSystem.fs_stats s1)).
Proof.
  cbn zeta. split; [|split; [|split]].
  - intros ->. unfold HelixFS.write_file.
    by destruct (HelixMemoryManager.write _ _ _).
  - intros -> Hw. unfold HelixFS.write_file. rewrite Hw.
    destruct (HelixMemoryManager.write _ _ _). cbn. apply lookup_insert_eq.
  - unfold HelixFS.write_file.
    destruct (HelixMemoryManager.write _ _ _).
    destruct write_through; [destruct (disk_write_fails path)|];
      cbn; apply lookup_insert_eq.
  - intros Hw.
    destruct (read_file_hit path
                (HelixFS.write_file path data write_through s)
                (PyBytes data)) as (A & B & C & _); [|done|by repeat split].
    by apply write_file_cached.
Qed.

(** X18.  [read_file] reads through and then answers from the cache.  For a
    path that the cache does not hold and the storage does, [read_file]
    returns the stored bytes and leaves the storage as it is.  When the
    budget covers the file, the file is cached: let any operations on the
    allocator follow that neither store to the file's key nor free it
    (lookups of any key, and stores and frees of other keys, as the reads and
    writes of other files and of memory make them), and let the storage, the
    counters and the file table become whatever they become.  With a lossless
    codec a later [read_file] of the path returns the same bytes without
    reading the storage, provided that the cache has not evicted a block in
    between (its eviction counter has not moved). *)
Theorem read_file_caches `{PyRuntime}
    (s : HelixSystem.t) (path : string) (data : bytes) (os : list op) :
  HelixCache.resident (HelixFS.cache_key_of path)
    (HelixMemoryManager.cache (HelixSystem.memory s)) = false ->
  HelixSystem.disk s !! path = Some data ->
  disk_read_fails path = false ->
  Forall (fun o => stores_to o ≠ Some (HelixFS.cache_key_of path)) os ->
  let r := HelixFS.read_file path s in
  fst r = PyBytes data
  /\ HelixSystem.disk (snd r) = HelixSystem.disk s
  /\ (HelixMemoryManager.total_allocated (HelixSystem.memory s)
      + HelixMemoryManager.computed_size (PyBytes data)
      <= HelixMemoryManager.max_virtual (HelixSystem.memory s) ->
      (forall z, zlib_decompress (zlib_compress z) = Some z) ->
      (forall v z, pickle_dumps v = Some z -> pickle_loads z = Some v) ->
      forall s2 : HelixSystem.t,
        HelixSystem.memory s2 = run_ops os (HelixSystem.memory (snd r)) ->
        evictions (HelixMemoryManager.cache (HelixSystem.memory s2))
        = evictions (HelixMemoryManager.cache (HelixSystem.memory (snd r))) ->
        let r2 := HelixFS.read_file path s2 in
        fst r2 = PyBytes data
        /\ HelixSystem.disk (snd r2) = HelixSystem.disk s2
        /\ stat "disk_reads" (HelixSystem.fs_stats (snd r2))
           = stat "disk_reads" (HelixSystem.fs_stats s2)).
Proof.
  intros Hmiss Hdisk Hread Hos. cbn zeta.
  destruct (read_file_miss path s data Hmiss Hdisk Hread)
    as (m0 & ok & m & s1 & A1 & A2 & M & -> & Em & Ed).
  cbn [fst snd]. split; [done|]. split; [done|].
  intros Hfit Hz Hp s2 E2 Ev.
  assert (ok = true) as ->.
  { change ok with (fst (ok, m)). rewrite <- M.
    apply malloc_within_budget. lia. }
  assert (stored (Malloc (HelixFS.cache_key_of path) (PyBytes data)) m0
          = Some (HelixFS.cache_key_of path, PyBytes data)) as St.
  { cbn [stored]. by rewrite M. }
  destruct (stored_top _ _ _ _ St) as [T R].
  assert (run_op (Malloc (HelixFS.cache_key_of path) (PyBytes data)) m0
          = HelixSystem.memory s1) as Em1.
  { cbn [run_op]. by rewrite M, Em. }
  rewrite Em1 in T, R.
  pose proof (run_ops_top Hz Hp _ _ os _ Hos T) as T2.
  destruct (run_ops_keeps (HelixFS.cache_key_of path) os
              (HelixSystem.memory s1) Hos) as [_ K].
  rewrite <- E2 in T2, K.
  destruct (read_value Hz Hp _ _ _ T2) as [_ V].
  destruct (read_file_hit path s2 (PyBytes data))
    as (B1 & B2 & B3 & _); [by apply V, K|done|].
  split; [exact B1|]. split; [exact B2|exact B3].
Qed.

(** X18 for a file of two bytes that is read again, after the allocation,
    the lookup and the release of another key, from a storage that no longer
    has it. *)
Lemma read_file_caches_witness :
  let s := HelixSystem.init 512 2048 6000 8096 {["f" := XY]} in
  let os := [Malloc "m" (PyBytes forty_bytes); Read "m"; Free "m"] in
  let r := @HelixFS.read_file toy_runtime "f" s in
  fst r = PyBytes XY
  /\ HelixSystem.disk (snd r) = HelixSystem.disk s
  /\ (HelixMemoryManager.total_allocated (HelixSystem.memory s)
      + @HelixMemoryManager.computed_size toy_runtime (PyBytes XY)
      <= HelixMemoryManager.max_virtual (HelixSystem.memory s) ->
      (forall z, @zlib_decompress toy_runtime (@zlib_compress toy_runtime z)
                 = Some z) ->
      (forall v z, @pickle_dumps toy_runtime v = Some z ->
                   @pickle_loads toy_runtime z = Some v) ->
      forall s2 : HelixSystem.t,
        HelixSystem.memory s2
        = @run_ops toy_runtime os (HelixSystem.memory (snd r)) ->
        evictions (HelixMemoryManager.cache (HelixSystem.memory s2))
        = evictions (HelixMemoryManager.cache (HelixSystem.memory (snd r))) ->
        let r2 := @HelixFS.read_file toy_runtime "f" s2 in
        fst r2 = PyBytes XY
        /\ HelixSystem.disk (snd r2) = HelixSystem.disk s2
        /\ stat "disk_reads" (HelixSystem.fs_stats (snd r2))
           = stat "disk_reads" (HelixSystem.fs_stats s2)).
Proof.
  apply (@read_file_caches toy_runtime
           (HelixSystem.init 512 2048 6000 8096 {["f" := XY]}) "f" XY
           [Malloc "m" (PyBytes forty_bytes); Read "m"; Free "m"]).
  - vm_compute. reflexivity.
  - vm_compute. reflexivity.
  - vm_compute. reflexivity.
  - repeat constructor; discriminate.
Defined.

(* ================================================================== *)
(** ** Files through descriptors *)

(** X19.  Files through descriptors.  For an active descriptor,
    [translate_write_file] returns [True], whether or not the allocator
    accepted the data; when it accepted the data, a following [translate_read_file fd n] returns the slice
    [data[:n]] of what was written, so the first [n] bytes for [n] not
    negative.  Written empty data reads back as [None], not as empty
    bytes: the result of [read_file] is tested for truth. *)
Theorem write_file_then_read_file_by_descriptor `{PyRuntime}
    (tr : HelixTranslator.t) (fd n : Z) (path : string) (data : bytes) :
  HelixTranslator.fd_to_path tr !! fd = Some path ->
  let w := HelixTranslator.translate_write_file fd data tr in
  fst w = Returned true
  /\ (fst (HelixMemoryManager.write (HelixFS.cache_key_of path)
             (PyBytes data) (HelixTranslator.memory tr)) = true ->
      fst (HelixTranslator.translate_read_file fd n (snd w))
      = Returned (match data with
                  | [] => PyNone
                  | _ :: _ => PyBytes (Py.getslice data 0 n)
                  end))
  /\ (0 <= n -> Py.getslice data 0 n = firstn (Z.to_nat n) data).
Proof.
  intros Hfd. cbn zeta.
  unfold HelixTranslator.translate_write_file. tr_simpl. rewrite Hfd.
  tr_simpl. split; [done|]. split.
  - intros Hw. unfold HelixTranslator.translate_read_file. tr_simpl. rewrite Hfd.
    pose proof (write_file_cached path data true (HelixTranslator.helix tr) Hw)
      as R.
    destruct (read_file_hit path
                (HelixFS.write_file path data true (HelixTranslator.helix tr))
                (PyBytes data) R) as (A & _); [done|].
    destruct (HelixFS.read_file path _) as [v h]. cbn [fst] in A. subst v.
    tr_simpl. by destruct data.
  - intros Hn. destruct (getslice_clip data 0 n) as [E _]; [lia|done|].
    by rewrite Z.add_0_l in E.
Qed.

(** X19 for two bytes written through a new descriptor and one byte read
    back. *)
Lemma write_file_then_read_file_by_descriptor_witness :
  let tr := snd (@run_calls toy_runtime [COpen "f" "w"] default_translator) in
  let w := @HelixTranslator.translate_write_file toy_runtime 1000 XY tr in
  fst w = Returned true
  /\ (fst (@HelixMemoryManager.write toy_runtime (HelixFS.cache_key_of "f")
             (PyBytes XY) (HelixTranslator.memory tr)) = true ->
      fst (@HelixTranslator.translate_read_file toy_runtime 1000 1 (snd w))
      = Returned (PyBytes (Py.getslice XY 0 1)))
  /\ (0 <= 1 -> Py.getslice XY 0 1 = firstn (Z.to_nat 1) XY).
Proof.
  apply (@write_file_then_read_file_by_descriptor toy_runtime
           (snd (@run_calls toy_runtime [COpen "f" "w"] default_translator))
           1000 1 "f" XY); vm_compute; reflexivity.
Defined.

(* ================================================================== *)
(** ** The counters of the file cache *)

Section file_counters.
Context `{PyRuntime}.
Import HelixSystem.

Local Abbreviation balanced st :=
  (stat "file_reads" st = stat "cache_hits" st + stat "cache_misses" st
   /\ stat "disk_reads" st <= stat "cache_misses" st
   /\ stat "disk_writes" st <= stat "file_writes" st).

Lemma read_file_counters path s :
  balanced (fs_stats s) -> balanced (fs_stats (snd (HelixFS.read_file path s))).
Proof.
  intros (A & B & C). unfold HelixFS.read_file. cbn [count memory].
  destruct (HelixMemoryManager.read _ _) as [cached m].
  destruct (negb (is_None cached)).
  { cbn [snd count set_memory fs_stats].
    repeat (rewrite ?stat_bump_eq, ?stat_bump_ne by done).
    lia. }
  cbn [count set_memory disk memory fs_stats].
  destruct (disk s !! path) as [data|].
  2:{ cbn [snd count set_memory set_file_cache set_disk fs_stats].
      repeat (rewrite ?stat_bump_eq, ?stat_bump_ne by done). lia. }
  destruct (disk_read_fails path).
  { cbn [snd count set_memory set_file_cache set_disk fs_stats].
    repeat (rewrite ?stat_bump_eq, ?stat_bump_ne by done). lia. }
  destruct (HelixMemoryManager.malloc _ _ _) as [ok m'].
  cbn [snd set_file_cache set_memory count fs_stats].
  repeat (rewrite ?stat_bump_eq, ?stat_bump_ne by done). lia.
Qed.

Lemma write_file_counters path data wt s :
  balanced (fs_stats s) ->
  balanced (fs_stats (HelixFS.write_file path data wt s)).
Proof.
  intros (A & B & C). unfold HelixFS.write_file. cbn [count memory].
  destruct (HelixMemoryManager.write _ _ _) as [ok m].
  destruct wt; [destruct (disk_write_fails path)|];
    cbn [set_file_cache set_memory set_disk count fs_stats];
    repeat (rewrite ?stat_bump_eq, ?stat_bump_ne by done); lia.
Qed.

Import HelixTranslator.

(** Calls on memory and on descriptors leave the counters of the file
    cache. *)
Lemma run_call_file_counters c tr :
  balanced (fs_stats (helix tr)) ->
  balanced (fs_stats (helix (snd (run_call c tr)))).
Proof.
  intros Hb. destruct c; cbn [run_call].
  - unfold translate_malloc. destruct (Py.str_fits size); cbn [negb]; [|done].
    destruct (Py.fits_index size); cbn [negb]; [|done].
    destruct (size <? 0); [done|]. tr_simpl.
    by destruct (HelixMemoryManager.malloc _ _ _) as [[|] m].
  - unfold translate_free. tr_simpl.
    destruct (ptr_to_key tr !! pointer) as [entry|]; [|done].
    destruct (HelixMemoryManager.free _ _) as [ok m]. tr_simpl.
    by destruct (key_to_ptr tr !! _).
  - unfold translate_read. tr_simpl.
    destruct (ptr_to_key tr !! pointer) as [entry|]; [|done].
    destruct (HelixMemoryManager.read _ _) as [data m]. tr_simpl.
    destruct data as [|b|o]; [done|done|]. by destruct (obj_bytes o).
  - unfold translate_write. tr_simpl.
    destruct (ptr_to_key tr !! pointer) as [entry|]; [|done].
    destruct (HelixMemoryManager.read _ _) as [existing m]. tr_simpl.
    match goal with
    | |- context [match ?buf with Returned _ => _ | Raised _ => _ end] =>
        destruct buf as [buffer|e]
    end; [|done].
    by destruct (HelixMemoryManager.write _ _ _) as [success m'].
  - done.
  - unfold translate_read_file. tr_simpl.
    destruct (fd_to_path tr !! fd) as [filepath|]; [|done].
    pose proof (read_file_counters filepath (helix tr) Hb) as R.
    destruct (HelixFS.read_file filepath (helix tr)) as [data h]. tr_simpl.
    destruct (truthy data); [|done].
    destruct data as [|b|o]; [done|done|]. by destruct (obj_prefix o size).
  - unfold translate_write_file. tr_simpl.
    destruct (fd_to_path tr !! fd) as [filepath|]; [|done].
    tr_simpl. by apply write_file_counters.
  - unfold translate_close. tr_simpl.
    destruct (fd_to_path tr !! fd) as [filepath|]; [|done].
    tr_simpl. by destruct (path_to_fd tr !! filepath).
Qed.

Lemma run_calls_file_counters cs tr :
  balanced (fs_stats (helix tr)) ->
  balanced (fs_stats (helix (snd (run_calls cs tr)))).
Proof.
  revert tr. induction cs as [|c cs IH]; intros tr Hb; cbn [run_calls];
    [done|].
  pose proof (run_call_file_counters c tr Hb) as R.
  destruct (run_call c tr) as [a tr1]. cbn [snd] in R.
  specialize (IH tr1 R). by destruct (run_calls cs tr1).
Qed.

End file_counters.

(** X20.  The counters of the file cache account for every read.  After any
    run of calls on a new translator, [file_reads] is the sum of
    [cache_hits] and [cache_misses], the storage was read at most once for
    every miss and written at most once for every [write_file]. *)
Theorem file_counters_account `{PyRuntime}
    (l1_mb l2_mb l3_mb vram_mb : Z) (d : gmap string bytes)
    (cs : list call) :
  let st := HelixSystem.fs_stats
              (HelixTranslator.helix
                 (snd (run_calls cs
                         (HelixTranslator.init
                            (HelixSystem.init l1_mb l2_mb l3_mb vram_mb d)))))
  in
  stat "file_reads" st = stat "cache_hits" st + stat "cache_misses" st
  /\ stat "disk_reads" st <= stat "cache_misses" st
  /\ stat "disk_writes" st <= stat "file_writes" st.
Proof. by apply run_calls_file_counters. Qed.

(* ================================================================== *)
(** ** The generic parser *)

Section strip.
Import PyStr.
Implicit Types (s a b : list N) (c : N).

Lemma lstrip_app_char a c b :
  isspace c = false -> lstrip (a ++ c :: b) = lstrip a ++ c :: b.
Proof.
  intros Hc. induction a as [|x a IH]; simpl; [by rewrite Hc|].
  by destruct (isspace x).
Qed.

Lemma rstrip_app_char a c b :
  isspace c = false -> rstrip (a ++ c :: b) = a ++ c :: rstrip b.
Proof.
  intros Hc. unfold rstrip.
  rewrite rev_app_distr. simpl. rewrite <- app_assoc. simpl.
  rewrite lstrip_app_char by done.
  rewrite rev_app_distr. simpl. rewrite rev_involutive, <- app_assoc. done.
Qed.

Lemma lstrip_idem s : lstrip (lstrip s) = lstrip s.
Proof.
  induction s as [|x s IH]; simpl; [done|].
  destruct (isspace x) eqn:E; [done|]. simpl. by rewrite E.
Qed.

(** A text is white space only, or white space, a first character that is
    not white space, and a rest. *)
Lemma lstrip_cases s :
  lstrip s = [] /\ rstrip s = []
  \/ exists ws c t, s = ws ++ c :: t /\ lstrip ws = [] /\ isspace c = false
                    /\ lstrip s = c :: t.
Proof.
  induction s as [|x s IH]; simpl; [by left|].
  destruct (isspace x) eqn:E.
  - destruct IH as [[L R]|(ws & c & t & -> & Hws & Hc & L)].
    + left. split; [done|]. unfold rstrip in *. simpl.
      apply (f_equal (@rev N)) in R. rewrite rev_involutive in R. simpl in R.
      assert (forall u, lstrip u = [] -> lstrip (u ++ [x]) = []) as Happ.
      { induction u as [|y u IHu]; simpl; [by rewrite E|].
        destruct (isspace y); [done|discriminate]. }
      by rewrite Happ.
    + right. exists (x :: ws), c, t. simpl. by rewrite E.
  - right. by exists [], x, s.
Qed.

Lemma lstrip_rstrip s : lstrip (rstrip s) = rstrip (lstrip s).
Proof.
  destruct (lstrip_cases s) as [[L R]|(ws & c & t & -> & Hws & Hc & L)].
  - by rewrite L, R.
  - rewrite L, rstrip_app_char, lstrip_app_char, Hws by done.
    pose proof (rstrip_app_char [] c t Hc) as R. simpl in R. by rewrite R.
Qed.

Lemma rstrip_idem s : rstrip (rstrip s) = rstrip s.
Proof. unfold rstrip. by rewrite rev_involutive, lstrip_idem. Qed.

Lemma strip_idem s : strip (strip s) = strip s.
Proof.
  unfold strip. by rewrite lstrip_rstrip, lstrip_idem, rstrip_idem.
Qed.

Lemma strip_lstrip s : strip (lstrip s) = strip s.
Proof. unfold strip. by rewrite lstrip_idem. Qed.

Lemma strip_rstrip s : strip (rstrip s) = strip s.
Proof. unfold strip. by rewrite lstrip_rstrip, rstrip_idem. Qed.

Lemma contains_app c a b : contains c (a ++ b) = contains c a || contains c b.
Proof. apply existsb_app. Qed.

Lemma contains_rev c s : contains c (rev s) = contains c s.
Proof.
  induction s as [|x s IH]; simpl; [done|].
  rewrite contains_app, IH. simpl. rewrite orb_false_r. apply orb_comm.
Qed.

Lemma contains_lstrip c s :
  contains c s = false -> contains c (lstrip s) = false.
Proof.
  induction s as [|x s IH]; simpl; [done|].
  intros [E1 E2]%orb_false_elim.
  destruct (isspace x); [by apply IH|]. simpl. by rewrite E1, E2.
Qed.

Lemma contains_strip c s :
  contains c s = false -> contains c (strip s) = false.
Proof.
  intros E. unfold strip, rstrip.
  by rewrite contains_rev, contains_lstrip
    by (by rewrite contains_rev, contains_lstrip).
Qed.

Lemma partition_found c a b :
  contains c a = false -> partition c (a ++ c :: b) = (a, true, b).
Proof.
  induction a as [|x a IH]; simpl.
  - by rewrite N.eqb_refl.
  - intros [E1 E2]%orb_false_elim. rewrite N.eqb_sym, E1. by rewrite IH.
Qed.

Lemma partition_split c s :
  contains c s = true ->
  exists a b, s = a ++ c :: b /\ contains c a = false
              /\ partition c s = (a, true, b).
Proof.
  induction s as [|x s IH]; simpl; [done|].
  destruct (N.eqb_spec c x) as [->|Hne]; simpl.
  - intros _. exists [], s. by rewrite N.eqb_refl.
  - intros (a & b & -> & Ha & Hp)%IH. exists (x :: a), b. simpl.
    apply N.eqb_neq in Hne. rewrite Hne, Ha. rewrite N.eqb_sym, Hne.
    by rewrite Hp.
Qed.

(** Stripping a line with ["="] strips its two sides from outside. *)
Lemma strip_assignment c a b :
  isspace c = false ->
  strip (a ++ c :: b) = lstrip a ++ c :: rstrip b.
Proof.
  intros Hc. unfold strip.
  by rewrite lstrip_app_char, rstrip_app_char.
Qed.

End strip.

Section parse_generic.
Import PyStr AgnosticLayer.

(** What one line with a first ["="] does. *)
Lemma step_assignment result a b :
  contains equals_sign a = false ->
  parse_line result (a ++ equals_sign :: b) = <[strip a := strip b]> result.
Proof.
  intros Ha. unfold parse_line. rewrite strip_assignment by done.
  rewrite contains_app. simpl. rewrite orb_true_r.
  rewrite partition_found by (by apply contains_lstrip).
  by rewrite strip_lstrip, strip_rstrip.
Qed.

Lemma step_cases result line :
  parse_line result line = result /\ contains equals_sign (strip line) = false
  \/ exists a b, strip line = a ++ equals_sign :: b
                 /\ contains equals_sign a = false
                 /\ parse_line result line = <[strip a := strip b]> result.
Proof.
  unfold parse_line.
  destruct (contains equals_sign (strip line)) eqn:E; [right|by left].
  destruct (partition_split _ _ E) as (a & b & Hs & Ha & Hp).
  exists a, b. by rewrite Hp.
Qed.

Lemma parse_generic_entries (lines : list (list N))
    (m0 : gmap (list N) (list N)) (k v : list N) :
  fold_left parse_line lines m0 !! k = Some v ->
  m0 !! k = Some v
  \/ exists line a b,
       line ∈ lines /\ strip line = a ++ equals_sign :: b
       /\ contains equals_sign a = false
       /\ k = strip a /\ v = strip b.
Proof.
  revert m0. induction lines as [|line lines IH]; intros m0; simpl.
  { by left. }
  intros [Hm|(l & a & b & Hl & Hrest)]%IH.
  - destruct (step_cases m0 line) as [[E _]|(a & b & Hs & Ha & E)];
      rewrite E in Hm; [by left|].
    destruct (decide (k = strip a)) as [->|Hne].
    + rewrite lookup_insert_eq in Hm. injection Hm as <-.
      right. exists line, a, b. split; [by left|done].
    + rewrite lookup_insert_ne in Hm by done. by left.
  - right. exists l, a, b. split; [by right|done].
Qed.

End parse_generic.

(** X21.  What [_parse_generic] puts into its result.  Every entry comes from
    a line that, stripped, contains ["="]: the key is the stripped text
    before the first ["="] and the value the stripped text after it.  So no
    key and no value begins or ends with white space, no key contains
    ["="], and lines without ["="] add nothing. *)
Theorem parse_generic_entries_are_assignments
    (lines : list (list N)) (k v : list N) :
  AgnosticLayer._parse_generic lines !! k = Some v ->
  PyStr.strip k = k /\ PyStr.strip v = v
  /\ PyStr.contains AgnosticLayer.equals_sign k = false
  /\ exists line a b,
       line ∈ lines
       /\ PyStr.strip line = a ++ AgnosticLayer.equals_sign :: b
       /\ PyStr.contains AgnosticLayer.equals_sign a = false
       /\ k = PyStr.strip a /\ v = PyStr.strip b.
Proof.
  intros [Hm|(line & a & b & Hl & Hs & Ha & -> & ->)]%parse_generic_entries.
  { by rewrite lookup_empty in Hm. }
  split; [apply strip_idem|]. split; [apply strip_idem|].
  split; [by apply contains_strip|]. by exists line, a, b.
Qed.

(** X21 for an assignment between a comment and an empty line. *)
Lemma parse_generic_entries_are_assignments_witness :
  let lines := [PyStr.text "# settings"; PyStr.text "  port = 80 80  ";
                PyStr.text ""] in
  let k := PyStr.text "port" in
  let v := PyStr.text "80 80" in
  PyStr.strip k = k /\ PyStr.strip v = v
  /\ PyStr.contains AgnosticLayer.equals_sign k = false
  /\ exists line a b,
       line ∈ lines
       /\ PyStr.strip line = a ++ AgnosticLayer.equals_sign :: b
       /\ PyStr.contains AgnosticLayer.equals_sign a = false
       /\ k = PyStr.strip a /\ v = PyStr.strip b.
Proof.
  apply (parse_generic_entries_are_assignments
           [PyStr.text "# settings"; PyStr.text "  port = 80 80  ";
            PyStr.text ""]).
  vm_compute. reflexivity.
Defined.

(** X22.  The last assignment wins, and white space around key and value
    does not count.  If the last line of the input is [a ++ "=" ++ b] with
    no ["="] in [a], the result maps the stripped [a] to the stripped [b],
    whatever the lines before assigned; a further line without ["="]
    changes nothing. *)
Theorem parse_generic_last_assignment_wins
    (lines : list (list N)) (a b comment : list N) :
  PyStr.contains AgnosticLayer.equals_sign a = false ->
  PyStr.contains AgnosticLayer.equals_sign comment = false ->
  AgnosticLayer._parse_generic
    (lines ++ [a ++ AgnosticLayer.equals_sign :: b]) !! PyStr.strip a
  = Some (PyStr.strip b)
  /\ AgnosticLayer._parse_generic
       (lines ++ [a ++ AgnosticLayer.equals_sign :: b; comment])
     = AgnosticLayer._parse_generic
         (lines ++ [a ++ AgnosticLayer.equals_sign :: b]).
Proof.
  intros Ha Hc. unfold AgnosticLayer._parse_generic.
  rewrite !fold_left_app. cbn [fold_left].
  rewrite step_assignment by done. split; [apply lookup_insert_eq|].
  unfold AgnosticLayer.parse_line at 1. by rewrite contains_strip.
Qed.

(** X22 for a key that is assigned twice, with a value that contains
    ["="]. *)
Lemma parse_generic_last_assignment_wins_witness :
  let lines := [PyStr.text "mode=a"] in
  let a := PyStr.text " mode " in
  let b := PyStr.text " x=y " in
  let comment := PyStr.text "# end" in
  AgnosticLayer._parse_generic
    (lines ++ [a ++ AgnosticLayer.equals_sign :: b]) !! PyStr.strip a
  = Some (PyStr.strip b)
  /\ AgnosticLayer._parse_generic
       (lines ++ [a ++ AgnosticLayer.equals_sign :: b; comment])
     = AgnosticLayer._parse_generic
         (lines ++ [a ++ AgnosticLayer.equals_sign :: b]).
Proof.
  apply (parse_generic_last_assignment_wins
           [PyStr.text "mode=a"] (PyStr.text " mode ") (PyStr.text " x=y ")
           (PyStr.text "# end")); vm_compute; reflexivity.
Defined.
